(** * ECSY core: a shallow embedding of [build/ecsy.js]

    The development follows the source class by class: JavaScript arrays
    are lists (with [indexOf] returning [-1] and [splice] accepting a
    negative start, as the source relies on both), plain objects used as
    dictionaries are [gmap]s keyed by strings, objects with reference
    identity (entities, component instances, listeners) are natural
    numbers naming the object, and methods are state-passing functions. *)

From Stdlib Require Import ZArith QArith Qround Ascii String.
From stdpp Require Import gmap strings list sorting.

Local Open Scope Z_scope.

(** ** JavaScript arrays *)

Module JsArray.
Section Ops.
Context {A : Type} `{EqDecision A}.

(** [Array.prototype.indexOf]: first position of [x], or [-1]. *)
Fixpoint indexOf (l : list A) (x : A) : Z :=
  match l with
  | [] => -1
  | y :: l' =>
      if decide (y = x) then 0
      else let i := indexOf l' x in if i <? 0 then -1 else i + 1
  end.

(** [l.splice(start, 1)]: a negative [start] counts from the end. *)
Definition splice1 (l : list A) (start : Z) : list A :=
  let len := Z.of_nat (length l) in
  let s := if start <? 0 then Z.max (len + start) 0 else Z.min start len in
  take (Z.to_nat s) l ++ drop (S (Z.to_nat s)) l.

Definition push (l : list A) (x : A) : list A := l ++ [x].

(** [l.pop()]: the last element ([None] stands for [undefined]) and
    the shortened array. *)
Definition pop (l : list A) : option A * list A :=
  (last l, removelast l).

(** Removal of the first occurrence, the effect of
    [l.splice(l.indexOf(x), 1)] when [x] occurs. *)
Fixpoint remove_first (x : A) (l : list A) : list A :=
  match l with
  | [] => []
  | y :: l' => if decide (y = x) then l' else y :: remove_first x l'
  end.

Definition includes (l : list A) (x : A) : bool :=
  negb (indexOf l x =? -1).
End Ops.
End JsArray.
Import JsArray.


(** ** Component classes and call arguments *)

(** A component class is a JavaScript constructor: it has reference
    identity ([class_id]), a [name], and may define [reset] on its
    prototype.  Two distinct classes may carry the same name. *)
Record ComponentClass := mkClass {
  class_id : nat;
  name : string;
  proto_reset : bool
}.

Global Instance ComponentClass_eq_dec : EqDecision ComponentClass.
Proof. solve_decision. Defined.

(** Object references. *)
Abbreviation EntityRef := nat.
Abbreviation InstanceRef := nat.
Abbreviation Listener := nat.

(** The values the source passes to listeners. *)
Inductive Arg :=
| Undefined
| EntityArg (e : EntityRef)
| InstanceArg (i : InstanceRef)
| ClassArg (c : ComponentClass)
| DataArg (d : nat).

Global Instance Arg_eq_dec : EqDecision Arg.
Proof. solve_decision. Defined.

(** One invocation [listener.call(this, entity, component)]. *)
Record Call := mkCall {
  callee : Listener;
  call_entity : Arg;
  call_component : Arg
}.

Global Instance Call_eq_dec : EqDecision Call.
Proof. solve_decision. Defined.

(** ** EventDispatcher *)

Module EventDispatcher.

Record t := mk {
  _listeners : gmap string (list Listener);
  stats_fired : nat;
  stats_handled : nat
}.

(** [constructor] *)
Definition new : t :=
  {| _listeners := ∅; stats_fired := 0; stats_handled := 0 |}.

Definition addEventListener (eventName : string) (listener : Listener)
    (d : t) : t :=
  let listeners :=
    match _listeners d !! eventName with
    | None => <[eventName := []]> (_listeners d)
    | Some _ => _listeners d
    end in
  match listeners !! eventName with
  | Some arr =>
      if indexOf arr listener =? -1
      then {| _listeners := <[eventName := push arr listener]> listeners;
              stats_fired := stats_fired d;
              stats_handled := stats_handled d |}
      else {| _listeners := listeners;
              stats_fired := stats_fired d;
              stats_handled := stats_handled d |}
  | None => d
  end.


Definition removeEventListener (eventName : string) (listener : Listener)
    (d : t) : t :=
  match _listeners d !! eventName with
  | Some listenerArray =>
      let index := indexOf listenerArray listener in
      if negb (index =? -1)
      then {| _listeners :=
                <[eventName := splice1 listenerArray index]> (_listeners d);
              stats_fired := stats_fired d;
              stats_handled := stats_handled d |}
      else d
  | None => d
  end.

(** [dispatchEvent]: bumps [stats.fired] and calls every listener of a
    snapshot of the array, in order.  The invocations are returned. *)
Definition dispatchEvent (eventName : string) (entity component : Arg)
    (d : t) : t * list Call :=
  let d' := {| _listeners := _listeners d;
               stats_fired := S (stats_fired d);
               stats_handled := stats_handled d |} in
  match _listeners d !! eventName with
  | Some listenerArray =>
      let array := listenerArray in
      (d', map (fun f => mkCall f entity component) array)
  | None => (d', [])
  end.

Definition resetCounters (d : t) : t :=
  {| _listeners := _listeners d; stats_fired := 0; stats_handled := 0 |}.

(** The listeners registered under a name, [[]] when there are none. *)
Definition registrations (eventName : string) (d : t) : list Listener :=
  default [] (_listeners d !! eventName).


(** Dispatchers obtained from the constructor by the methods. *)
Inductive reachable : t -> Prop :=
| reach_new : reachable new
| reach_add n f d : reachable d -> reachable (addEventListener n f d)
| reach_remove n f d : reachable d -> reachable (removeEventListener n f d)
| reach_dispatch n a b d :
    reachable d -> reachable (fst (dispatchEvent n a b d))
| reach_reset d : reachable d -> reachable (resetCounters d).


End EventDispatcher.


(** ** JavaScript [Math] on the numbers the pool uses

    [count] is a non-negative integer and [count * 0.2] is a fifth of
    it.  The product is taken over the rationals: the fractional part of
    a fifth of an integer is a multiple of [0.2], so the double the
    source computes and the exact product round to the same integer. *)

Definition Math_round (x : Q) : Z := Qfloor (x + (1 # 2)).
Definition Math_ceil (x : Q) : Z := Qceiling x.
Definition times_0_2 (n : Z) : Q := (inject_Z n * (2 # 10))%Q.

(** ** ObjectPool *)

Module ObjectPool.
Section Pool.
(** [A] is the type of references to pooled objects and [S] the part of
    the program state that constructing or resetting an object touches
    (the object store, the global id counter). *)
Context {A S : Type}.
Variable createElement : S -> A * S.
Variable reset : A -> S -> S.

Record t := mk {
  freeList : list A;
  count : Z
}.

(** [constructor(T)], without [initialSize]. *)
Definition new : t := {| freeList := []; count := 0 |}.

(** The loop of [expand]: [n] times [freeList.push(createElement())]. *)
Fixpoint expand_loop (n : nat) (fl : list A) (s : S) : list A * S :=
  match n with
  | O => (fl, s)
  | Datatypes.S n' =>
      let '(x, s1) := createElement s in
      expand_loop n' (push fl x) s1
  end.

Definition expand (cnt : Z) (p : t) (s : S) : t * S :=
  let '(fl, s') := expand_loop (Z.to_nat cnt) (freeList p) s in
  ({| freeList := fl; count := count p + cnt |}, s').

(** The amount [aquire] passes to [expand]. *)
Definition growth (p : t) : Z := Math_round (times_0_2 (count p)) + 1.

Definition aquire (p : t) (s : S) : option A * t * S :=
  let '(p1, s1) :=
    if Z.of_nat (length (freeList p)) <=? 0
    then expand (growth p) p s
    else (p, s) in
  let '(item, fl) := pop (freeList p1) in
  (item, {| freeList := fl; count := count p1 |}, s1).

Definition release (item : A) (p : t) (s : S) : t * S :=
  let s' := reset item s in
  ({| freeList := push (freeList p) item; count := count p |}, s').

Definition totalSize (p : t) : Z := count p.
Definition totalFree (p : t) : Z := Z.of_nat (length (freeList p)).
Definition totalUsed (p : t) : Z := count p - Z.of_nat (length (freeList p)).

End Pool.

Arguments t : clear implicits.
Arguments new {A}.

End ObjectPool.

(** ** [Array.prototype.sort] and strings *)

Section Sort.
Context {A : Type}.
Variable compareFn : A -> A -> Z.

(** [x] goes in front of the first element it does not compare greater
    than, so equal elements keep their order (the sort is stable). *)
Fixpoint sort_insert (x : A) (l : list A) : list A :=
  match l with
  | [] => [x]
  | y :: l' => if compareFn x y <=? 0 then x :: y :: l'
               else y :: sort_insert x l'
  end.

Definition Array_sort (l : list A) : list A := foldr sort_insert [] l.
End Sort.

(** The default comparator of [sort()]: strings by code units. *)
Definition default_compare (a b : string) : Z :=
  match String.compare a b with Lt => -1 | Eq => 0 | Gt => 1 end.

Definition ascii_toLowerCase (c : ascii) : ascii :=
  let n := nat_of_ascii c in
  if ((65 <=? n)%nat && (n <=? 90)%nat)%bool then ascii_of_nat (n + 32)
  else c.

Fixpoint toLowerCase (s : string) : string :=
  match s with
  | EmptyString => EmptyString
  | String c s' => String (ascii_toLowerCase c) (toLowerCase s')
  end.

(** [names.join(sep)] *)
Fixpoint join (sep : string) (names : list string) : string :=
  match names with
  | [] => EmptyString
  | [x] => x
  | x :: rest => (x ++ sep ++ join sep rest)%string
  end.

Definition getName (C : ComponentClass) : string := name C.

(** [name.charAt(0).toLowerCase() + name.slice(1)] *)
Definition componentPropertyName (C : ComponentClass) : string :=
  match getName C with
  | EmptyString => EmptyString
  | String c rest => String (ascii_toLowerCase c) rest
  end.

(** An element of a query specification: a component class, or the
    object [{operator: "not", Component}] that [Not] builds. *)
Inductive QueryTerm :=
| Has (C : ComponentClass)
| Not (C : ComponentClass).

Global Instance QueryTerm_eq_dec : EqDecision QueryTerm.
Proof. solve_decision. Defined.

Definition term_name (T : QueryTerm) : string :=
  match T with
  | Not C => ("!" ++ getName C)%string
  | Has C => getName C
  end.

Definition queryKey (Components : list QueryTerm) : string :=
  let names := map term_name Components in
  join "-" (Array_sort default_compare (map toLowerCase names)).

(** ** Entity *)

Module Entity.

Record t := mk {
  _world : bool;
  id : Z;
  _ComponentTypes : list ComponentClass;
  _components : gmap string InstanceRef;
  _componentsToRemove : gmap string InstanceRef;
  queries : list string;
  _ComponentTypesToRemove : list ComponentClass
}.

(** [constructor(world)]; the pool calls it without a world.  The
    second component is the incremented global [nextId]. *)
Definition new (world : bool) (nextId : Z) : t * Z :=
  ({| _world := world; id := nextId; _ComponentTypes := [];
      _components := ∅; _componentsToRemove := ∅; queries := [];
      _ComponentTypesToRemove := [] |}, nextId + 1).

Definition getComponent (Component : ComponentClass) (e : t)
  : option InstanceRef := _components e !! name Component.

Definition getRemovedComponent (Component : ComponentClass) (e : t)
  : option InstanceRef := _componentsToRemove e !! name Component.

Definition hasComponent (Component : ComponentClass) (e : t) : bool :=
  includes (_ComponentTypes e) Component.

Definition hasRemovedComponent (Component : ComponentClass) (e : t) : bool :=
  includes (_ComponentTypesToRemove e) Component.

Fixpoint hasAllComponents (Components : list ComponentClass) (e : t) : bool :=
  match Components with
  | [] => true
  | C :: rest => if negb (hasComponent C e) then false
                 else hasAllComponents rest e
  end.

Fixpoint hasAnyComponents (Components : list ComponentClass) (e : t) : bool :=
  match Components with
  | [] => false
  | C :: rest => if hasComponent C e then true else hasAnyComponents rest e
  end.

(** [reset()] leaves [_componentsToRemove] and
    [_ComponentTypesToRemove] as they are. *)
Definition reset (e : t) (nextId : Z) : t * Z :=
  ({| _world := false; id := nextId; _ComponentTypes := [];
      _components := ∅; _componentsToRemove := _componentsToRemove e;
      queries := []; _ComponentTypesToRemove := _ComponentTypesToRemove e |},
   nextId + 1).

Definition set_world (b : bool) (e : t) : t :=
  {| _world := b; id := id e; _ComponentTypes := _ComponentTypes e;
     _components := _components e;
     _componentsToRemove := _componentsToRemove e; queries := queries e;
     _ComponentTypesToRemove := _ComponentTypesToRemove e |}.

Definition set_queries (qs : list string) (e : t) : t :=
  {| _world := _world e; id := id e; _ComponentTypes := _ComponentTypes e;
     _components := _components e;
     _componentsToRemove := _componentsToRemove e; queries := qs;
     _ComponentTypesToRemove := _ComponentTypesToRemove e |}.

Definition set_attached (Ts : list ComponentClass)
    (cs : gmap string InstanceRef) (e : t) : t :=
  {| _world := _world e; id := id e; _ComponentTypes := Ts;
     _components := cs;
     _componentsToRemove := _componentsToRemove e; queries := queries e;
     _ComponentTypesToRemove := _ComponentTypesToRemove e |}.

Definition set_staged (Ts : list ComponentClass)
    (cs : gmap string InstanceRef) (e : t) : t :=
  {| _world := _world e; id := id e; _ComponentTypes := _ComponentTypes e;
     _components := _components e;
     _componentsToRemove := cs; queries := queries e;
     _ComponentTypesToRemove := Ts |}.

End Entity.

(** ** Event traces *)

Inductive Source :=
| FromQuery (key : string)
| FromEntityManager
| FromWorld.

Global Instance Source_eq_dec : EqDecision Source.
Proof. solve_decision. Defined.

(** One call of [dispatchEvent] and the listener invocations it made. *)
Record Dispatch := mkDispatch {
  source : Source;
  event : string;
  d_entity : Arg;
  d_component : Arg;
  d_calls : list Call
}.

Definition fire (src : Source) (eventName : string) (entity component : Arg)
    (d : EventDispatcher.t) : EventDispatcher.t * Dispatch :=
  let r := EventDispatcher.dispatchEvent eventName entity component d in
  (fst r, mkDispatch src eventName entity component (snd r)).

(** ** Query *)

Module Query.

Record t := mk {
  Components : list ComponentClass;
  NotComponents : list ComponentClass;
  entities : list EntityRef;
  eventDispatcher : EventDispatcher.t;
  reactive : bool;
  key : string
}.

Definition ENTITY_ADDED : string := "Query#ENTITY_ADDED".
Definition ENTITY_REMOVED : string := "Query#ENTITY_REMOVED".
Definition COMPONENT_CHANGED : string := "Query#COMPONENT_CHANGED".

Definition set_entities (es : list EntityRef) (d : EventDispatcher.t)
    (q : t) : t :=
  {| Components := Components q; NotComponents := NotComponents q;
     entities := es; eventDispatcher := d; reactive := reactive q;
     key := key q |}.

Definition set_reactive (b : bool) (q : t) : t :=
  {| Components := Components q; NotComponents := NotComponents q;
     entities := entities q; eventDispatcher := eventDispatcher q;
     reactive := b; key := key q |}.

Definition match_ (q : t) (entity : Entity.t) : bool :=
  Entity.hasAllComponents (Components q) entity &&
  negb (Entity.hasAnyComponents (NotComponents q) entity).

(** [addEntity(entity)]: the entity object is passed and returned. *)
Definition addEntity (q : t) (ref : EntityRef) (entity : Entity.t)
  : t * Entity.t * list Dispatch :=
  let entity' :=
    Entity.set_queries (push (Entity.queries entity) (key q)) entity in
  let r := fire (FromQuery (key q)) ENTITY_ADDED (EntityArg ref)
             Undefined (eventDispatcher q) in
  (set_entities (push (entities q) ref) (fst r) q, entity', [snd r]).

Definition removeEntity (q : t) (ref : EntityRef) (entity : Entity.t)
  : t * Entity.t * list Dispatch :=
  let index := indexOf (entities q) ref in
  if negb (index =? -1) then
    let es := splice1 (entities q) index in
    let index' := indexOf (Entity.queries entity) (key q) in
    let entity' :=
      Entity.set_queries (splice1 (Entity.queries entity) index') entity in
    let r := fire (FromQuery (key q)) ENTITY_REMOVED (EntityArg ref)
               Undefined (eventDispatcher q) in
    (set_entities es (fst r) q, entity', [snd r])
  else (q, entity, []).

(** The two halves of a specification, as the constructor splits it. *)
Fixpoint split_terms (spec : list QueryTerm)
  : list ComponentClass * list ComponentClass :=
  match spec with
  | [] => ([], [])
  | Has C :: rest => let '(cs, ns) := split_terms rest in (C :: cs, ns)
  | Not C :: rest => let '(cs, ns) := split_terms rest in (cs, C :: ns)
  end.

End Query.


(** ** Component pools and the ComponentManager *)

(** What [numComponents] holds: a number, or [NaN] once [--] has been
    applied to a missing entry. *)
Inductive JsNum :=
| Num (z : Z)
| NaN.

Global Instance JsNum_eq_dec : EqDecision JsNum.
Proof. solve_decision. Defined.

(** Component instances are named by fresh references; their attributes
    are not represented (no index, counter or pool reads them), so
    [new T()] only draws a reference and a component's own [reset] leaves
    the state alone. *)
Definition createInstance (nextInstance : nat) : InstanceRef * nat :=
  (nextInstance, S nextInstance).

Definition resetInstance (_ : InstanceRef) (nextInstance : nat) : nat :=
  nextInstance.

Module DummyObjectPool.

Record t := mk {
  count : Z;
  used : Z
}.

Definition new : t := {| count := 0; used := 0 |}.

Definition aquire (p : t) (nextInstance : nat) : InstanceRef * t * nat :=
  let '(item, n) := createInstance nextInstance in
  (item, {| count := count p + 1; used := used p + 1 |}, n).

Definition release (p : t) : t :=
  {| count := count p; used := used p - 1 |}.

Definition totalSize (p : t) : Z := count p.
Definition totalUsed (p : t) : Z := used p.

End DummyObjectPool.

Inductive ComponentPool :=
| Pooled (p : ObjectPool.t InstanceRef)
| NotPooled (p : DummyObjectPool.t).

Definition pool_aquire (pool : ComponentPool) (nextInstance : nat)
  : option InstanceRef * ComponentPool * nat :=
  match pool with
  | Pooled p =>
      let '(item, p', n) := ObjectPool.aquire createInstance p nextInstance in
      (item, Pooled p', n)
  | NotPooled p =>
      let '(item, p', n) := DummyObjectPool.aquire p nextInstance in
      (Some item, NotPooled p', n)
  end.

(** [pool.release(component)]; [ObjectPool.release] calls
    [item.reset()], which throws on [undefined]. *)
Definition pool_release (component : option InstanceRef)
    (pool : ComponentPool) (nextInstance : nat) : option ComponentPool :=
  match pool with
  | Pooled p =>
      match component with
      | Some item =>
          Some (Pooled (fst (ObjectPool.release resetInstance item p
                               nextInstance)))
      | None => None
      end
  | NotPooled p => Some (NotPooled (DummyObjectPool.release p))
  end.

Definition pool_totalUsed (pool : ComponentPool) : Z :=
  match pool with
  | Pooled p => ObjectPool.totalUsed p
  | NotPooled p => DummyObjectPool.totalUsed p
  end.

Module ComponentManager.

Record t := mk {
  Components : gmap string ComponentClass;
  _componentPool : gmap string ComponentPool;
  numComponents : gmap string JsNum
}.

Definition new : t :=
  {| Components := ∅; _componentPool := ∅; numComponents := ∅ |}.

Definition registerComponent (Component : ComponentClass) (m : t) : t :=
  {| Components := <[name Component := Component]> (Components m);
     _componentPool := _componentPool m;
     numComponents := <[name Component := Num 0]> (numComponents m) |}.

Definition componentAddedToEntity (Component : ComponentClass) (m : t) : t :=
  let n :=
    match numComponents m !! name Component with
    | Some (Num z) => if z =? 0 then Num 1 else Num (z + 1)
    | Some NaN | None => Num 1
    end in
  {| Components := Components m; _componentPool := _componentPool m;
     numComponents := <[name Component := n]> (numComponents m) |}.

Definition componentRemovedFromEntity (Component : ComponentClass) (m : t)
  : t :=
  let n :=
    match numComponents m !! name Component with
    | Some (Num z) => Num (z - 1)
    | Some NaN | None => NaN
    end in
  {| Components := Components m; _componentPool := _componentPool m;
     numComponents := <[name Component := n]> (numComponents m) |}.

Definition set_pool (propName : string) (pool : ComponentPool) (m : t) : t :=
  {| Components := Components m;
     _componentPool := <[propName := pool]> (_componentPool m);
     numComponents := numComponents m |}.

(** [getComponentsPool]: the pool is created on first use and returned
    with the updated manager. *)
Definition getComponentsPool (Component : ComponentClass) (m : t)
  : ComponentPool * t :=
  let componentName := componentPropertyName Component in
  match _componentPool m !! componentName with
  | Some pool => (pool, m)
  | None =>
      let pool := if proto_reset Component then Pooled ObjectPool.new
                  else NotPooled DummyObjectPool.new in
      (pool, set_pool componentName pool m)
  end.

End ComponentManager.

(** ** The object store of entities *)

Module Heap.

Record t := mk {
  objects : gmap EntityRef Entity.t;
  allocated : nat;
  nextId : Z
}.

Definition empty : t := {| objects := ∅; allocated := 0; nextId := 0 |}.

Definition set_object (ref : EntityRef) (e : Entity.t) (h : t) : t :=
  {| objects := <[ref := e]> (objects h); allocated := allocated h;
     nextId := nextId h |}.

(** [new Entity()] as the entity pool runs it. *)
Definition createEntityObject (h : t) : EntityRef * t :=
  let '(e, n) := Entity.new false (nextId h) in
  (allocated h,
   {| objects := <[allocated h := e]> (objects h);
      allocated := S (allocated h); nextId := n |}).

(** [entity.reset()] *)
Definition resetEntityObject (ref : EntityRef) (h : t) : t :=
  match objects h !! ref with
  | Some e =>
      let '(e', n) := Entity.reset e (nextId h) in
      {| objects := <[ref := e']> (objects h); allocated := allocated h;
         nextId := n |}
  | None => h
  end.

End Heap.


(** ** QueryManager and EntityManager

    The entity manager owns its query manager, so one record holds both.
    [_queries] lists the queries in the order their keys were inserted,
    the order [for (queryName in this._queries)] visits them.  A method
    that can throw returns [None] when it does. *)

Module EntityManager.

Record t := mk {
  heap : Heap.t;
  nextInstance : nat;
  componentsManager : ComponentManager.t;
  _entities : list EntityRef;
  _queries : list Query.t;
  eventDispatcher : EventDispatcher.t;
  _entityPool : ObjectPool.t EntityRef;
  entitiesWithComponentsToRemove : list EntityRef;
  entitiesToRemove : list EntityRef;
  trace : list Dispatch
}.

Definition ENTITY_CREATED : string := "EntityManager#ENTITY_CREATE".
Definition ENTITY_REMOVED : string := "EntityManager#ENTITY_REMOVED".
Definition COMPONENT_ADDED : string := "EntityManager#COMPONENT_ADDED".
Definition COMPONENT_REMOVE : string := "EntityManager#COMPONENT_REMOVE".

(** [constructor(world)] *)
Definition new (cm : ComponentManager.t) : t :=
  {| heap := Heap.empty; nextInstance := 0; componentsManager := cm;
     _entities := []; _queries := [];
     eventDispatcher := EventDispatcher.new;
     _entityPool := ObjectPool.new;
     entitiesWithComponentsToRemove := []; entitiesToRemove := [];
     trace := [] |}.

Definition set_heap (h : Heap.t) (w : t) : t :=
  {| heap := h; nextInstance := nextInstance w;
     componentsManager := componentsManager w; _entities := _entities w;
     _queries := _queries w; eventDispatcher := eventDispatcher w;
     _entityPool := _entityPool w;
     entitiesWithComponentsToRemove := entitiesWithComponentsToRemove w;
     entitiesToRemove := entitiesToRemove w; trace := trace w |}.

Definition set_components (cm : ComponentManager.t) (n : nat) (w : t) : t :=
  {| heap := heap w; nextInstance := n;
     componentsManager := cm; _entities := _entities w;
     _queries := _queries w; eventDispatcher := eventDispatcher w;
     _entityPool := _entityPool w;
     entitiesWithComponentsToRemove := entitiesWithComponentsToRemove w;
     entitiesToRemove := entitiesToRemove w; trace := trace w |}.

Definition set_entities (es : list EntityRef) (w : t) : t :=
  {| heap := heap w; nextInstance := nextInstance w;
     componentsManager := componentsManager w; _entities := es;
     _queries := _queries w; eventDispatcher := eventDispatcher w;
     _entityPool := _entityPool w;
     entitiesWithComponentsToRemove := entitiesWithComponentsToRemove w;
     entitiesToRemove := entitiesToRemove w; trace := trace w |}.

Definition set_queries (qs : list Query.t) (w : t) : t :=
  {| heap := heap w; nextInstance := nextInstance w;
     componentsManager := componentsManager w; _entities := _entities w;
     _queries := qs; eventDispatcher := eventDispatcher w;
     _entityPool := _entityPool w;
     entitiesWithComponentsToRemove := entitiesWithComponentsToRemove w;
     entitiesToRemove := entitiesToRemove w; trace := trace w |}.

Definition set_entityPool (p : ObjectPool.t EntityRef) (w : t) : t :=
  {| heap := heap w; nextInstance := nextInstance w;
     componentsManager := componentsManager w; _entities := _entities w;
     _queries := _queries w; eventDispatcher := eventDispatcher w;
     _entityPool := p;
     entitiesWithComponentsToRemove := entitiesWithComponentsToRemove w;
     entitiesToRemove := entitiesToRemove w; trace := trace w |}.

Definition set_deferred (withComponents toRemove : list EntityRef) (w : t)
  : t :=
  {| heap := heap w; nextInstance := nextInstance w;
     componentsManager := componentsManager w; _entities := _entities w;
     _queries := _queries w; eventDispatcher := eventDispatcher w;
     _entityPool := _entityPool w;
     entitiesWithComponentsToRemove := withComponents;
     entitiesToRemove := toRemove; trace := trace w |}.

(** Events dispatched by queries are appended to the trace. *)
Definition log (evs : list Dispatch) (w : t) : t :=
  {| heap := heap w; nextInstance := nextInstance w;
     componentsManager := componentsManager w; _entities := _entities w;
     _queries := _queries w; eventDispatcher := eventDispatcher w;
     _entityPool := _entityPool w;
     entitiesWithComponentsToRemove := entitiesWithComponentsToRemove w;
     entitiesToRemove := entitiesToRemove w; trace := trace w ++ evs |}.

(** [this.eventDispatcher.dispatchEvent(...)] *)
Definition emit (eventName : string) (entity component : Arg) (w : t) : t :=
  let r := fire FromEntityManager eventName entity component
             (eventDispatcher w) in
  {| heap := heap w; nextInstance := nextInstance w;
     componentsManager := componentsManager w; _entities := _entities w;
     _queries := _queries w; eventDispatcher := fst r;
     _entityPool := _entityPool w;
     entitiesWithComponentsToRemove := entitiesWithComponentsToRemove w;
     entitiesToRemove := entitiesToRemove w; trace := trace w ++ [snd r] |}.

Definition get (ref : EntityRef) (w : t) : option Entity.t :=
  Heap.objects (heap w) !! ref.

Definition put (ref : EntityRef) (e : Entity.t) (w : t) : t :=
  set_heap (Heap.set_object ref e (heap w)) w.

(** *** QueryManager *)

Definition QueryBody : Type :=
  Query.t -> Entity.t -> Query.t * Entity.t * list Dispatch.

(** The loop [for (queryName in this._queries)] around a body that works
    on one query and on the entity passed to the callback. *)
Fixpoint for_queries (body : QueryBody) (qs : list Query.t)
    (entity : Entity.t) : list Query.t * Entity.t * list Dispatch :=
  match qs with
  | [] => ([], entity, [])
  | q :: rest =>
      let '(q', e1, ev1) := body q entity in
      let '(rest', e2, ev2) := for_queries body rest e1 in
      (q' :: rest', e2, ev1 ++ ev2)
  end.

Definition onEntityRemoved_body (ref : EntityRef) : QueryBody :=
  fun query entity =>
    if negb (indexOf (Entity.queries entity) (Query.key query) =? -1)
    then Query.removeEntity query ref entity
    else (query, entity, []).

Definition onEntityComponentAdded_body (ref : EntityRef)
    (Component : ComponentClass) : QueryBody :=
  fun query entity =>
    if includes (Query.NotComponents query) Component &&
       includes (Query.entities query) ref
    then Query.removeEntity query ref entity
    else if negb (includes (Query.Components query) Component) ||
            negb (Query.match_ query entity) ||
            includes (Query.entities query) ref
    then (query, entity, [])
    else Query.addEntity query ref entity.

Definition onEntityComponentRemoved_body (ref : EntityRef)
    (Component : ComponentClass) : QueryBody :=
  fun query entity =>
    if includes (Query.NotComponents query) Component &&
       negb (includes (Query.entities query) ref) &&
       Query.match_ query entity
    then Query.addEntity query ref entity
    else if includes (Query.Components query) Component &&
            includes (Query.entities query) ref &&
            negb (Query.match_ query entity)
    then Query.removeEntity query ref entity
    else (query, entity, []).

Definition run_queries (body : QueryBody) (ref : EntityRef) (w : t)
  : option t :=
  entity ← get ref w;
  let '(qs, entity', evs) := for_queries body (_queries w) entity in
  Some (log evs (put ref entity' (set_queries qs w))).

Definition onEntityRemoved (ref : EntityRef) (w : t) : option t :=
  run_queries (onEntityRemoved_body ref) ref w.

Definition onEntityComponentAdded (ref : EntityRef)
    (Component : ComponentClass) (w : t) : option t :=
  run_queries (onEntityComponentAdded_body ref Component) ref w.

Definition onEntityComponentRemoved (ref : EntityRef)
    (Component : ComponentClass) (w : t) : option t :=
  run_queries (onEntityComponentRemoved_body ref Component) ref w.

Definition find_query (k : string) (qs : list Query.t) : option Query.t :=
  find (fun q => bool_decide (Query.key q = k)) qs.

(** The loop of the [Query] constructor over [manager._entities]. *)
Fixpoint seed (q : Query.t) (refs : list EntityRef) (h : Heap.t)
  : Query.t * Heap.t :=
  match refs with
  | [] => (q, h)
  | ref :: rest =>
      match Heap.objects h !! ref with
      | Some entity =>
          if Query.match_ q entity then
            seed (Query.set_entities (push (Query.entities q) ref)
                    (Query.eventDispatcher q) q)
                 rest
                 (Heap.set_object ref
                    (Entity.set_queries
                       (push (Entity.queries entity) (Query.key q)) entity)
                    h)
          else seed q rest h
      | None => seed q rest h
      end
  end.

(** [new Query(Components, manager)] *)
Definition Query_new (spec : list QueryTerm) (w : t)
  : option (Query.t * Heap.t) :=
  let '(cs, ns) := Query.split_terms spec in
  if Z.of_nat (length cs) =? 0 then None
  else
    let q := {| Query.Components := cs; Query.NotComponents := ns;
                Query.entities := [];
                Query.eventDispatcher := EventDispatcher.new;
                Query.reactive := false;
                Query.key := queryKey spec |} in
    Some (seed q (_entities w) (heap w)).

(** [getQuery(Components)]; the query object is returned by its
    reference, which is the key it is stored under. *)
Definition getQuery (spec : list QueryTerm) (w : t) : option (string * t) :=
  let key := queryKey spec in
  match find_query key (_queries w) with
  | Some query => Some (Query.key query, w)
  | None =>
      '(query, h) ← Query_new spec w;
      Some (Query.key query,
            set_heap h (set_queries (push (_queries w) query) w))
  end.

Definition queryComponents := getQuery.

(** *** Entities and components *)

Definition createEntity (w : t) : option (EntityRef * t) :=
  let '(item, pool, h) :=
    ObjectPool.aquire Heap.createEntityObject (_entityPool w) (heap w) in
  ref ← item;
  entity ← Heap.objects h !! ref;
  let h' := Heap.set_object ref (Entity.set_world true entity) h in
  let w1 := set_entities (push (_entities w) ref)
              (set_heap h' (set_entityPool pool w)) in
  Some (ref, emit ENTITY_CREATED (EntityArg ref) Undefined w1).

(** The [values] argument only writes attributes of the new instance
    and is left out with them. *)
Definition entityAddComponent (ref : EntityRef) (Component : ComponentClass)
    (w : t) : option t :=
  entity ← get ref w;
  if negb (indexOf (Entity._ComponentTypes entity) Component =? -1)
  then Some w
  else
    let types := push (Entity._ComponentTypes entity) Component in
    let '(componentPool, cm) :=
      ComponentManager.getComponentsPool Component (componentsManager w) in
    let '(component, pool', n) := pool_aquire componentPool (nextInstance w) in
    let cm := ComponentManager.set_pool (componentPropertyName Component)
                pool' cm in
    let components :=
      match component with
      | Some i => <[name Component := i]> (Entity._components entity)
      | None => delete (name Component) (Entity._components entity)
      end in
    let w1 := put ref (Entity.set_attached types components entity)
                (set_components cm n w) in
    w2 ← onEntityComponentAdded ref Component w1;
    let w3 := set_components
                (ComponentManager.componentAddedToEntity Component
                   (componentsManager w2))
                (nextInstance w2) w2 in
    Some (emit COMPONENT_ADDED (EntityArg ref) (ClassArg Component) w3).

Definition _entityRemoveComponentSync (ref : EntityRef)
    (Component : ComponentClass) (index : Z) (w : t) : option t :=
  entity ← get ref w;
  let types := splice1 (Entity._ComponentTypes entity) index in
  let propName := componentPropertyName Component in
  let componentName := getName Component in
  let component := Entity._components entity !! componentName in
  let entity' :=
    Entity.set_attached types
      (delete componentName (Entity._components entity)) entity in
  pool ← ComponentManager._componentPool (componentsManager w) !! propName;
  pool' ← pool_release component pool (nextInstance w);
  let cm := ComponentManager.componentRemovedFromEntity Component
              (ComponentManager.set_pool propName pool'
                 (componentsManager w)) in
  Some (put ref entity' (set_components cm (nextInstance w) w)).

Definition entityRemoveComponent (ref : EntityRef)
    (Component : ComponentClass) (forceRemove : bool) (w : t) : option t :=
  entity ← get ref w;
  let index := indexOf (Entity._ComponentTypes entity) Component in
  if index =? -1 then Some w
  else
    let w1 := emit COMPONENT_REMOVE (EntityArg ref) (ClassArg Component) w in
    w2 ←
      (if forceRemove then _entityRemoveComponentSync ref Component index w1
       else
         let w1' :=
           if Z.of_nat (length (Entity._ComponentTypesToRemove entity)) =? 0
           then set_deferred
                  (push (entitiesWithComponentsToRemove w1) ref)
                  (entitiesToRemove w1) w1
           else w1 in
         let componentName := getName Component in
         let staged :=
           match Entity._components entity !! componentName with
           | Some i => <[componentName := i]>
                         (Entity._componentsToRemove entity)
           | None => delete componentName (Entity._componentsToRemove entity)
           end in
         let entity' :=
           Entity.set_staged
             (push (Entity._ComponentTypesToRemove entity) Component) staged
             (Entity.set_attached
                (splice1 (Entity._ComponentTypes entity) index)
                (delete componentName (Entity._components entity))
                entity) in
         Some (put ref entity' w1'));
    onEntityComponentRemoved ref Component w2.

(** The loop [for (j = Components.length - 1; j >= 0; j--)] over the
    entity's own, shrinking, [_ComponentTypes] array. *)
Fixpoint removeAll_loop (n : nat) (ref : EntityRef) (forceRemove : bool)
    (w : t) : option t :=
  match n with
  | O => Some w
  | S j =>
      entity ← get ref w;
      match Entity._ComponentTypes entity !! j with
      | Some Component =>
          w' ← entityRemoveComponent ref Component forceRemove w;
          removeAll_loop j ref forceRemove w'
      | None => removeAll_loop j ref forceRemove w
      end
  end.

Definition entityRemoveAllComponents (ref : EntityRef) (forceRemove : bool)
    (w : t) : option t :=
  entity ← get ref w;
  removeAll_loop (length (Entity._ComponentTypes entity)) ref forceRemove w.

Definition _removeEntitySync (ref : EntityRef) (index : Z)
    (removeAllComponents : bool) (w : t) : option t :=
  let w1 := set_entities (splice1 (_entities w) index) w in
  w2 ← (if removeAllComponents then entityRemoveAllComponents ref true w1
        else Some w1);
  entity ← get ref w2;
  let w3 := put ref (Entity.set_world false entity) w2 in
  let '(pool, h) :=
    ObjectPool.release Heap.resetEntityObject ref (_entityPool w3)
      (heap w3) in
  Some (set_heap h (set_entityPool pool w3)).

Definition removeEntity (ref : EntityRef) (forceRemove : bool) (w : t)
  : option t :=
  let index := indexOf (_entities w) ref in
  if index =? -1 then None
  else
    let w1 := emit ENTITY_REMOVED (EntityArg ref) Undefined w in
    w2 ← onEntityRemoved ref w1;
    if forceRemove then _removeEntitySync ref index true w2
    else
      w3 ← entityRemoveAllComponents ref false w2;
      Some (set_deferred (entitiesWithComponentsToRemove w3)
              (push (entitiesToRemove w3) ref) w3).

(** The first loop of [processDeferredRemoval]. *)
Fixpoint removeEntities_loop (refs : list EntityRef) (w : t) : option t :=
  match refs with
  | [] => Some w
  | ref :: rest =>
      let index := indexOf (_entities w) ref in
      w' ← _removeEntitySync ref index false w;
      removeEntities_loop rest w'
  end.

(** [while (entity._ComponentTypesToRemove.length > 0)]: each turn pops
    one type, so the length of the array bounds the number of turns. *)
Fixpoint releaseStaged_loop (n : nat) (ref : EntityRef) (w : t) : option t :=
  match n with
  | O => Some w
  | S n' =>
      entity ← get ref w;
      match pop (Entity._ComponentTypesToRemove entity) with
      | (Some Component, rest) =>
          let propName := componentPropertyName Component in
          let componentName := getName Component in
          let component := Entity._componentsToRemove entity !! componentName in
          let entity' :=
            Entity.set_staged rest
              (delete componentName (Entity._componentsToRemove entity))
              entity in
          pool ← ComponentManager._componentPool (componentsManager w)
                   !! propName;
          pool' ← pool_release component pool (nextInstance w);
          releaseStaged_loop n' ref
            (put ref entity'
               (set_components
                  (ComponentManager.set_pool propName pool'
                     (componentsManager w))
                  (nextInstance w) w))
      | (None, _) => Some w
      end
  end.

Fixpoint releaseComponents_loop (refs : list EntityRef) (w : t) : option t :=
  match refs with
  | [] => Some w
  | ref :: rest =>
      entity ← get ref w;
      w' ← releaseStaged_loop
             (length (Entity._ComponentTypesToRemove entity)) ref w;
      releaseComponents_loop rest w'
  end.

Definition processDeferredRemoval (w : t) : option t :=
  w1 ← removeEntities_loop (entitiesToRemove w) w;
  let w2 := set_deferred (entitiesWithComponentsToRemove w1) [] w1 in
  w3 ← releaseComponents_loop (entitiesWithComponentsToRemove w2) w2;
  Some (set_deferred [] (entitiesToRemove w3) w3).

(** *** Entity methods that reach into the manager *)

Fixpoint replace_query (q' : Query.t) (qs : list Query.t) : list Query.t :=
  match qs with
  | [] => []
  | q :: rest =>
      if decide (Query.key q = Query.key q') then q' :: rest
      else q :: replace_query q' rest
  end.

(** The loop of [getMutableComponent] over [this.queries]. *)
Fixpoint notify_changed (ref : EntityRef) (component : Arg)
    (keys : list string) (qs : list Query.t)
  : list Query.t * list Dispatch :=
  match keys with
  | [] => (qs, [])
  | k :: rest =>
      match find_query k qs with
      | Some query =>
          if Query.reactive query then
            let r :=
              fire (FromQuery (Query.key query)) Query.COMPONENT_CHANGED
                (EntityArg ref) component (Query.eventDispatcher query) in
            let qs1 :=
              replace_query
                (Query.set_entities (Query.entities query) (fst r) query)
                qs in
            let '(qs2, evs) := notify_changed ref component rest qs1 in
            (qs2, snd r :: evs)
          else notify_changed ref component rest qs
      | None => notify_changed ref component rest qs
      end
  end.

Definition getMutableComponent (ref : EntityRef) (Component : ComponentClass)
    (w : t) : option (option InstanceRef * t) :=
  entity ← get ref w;
  let component := Entity._components entity !! name Component in
  let arg := match component with
             | Some i => InstanceArg i
             | None => Undefined
             end in
  let '(qs, evs) :=
    notify_changed ref arg (Entity.queries entity) (_queries w) in
  Some (component, log evs (set_queries qs w)).

Definition hasComponent (ref : EntityRef) (Component : ComponentClass)
    (w : t) : bool :=
  match get ref w with
  | Some entity => Entity.hasComponent Component entity
  | None => false
  end.

Definition getRemovedComponent (ref : EntityRef)
    (Component : ComponentClass) (w : t) : option InstanceRef :=
  entity ← get ref w; Entity.getRemovedComponent Component entity.

End EntityManager.


(** ** Systems *)

Module System.

(** The [event] field of an entry of [queries[name].events]. *)
Inductive QueryEvent :=
| EntityAdded
| EntityRemoved
| EntityChanged
| ComponentChanged (components : list ComponentClass)
| UnknownEvent.

Record QueryConfig := mkQueryConfig {
  components : list QueryTerm;
  mandatory : bool;
  events : list (string * QueryEvent)
}.

(** A subclass of [System]: what [init()] returns and the [execute]
    method, which works on the entities and components of the world.
    [delta] and [time] are passed through untouched. *)
Record Class := mkClass {
  class_ref : nat;
  config_queries : list (string * QueryConfig);
  config_events : list (string * string);
  execute_method : option (Q -> Q -> EntityManager.t -> EntityManager.t)
}.

(** An instance.  The per-name event buffers, which only the listeners
    registered by the constructor write, are not represented: the
    invocations of those listeners are in the dispatch trace. *)
Record t := mk {
  class : Class;
  enabled : bool;
  _queries : list (string * string);
  priority : Z;
  order : Z;
  _mandatoryQueries : list string;
  initialized : bool
}.

Definition set_order (n : Z) (s : t) : t :=
  {| class := class s; enabled := enabled s; _queries := _queries s;
     priority := priority s; order := n;
     _mandatoryQueries := _mandatoryQueries s;
     initialized := initialized s |}.

Definition set_enabled (b : bool) (s : t) : t :=
  {| class := class s; enabled := b; _queries := _queries s;
     priority := priority s; order := order s;
     _mandatoryQueries := _mandatoryQueries s;
     initialized := initialized s |}.

Definition stop : t -> t := set_enabled false.
Definition play : t -> t := set_enabled true.


(** The loop over [queryConfig.events]: every entry that names a known
    event registers a fresh closure on the query's dispatcher. *)
Fixpoint bind_events (evs : list (string * QueryEvent)) (q : Query.t)
    (nextListener : nat) : Query.t * nat :=
  match evs with
  | [] => (q, nextListener)
  | (_, ev) :: rest =>
      let listen eventName q :=
        Query.set_entities (Query.entities q)
          (EventDispatcher.addEventListener eventName nextListener
             (Query.eventDispatcher q)) q in
      match ev with
      | EntityAdded =>
          bind_events rest (listen Query.ENTITY_ADDED q) (S nextListener)
      | EntityRemoved =>
          bind_events rest (listen Query.ENTITY_REMOVED q) (S nextListener)
      | EntityChanged =>
          bind_events rest
            (Query.set_reactive true (listen Query.COMPONENT_CHANGED q))
            (S nextListener)
      | ComponentChanged _ =>
          bind_events rest
            (listen Query.COMPONENT_CHANGED (Query.set_reactive true q))
            (S nextListener)
      | UnknownEvent => bind_events rest q nextListener
      end
  end.

(** The loop over [config.queries]. *)
Fixpoint bind_queries (cfg : list (string * QueryConfig)) (s : t)
    (em : EntityManager.t) (nextListener : nat)
  : option (t * EntityManager.t * nat) :=
  match cfg with
  | [] => Some (s, em, nextListener)
  | (qname, queryConfig) :: rest =>
      if Z.of_nat (length (components queryConfig)) =? 0 then None
      else
        '(key, em1) ← EntityManager.queryComponents
                        (components queryConfig) em;
        query ← EntityManager.find_query key (EntityManager._queries em1);
        let s1 :=
          {| class := class s; enabled := enabled s;
             _queries := push (_queries s) (qname, key);
             priority := priority s; order := order s;
             _mandatoryQueries :=
               if mandatory queryConfig then push (_mandatoryQueries s) key
               else _mandatoryQueries s;
             initialized := initialized s |} in
        let '(query', n) := bind_events (events queryConfig) query
                              nextListener in
        bind_queries rest s1
          (EntityManager.set_queries
             (EntityManager.replace_query query'
                (EntityManager._queries em1)) em1)
          n
  end.

(** The loop over [config.events], on the dispatcher of the world. *)
Fixpoint bind_world_events (cfg : list (string * string))
    (d : EventDispatcher.t) (nextListener : nat)
  : EventDispatcher.t * nat :=
  match cfg with
  | [] => (d, nextListener)
  | (_, eventName) :: rest =>
      bind_world_events rest
        (EventDispatcher.addEventListener eventName nextListener d)
        (S nextListener)
  end.

End System.

(** ** World and SystemManager *)

Module World.

Record t := mk {
  entityManager : EntityManager.t;
  _systems : list System.t;
  enabled : bool;
  eventDispatcher : EventDispatcher.t;
  nextListener : nat
}.

(** [constructor()] *)
Definition new : t :=
  {| entityManager := EntityManager.new ComponentManager.new;
     _systems := []; enabled := true;
     eventDispatcher := EventDispatcher.new; nextListener := 0 |}.

Definition set_entityManager (em : EntityManager.t) (w : t) : t :=
  {| entityManager := em; _systems := _systems w; enabled := enabled w;
     eventDispatcher := eventDispatcher w; nextListener := nextListener w |}.

Definition set_systems (l : list System.t) (w : t) : t :=
  {| entityManager := entityManager w; _systems := l; enabled := enabled w;
     eventDispatcher := eventDispatcher w; nextListener := nextListener w |}.

Definition set_enabled (b : bool) (w : t) : t :=
  {| entityManager := entityManager w; _systems := _systems w; enabled := b;
     eventDispatcher := eventDispatcher w; nextListener := nextListener w |}.

(** [new System(world, attributes)]; [attributes] carries the priority
    when one is given. *)
Definition System_new (C : System.Class) (attributes : option Z) (w : t)
  : option (System.t * t) :=
  let s0 :=
    {| System.class := C; System.enabled := true; System._queries := [];
       System.priority :=
         match attributes with
         | Some p => if p =? 0 then 0 else p
         | None => 0
         end;
       System.order := 0; System._mandatoryQueries := [];
       System.initialized := true |} in
  '(s1, em, n) ← System.bind_queries (System.config_queries C) s0
                   (entityManager w) (nextListener w);
  let '(d, n') := System.bind_world_events (System.config_events C)
                    (eventDispatcher w) n in
  Some (s1, {| entityManager := em; _systems := _systems w;
               enabled := enabled w; eventDispatcher := d;
               nextListener := n' |}).

(** The comparator of [sortSystems]. *)
Definition compare_systems (a b : System.t) : Z :=
  let d := System.priority a - System.priority b in
  if d =? 0 then System.order a - System.order b else d.

Definition sortSystems (w : t) : t :=
  set_systems (Array_sort compare_systems (_systems w)) w.

Definition registerSystem (C : System.Class) (attributes : option Z) (w : t)
  : option t :=
  '(system, w1) ← System_new C attributes w;
  let system := System.set_order (Z.of_nat (length (_systems w1))) system in
  Some (sortSystems (set_systems (push (_systems w1) system) w1)).

Definition getSystem (C : System.Class) (w : t) : option System.t :=
  find (fun s => bool_decide (System.class_ref (System.class s)
                              = System.class_ref C)) (_systems w).

Definition getSystems (w : t) : list System.t := _systems w.


Definition registerComponent (Component : ComponentClass) (w : t) : t :=
  let em := entityManager w in
  set_entityManager
    (EntityManager.set_components
       (ComponentManager.registerComponent Component
          (EntityManager.componentsManager em))
       (EntityManager.nextInstance em) em) w.

Definition createEntity (w : t) : option (EntityRef * t) :=
  '(ref, em) ← EntityManager.createEntity (entityManager w);
  Some (ref, set_entityManager em w).


Definition stop : t -> t := set_enabled false.
Definition play : t -> t := set_enabled true.

End World.


(** ** Entity: the methods that go through [this._world]

    [addComponent], [removeComponent], [removeAllComponents] and
    [remove] call a method of [this._world]; on an entity whose
    [_world] is [null] the call throws. *)

Module EntityMethods.

Definition through_world {R : Type} (ref : EntityRef)
    (method : EntityManager.t -> option R) (w : EntityManager.t) : option R :=
  entity ← EntityManager.get ref w;
  if Entity._world entity then method w else None.

Definition addComponent (ref : EntityRef) (Component : ComponentClass)
  : EntityManager.t -> option EntityManager.t :=
  through_world ref (EntityManager.entityAddComponent ref Component).

Definition removeComponent (ref : EntityRef) (Component : ComponentClass)
    (forceRemove : bool) : EntityManager.t -> option EntityManager.t :=
  through_world ref
    (EntityManager.entityRemoveComponent ref Component forceRemove).

Definition removeAllComponents (ref : EntityRef) (forceRemove : bool)
  : EntityManager.t -> option EntityManager.t :=
  through_world ref (EntityManager.entityRemoveAllComponents ref forceRemove).

Definition remove (ref : EntityRef) (forceRemove : bool)
  : EntityManager.t -> option EntityManager.t :=
  through_world ref (EntityManager.removeEntity ref forceRemove).

End EntityMethods.

(** ** EntityManager: [removeAllEntities] and [count] *)

(** The loop [for (i = this._entities.length - 1; i >= 0; i--)
    this._entities[i].remove()]; an index without element throws. *)
Fixpoint removeAllEntities_loop (n : nat) (w : EntityManager.t)
  : option EntityManager.t :=
  match n with
  | O => Some w
  | S i =>
      ref ← EntityManager._entities w !! i;
      w' ← EntityMethods.remove ref false w;
      removeAllEntities_loop i w'
  end.

Definition removeAllEntities (w : EntityManager.t) : option EntityManager.t :=
  removeAllEntities_loop (length (EntityManager._entities w)) w.

Definition EntityManager_count (w : EntityManager.t) : Z :=
  Z.of_nat (length (EntityManager._entities w)).

(** ** Types, schemas and [createComponent] *)

(** JavaScript values, as far as the attributes of a component need
    them.  An array is a reference into a store of arrays.  [VObject]
    is any other object, by reference: it is not a function, it has no
    [slice] method, and its own properties are not represented. *)
Inductive Value :=
| VUndefined
| VNull
| VNumber (x : Q)
| VNaN
| VBoolean (b : bool)
| VString (s : string)
| VArray (a : nat)
| VObject (o : nat).

Definition ArrayStore := list (list Value).

(** [typeof v] *)
Definition typeof (v : Value) : string :=
  match v with
  | VUndefined => "undefined"
  | VNumber _ | VNaN => "number"
  | VBoolean _ => "boolean"
  | VString _ => "string"
  | VNull | VArray _ | VObject _ => "object"
  end.

(** [if (v)] *)
Definition truthy (v : Value) : bool :=
  match v with
  | VUndefined | VNull | VNaN => false
  | VNumber x => negb (Qeq_bool x 0)
  | VBoolean b => b
  | VString s => negb (String.eqb s EmptyString)
  | VArray _ | VObject _ => true
  end.

(** [v.slice()]: a new array with the elements of an array, a string
    itself; a [TypeError] on everything else. *)
Definition slice (v : Value) (h : ArrayStore) : option (Value * ArrayStore) :=
  match v with
  | VArray a => l ← h !! a; Some (VArray (length h), h ++ [l])
  | VString s => Some (VString s, h)
  | _ => None
  end.

(** [v.length = 0], in strict mode: an array is emptied in place, a
    primitive value, [null] and [undefined] raise a [TypeError]. *)
Definition truncate (v : Value) (h : ArrayStore) : option ArrayStore :=
  match v with
  | VArray a => _ ← h !! a; Some (<[a := []]> h)
  | VObject _ => Some h
  | _ => None
  end.

(** An object with data properties of its own and the data properties
    of its prototype. *)
Module JsObject.

Record t := mk {
  own : gmap string Value;
  proto : gmap string Value
}.

(** [o[key]] *)
Definition get (o : t) (key : string) : Value :=
  match own o !! key with
  | Some v => v
  | None => default VUndefined (proto o !! key)
  end.

(** [o[key] = v] *)
Definition set (key : string) (v : Value) (o : t) : t :=
  {| own := <[key := v]> (own o); proto := proto o |}.

End JsObject.

(** A type definition: the object given to [createType].  A missing
    function is [None].  The functions work on the object they are
    given and on the store of arrays; [baseType] is never read. *)
Module TypeDefinition.

Record t := mk {
  isType : bool;
  isSimpleType : bool;
  create : option (Value -> ArrayStore -> option (Value * ArrayStore));
  reset : option (JsObject.t -> string -> Value -> ArrayStore ->
                  option (JsObject.t * ArrayStore));
  clear : option (JsObject.t -> string -> ArrayStore ->
                  option (JsObject.t * ArrayStore));
  copy : option (JsObject.t -> JsObject.t -> string -> ArrayStore ->
                 option (JsObject.t * ArrayStore))
}.

Definition set_isType (b : bool) (d : t) : t :=
  {| isType := b; isSimpleType := isSimpleType d; create := create d;
     reset := reset d; clear := clear d; copy := copy d |}.

End TypeDefinition.

Definition createType (typeDefinition : TypeDefinition.t)
  : option TypeDefinition.t :=
  let mandatoryFunctions :=
    [("create"%string,
      bool_decide (is_Some (TypeDefinition.create typeDefinition)));
     ("reset"%string,
      bool_decide (is_Some (TypeDefinition.reset typeDefinition)));
     ("clear"%string,
      bool_decide (is_Some (TypeDefinition.clear typeDefinition)))] in
  let undefinedFunctions :=
    filter (fun f => f.2 = false) mandatoryFunctions in
  if 0 <? Z.of_nat (length undefinedFunctions) then None
  else Some (TypeDefinition.set_isType true typeDefinition).

(** The standard types. *)
Module Types.

(** [create], [reset] and [clear] of the three simple types, which
    differ in the value they fall back to. *)
Definition simple (zero : Value) : TypeDefinition.t :=
  {| TypeDefinition.isType := false;
     TypeDefinition.isSimpleType := true;
     TypeDefinition.create :=
       Some (fun defaultValue h =>
               Some (if negb (String.eqb (typeof defaultValue) "undefined")
                     then defaultValue else zero, h));
     TypeDefinition.reset :=
       Some (fun src key defaultValue h =>
               if negb (String.eqb (typeof defaultValue) "undefined")
               then Some (JsObject.set key defaultValue src, h)
               else Some (JsObject.set key zero src, h));
     TypeDefinition.clear :=
       Some (fun src key h => Some (JsObject.set key zero src, h));
     TypeDefinition.copy := None |}.

Definition Number : TypeDefinition.t :=
  default (simple (VNumber 0)) (createType (simple (VNumber 0))).

Definition Boolean : TypeDefinition.t :=
  default (simple (VBoolean false)) (createType (simple (VBoolean false))).

Definition Array_definition : TypeDefinition.t :=
  {| TypeDefinition.isType := false;
     TypeDefinition.isSimpleType := false;
     TypeDefinition.create :=
       Some (fun defaultValue h =>
               if negb (String.eqb (typeof defaultValue) "undefined")
               then slice defaultValue h
               else Some (VArray (length h), h ++ [[]]));
     TypeDefinition.reset :=
       Some (fun src key defaultValue h =>
               if negb (String.eqb (typeof defaultValue) "undefined")
               then '(v, h') ← slice defaultValue h;
                    Some (JsObject.set key v src, h')
               else h' ← truncate (JsObject.get src key) h;
                    Some (src, h'));
     TypeDefinition.clear :=
       Some (fun src key h =>
               h' ← truncate (JsObject.get src key) h; Some (src, h'));
     TypeDefinition.copy :=
       Some (fun src dst key h =>
               '(v, h') ← slice (JsObject.get dst key) h;
               Some (JsObject.set key v src, h')) |}.

Definition Array : TypeDefinition.t :=
  default Array_definition (createType Array_definition).

Definition String : TypeDefinition.t :=
  default (simple (VString EmptyString))
    (createType (simple (VString EmptyString))).

End Types.

Definition standardTypes (t : string) : option TypeDefinition.t :=
  if String.eqb t "number" then Some Types.Number
  else if String.eqb t "boolean" then Some Types.Boolean
  else if String.eqb t "string" then Some Types.String
  else None.

(** [inferType(value)]; [null] is [None]. *)
Definition inferType (value : Value) : option TypeDefinition.t :=
  match value with
  | VArray _ => Some Types.Array
  | _ => standardTypes (typeof value)
  end.

(** An entry of a schema. *)
Module Attribute.

Record t := mk {
  type : option TypeDefinition.t;
  default : Value
}.

End Attribute.

(** A schema, with its keys in the order of [for (key in schema)]. *)
Definition Schema := list (string * Attribute.t).

(** The class that [createComponent] returns: its name, the schema its
    functions read, the data properties of its prototype and whether
    the prototype got [copy], [reset] and [clear]. *)
Module SchemaComponent.

Record t := mk {
  name : string;
  schema : Schema;
  prototype : gmap string Value;
  knownTypes : bool
}.

(** [if (!attr.type) attr.type = inferType(attr.default)] *)
Definition infer (attr : Attribute.t) : Attribute.t :=
  match Attribute.type attr with
  | Some _ => attr
  | None => {| Attribute.type := inferType (Attribute.default attr);
               Attribute.default := Attribute.default attr |}
  end.

Definition infer_all (schema : Schema) : Schema :=
  map (fun '(key, attr) => (key, infer attr)) schema.

(** The loop of the branch for unknown types. *)
Fixpoint install_defaults (schema : Schema) (p : JsObject.t) : JsObject.t :=
  match schema with
  | [] => p
  | (key, attr) :: rest =>
      install_defaults rest (JsObject.set key (Attribute.default attr) p)
  end.

(** The last loop of the branch for known types. *)
Fixpoint install_resets (schema : Schema) (p : JsObject.t) (h : ArrayStore)
  : option (JsObject.t * ArrayStore) :=
  match schema with
  | [] => Some (p, h)
  | (key, attr) :: rest =>
      type ← Attribute.type attr;
      let p1 := JsObject.set key (Attribute.default attr) p in
      '(p2, h2) ← match TypeDefinition.reset type with
                  | Some reset => reset p1 key (Attribute.default attr) h
                  | None => Some (p1, h)
                  end;
      install_resets rest p2 h2
  end.

(** The body of the constructor. *)
Fixpoint construct (schema : Schema) (this : JsObject.t) (h : ArrayStore)
  : option (JsObject.t * ArrayStore) :=
  match schema with
  | [] => Some (this, h)
  | (key, attr) :: rest =>
      '(v, h1) ←
        match Attribute.type attr with
        | Some type =>
            if TypeDefinition.isType type then
              create ← TypeDefinition.create type;
              create (Attribute.default attr) h
            else Some (Attribute.default attr, h)
        | None => Some (Attribute.default attr, h)
        end;
      construct rest (JsObject.set key v this) h1
  end.

(** The body of [copy(src)]; [src] is not the component itself. *)
Fixpoint copy_loop (schema : Schema) (this src : JsObject.t) (h : ArrayStore)
  : option (JsObject.t * ArrayStore) :=
  match schema with
  | [] => Some (this, h)
  | (key, attr) :: rest =>
      if truthy (JsObject.get src key) then
        type ← Attribute.type attr;
        '(this1, h1) ←
          (if TypeDefinition.isSimpleType type then
             Some (JsObject.set key (JsObject.get src key) this, h)
           else
             match TypeDefinition.copy type with
             | Some copy => copy this src key h
             | None => Some (this, h)
             end);
        copy_loop rest this1 src h1
      else copy_loop rest this src h
  end.

(** The body of [reset()]. *)
Fixpoint reset_loop (schema : Schema) (this : JsObject.t) (h : ArrayStore)
  : option (JsObject.t * ArrayStore) :=
  match schema with
  | [] => Some (this, h)
  | (key, attr) :: rest =>
      type ← Attribute.type attr;
      '(this1, h1) ← match TypeDefinition.reset type with
                     | Some reset => reset this key (Attribute.default attr) h
                     | None => Some (this, h)
                     end;
      reset_loop rest this1 h1
  end.

(** The body of [clear()]. *)
Fixpoint clear_loop (schema : Schema) (this : JsObject.t) (h : ArrayStore)
  : option (JsObject.t * ArrayStore) :=
  match schema with
  | [] => Some (this, h)
  | (key, attr) :: rest =>
      type ← Attribute.type attr;
      '(this1, h1) ← match TypeDefinition.clear type with
                     | Some clear => clear this key h
                     | None => Some (this, h)
                     end;
      clear_loop rest this1 h1
  end.

(** [new Component()] *)
Definition new (C : t) (h : ArrayStore) : option (JsObject.t * ArrayStore) :=
  construct (schema C) {| JsObject.own := ∅; JsObject.proto := prototype C |} h.

(** The methods of an instance; a class with an unknown type has none
    of them, and calling one raises a [TypeError].  No attribute is
    named after a method. *)
Definition copy (C : t) (this src : JsObject.t) (h : ArrayStore)
  : option (JsObject.t * ArrayStore) :=
  if knownTypes C then copy_loop (schema C) this src h else None.

Definition reset (C : t) (this : JsObject.t) (h : ArrayStore)
  : option (JsObject.t * ArrayStore) :=
  if knownTypes C then reset_loop (schema C) this h else None.

Definition clear (C : t) (this : JsObject.t) (h : ArrayStore)
  : option (JsObject.t * ArrayStore) :=
  if knownTypes C then clear_loop (schema C) this h else None.

End SchemaComponent.

(** [createComponent(schema, name)]; a function without a name of its
    own is named after the variable it is assigned to. *)
Definition createComponent (schema : Schema) (name : option string)
    (h : ArrayStore) : option (SchemaComponent.t * ArrayStore) :=
  let schema := SchemaComponent.infer_all schema in
  let Component_name := default "Component"%string name in
  let schema := SchemaComponent.infer_all schema in
  let knownTypes :=
    forallb (fun '(_, attr) => bool_decide (is_Some (Attribute.type attr)))
      schema in
  let prototype := {| JsObject.own := ∅; JsObject.proto := ∅ |} in
  if negb knownTypes then
    Some ({| SchemaComponent.name := Component_name;
             SchemaComponent.schema := schema;
             SchemaComponent.prototype :=
               JsObject.own
                 (SchemaComponent.install_defaults schema prototype);
             SchemaComponent.knownTypes := false |}, h)
  else
    '(prototype, h') ← SchemaComponent.install_resets schema prototype h;
    Some ({| SchemaComponent.name := Component_name;
             SchemaComponent.schema := schema;
             SchemaComponent.prototype := JsObject.own prototype;
             SchemaComponent.knownTypes := true |}, h').



(** * Vocabulary of the statements

    Predicates on states of the embedding, the relations the proofs
    carry through the loops, and the concrete states the examples
    run on. *)

(** At [count = 100] the pool grows by 21. *)
Definition pool_of_100 : ObjectPool.t InstanceRef :=
  {| ObjectPool.freeList := []; ObjectPool.count := 100 |}.

(** The entity manager of a new world. *)
Definition fresh_manager : EntityManager.t :=
  EntityManager.new ComponentManager.new.

(** [a] may stand before [b] in an array sorted with [compareFn]. *)
Definition comes_first {A : Type} (compareFn : A -> A -> Z) (a b : A) : Prop :=
  compareFn a b <= 0.

(** The lower-cased name a term contributes to the signature. *)
Definition signature_name (T : QueryTerm) : string :=
  toLowerCase (term_name T).

(** [a] is not after [b] for the comparator of [sortSystems]. *)
Definition precedes (a b : System.t) : Prop :=
  World.compare_systems a b <= 0.







(** Three systems, registered below with priorities 1, -1 and the
    default 0, in this order. *)







(** The callbacks of the query manager change nothing of the entity but
    its list of queries. *)
Definition same_but_queries (e e' : Entity.t) : Prop :=
  e' = Entity.set_queries (Entity.queries e') e.

(** A loop body that changes nothing of the entity but its list of
    queries. *)
Definition frames_entity (body : EntityManager.QueryBody) : Prop :=
  forall q e, same_but_queries e (body q e).1.2.

(** The query lists the entity exactly when the entity lists the query. *)
Definition linked (ref : EntityRef) (q : Query.t) (e : Entity.t) : Prop :=
  ref ∈ Query.entities q <-> Query.key q ∈ Entity.queries e.

(** [q'] is [q] up to its dispatcher and the membership of [ref]. *)
Definition similar (ref : EntityRef) (q q' : Query.t) : Prop :=
  Query.key q' = Query.key q /\
  Query.Components q' = Query.Components q /\
  Query.NotComponents q' = Query.NotComponents q /\
  Query.reactive q' = Query.reactive q /\
  (NoDup (Query.entities q) -> NoDup (Query.entities q')) /\
  (forall r, r <> ref -> r ∈ Query.entities q' <-> r ∈ Query.entities q).

(** The result [r] of one turn of a callback on the query [q] and the
    entity [e]: [member] says whether the entity is listed afterwards. *)
Record step_ok (ref : EntityRef) (q : Query.t) (e : Entity.t)
    (r : Query.t * Entity.t * list Dispatch) (member : bool) : Prop := {
  step_similar : similar ref q r.1.1;
  step_nodup : NoDup (Query.entities r.1.1);
  step_queries_nodup : NoDup (Entity.queries r.1.2);
  step_queries_others :
    forall k, k <> Query.key q ->
      k ∈ Entity.queries r.1.2 <-> k ∈ Entity.queries e;
  step_linked : linked ref r.1.1 r.1.2;
  step_member : ref ∈ Query.entities r.1.1 <-> member = true
}.

(** What each callback decides for one query: whether the entity is in
    the query afterwards. *)
Definition after_added (ref : EntityRef) (C : ComponentClass)
    (q : Query.t) (e : Entity.t) : bool :=
  let member := includes (Query.entities q) ref in
  if includes (Query.NotComponents q) C && member then false
  else if negb (includes (Query.Components q) C) ||
          negb (Query.match_ q e) || member
  then member else true.

(** The same for [onEntityComponentRemoved]. *)
Definition after_removed (ref : EntityRef) (C : ComponentClass)
    (q : Query.t) (e : Entity.t) : bool :=
  let member := includes (Query.entities q) ref in
  if includes (Query.NotComponents q) C && negb member && Query.match_ q e
  then true
  else if includes (Query.Components q) C && member &&
          negb (Query.match_ q e)
  then false else member.

(** Every turn of [body] decides membership as [after] says. *)
Definition turn_ok (ref : EntityRef) (body : EntityManager.QueryBody)
    (after : Query.t -> Entity.t -> bool) : Prop :=
  forall q e,
    NoDup (Query.entities q) -> NoDup (Entity.queries e) -> linked ref q e ->
    step_ok ref q e (body q e) (after q e).

(** The decision does not read the entity's list of queries. *)
Definition stable (after : Query.t -> Entity.t -> bool) : Prop :=
  forall q e e', same_but_queries e e' -> after q e' = after q e.

(** The same for the whole loop over the queries. *)
Definition query_ok (ref : EntityRef) (after : Query.t -> Entity.t -> bool)
    (e e' : Entity.t) (q q' : Query.t) : Prop :=
  similar ref q q' /\ NoDup (Query.entities q') /\ linked ref q' e' /\
  (ref ∈ Query.entities q' <-> after q e = true).

(** The result [r] of the loop over the queries [qs] for the entity
    [e]. *)
Definition loop_ok (ref : EntityRef) (after : Query.t -> Entity.t -> bool)
    (qs : list Query.t) (e : Entity.t)
    (r : list Query.t * Entity.t * list Dispatch) : Prop :=
  NoDup (Entity.queries r.1.2) /\
  (forall k, k ∉ map Query.key qs ->
     k ∈ Entity.queries r.1.2 <-> k ∈ Entity.queries e) /\
  Forall2 (query_ok ref after e r.1.2) qs r.1.1.

(** The shape the callbacks rely on and keep: query keys are distinct,
    no query lists an entity twice or has an empty positive set, every
    entity object lists each of its queries once and is listed by
    exactly those, and every live entity has its object. *)
Record structured (w : EntityManager.t) : Prop := {
  keys_nodup : NoDup (map Query.key (EntityManager._queries w));
  queries_wf :
    Forall (fun q => NoDup (Query.entities q) /\ Query.Components q <> [])
      (EntityManager._queries w);
  backedges :
    forall r e, EntityManager.get r w = Some e ->
      NoDup (Entity.queries e) /\
      Forall (fun q => linked r q e) (EntityManager._queries w);
  live_objects :
    forall r, r ∈ EntityManager._entities w ->
      is_Some (EntityManager.get r w)
}.

(** Every query that lists the entity matches it. *)
Definition sound_at (w : EntityManager.t) (r : EntityRef) : Prop :=
  forall e, EntityManager.get r w = Some e ->
    Forall (fun q => r ∈ Query.entities q -> Query.match_ q e = true)
      (EntityManager._queries w).

(** Every query that matches the entity lists it. *)
Definition complete_at (w : EntityManager.t) (r : EntityRef) : Prop :=
  forall e, EntityManager.get r w = Some e ->
    Forall (fun q => Query.match_ q e = true -> r ∈ Query.entities q)
      (EntityManager._queries w).

(** Query-membership correctness: the shape above, and for every live
    entity and every query, the entity is listed iff it matches. *)
Definition indexed (w : EntityManager.t) : Prop :=
  structured w /\
  forall r, r ∈ EntityManager._entities w -> sound_at w r /\ complete_at w r.

(** What an operation on [ref] leaves alone. *)
Definition framed (ref : EntityRef) (w w' : EntityManager.t) : Prop :=
  (forall r, r <> ref -> EntityManager.get r w' = EntityManager.get r w) /\
  Forall2 (similar ref) (EntityManager._queries w)
    (EntityManager._queries w').

(** [e1] is [e0] with [C] attached. *)
Definition attached_to (C : ComponentClass) (e0 e1 : Entity.t) : Prop :=
  forall D, D ∈ Entity._ComponentTypes e1 <->
            D ∈ Entity._ComponentTypes e0 \/ D = C.

(** [e1] is [e0] with one occurrence of [C] detached. *)
Definition detached_from (C : ComponentClass) (e0 e1 : Entity.t)
  : Prop :=
  (forall D, D ∈ Entity._ComponentTypes e1 -> D ∈ Entity._ComponentTypes e0) /\
  (forall D, D ∈ Entity._ComponentTypes e0 -> D <> C ->
             D ∈ Entity._ComponentTypes e1).

(** The public mutations of the claim. *)
Inductive Mutation :=
| AddComponent (ref : EntityRef) (Component : ComponentClass)
| RemoveComponent (ref : EntityRef) (Component : ComponentClass)
    (forceRemove : bool)
| RemoveEntity (ref : EntityRef) (forceRemove : bool).

(** [None] stands for a call that throws. *)
Definition mutate (m : Mutation) (w : EntityManager.t)
  : option EntityManager.t :=
  match m with
  | AddComponent ref C => EntityManager.entityAddComponent ref C w
  | RemoveComponent ref C force =>
      EntityManager.entityRemoveComponent ref C force w
  | RemoveEntity ref force => EntityManager.removeEntity ref force w
  end.

(** Two component classes for the examples. *)
Definition Position : ComponentClass := mkClass 1 "Position" true.

Definition Velocity : ComponentClass := mkClass 2 "Velocity" true.

(** A manager with the query [[Position]], and the same with one entity
    that has no component. *)
Definition manager_with_query : EntityManager.t :=
  default fresh_manager
    (snd <$> EntityManager.queryComponents [Has Position] fresh_manager).

Definition manager_with_entity : EntityManager.t :=
  default fresh_manager
    (snd <$> EntityManager.createEntity manager_with_query).

(** No type is both attached and pending removal. *)
Definition attached_staged_disjoint (e : Entity.t) : Prop :=
  forall T, T ∈ Entity._ComponentTypes e ->
            T ∉ Entity._ComponentTypesToRemove e.




(** An entity without components and without queries. *)
Definition bare (w : EntityManager.t) (r : EntityRef) : Prop :=
  exists e, EntityManager.get r w = Some e /\
            Entity._ComponentTypes e = [] /\ Entity.queries e = [].

(** The index together with what [createEntity], [getQuery] and the
    commit rely on: the live vector and the free list of the entity pool
    hold each entity once, pooled entities are bare and not live, the
    back-edges of every object name existing queries, and queries list
    only entities that have an object. *)
Record healthy_core (w : EntityManager.t) : Prop := {
  hc_indexed : indexed w;
  hc_live_nodup : NoDup (EntityManager._entities w);
  hc_known :
    forall r e, EntityManager.get r w = Some e ->
      forall k, k ∈ Entity.queries e ->
        k ∈ map Query.key (EntityManager._queries w);
  hc_alloc :
    forall r, is_Some (EntityManager.get r w) ->
      (r < Heap.allocated (EntityManager.heap w))%nat;
  hc_listed :
    forall q r, q ∈ EntityManager._queries w -> r ∈ Query.entities q ->
      is_Some (EntityManager.get r w);
  hc_pool_nodup : NoDup (ObjectPool.freeList (EntityManager._entityPool w));
  hc_pool :
    forall r, r ∈ ObjectPool.freeList (EntityManager._entityPool w) ->
      (r ∉ EntityManager._entities w) /\ bare w r;
  hc_count : 0 <= ObjectPool.count (EntityManager._entityPool w)
}.

(** Entities scheduled for removal are live, scheduled once, and have
    no components left. *)
Definition doomed_ok (w : EntityManager.t) : Prop :=
  NoDup (EntityManager.entitiesToRemove w) /\
  forall r, r ∈ EntityManager.entitiesToRemove w ->
    r ∈ EntityManager._entities w /\
    exists e, EntityManager.get r w = Some e /\
              Entity._ComponentTypes e = [].

(** The invariant of a properly used manager. *)
Definition healthy (w : EntityManager.t) : Prop :=
  healthy_core w /\ doomed_ok w.

(** Two states with the same queries, live entities and entity pool,
    whose entity objects agree on types and queries. *)
Definition same_index (w w' : EntityManager.t) : Prop :=
  EntityManager._queries w' = EntityManager._queries w /\
  EntityManager._entities w' = EntityManager._entities w /\
  EntityManager._entityPool w' = EntityManager._entityPool w /\
  Heap.allocated (EntityManager.heap w')
  = Heap.allocated (EntityManager.heap w) /\
  forall r,
    match EntityManager.get r w', EntityManager.get r w with
    | Some e', Some e =>
        Entity._ComponentTypes e' = Entity._ComponentTypes e /\
        Entity.queries e' = Entity.queries e
    | None, None => True
    | _, _ => False
    end.

(** The parts of the state that component operations never touch. *)
Definition same_shell (w w' : EntityManager.t) : Prop :=
  EntityManager._entityPool w' = EntityManager._entityPool w /\
  Heap.allocated (EntityManager.heap w')
  = Heap.allocated (EntityManager.heap w) /\
  EntityManager.entitiesToRemove w' = EntityManager.entitiesToRemove w /\
  forall r, is_Some (EntityManager.get r w') <->
            is_Some (EntityManager.get r w).

(** An operation on [ref] that leaves the shell alone, frames the other
    entities and adds to the queries of [ref] nothing but keys of
    existing queries. *)
Definition contained (ref : EntityRef) (w w' : EntityManager.t) : Prop :=
  framed ref w w' /\ same_shell w w' /\
  EntityManager._entities w' = EntityManager._entities w /\
  forall e e', EntityManager.get ref w = Some e ->
    EntityManager.get ref w' = Some e' ->
    forall k, k ∈ Entity.queries e' ->
      k ∈ Entity.queries e \/ k ∈ map Query.key (EntityManager._queries w).

(** A step that changes neither the heap nor the queries nor the lists
    of entities (dispatching on the manager, updating the component
    manager). *)
Definition quiet (w w' : EntityManager.t) : Prop :=
  EntityManager.heap w' = EntityManager.heap w /\
  EntityManager._queries w' = EntityManager._queries w /\
  EntityManager._entities w' = EntityManager._entities w /\
  EntityManager._entityPool w' = EntityManager._entityPool w /\
  EntityManager.entitiesToRemove w' = EntityManager.entitiesToRemove w.

(** The heap may gain objects without components and back-edges. *)
Definition grown (w w' : EntityManager.t) : Prop :=
  forall r,
    match EntityManager.get r w', EntityManager.get r w with
    | Some e', Some e =>
        Entity._ComponentTypes e' = Entity._ComponentTypes e /\
        Entity.queries e' = Entity.queries e
    | Some e', None =>
        Entity._ComponentTypes e' = [] /\ Entity.queries e' = []
    | None, Some _ => False
    | None, None => True
    end.

(** The constructor of [Query] lists the matching entities of the
    manager, once each, and records the key of the query on them. *)
Definition seeded (q : Query.t) (refs : list EntityRef) (x : EntityRef)
    (e : Entity.t) : Entity.t :=
  if bool_decide (x ∈ refs) && Query.match_ q e
  then Entity.set_queries (push (Entity.queries e) (Query.key q)) e
  else e.

(** States reached from a new manager by the methods of the entity
    manager, used as the API intends: components are added to and
    removed from entities of the live vector, no component is added to an
    entity between its deferred [remove()] and the commit, and an entity
    is not removed twice before the commit.  Steps that leave the heap,
    the queries and the entity lists alone (registering a component,
    dispatching on the manager) are allowed everywhere. *)
Inductive proper : EntityManager.t -> Prop :=
| proper_new cm : proper (EntityManager.new cm)
| proper_quiet w w' : proper w -> quiet w w' -> proper w'
| proper_createEntity w ref w' :
    proper w -> EntityManager.createEntity w = Some (ref, w') -> proper w'
| proper_getQuery spec w k w' :
    proper w -> EntityManager.getQuery spec w = Some (k, w') -> proper w'
| proper_addComponent ref C w w' :
    proper w ->
    ref ∈ EntityManager._entities w ->
    ref ∉ EntityManager.entitiesToRemove w ->
    EntityManager.entityAddComponent ref C w = Some w' -> proper w'
| proper_removeComponent ref C force w w' :
    proper w ->
    ref ∈ EntityManager._entities w ->
    EntityManager.entityRemoveComponent ref C force w = Some w' -> proper w'
| proper_removeAllComponents ref force w w' :
    proper w ->
    ref ∈ EntityManager._entities w ->
    EntityManager.entityRemoveAllComponents ref force w = Some w' ->
    proper w'
| proper_removeEntity ref force w w' :
    proper w ->
    ref ∉ EntityManager.entitiesToRemove w ->
    EntityManager.removeEntity ref force w = Some w' -> proper w'
| proper_commit w w' :
    proper w -> EntityManager.processDeferredRemoval w = Some w' -> proper w'.

(** The discipline matters.  [remove()] (deferred) on the entity of
    [manager_with_entity], then [addComponent(Position)] on it before
    the commit, the commit, and [createEntity], which hands the same
    object out again. *)
Definition manager_after_late_add : option EntityManager.t :=
  w1 ← EntityManager.removeEntity 0%nat false manager_with_entity;
  w2 ← EntityManager.entityAddComponent 0%nat Position w1;
  w3 ← EntityManager.processDeferredRemoval w2;
  snd <$> EntityManager.createEntity w3.

(** * Further vocabulary *)

(** The manager of [manager_with_entity] after [Position] has been
    added to its entity. *)
Definition manager_with_position : EntityManager.t :=
  default fresh_manager
    (EntityManager.entityAddComponent 0%nat Position manager_with_entity).



(** The dispatch a query makes when the entity leaves or enters it:
    [q] is the query before and [q'] the query after. *)
Definition membership_events (ref : EntityRef) (q q' : Query.t)
  : list Dispatch :=
  let before := includes (Query.entities q) ref in
  let after := includes (Query.entities q') ref in
  if before && negb after then
    [(fire (FromQuery (Query.key q)) Query.ENTITY_REMOVED (EntityArg ref)
        Undefined (Query.eventDispatcher q)).2]
  else if negb before && after then
    [(fire (FromQuery (Query.key q)) Query.ENTITY_ADDED (EntityArg ref)
        Undefined (Query.eventDispatcher q)).2]
  else [].

(** The same for all the queries of a manager, in their order. *)
Definition index_events (ref : EntityRef) (qs qs' : list Query.t)
  : list Dispatch :=
  concat (zip_with (membership_events ref) qs qs').

(** A manager with two entities and no query. *)
Definition manager_with_two : EntityManager.t :=
  default fresh_manager
    (w ← snd <$> EntityManager.createEntity fresh_manager;
     snd <$> EntityManager.createEntity w).

(** What identifies an entity object over its life: its world and its
    id. *)
Definition identity (e : Entity.t) : bool * Z := (Entity._world e, Entity.id e).

(** A step that constructs and resets no entity: the counter of ids,
    the number of objects, and the world and id of every object stay. *)
Definition same_identity (w w' : EntityManager.t) : Prop :=
  Heap.nextId (EntityManager.heap w') = Heap.nextId (EntityManager.heap w) /\
  Heap.allocated (EntityManager.heap w')
  = Heap.allocated (EntityManager.heap w) /\
  forall r, identity <$> EntityManager.get r w'
            = identity <$> EntityManager.get r w.

(** Ids are drawn from the counter: every object has a reference below
    the number of objects and an id below the counter, and no two
    objects have the same id. *)
Record heap_ids_ok (h : Heap.t) : Prop := {
  ids_allocated :
    forall r, is_Some (Heap.objects h !! r) -> (r < Heap.allocated h)%nat;
  ids_below :
    forall r e, Heap.objects h !! r = Some e -> Entity.id e < Heap.nextId h;
  ids_distinct :
    forall r1 r2 e1 e2,
      Heap.objects h !! r1 = Some e1 -> Heap.objects h !! r2 = Some e2 ->
      Entity.id e1 = Entity.id e2 -> r1 = r2
}.

Definition ids_ok (w : EntityManager.t) : Prop :=
  heap_ids_ok (EntityManager.heap w).

(** The states a manager goes through, whatever the calls and their
    order, as long as each call returns. *)
Inductive reached : EntityManager.t -> Prop :=
| reached_new cm : reached (EntityManager.new cm)
| reached_quiet w w' : reached w -> quiet w w' -> reached w'
| reached_createEntity w ref w' :
    reached w -> EntityManager.createEntity w = Some (ref, w') -> reached w'
| reached_getQuery spec w k w' :
    reached w -> EntityManager.getQuery spec w = Some (k, w') -> reached w'
| reached_getMutableComponent ref C w i w' :
    reached w ->
    EntityManager.getMutableComponent ref C w = Some (i, w') -> reached w'
| reached_addComponent ref C w w' :
    reached w ->
    EntityManager.entityAddComponent ref C w = Some w' -> reached w'
| reached_removeComponent ref C force w w' :
    reached w ->
    EntityManager.entityRemoveComponent ref C force w = Some w' -> reached w'
| reached_removeAllComponents ref force w w' :
    reached w ->
    EntityManager.entityRemoveAllComponents ref force w = Some w' ->
    reached w'
| reached_removeEntity ref force w w' :
    reached w ->
    EntityManager.removeEntity ref force w = Some w' -> reached w'
| reached_commit w w' :
    reached w -> EntityManager.processDeferredRemoval w = Some w' ->
    reached w'.

(** [manager_with_two] after its first entity only. *)
Definition manager_with_one : EntityManager.t :=
  default fresh_manager (snd <$> EntityManager.createEntity fresh_manager).

(** A step that creates, schedules and releases no entity. *)
Definition same_population (w w' : EntityManager.t) : Prop :=
  EntityManager._entities w' = EntityManager._entities w /\
  EntityManager.entitiesToRemove w' = EntityManager.entitiesToRemove w /\
  EntityManager._entityPool w' = EntityManager._entityPool w.

(** The entity pool has handed out as many objects as there are live
    entities. *)
Definition accounted (w : EntityManager.t) : Prop :=
  ObjectPool.totalUsed (EntityManager._entityPool w) = EntityManager_count w.



(** ** Schemas of standard types *)

Definition standard_type (t : TypeDefinition.t) : Prop :=
  t = Types.Number \/ t = Types.Boolean \/ t = Types.String \/
  t = Types.Array.

Definition simple_type (t : TypeDefinition.t) : Prop :=
  t = Types.Number \/ t = Types.Boolean \/ t = Types.String.

(** An attribute without a type, or with one of the standard types. *)
Definition standard (attr : Attribute.t) : Prop :=
  forall t, Attribute.type attr = Some t -> standard_type t.

(** An attribute with a type, or with a default from which
    [inferType] finds one. *)
Definition typed (attr : Attribute.t) : Prop :=
  is_Some (Attribute.type attr) \/
  is_Some (inferType (Attribute.default attr)).

(** The values that have [slice]. *)
Definition sliceable (v : Value) : bool :=
  match v with
  | VArray _ | VString _ => true
  | _ => false
  end.

(** An array reference that the store knows. *)
Definition allocated (h : ArrayStore) (v : Value) : Prop :=
  forall a, v = VArray a -> is_Some (h !! a).

(** An attribute of a standard type whose default, for [Types.Array],
    can be sliced. *)
Definition ready (attr : Attribute.t) : Prop :=
  exists t, Attribute.type attr = Some t /\ standard_type t /\
            (t = Types.Array -> sliceable (Attribute.default attr) = true).

(** A component with a number [x] (default 5) and a list [tags]. *)
Definition Counter_schema : Schema :=
  [("x"%string, Attribute.mk None (VNumber 5));
   ("tags"%string, Attribute.mk None (VArray 0))].

Definition Counter : SchemaComponent.t :=
  default (SchemaComponent.mk "" [] ∅ false)
    (fst <$> createComponent Counter_schema (Some "Counter"%string) [[]]).

(** A component with a number and a string. *)
Definition Label : SchemaComponent.t :=
  default (SchemaComponent.mk "" [] ∅ false)
    (fst <$> createComponent
               [("size"%string, Attribute.mk None (VNumber 5));
                ("text"%string, Attribute.mk (Some Types.String) VUndefined)]
               (Some "Label"%string) []).



(** * Facts about the embedding *)

(** ** Arrays *)

Section JsArrayFacts.
Context {A : Type} `{EqDecision A}.
Implicit Types (l : list A) (x y : A).

Lemma indexOf_range l x : -1 <= indexOf l x < Z.of_nat (length l).
Proof.
  induction l as [|y l IH]; simpl; [lia|].
  destruct (decide (y = x)); [lia|].
  destruct (Z.ltb_spec (indexOf l x) 0); lia.
Qed.

Lemma indexOf_absent l x : indexOf l x = -1 <-> x ∉ l.
Proof.
  induction l as [|y l IH]; simpl.
  - split; [intros _; apply not_elem_of_nil | done].
  - destruct (decide (y = x)) as [->|Hne].
    + split; [lia | intros []; left].
    + pose proof (indexOf_range l x).
      destruct (Z.ltb_spec (indexOf l x) 0).
      * split; [intros _|done].
        rewrite not_elem_of_cons. split; [done|]. apply IH. lia.
      * split; [lia|]. rewrite not_elem_of_cons. intros [_ Hn].
        apply IH in Hn. lia.
Qed.

Lemma includes_spec l x : includes l x = true <-> x ∈ l.
Proof.
  unfold includes. pose proof (indexOf_absent l x) as Hi.
  destruct (Z.eqb_spec (indexOf l x) (-1)) as [E|E]; simpl.
  - split; [done|]. intros Hin. apply Hi in E. done.
  - split; [intros _|done].
    destruct (decide (x ∈ l)); [done|]. exfalso. apply E, Hi. done.
Qed.

Lemma includes_false l x : includes l x = false <-> x ∉ l.
Proof.
  rewrite <- includes_spec. destruct (includes l x); split; done.
Qed.

Lemma splice1_indexOf l x :
  x ∈ l -> splice1 l (indexOf l x) = remove_first x l.
Proof.
  unfold splice1. induction l as [|y l IH]; intros Hin.
  - by apply elem_of_nil in Hin.
  - simpl indexOf. simpl remove_first.
    destruct (decide (y = x)) as [->|Hne]; [done|].
    apply elem_of_cons in Hin as [->|Hin]; [done|].
    specialize (IH Hin).
    pose proof (indexOf_range l x) as Hr.
    assert (indexOf l x <> -1) as Hp by (rewrite indexOf_absent; tauto).
    destruct (Z.ltb_spec (indexOf l x) 0) as [?|Hge]; [lia|].
    destruct (Z.ltb_spec (indexOf l x + 1) 0); [lia|].
    revert IH. destruct (Z.ltb_spec (indexOf l x) 0); [lia|].
    rewrite !Z.min_l by (simpl length; lia).
    replace (Z.to_nat (indexOf l x + 1)) with (S (Z.to_nat (indexOf l x)))
      by lia.
    simpl. intros ->. done.
Qed.

(** [splice(-1, 1)], what the source executes when [indexOf] misses,
    drops the last element. *)
Lemma splice1_minus_one l : splice1 l (-1) = removelast l.
Proof.
  unfold splice1. simpl.
  destruct l as [|y l] using rev_ind; [done|].
  rewrite removelast_last, length_app. simpl.
  replace (Z.to_nat (Z.max (Z.of_nat (length l + 1) + -1) 0))
    with (length l) by lia.
  rewrite take_app_length.
  rewrite drop_ge by (rewrite length_app; simpl; lia).
  by rewrite app_nil_r.
Qed.

Lemma elem_of_remove_first_ne l x y :
  x <> y -> y ∈ remove_first x l <-> y ∈ l.
Proof.
  intros Hne. induction l as [|z l IH]; simpl; [done|].
  destruct (decide (z = x)) as [->|?].
  - rewrite elem_of_cons. split; [by right|].
    intros [Heq|Hin]; [congruence|done].
  - rewrite !elem_of_cons, IH. done.
Qed.

Lemma elem_of_remove_first l x y : y ∈ remove_first x l -> y ∈ l.
Proof.
  induction l as [|z l IH]; simpl; [done|].
  destruct (decide (z = x)); rewrite ?elem_of_cons; [by right|].
  intros [Heq|Hin]; [by left|right; by apply IH].
Qed.

Lemma NoDup_remove_first l x : NoDup l -> NoDup (remove_first x l).
Proof.
  induction 1 as [|z l Hz Hl IH]; simpl; [constructor|].
  destruct (decide (z = x)); [done|].
  constructor; [|done]. intros Hin. by apply elem_of_remove_first in Hin.
Qed.

Lemma not_elem_of_remove_first l x : NoDup l -> x ∉ remove_first x l.
Proof.
  induction 1 as [|z l Hz Hl IH]; simpl; [apply not_elem_of_nil|].
  destruct (decide (z = x)) as [->|?]; [done|].
  rewrite not_elem_of_cons. done.
Qed.

Lemma remove_first_absent l x : x ∉ l -> remove_first x l = l.
Proof.
  induction l as [|z l IH]; simpl; [done|].
  rewrite not_elem_of_cons. intros [? ?].
  destruct (decide (z = x)); [congruence|]. f_equal. auto.
Qed.

Lemma elem_of_push l x y : y ∈ push l x <-> y ∈ l \/ y = x.
Proof. unfold push. rewrite elem_of_app, list_elem_of_singleton. done. Qed.

Lemma NoDup_push l x : NoDup l -> x ∉ l -> NoDup (push l x).
Proof.
  intros Hl Hx. unfold push. apply NoDup_app. split; [done|].
  split; [|apply NoDup_singleton].
  intros y Hy Hy'. apply list_elem_of_singleton in Hy'. by subst.
Qed.
End JsArrayFacts.

(** ** EventDispatcher *)

Module EventDispatcherFacts.
Import EventDispatcher.




Lemma registrations_add_in n f d :
  f ∈ registrations n (addEventListener n f d).
Proof.
  unfold registrations, addEventListener.
  destruct (_listeners d !! n) as [old|] eqn:En.
  - rewrite En.
    destruct (Z.eqb_spec (indexOf old f) (-1)) as [Ei|Ei]; simpl.
    + rewrite lookup_insert_eq. simpl. apply elem_of_push. by right.
    + rewrite En. simpl. destruct (decide (f ∈ old)); [done|].
      exfalso. by apply Ei, indexOf_absent.
  - rewrite lookup_insert_eq. simpl. rewrite lookup_insert_eq. simpl.
    apply elem_of_push. by right.
Qed.

(** Adding a listener that is already registered changes nothing. *)
Lemma addEventListener_idem n f d :
  addEventListener n f (addEventListener n f d) = addEventListener n f d.
Proof.
  pose proof (registrations_add_in n f d) as Hin.
  unfold registrations in Hin.
  remember (addEventListener n f d) as d1 eqn:E1. clear E1.
  unfold addEventListener.
  destruct (_listeners d1 !! n) as [arr|] eqn:En; simpl in Hin.
  - rewrite En.
    destruct (Z.eqb_spec (indexOf arr f) (-1)) as [Ei|Ei].
    + apply indexOf_absent in Ei. done.
    + by destruct d1.
  - by apply elem_of_nil in Hin.
Qed.


End EventDispatcherFacts.

(** ** ObjectPool and the rounding of its growth *)

Section PoolFacts.
Context {A S : Type}.
Variable createElement : S -> A * S.

Lemma expand_loop_length n fl s :
  length (fst (ObjectPool.expand_loop createElement n fl s)) = (length fl + n)%nat.
Proof.
  revert fl s. induction n as [|n IH]; intros fl s; simpl; [lia|].
  destruct (createElement s) as [x s1]. rewrite IH.
  unfold push. rewrite length_app. simpl. lia.
Qed.

End PoolFacts.

Lemma Math_round_fifth (n : Z) : Math_round (times_0_2 n) = (n + 2) / 5.
Proof.
  unfold Math_round, times_0_2, Qfloor, Qplus, Qmult, inject_Z. simpl.
  rewrite Z.mul_1_l.
  replace ((n * 2 * 2 + 1 * 10))%Z with ((n + 2) * 4 + 2) by lia.
  change (Z.pos (10 * 2)) with 20.
  pose proof (Z.div_mod (n + 2) 5 ltac:(lia)) as Hd.
  pose proof (Z.mod_pos_bound (n + 2) 5 ltac:(lia)) as Hm.
  symmetry. apply Z.div_unique with (r := ((n + 2) mod 5) * 4 + 2); lia.
Qed.

Lemma Math_ceil_fifth (n : Z) : Math_ceil (times_0_2 n) = (n + 4) / 5.
Proof.
  unfold Math_ceil, Qceiling, times_0_2, Qfloor, Qopp, Qmult, inject_Z.
  simpl. change (Z.pos (1 * 10)) with 10.
  pose proof (Z.div_mod (n + 4) 5 ltac:(lia)) as Hd.
  pose proof (Z.mod_pos_bound (n + 4) 5 ltac:(lia)) as Hm.
  assert (- (n * 2) / 10 = - ((n + 4) / 5)) as ->; [|lia].
  symmetry.
  apply Z.div_unique with (r := 8 - 2 * ((n + 4) mod 5)); lia.
Qed.


(** ** Claims about the event dispatcher *)



(** ** Claims about the object pool *)

Lemma aquire_empty_count {A S : Type} (createElement : S -> A * S)
    (p : ObjectPool.t A) (s : S) :
  ObjectPool.freeList p = [] ->
  ObjectPool.count (snd (fst (ObjectPool.aquire createElement p s)))
  = ObjectPool.count p + ObjectPool.growth p /\
  length (ObjectPool.freeList
            (snd (fst (ObjectPool.aquire createElement p s))))
  = Nat.pred (Z.to_nat (ObjectPool.growth p)).
Proof.
  intros Hfl. unfold ObjectPool.aquire, ObjectPool.expand.
  rewrite Hfl. simpl.
  pose proof (expand_loop_length createElement
                (Z.to_nat (ObjectPool.growth p)) [] s) as Hlen.
  destruct (ObjectPool.expand_loop createElement
              (Z.to_nat (ObjectPool.growth p)) [] s) as [fl s'].
  simpl in *. split; [done|].
  destruct fl as [|x fl] using rev_ind.
  - simpl in *. lia.
  - rewrite removelast_last. rewrite length_app in Hlen. simpl in *. lia.
Qed.

(** C3 (amended): an [aquire] on an empty free list grows the pool by
    [Math.round(count * 0.2) + 1] instances, which is
    [floor((count + 2) / 5) + 1]; one of them is handed out and the
    others stay on the free list. *)
Theorem C3_aquire_grows_by_round {A S : Type} (createElement : S -> A * S)
    (p : ObjectPool.t A) (s : S) :
  ObjectPool.freeList p = [] ->
  0 <= ObjectPool.count p ->
  let p' := snd (fst (ObjectPool.aquire createElement p s)) in
  ObjectPool.count p' - ObjectPool.count p
  = Math_round (times_0_2 (ObjectPool.count p)) + 1 /\
  ObjectPool.count p' - ObjectPool.count p = (ObjectPool.count p + 2) / 5 + 1 /\
  ObjectPool.totalFree p' = (ObjectPool.count p + 2) / 5 /\
  is_Some (fst (fst (ObjectPool.aquire createElement p s))).
Proof.
  intros Hfl Hc p'.
  destruct (aquire_empty_count createElement p s Hfl) as [Hcount Hlen].
  fold p' in Hcount, Hlen.
  assert (ObjectPool.growth p = (ObjectPool.count p + 2) / 5 + 1) as Hg
    by (unfold ObjectPool.growth; by rewrite Math_round_fifth).
  pose proof (Z.div_pos (ObjectPool.count p + 2) 5 ltac:(lia) ltac:(lia)).
  split; [|split; [|split]].
  - rewrite Hcount. unfold ObjectPool.growth. lia.
  - lia.
  - unfold ObjectPool.totalFree. rewrite Hlen. lia.
  - unfold ObjectPool.aquire, ObjectPool.expand. rewrite Hfl. simpl.
    pose proof (expand_loop_length createElement
                  (Z.to_nat (ObjectPool.growth p)) [] s) as Hl.
    destruct (ObjectPool.expand_loop createElement
                (Z.to_nat (ObjectPool.growth p)) [] s) as [fl s'].
    simpl in *. destruct fl as [|x fl] using rev_ind.
    + simpl in Hl. lia.
    + rewrite last_snoc. by eexists.
Qed.

Lemma C3_witness :
  ObjectPool.count
    (snd (fst (ObjectPool.aquire createInstance pool_of_100 0%nat)))
  - ObjectPool.count pool_of_100 = 21.
Proof.
  destruct (C3_aquire_grows_by_round createInstance pool_of_100 0%nat)
    as (_ & H & _).
  - reflexivity.
  - simpl. lia.
  - exact H.
Defined.

(** C3 (as stated) fails at [count = 1]: a fresh pool that has handed
    out its only instance grows by 1, not by [ceil(1 * 0.2) + 1 = 2]. *)
Lemma C3_counterexample :
  let p1 := snd (fst (ObjectPool.aquire createInstance
                        (@ObjectPool.new InstanceRef) 0%nat)) in
  let p2 := snd (fst (ObjectPool.aquire createInstance p1 1%nat)) in
  ObjectPool.freeList p1 = [] /\ ObjectPool.count p1 = 1 /\
  ObjectPool.count p2 - ObjectPool.count p1 = 1 /\
  ObjectPool.count p2 - ObjectPool.count p1
  <> Math_ceil (times_0_2 (ObjectPool.count p1)) + 1.
Proof. vm_compute. repeat split; congruence. Qed.

(** ** Claims about the component registry *)

(** C4 (amended): registering a class that is already registered leaves
    the registry of classes and the pools as they are and sets the live
    count of the class to 0; the call changes nothing exactly when that
    count is already 0. *)
Theorem C4_registerComponent_again (Component : ComponentClass)
    (m : ComponentManager.t) :
  ComponentManager.Components m !! name Component = Some Component ->
  let m' := ComponentManager.registerComponent Component m in
  ComponentManager.Components m' = ComponentManager.Components m /\
  ComponentManager._componentPool m' = ComponentManager._componentPool m /\
  ComponentManager.numComponents m' !! name Component = Some (Num 0) /\
  (forall k, k <> name Component ->
     ComponentManager.numComponents m' !! k
     = ComponentManager.numComponents m !! k) /\
  (m' = m <->
   ComponentManager.numComponents m !! name Component = Some (Num 0)).
Proof.
  intros Hreg m'. subst m'. unfold ComponentManager.registerComponent.
  simpl. rewrite (insert_id _ _ _ Hreg).
  split; [done|]. split; [done|]. split; [apply lookup_insert_eq|].
  split; [intros k Hk; by rewrite lookup_insert_ne|].
  split.
  - intros Heq. apply (f_equal ComponentManager.numComponents) in Heq.
    simpl in Heq. rewrite <- Heq. apply lookup_insert_eq.
  - intros Hz. rewrite (insert_id _ _ _ Hz). by destruct m.
Qed.

Lemma C4_witness :
  ComponentManager.numComponents
    (ComponentManager.registerComponent (mkClass 1 "A" true)
       (ComponentManager.registerComponent (mkClass 1 "A" true)
          ComponentManager.new)) !! "A" = Some (Num 0).
Proof.
  destruct (C4_registerComponent_again (mkClass 1 "A" true)
              (ComponentManager.registerComponent (mkClass 1 "A" true)
                 ComponentManager.new)) as (_ & _ & H & _).
  - reflexivity.
  - exact H.
Defined.

(** C4 (as stated) fails: with one live component of class [A], a
    second [registerComponent(A)] sets the count of [A] back to 0. *)
Lemma C4_counterexample :
  let A := mkClass 1 "A" true in
  let m := ComponentManager.componentAddedToEntity A
             (ComponentManager.registerComponent A ComponentManager.new) in
  ComponentManager.Components m !! "A" = Some A /\
  ComponentManager.numComponents m !! "A" = Some (Num 1) /\
  ComponentManager.numComponents
    (ComponentManager.registerComponent A m) !! "A" = Some (Num 0) /\
  ComponentManager.registerComponent A m <> m.
Proof.
  intros A m. split; [reflexivity|]. split; [reflexivity|].
  split; [reflexivity|].
  intros Heq. apply (f_equal (fun x =>
    ComponentManager.numComponents x !! "A")) in Heq.
  vm_compute in Heq. congruence.
Qed.

(** ** Claims about entity ids *)

(** What [expand] does on the entity pool: [n] new entity objects at the
    next [n] references, with the next [n] ids, in this order on the
    free list. *)
Lemma expand_loop_entities (n : nat) (fl : list EntityRef) (h : Heap.t) :
  let r := ObjectPool.expand_loop Heap.createEntityObject n fl h in
  fst r = fl ++ seq (Heap.allocated h) n /\
  Heap.allocated (snd r) = (Heap.allocated h + n)%nat /\
  Heap.nextId (snd r) = Heap.nextId h + Z.of_nat n /\
  (forall i, (i < n)%nat ->
     exists e, Heap.objects (snd r) !! (Heap.allocated h + i)%nat = Some e /\
               Entity.id e = Heap.nextId h + Z.of_nat i) /\
  (forall k, (k < Heap.allocated h)%nat ->
     Heap.objects (snd r) !! k = Heap.objects h !! k).
Proof.
  revert fl h. induction n as [|n IH]; intros fl h; simpl.
  - rewrite app_nil_r. repeat split; try lia; done.
  - specialize (IH (push fl (Heap.allocated h))
                  {| Heap.objects :=
                       <[Heap.allocated h :=
                           fst (Entity.new false (Heap.nextId h))]>
                         (Heap.objects h);
                     Heap.allocated := S (Heap.allocated h);
                     Heap.nextId := Heap.nextId h + 1 |}).
    simpl in IH. destruct IH as (Hfl & Hal & Hid & Hnew & Hold).
    split; [|split; [|split; [|split]]].
    + rewrite Hfl. unfold push. by rewrite <- app_assoc.
    + rewrite Hal. lia.
    + rewrite Hid. lia.
    + intros i Hi. destruct i as [|i].
      * rewrite Nat.add_0_r, Hold by lia. rewrite lookup_insert_eq.
        eexists. split; [done|]. simpl. lia.
      * destruct (Hnew i ltac:(lia)) as (e & He & Hide).
        exists e. split.
        -- rewrite <- He. f_equal. lia.
        -- rewrite Hide. lia.
    + intros k Hk. rewrite Hold by lia. by rewrite lookup_insert_ne by lia.
Qed.

(** C5 (amended): [createEntity] does not assign [id].  It returns the
    entity taken from the pool with the id that entity already has: for
    a pool with an empty free list, the id of the last entity of the
    batch constructed by [expand], that is the counter at the call plus
    [Math.round(count * 0.2)]; for a recycled entity, the id it holds
    in the pool (the one [reset] gave it on release), and the counter is
    not advanced. *)
Theorem C5_createEntity_keeps_pool_id (w : EntityManager.t) :
  0 <= ObjectPool.count (EntityManager._entityPool w) ->
  (forall r, r ∈ ObjectPool.freeList (EntityManager._entityPool w) ->
     is_Some (EntityManager.get r w)) ->
  exists ref w' entity',
    EntityManager.createEntity w = Some (ref, w') /\
    EntityManager.get ref w' = Some entity' /\
    match ObjectPool.freeList (EntityManager._entityPool w) with
    | [] =>
        Entity.id entity'
        = Heap.nextId (EntityManager.heap w)
          + (ObjectPool.count (EntityManager._entityPool w) + 2) / 5
    | _ :: _ =>
        exists entity,
          last (ObjectPool.freeList (EntityManager._entityPool w)) = Some ref /\
          EntityManager.get ref w = Some entity /\
          Entity.id entity' = Entity.id entity /\
          Heap.nextId (EntityManager.heap w')
          = Heap.nextId (EntityManager.heap w)
    end.
Proof.
  intros Hc Hlive. unfold EntityManager.createEntity.
  destruct (ObjectPool.freeList (EntityManager._entityPool w))
    as [|r0 fl0] eqn:Hfl.
  - unfold ObjectPool.aquire, ObjectPool.expand. rewrite Hfl. simpl.
    set (g := ObjectPool.growth (EntityManager._entityPool w)).
    assert (g = (ObjectPool.count (EntityManager._entityPool w) + 2) / 5 + 1)
      as Hg by (unfold g, ObjectPool.growth; by rewrite Math_round_fifth).
    pose proof (Z.div_pos (ObjectPool.count (EntityManager._entityPool w) + 2)
                  5 ltac:(lia) ltac:(lia)) as Hpos.
    pose proof (expand_loop_entities (Z.to_nat g) [] (EntityManager.heap w))
      as (Hl & Hal & Hid & Hnew & Hold).
    destruct (ObjectPool.expand_loop Heap.createEntityObject (Z.to_nat g) []
                (EntityManager.heap w)) as [fl h] eqn:Hloop.
    simpl in *. subst fl.
    destruct (Z.to_nat g) as [|m] eqn:Hm; [lia|].
    rewrite seq_S, last_snoc. simpl.
    destruct (Hnew m ltac:(lia)) as (e & He & Hide).
    rewrite He. simpl.
    eexists _, _, _. split; [reflexivity|].
    split.
    + unfold EntityManager.get, EntityManager.emit. simpl.
      apply lookup_insert_eq.
    + simpl. rewrite Hide. lia.
  - unfold ObjectPool.aquire. rewrite Hfl. simpl length.
    replace (Z.of_nat (S (length fl0)) <=? 0) with false
      by (symmetry; apply Z.leb_gt; lia).
    unfold pop. rewrite <- Hfl.
    assert (exists r, last (ObjectPool.freeList (EntityManager._entityPool w))
                      = Some r) as [r Hr].
    { rewrite Hfl. clear. revert r0.
      induction fl0 as [|x l IH]; intros r0; [by eexists|].
      destruct (IH x) as [r Hr]. exists r. exact Hr. }
    rewrite Hr. simpl.
    destruct (Hlive r) as [e He].
    { apply last_Some_elem_of in Hr. by rewrite Hfl in Hr. }
    unfold EntityManager.get in He. rewrite He. simpl.
    eexists _, _, _. split; [reflexivity|]. split.
    + unfold EntityManager.get, EntityManager.emit. simpl.
      apply lookup_insert_eq.
    + exists e. rewrite Hfl in Hr. simpl. done.
Qed.

Lemma C5_witness :
  exists ref w' entity',
    EntityManager.createEntity fresh_manager = Some (ref, w') /\
    EntityManager.get ref w' = Some entity' /\
    Entity.id entity' = 0.
Proof.
  destruct (C5_createEntity_keeps_pool_id fresh_manager)
    as (ref & w' & e & H1 & H2 & H3).
  - simpl. lia.
  - intros r Hr. simpl in Hr. by apply elem_of_nil in Hr.
  - exists ref, w', e. simpl in H3. auto.
Defined.

(** C5 (as stated) fails.  The fourth [createEntity] of a new world
    finds the pool empty at [count = 3]; [expand] constructs two
    entities, with ids 3 and 4, and the one returned is the second:
    its id is 4 while the counter stood at 3 when the call was made.
    Likewise an entity released with [remove(true)] and created again
    comes back with the id 1 that [reset] gave it, while the counter
    stands at 2. *)
Lemma C5_counterexample :
  (w1 ← snd <$> EntityManager.createEntity fresh_manager;
   w2 ← snd <$> EntityManager.createEntity w1;
   w3 ← snd <$> EntityManager.createEntity w2;
   '(ref, w4) ← EntityManager.createEntity w3;
   entity ← EntityManager.get ref w4;
   Some (Heap.nextId (EntityManager.heap w3), Entity.id entity))
  = Some (3, 4) /\
  ('(ref, w1) ← EntityManager.createEntity fresh_manager;
   w2 ← EntityManager.removeEntity ref true w1;
   '(ref', w3) ← EntityManager.createEntity w2;
   entity ← EntityManager.get ref' w3;
   Some (ref', Heap.nextId (EntityManager.heap w2), Entity.id entity))
  = Some (0%nat, 2, 1).
Proof. split; vm_compute; reflexivity. Qed.

(** ** Sorting facts *)

Section SortFacts.

Context {A : Type}.

Variable compareFn : A -> A -> Z.

Lemma sort_insert_Permutation x l :
  sort_insert compareFn x l ≡ₚ x :: l.
Proof.
  induction l as [|y l IH]; simpl; [done|].
  destruct (compareFn x y <=? 0); [done|].
  rewrite IH. apply Permutation_swap.
Qed.

Lemma Array_sort_Permutation l : Array_sort compareFn l ≡ₚ l.
Proof.
  induction l as [|x l IH]; simpl; [done|].
  rewrite sort_insert_Permutation. by rewrite IH.
Qed.

Hypothesis compare_total :
  forall a b, compareFn a b <= 0 \/ compareFn b a <= 0.

Lemma sort_insert_Sorted x l :
  Sorted (comes_first compareFn) l -> Sorted (comes_first compareFn) (sort_insert compareFn x l).
Proof.
  induction 1 as [|y l Hl IH Hhd]; simpl.
  - by repeat constructor.
  - destruct (Z.leb_spec (compareFn x y) 0) as [Hle|Hgt].
    + constructor; [by constructor|]. by constructor.
    + constructor; [exact IH|].
      destruct l as [|z l]; simpl.
      * constructor. destruct (compare_total x y); [lia|done].
      * destruct (compareFn x z <=? 0).
        -- constructor. destruct (compare_total x y); [lia|done].
        -- constructor. by inversion Hhd.
Qed.

Lemma Array_sort_Sorted l : Sorted (comes_first compareFn) (Array_sort compareFn l).
Proof.
  induction l as [|x l IH]; simpl; [constructor|].
  by apply sort_insert_Sorted.
Qed.

(** Sorting a sorted array leaves it as it is. *)
Lemma Array_sort_id l :
  Sorted (comes_first compareFn) l -> Array_sort compareFn l = l.
Proof.
  induction 1 as [|x l Hl IH Hhd]; simpl; [done|].
  rewrite IH. destruct Hhd as [|y l Hxy]; simpl; [done|].
  unfold comes_first in Hxy. by destruct (Z.leb_spec (compareFn x y) 0); [|lia].
Qed.

End SortFacts.

Lemma default_compare_leb a b :
  default_compare a b <= 0 <-> String.le a b.
Proof.
  unfold default_compare, String.le, String.leb.
  destruct (a ?= b)%string; simpl; split; try done; lia.
Qed.

Lemma default_compare_total a b :
  default_compare a b <= 0 \/ default_compare b a <= 0.
Proof.
  rewrite !default_compare_leb. apply String.le_total.
Qed.

Lemma Array_sort_strings (l1 l2 : list string) :
  l1 ≡ₚ l2 ->
  Array_sort default_compare l1 = Array_sort default_compare l2.
Proof.
  intros Hp.
  assert (Transitive (comes_first default_compare)) as Htrans.
  { intros a b c. unfold comes_first. rewrite !default_compare_leb.
    apply String.le_po. }
  assert (AntiSymm (=) (comes_first default_compare)) as Hanti.
  { intros a b. unfold comes_first. rewrite !default_compare_leb.
    apply String.le_po. }
  apply (Sorted_unique (comes_first default_compare)).
  - apply Array_sort_Sorted, default_compare_total.
  - apply Array_sort_Sorted, default_compare_total.
  - by rewrite !Array_sort_Permutation.
Qed.

(** ** Claims about query signatures *)

Lemma queryKey_signature (spec1 spec2 : list QueryTerm) :
  map signature_name spec1 ≡ₚ map signature_name spec2 ->
  queryKey spec1 = queryKey spec2.
Proof.
  intros Hp. unfold queryKey. f_equal.
  apply Array_sort_strings.
  unfold signature_name in Hp. by rewrite !map_map.
Qed.

Lemma find_query_key k qs q :
  EntityManager.find_query k qs = Some q -> Query.key q = k.
Proof.
  unfold EntityManager.find_query. intros Hf.
  apply find_some in Hf as [_ Hk]. by apply bool_decide_eq_true in Hk.
Qed.

Lemma find_query_push_new k qs q :
  EntityManager.find_query k qs = None -> Query.key q = k ->
  EntityManager.find_query k (push qs q) = Some q.
Proof.
  unfold EntityManager.find_query, push. intros Hn Hk.
  induction qs as [|q0 qs IH]; simpl in *.
  - by rewrite bool_decide_eq_true_2.
  - destruct (bool_decide (Query.key q0 = k)); [done|]. auto.
Qed.

Lemma seed_key q refs h : Query.key (fst (EntityManager.seed q refs h)) = Query.key q.
Proof.
  revert q h. induction refs as [|r refs IH]; intros q h; simpl; [done|].
  destruct (Heap.objects h !! r) as [e|]; [|apply IH].
  destruct (Query.match_ q e); [|apply IH]. by rewrite IH.
Qed.

Lemma split_terms_positive spec C :
  Has C ∈ spec -> (Query.split_terms spec).1 <> [].
Proof.
  induction spec as [|T spec IH]; intros Hin.
  - by apply elem_of_nil in Hin.
  - simpl. destruct T as [D|D];
      destruct (Query.split_terms spec) as [cs ns]; simpl; [done|].
    apply IH. apply elem_of_cons in Hin as [?|?]; [done|done].
Qed.

(** C7: two specifications whose terms have the same lower-cased names
    with the same multiplicities, in whatever order and whatever the
    case of the class names, have the same signature, and once
    [queryComponents] has returned a query for the first it returns
    that same query for the second and creates nothing.  With one
    positive term in the first specification the first call does
    return. *)
Theorem C7_same_signature_same_query (spec1 spec2 : list QueryTerm)
    (w : EntityManager.t) :
  map signature_name spec1 ≡ₚ map signature_name spec2 ->
  queryKey spec1 = queryKey spec2 /\
  (forall query w',
     EntityManager.queryComponents spec1 w = Some (query, w') ->
     EntityManager.queryComponents spec2 w' = Some (query, w') /\
     exists q, EntityManager.find_query query (EntityManager._queries w')
               = Some q) /\
  ((exists C, Has C ∈ spec1) ->
   is_Some (EntityManager.queryComponents spec1 w)).
Proof.
  intros Hp. pose proof (queryKey_signature _ _ Hp) as Hkey.
  split; [exact Hkey|]. split.
  - intros query w'. unfold EntityManager.queryComponents, EntityManager.getQuery.
    rewrite <- Hkey.
    destruct (EntityManager.find_query (queryKey spec1)
                (EntityManager._queries w)) as [q|] eqn:Hf.
    + intros [= <- <-]. rewrite Hf. split; [done|].
      exists q. by rewrite (find_query_key _ _ _ Hf).
    + destruct (EntityManager.Query_new spec1 w) as [[q h]|] eqn:Hn;
        simpl; [|done].
      intros [= <- <-]. simpl.
      assert (Query.key q = queryKey spec1) as Hk.
      { unfold EntityManager.Query_new in Hn.
        destruct (Query.split_terms spec1) as [cs ns].
        destruct (Z.of_nat (length cs) =? 0); [done|].
        pose proof (seed_key
          {| Query.Components := cs; Query.NotComponents := ns;
             Query.entities := [];
             Query.eventDispatcher := EventDispatcher.new;
             Query.reactive := false; Query.key := queryKey spec1 |}
          (EntityManager._entities w) (EntityManager.heap w)) as Hsk.
        destruct (EntityManager.seed _ _ _) as [q' h'].
        simpl in Hsk. by injection Hn as -> _. }
      rewrite (find_query_push_new _ _ _ Hf Hk).
      split; [done|]. exists q. rewrite Hk.
      apply (find_query_push_new _ _ _ Hf Hk).
  - intros [C HC]. unfold EntityManager.queryComponents, EntityManager.getQuery.
    destruct (EntityManager.find_query (queryKey spec1)
                (EntityManager._queries w)); [by eexists|].
    unfold EntityManager.Query_new.
    pose proof (split_terms_positive _ _ HC) as Hne.
    destruct (Query.split_terms spec1) as [cs ns]. simpl in Hne.
    destruct cs as [|c cs]; [done|]. simpl.
    destruct (EntityManager.seed _ _ _). by eexists.
Qed.

Lemma C7_witness :
  queryKey [Has (mkClass 1 "Position" true); Not (mkClass 3 "Dead" false)]
  = queryKey [Not (mkClass 3 "Dead" false);
              Has (mkClass 2 "position" true)].
Proof.
  apply (C7_same_signature_same_query
           [Has (mkClass 1 "Position" true); Not (mkClass 3 "Dead" false)]
           [Not (mkClass 3 "Dead" false); Has (mkClass 2 "position" true)]
           fresh_manager).
  vm_compute. apply Permutation_swap.
Defined.

(** ** Claims about the order of systems *)

Lemma precedes_spec a b :
  precedes a b <->
  System.priority a < System.priority b \/
  (System.priority a = System.priority b /\ System.order a <= System.order b).
Proof.
  unfold precedes, World.compare_systems.
  destruct (Z.eqb_spec (System.priority a - System.priority b) 0); lia.
Qed.


Global Instance precedes_trans : Transitive precedes.
Proof. intros a b c. rewrite !precedes_spec. lia. Qed.










(** ** What the query callbacks touch *)

Lemma same_but_queries_refl e : same_but_queries e e.
Proof. unfold same_but_queries. by destruct e. Qed.

Lemma same_but_queries_trans e1 e2 e3 :
  same_but_queries e1 e2 -> same_but_queries e2 e3 -> same_but_queries e1 e3.
Proof.
  unfold same_but_queries. intros H12 H23. rewrite H23 at 1.
  rewrite H12. by destruct e1.
Qed.

Lemma same_but_queries_types e e' :
  same_but_queries e e' ->
  Entity._ComponentTypes e' = Entity._ComponentTypes e /\
  Entity._components e' = Entity._components e /\
  Entity._componentsToRemove e' = Entity._componentsToRemove e /\
  Entity._ComponentTypesToRemove e' = Entity._ComponentTypesToRemove e /\
  Entity.id e' = Entity.id e /\ Entity._world e' = Entity._world e.
Proof. unfold same_but_queries. intros ->. by destruct e. Qed.

Lemma hasComponent_same e e' C :
  Entity._ComponentTypes e' = Entity._ComponentTypes e ->
  Entity.hasComponent C e' = Entity.hasComponent C e.
Proof. unfold Entity.hasComponent. by intros ->. Qed.

Lemma hasAllComponents_spec Cs e :
  Entity.hasAllComponents Cs e = true <->
  forall C, C ∈ Cs -> C ∈ Entity._ComponentTypes e.
Proof.
  induction Cs as [|C Cs IH]; simpl.
  - split; [|done]. intros _ C HC. by apply elem_of_nil in HC.
  - unfold Entity.hasComponent at 1.
    destruct (includes (Entity._ComponentTypes e) C) eqn:Hi; simpl.
    + apply includes_spec in Hi. rewrite IH. split.
      * intros H D HD. apply elem_of_cons in HD as [->|HD]; auto.
      * intros H D HD. apply H. by right.
    + apply includes_false in Hi. split; [done|].
      intros H. exfalso. apply Hi, H. by left.
Qed.

Lemma hasAnyComponents_spec Cs e :
  Entity.hasAnyComponents Cs e = true <->
  exists C, C ∈ Cs /\ C ∈ Entity._ComponentTypes e.
Proof.
  induction Cs as [|C Cs IH]; simpl.
  - split; [done|]. intros (C & HC & _). by apply elem_of_nil in HC.
  - unfold Entity.hasComponent at 1.
    destruct (includes (Entity._ComponentTypes e) C) eqn:Hi; simpl.
    + apply includes_spec in Hi. split; [|done]. intros _. exists C.
      split; [by left|done].
    + apply includes_false in Hi. rewrite IH. split.
      * intros (D & HD & Ht). exists D. split; [by right|done].
      * intros (D & HD & Ht). apply elem_of_cons in HD as [->|HD]; [done|].
        by exists D.
Qed.

(** [match] says: every positive type attached, no negated type
    attached. *)
Lemma match_spec q e :
  Query.match_ q e = true <->
  (forall C, C ∈ Query.Components q -> C ∈ Entity._ComponentTypes e) /\
  (forall C, C ∈ Query.NotComponents q -> C ∉ Entity._ComponentTypes e).
Proof.
  unfold Query.match_. rewrite andb_true_iff, negb_true_iff.
  rewrite hasAllComponents_spec.
  assert (Entity.hasAnyComponents (Query.NotComponents q) e = false <->
          ~ exists C, C ∈ Query.NotComponents q /\
                      C ∈ Entity._ComponentTypes e) as ->.
  { rewrite <- hasAnyComponents_spec.
    destruct (Entity.hasAnyComponents _ _); split; try done.
    all: intros H; by exfalso. }
  split; intros [H1 H2]; (split; [done|]).
  - intros C HC Ht. apply H2. by exists C.
  - intros (C & HC & Ht). by apply (H2 C).
Qed.

Lemma match_same q q' e e' :
  Query.Components q' = Query.Components q ->
  Query.NotComponents q' = Query.NotComponents q ->
  Entity._ComponentTypes e' = Entity._ComponentTypes e ->
  Query.match_ q' e' = Query.match_ q e.
Proof.
  intros Hc Hn Ht. apply eq_true_iff_eq.
  rewrite !match_spec, Hc, Hn, Ht. done.
Qed.

Lemma addEntity_frame q ref e :
  same_but_queries e (Query.addEntity q ref e).1.2.
Proof. unfold same_but_queries. by destruct e. Qed.

Lemma removeEntity_frame q ref e :
  same_but_queries e (Query.removeEntity q ref e).1.2.
Proof.
  unfold Query.removeEntity.
  destruct (negb (indexOf (Query.entities q) ref =? -1)); simpl.
  - unfold same_but_queries. by destruct e.
  - apply same_but_queries_refl.
Qed.

Lemma onEntityRemoved_body_frame ref :
  frames_entity (EntityManager.onEntityRemoved_body ref).
Proof.
  intros q e. unfold EntityManager.onEntityRemoved_body.
  destruct (negb _); [apply removeEntity_frame|apply same_but_queries_refl].
Qed.

Lemma onEntityComponentAdded_body_frame ref C :
  frames_entity (EntityManager.onEntityComponentAdded_body ref C).
Proof.
  intros q e. unfold EntityManager.onEntityComponentAdded_body.
  destruct (_ && _); [apply removeEntity_frame|].
  destruct (_ || _); [apply same_but_queries_refl|apply addEntity_frame].
Qed.

Lemma onEntityComponentRemoved_body_frame ref C :
  frames_entity (EntityManager.onEntityComponentRemoved_body ref C).
Proof.
  intros q e. unfold EntityManager.onEntityComponentRemoved_body.
  destruct (_ && _ && _); [apply addEntity_frame|].
  destruct (_ && _ && _); [apply removeEntity_frame|].
  apply same_but_queries_refl.
Qed.

Lemma for_queries_frame body qs e :
  frames_entity body ->
  same_but_queries e (EntityManager.for_queries body qs e).1.2.
Proof.
  intros Hb. revert e. induction qs as [|q qs IH]; intros e; simpl.
  - apply same_but_queries_refl.
  - pose proof (Hb q e) as H1. destruct (body q e) as [[q' e1] ev1].
    pose proof (IH e1) as H2.
    destruct (EntityManager.for_queries body qs e1) as [[qs' e2] ev2].
    simpl in *. by eapply same_but_queries_trans.
Qed.

(** The effect of one callback of the query manager on the state. *)
Lemma run_queries_effect body ref w w' :
  EntityManager.run_queries body ref w = Some w' ->
  exists e,
    EntityManager.get ref w = Some e /\
    w' = EntityManager.log (EntityManager.for_queries body
                              (EntityManager._queries w) e).2
           (EntityManager.put ref
              (EntityManager.for_queries body
                 (EntityManager._queries w) e).1.2
              (EntityManager.set_queries
                 (EntityManager.for_queries body
                    (EntityManager._queries w) e).1.1 w)).
Proof.
  unfold EntityManager.run_queries.
  destruct (EntityManager.get ref w) as [e|]; simpl; [|done].
  destruct (EntityManager.for_queries body (EntityManager._queries w) e)
    as [[qs e'] evs] eqn:Hf.
  intros [= <-]. exists e. split; [done|]. by rewrite Hf.
Qed.

Lemma get_put ref e w : EntityManager.get ref (EntityManager.put ref e w) = Some e.
Proof. unfold EntityManager.get, EntityManager.put. simpl. apply lookup_insert_eq. Qed.

Lemma get_put_ne ref r e w :
  r <> ref ->
  EntityManager.get r (EntityManager.put ref e w) = EntityManager.get r w.
Proof.
  intros Hne. unfold EntityManager.get, EntityManager.put. simpl.
  by apply lookup_insert_ne.
Qed.

Lemma match_false q e :
  Query.match_ q e = false ->
  (exists C, C ∈ Query.Components q /\ C ∉ Entity._ComponentTypes e) \/
  (exists C, C ∈ Query.NotComponents q /\ C ∈ Entity._ComponentTypes e).
Proof.
  unfold Query.match_. rewrite andb_false_iff, negb_false_iff.
  intros [H|H]; [left|right; by apply hasAnyComponents_spec].
  induction (Query.Components q) as [|C Cs IH]; simpl in H; [done|].
  unfold Entity.hasComponent at 1 in H.
  destruct (includes (Entity._ComponentTypes e) C) eqn:Hi; simpl in H.
  - destruct (IH H) as (D & HD & Ht). exists D. split; [by right|done].
  - exists C. split; [by left|]. by apply includes_false.
Qed.

(** ** One turn of a query callback

    [linked] is the agreement between a query's entity vector and the
    entity's list of queries that the callbacks rely on. *)

Lemma similar_refl ref q : similar ref q q.
Proof. by repeat split. Qed.

Lemma similar_trans ref q1 q2 q3 :
  similar ref q1 q2 -> similar ref q2 q3 -> similar ref q1 q3.
Proof.
  intros (Hk & Hc & Hn & Hr & Hd & Ho) (Hk' & Hc' & Hn' & Hr' & Hd' & Ho').
  split; [congruence|]. split; [congruence|]. split; [congruence|].
  split; [congruence|]. split; [auto|].
  intros r Hne. by rewrite Ho', Ho.
Qed.

Section Turn.

Variables (ref : EntityRef) (q : Query.t) (e : Entity.t).

Hypothesis entities_nodup : NoDup (Query.entities q).

Hypothesis queries_nodup : NoDup (Entity.queries e).

Hypothesis is_linked : linked ref q e.

Lemma keep_ok : step_ok ref q e (q, e, []) (includes (Query.entities q) ref).
Proof.
  split; simpl;
    [apply similar_refl|done|done|done|done|symmetry; apply includes_spec].
Qed.

Lemma keep_absent_ok :
  ref ∉ Query.entities q -> step_ok ref q e (q, e, []) false.
Proof.
  intros Hn. split; simpl; [apply similar_refl|done|done|done|done|].
  split; [done|discriminate].
Qed.

Lemma addEntity_ok :
  ref ∉ Query.entities q -> step_ok ref q e (Query.addEntity q ref e) true.
Proof.
  intros Hn. unfold Query.addEntity. split; simpl.
  - repeat split; simpl; try done.
    + intros _. by apply NoDup_push.
    + rewrite elem_of_push. tauto.
    + rewrite elem_of_push. tauto.
  - by apply NoDup_push.
  - apply NoDup_push; [done|]. intros Hk. by apply is_linked in Hk.
  - intros k Hk. rewrite elem_of_push. split; [|tauto].
    intros [?|?]; [done|]. by subst.
  - unfold linked. simpl. rewrite !elem_of_push. tauto.
  - rewrite elem_of_push. tauto.
Qed.

Lemma removeEntity_ok : step_ok ref q e (Query.removeEntity q ref e) false.
Proof.
  unfold Query.removeEntity.
  destruct (Z.eqb_spec (indexOf (Query.entities q) ref) (-1)) as [Ha|Hp];
    simpl.
  - apply keep_absent_ok. by apply indexOf_absent.
  - assert (ref ∈ Query.entities q) as Hin.
    { destruct (decide (ref ∈ Query.entities q)); [done|].
      exfalso. by apply Hp, indexOf_absent. }
    pose proof Hin as Hk. apply is_linked in Hk.
    rewrite !splice1_indexOf by done.
    split; simpl.
    + repeat split; simpl; try done.
      * intros _. by apply NoDup_remove_first.
      * by apply elem_of_remove_first.
      * intros Hr. by apply elem_of_remove_first_ne.
    + by apply NoDup_remove_first.
    + by apply NoDup_remove_first.
    + intros k Hne. by apply elem_of_remove_first_ne.
    + unfold linked. simpl. split; intros Habs; exfalso;
        revert Habs; by apply not_elem_of_remove_first.
    + split; [|discriminate]. intros Habs. exfalso. revert Habs.
      by apply not_elem_of_remove_first.
Qed.

End Turn.

Lemma onEntityComponentAdded_turn ref C :
  turn_ok ref (EntityManager.onEntityComponentAdded_body ref C)
    (after_added ref C).
Proof.
  intros q e Hq He Hl.
  unfold EntityManager.onEntityComponentAdded_body, after_added.
  destruct (includes (Query.NotComponents q) C &&
            includes (Query.entities q) ref); [by apply removeEntity_ok|].
  destruct (includes (Query.entities q) ref) eqn:Hm.
  - rewrite orb_true_r. rewrite <- Hm. by apply keep_ok.
  - rewrite orb_false_r.
    destruct (negb (includes (Query.Components q) C) ||
              negb (Query.match_ q e)).
    + rewrite <- Hm. by apply keep_ok.
    + apply addEntity_ok; try done. by apply includes_false.
Qed.

Lemma onEntityComponentRemoved_turn ref C :
  turn_ok ref (EntityManager.onEntityComponentRemoved_body ref C)
    (after_removed ref C).
Proof.
  intros q e Hq He Hl.
  unfold EntityManager.onEntityComponentRemoved_body, after_removed.
  destruct (includes (Query.entities q) ref) eqn:Hm; simpl.
  - rewrite andb_false_r. simpl.
    destruct (includes (Query.Components q) C && true &&
              negb (Query.match_ q e)); [by apply removeEntity_ok|].
    rewrite <- Hm. by apply keep_ok.
  - rewrite andb_false_r. simpl. rewrite andb_true_r.
    destruct (includes (Query.NotComponents q) C && Query.match_ q e).
    + apply addEntity_ok; try done. by apply includes_false.
    + rewrite <- Hm. by apply keep_ok.
Qed.

Lemma onEntityRemoved_turn ref :
  turn_ok ref (EntityManager.onEntityRemoved_body ref) (fun _ _ => false).
Proof.
  intros q e Hq He Hl. unfold EntityManager.onEntityRemoved_body.
  destruct (Z.eqb_spec (indexOf (Entity.queries e) (Query.key q)) (-1))
    as [Ha|Hp]; simpl.
  - apply keep_absent_ok; try done.
    apply indexOf_absent in Ha. intros Hin. by apply Hl in Hin.
  - by apply removeEntity_ok.
Qed.

(** ** The loop over all queries *)

Lemma after_added_stable ref C : stable (after_added ref C).
Proof.
  intros q e e' H. apply same_but_queries_types in H as (Ht & _).
  unfold after_added. by rewrite (match_same q q e e').
Qed.

Lemma after_removed_stable ref C : stable (after_removed ref C).
Proof.
  intros q e e' H. apply same_but_queries_types in H as (Ht & _).
  unfold after_removed. by rewrite (match_same q q e e').
Qed.

Lemma for_queries_ok ref body after :
  turn_ok ref body after -> frames_entity body -> stable after ->
  forall qs e,
    NoDup (map Query.key qs) ->
    Forall (fun q => NoDup (Query.entities q)) qs ->
    NoDup (Entity.queries e) ->
    Forall (fun q => linked ref q e) qs ->
    loop_ok ref after qs e (EntityManager.for_queries body qs e).
Proof.
  intros Hturn Hframe Hstable.
  induction qs as [|q qs IH]; intros e Hkeys Hnd He Hl; simpl.
  - split; [done|]. split; [done|constructor].
  - apply NoDup_cons in Hkeys as [Hq Hkeys].
    apply Forall_cons in Hnd as [Hndq Hnd].
    apply Forall_cons in Hl as [Hlq Hl].
    pose proof (Hturn q e Hndq He Hlq) as Hstep.
    pose proof (Hframe q e) as Hfr.
    destruct (body q e) as [[q' e1] ev1]. simpl in Hfr.
    destruct Hstep as [Hsim Hnd' Hqnd Hothers Hlink Hmem]. simpl in *.
    assert (Forall (fun q2 => linked ref q2 e1) qs) as Hl1.
    { rewrite Forall_forall in Hl |- *. intros q2 Hq2.
      specialize (Hl q2 Hq2). unfold linked in *.
      rewrite Hl. symmetry. apply Hothers.
      intros Heq. apply Hq. rewrite <- Heq.
      apply list_elem_of_fmap. by exists q2. }
    specialize (IH e1 Hkeys Hnd Hqnd Hl1).
    destruct (EntityManager.for_queries body qs e1) as [[qs' e2] ev2].
    destruct IH as (Hnd2 & Hothers2 & Hall). simpl in *.
    split; [done|]. split.
    + intros k Hk. apply not_elem_of_cons in Hk as [Hk1 Hk2].
      rewrite (Hothers2 k Hk2). by apply Hothers.
    + constructor.
      * split; [done|]. split; [done|]. split; [|done].
        unfold linked in *. rewrite Hlink.
        destruct Hsim as (Hkey & _). rewrite Hkey.
        symmetry. by apply Hothers2.
      * eapply Forall2_impl; [exact Hall|].
        intros q2 q2' (H1 & H2 & H3 & H4).
        split; [done|]. split; [done|]. split; [done|].
        by rewrite <- (Hstable q2 e e1 Hfr).
Qed.

Lemma Forall2_similar_keys ref qs qs' :
  Forall2 (similar ref) qs qs' -> map Query.key qs' = map Query.key qs.
Proof.
  induction 1 as [|q q' qs qs' Hs _ IH]; simpl; [done|].
  destruct Hs as (-> & _). by rewrite IH.
Qed.

Lemma loop_ok_similar ref after qs e r :
  loop_ok ref after qs e r -> Forall2 (similar ref) qs r.1.1.
Proof.
  intros (_ & _ & Hall). eapply Forall2_impl; [exact Hall|].
  by intros q q' (H & _).
Qed.

(** ** The index invariant *)

Lemma Forall2_Forall_r {A B} (P : A -> Prop) (Q : B -> Prop)
    (R : A -> B -> Prop) l l' :
  (forall x y, P x -> R x y -> Q y) ->
  Forall2 R l l' -> Forall P l -> Forall Q l'.
Proof.
  intros H. induction 1 as [|x y l l' Hxy _ IH]; intros Hl; [constructor|].
  apply Forall_cons in Hl as [Hx Hl]. constructor; eauto.
Qed.

Lemma Forall2_similar_refl ref qs : Forall2 (similar ref) qs qs.
Proof. induction qs; constructor; [apply similar_refl|done]. Qed.

Lemma Forall2_similar_trans ref qs1 qs2 qs3 :
  Forall2 (similar ref) qs1 qs2 -> Forall2 (similar ref) qs2 qs3 ->
  Forall2 (similar ref) qs1 qs3.
Proof.
  intros H12. revert qs3. induction H12 as [|q1 q2 l1 l2 H _ IH];
    intros qs3 H23; inversion H23; subst; constructor.
  - by eapply similar_trans.
  - by apply IH.
Qed.

Lemma framed_refl ref w : framed ref w w.
Proof. split; [done|apply Forall2_similar_refl]. Qed.

Lemma framed_trans ref w1 w2 w3 :
  framed ref w1 w2 -> framed ref w2 w3 -> framed ref w1 w3.
Proof.
  intros [Hg Hq] [Hg' Hq']. split.
  - intros r Hr. by rewrite Hg', Hg.
  - by eapply Forall2_similar_trans.
Qed.

Lemma framed_sound ref w w' r :
  framed ref w w' -> r <> ref -> sound_at w r -> sound_at w' r.
Proof.
  intros [Hg Hq] Hne Hs e He. rewrite Hg in He by done.
  eapply Forall2_Forall_r; [|exact Hq|exact (Hs e He)].
  intros q q' Hm (Hk & Hc & Hn & _ & _ & Ho) Hin. simpl in *.
  rewrite (match_same q q' e e) by done. apply Hm. by apply Ho.
Qed.

Lemma framed_complete ref w w' r :
  framed ref w w' -> r <> ref -> complete_at w r -> complete_at w' r.
Proof.
  intros [Hg Hq] Hne Hs e He. rewrite Hg in He by done.
  eapply Forall2_Forall_r; [|exact Hq|exact (Hs e He)].
  intros q q' Hm (Hk & Hc & Hn & _ & _ & Ho) Hin. simpl in *.
  rewrite (match_same q q' e e) in Hin by done. apply Ho; auto.
Qed.

(** A state that agrees with a structured one on queries, entity
    objects and live entities is structured. *)
Lemma structured_ext w w' :
  EntityManager._queries w' = EntityManager._queries w ->
  (forall r e', EntityManager.get r w' = Some e' ->
     exists e, EntityManager.get r w = Some e /\
               Entity.queries e' = Entity.queries e) ->
  (forall r, r ∈ EntityManager._entities w' ->
     is_Some (EntityManager.get r w')) ->
  structured w -> structured w'.
Proof.
  intros Hq Hg Hl [H1 H2 H3 H4]. split.
  - by rewrite Hq.
  - by rewrite Hq.
  - intros r e' He'. destruct (Hg r e' He') as (e & He & Hqs).
    destruct (H3 r e He) as [Hnd Hlk]. rewrite Hq, Hqs. split; [done|].
    eapply Forall_impl; [exact Hlk|]. intros q. unfold linked.
    by rewrite Hqs.
  - done.
Qed.

Lemma structured_same w w' :
  EntityManager._queries w' = EntityManager._queries w ->
  EntityManager.heap w' = EntityManager.heap w ->
  EntityManager._entities w' = EntityManager._entities w ->
  structured w -> structured w'.
Proof.
  intros Hq Hh He Hst. apply (structured_ext w); [done| | |done].
  - intros r e' Hr. exists e'. unfold EntityManager.get in *.
    by rewrite <- Hh.
  - intros r Hr. unfold EntityManager.get. rewrite Hh.
    apply (live_objects _ Hst). by rewrite <- He.
Qed.

(** One callback of the query manager on a structured state. *)
Lemma callback_ok ref body after w w' :
  turn_ok ref body after -> frames_entity body -> stable after ->
  structured w ->
  EntityManager.run_queries body ref w = Some w' ->
  exists e e',
    EntityManager.get ref w = Some e /\
    EntityManager.get ref w' = Some e' /\
    same_but_queries e e' /\
    Forall2 (query_ok ref after e e') (EntityManager._queries w)
      (EntityManager._queries w') /\
    framed ref w w' /\ structured w' /\
    EntityManager._entities w' = EntityManager._entities w /\
    EntityManager.componentsManager w' = EntityManager.componentsManager w /\
    EntityManager.nextInstance w' = EntityManager.nextInstance w /\
    EntityManager.entitiesWithComponentsToRemove w'
    = EntityManager.entitiesWithComponentsToRemove w /\
    EntityManager.entitiesToRemove w' = EntityManager.entitiesToRemove w.
Proof.
  intros Hturn Hframe Hstable [H1 H2 H3 H4] Hrun.
  apply run_queries_effect in Hrun as (e & He & ->).
  destruct (H3 ref e He) as [Hnd Hlk].
  assert (Forall (fun q => NoDup (Query.entities q))
            (EntityManager._queries w)) as Hnds
    by (eapply Forall_impl; [exact H2|]; by intros q [? _]).
  pose proof (for_queries_ok ref body after Hturn Hframe Hstable
                (EntityManager._queries w) e H1 Hnds Hnd Hlk) as Hloop.
  pose proof (for_queries_frame body (EntityManager._queries w) e Hframe)
    as Hfr.
  destruct (EntityManager.for_queries body (EntityManager._queries w) e)
    as [[qs' e'] evs].
  destruct Hloop as (Hnd' & Hothers & Hall). simpl in *.
  assert (Forall2 (similar ref) (EntityManager._queries w) qs') as Hsim
    by (eapply Forall2_impl; [exact Hall|]; by intros q q' (H & _)).
  assert (forall r, r <> ref ->
            EntityManager.get r
              (EntityManager.log evs
                 (EntityManager.put ref e'
                    (EntityManager.set_queries qs' w)))
            = EntityManager.get r w) as Hget.
  { intros r Hr. unfold EntityManager.get. simpl.
    by rewrite lookup_insert_ne. }
  assert (EntityManager.get ref
            (EntityManager.log evs
               (EntityManager.put ref e' (EntityManager.set_queries qs' w)))
          = Some e') as Hget'.
  { unfold EntityManager.get. simpl. apply lookup_insert_eq. }
  exists e, e'. split; [done|]. split; [done|]. split; [done|].
  split; [done|]. split; [by split|]. split; [|done].
  split; simpl.
  - by rewrite (Forall2_similar_keys _ _ _ Hsim).
  - eapply Forall2_Forall_r; [|exact Hall|exact H2].
    intros q q' [_ Hne] ((_ & Hc & _) & Hndq & _). split; [done|].
    by rewrite Hc.
  - intros r er Her. destruct (decide (r = ref)) as [->|Hne].
    + rewrite Hget' in Her. injection Her as <-. split; [done|].
      eapply Forall2_Forall_r; [|exact Hall|exact Hlk].
      by intros q q' _ (_ & _ & Hl & _).
    + rewrite Hget in Her by done. destruct (H3 r er Her) as [Hndr Hlkr].
      split; [done|].
      eapply Forall2_Forall_r; [|exact Hsim|exact Hlkr].
      intros q q' Hl (Hk & _ & _ & _ & _ & Ho). unfold linked in *.
      by rewrite Hk, Ho.
  - intros r Hr. destruct (decide (r = ref)) as [->|Hne].
    + rewrite Hget'. by eexists.
    + rewrite Hget by done. by apply H4.
Qed.

(** ** The decisions of the callbacks against [match] *)

Section Decisions.

Variables (ref : EntityRef) (C : ComponentClass) (q : Query.t).

Variables (e0 e1 : Entity.t).

Lemma after_added_sound :
  attached_to C e0 e1 ->
  (ref ∈ Query.entities q -> Query.match_ q e0 = true) ->
  after_added ref C q e1 = true -> Query.match_ q e1 = true.
Proof.
  intros Hat Hs. unfold after_added.
  destruct (includes (Query.NotComponents q) C) eqn:Hn;
    destruct (includes (Query.entities q) ref) eqn:Hm; simpl; try done.
  - rewrite orb_false_r.
    destruct (includes (Query.Components q) C); simpl; [|done].
    by destruct (Query.match_ q e1).
  - rewrite orb_true_r. intros _.
    apply includes_spec in Hm. specialize (Hs Hm).
    apply includes_false in Hn.
    apply match_spec in Hs as [Hp Hneg]. apply match_spec. split.
    + intros D HD. apply Hat. left. by apply Hp.
    + intros D HD Ht. apply Hat in Ht as [Ht| ->]; [by apply (Hneg D)|done].
  - rewrite orb_false_r.
    destruct (includes (Query.Components q) C); simpl; [|done].
    by destruct (Query.match_ q e1).
Qed.

Lemma after_added_complete :
  attached_to C e0 e1 ->
  (Query.match_ q e0 = true -> ref ∈ Query.entities q) ->
  Query.match_ q e1 = true -> after_added ref C q e1 = true.
Proof.
  intros Hat Hc Hmatch. unfold after_added. rewrite Hmatch. simpl.
  pose proof Hmatch as Hm1. apply match_spec in Hm1 as [Hp Hneg].
  assert (includes (Query.NotComponents q) C = false) as ->.
  { apply includes_false. intros HC. apply (Hneg C HC). apply Hat. by right. }
  simpl. destruct (includes (Query.entities q) ref) eqn:Hm.
  - by rewrite orb_true_r.
  - rewrite !orb_false_r.
    destruct (includes (Query.Components q) C) eqn:Hpos; [done|]. simpl.
    apply includes_false in Hm, Hpos. exfalso. apply Hm, Hc.
    apply match_spec. split.
    + intros D HD. destruct (proj1 (Hat D) (Hp D HD)) as [?| ->]; done.
    + intros D HD Ht. apply (Hneg D HD). apply Hat. by left.
Qed.

Lemma after_removed_sound :
  detached_from C e0 e1 ->
  (ref ∈ Query.entities q -> Query.match_ q e0 = true) ->
  after_removed ref C q e1 = true -> Query.match_ q e1 = true.
Proof.
  intros [Hsub Hkeep] Hs. unfold after_removed.
  destruct (Query.match_ q e1) eqn:Hmatch; [done|].
  rewrite !andb_false_r. simpl. rewrite andb_true_r.
  destruct (includes (Query.entities q) ref) eqn:Hm;
    [|by rewrite andb_false_r].
  rewrite andb_true_r.
  destruct (includes (Query.Components q) C) eqn:Hpos; [done|].
  intros _. exfalso.
  apply includes_spec in Hm. specialize (Hs Hm).
  apply includes_false in Hpos.
  apply match_spec in Hs as [Hp Hneg].
  apply match_false in Hmatch as [(D & HD & Ht)|(D & HD & Ht)].
  - apply Ht, Hkeep; [by apply Hp|]. intros ->. done.
  - apply (Hneg D HD). by apply Hsub.
Qed.

Lemma after_removed_complete :
  detached_from C e0 e1 ->
  (Query.match_ q e0 = true -> ref ∈ Query.entities q) ->
  Query.match_ q e1 = true -> after_removed ref C q e1 = true.
Proof.
  intros [Hsub Hkeep] Hc Hmatch. unfold after_removed. rewrite Hmatch.
  simpl. rewrite !andb_false_r, !andb_true_r.
  destruct (includes (Query.entities q) ref) eqn:Hm; simpl.
  - by rewrite andb_false_r.
  - rewrite andb_true_r.
    destruct (includes (Query.NotComponents q) C) eqn:Hn; [done|].
    exfalso. apply includes_false in Hm, Hn. apply Hm, Hc.
    apply match_spec in Hmatch as [Hp Hneg]. apply match_spec. split.
    + intros D HD. by apply Hsub, Hp.
    + intros D HD Ht. apply (Hneg D HD). apply Hkeep; [done|].
      intros ->. done.
Qed.

End Decisions.

(** ** Re-indexing after a change of the attached types *)

Lemma reindex_ok ref body after w0 w1 w2 e0 e1 :
  turn_ok ref body after -> frames_entity body -> stable after ->
  structured w0 -> EntityManager.get ref w0 = Some e0 ->
  EntityManager._queries w1 = EntityManager._queries w0 ->
  EntityManager._entities w1 = EntityManager._entities w0 ->
  EntityManager.get ref w1 = Some e1 ->
  (forall r, r <> ref -> EntityManager.get r w1 = EntityManager.get r w0) ->
  Entity.queries e1 = Entity.queries e0 ->
  EntityManager.run_queries body ref w1 = Some w2 ->
  structured w2 /\ framed ref w0 w2 /\
  EntityManager._entities w2 = EntityManager._entities w0 /\
  (exists e2, EntityManager.get ref w2 = Some e2 /\ same_but_queries e1 e2) /\
  ((forall q, (ref ∈ Query.entities q -> Query.match_ q e0 = true) ->
              after q e1 = true -> Query.match_ q e1 = true) ->
   sound_at w0 ref -> sound_at w2 ref) /\
  ((forall q, (Query.match_ q e0 = true -> ref ∈ Query.entities q) ->
              Query.match_ q e1 = true -> after q e1 = true) ->
   complete_at w0 ref -> complete_at w2 ref) /\
  EntityManager.componentsManager w2 = EntityManager.componentsManager w1 /\
  EntityManager.nextInstance w2 = EntityManager.nextInstance w1 /\
  EntityManager.entitiesWithComponentsToRemove w2
  = EntityManager.entitiesWithComponentsToRemove w1 /\
  EntityManager.entitiesToRemove w2 = EntityManager.entitiesToRemove w1.
Proof.
  intros Hturn Hframe Hstable Hst He0 Hq Hents He1 Hothers Hqs Hrun.
  assert (structured w1) as Hst1.
  { apply (structured_ext w0); [done| | |done].
    - intros r e' He'. destruct (decide (r = ref)) as [->|Hne].
      + exists e0. rewrite He1 in He'. injection He' as <-. done.
      + exists e'. by rewrite <- Hothers.
    - intros r Hr. destruct (decide (r = ref)) as [->|Hne];
        [by rewrite He1|].
      rewrite Hothers by done. apply (live_objects _ Hst).
      by rewrite <- Hents. }
  destruct (callback_ok ref body after w1 w2 Hturn Hframe Hstable Hst1 Hrun)
    as (e & e2 & He & He2 & Hsame & Hall & [Hg Hsim] & Hst2 & Hents2 & Hrest).
  rewrite He1 in He. injection He as <-.
  rewrite Hq in Hall, Hsim.
  apply same_but_queries_types in Hsame as Htypes.
  destruct Htypes as (Htypes & _).
  split; [done|]. split.
  { split; [|done]. intros r Hr. by rewrite Hg, Hothers. }
  split; [congruence|]. split; [by exists e2|].
  split; [|split; [|exact Hrest]].
  - intros Htransfer Hsound e He. rewrite He2 in He. injection He as <-.
    eapply Forall2_Forall_r; [|exact Hall|exact (Hsound e0 He0)].
    intros q q' Hpre ((_ & Hc & Hn & _) & _ & _ & Hmem) Hin.
    rewrite (match_same q q' e1 e2) by done.
    apply Htransfer; [done|]. by apply Hmem.
  - intros Htransfer Hcomplete e He. rewrite He2 in He. injection He as <-.
    eapply Forall2_Forall_r; [|exact Hall|exact (Hcomplete e0 He0)].
    intros q q' Hpre ((_ & Hc & Hn & _) & _ & _ & Hmem) Hmatch.
    rewrite (match_same q q' e1 e2) in Hmatch by done.
    apply Hmem. by apply Htransfer.
Qed.

(** *** entityAddComponent *)

Lemma entityAddComponent_ok ref C w w' :
  structured w ->
  EntityManager.entityAddComponent ref C w = Some w' ->
  structured w' /\ framed ref w w' /\
  EntityManager._entities w' = EntityManager._entities w /\
  (sound_at w ref -> sound_at w' ref) /\
  (complete_at w ref -> complete_at w' ref).
Proof.
  intros Hst. unfold EntityManager.entityAddComponent.
  destruct (EntityManager.get ref w) as [e0|] eqn:He0; simpl; [|done].
  destruct (negb (indexOf (Entity._ComponentTypes e0) C =? -1)).
  { intros [= <-]. split; [done|]. split; [apply framed_refl|]. done. }
  destruct (ComponentManager.getComponentsPool C
              (EntityManager.componentsManager w)) as [pool cm].
  destruct (pool_aquire pool (EntityManager.nextInstance w))
    as [[component pool'] n].
  set (e1 := Entity.set_attached (push (Entity._ComponentTypes e0) C)
               match component with
               | Some i => <[name C:=i]> (Entity._components e0)
               | None => delete (name C) (Entity._components e0)
               end e0).
  set (w1 := EntityManager.put ref e1 _).
  destruct (EntityManager.onEntityComponentAdded ref C w1) as [w2|] eqn:Hrun;
    simpl; [|done].
  intros [= <-].
  destruct (reindex_ok ref _ _ w w1 w2 e0 e1
              (onEntityComponentAdded_turn ref C)
              (onEntityComponentAdded_body_frame ref C)
              (after_added_stable ref C) Hst He0)
    as (Hst2 & Hfr & Hents & _ & Hsound & Hcomplete & _); try done.
  { apply get_put. }
  { intros r Hr. unfold w1. by rewrite get_put_ne. }
  assert (attached_to C e0 e1) as Hat.
  { intros D. unfold e1. simpl. by rewrite elem_of_push. }
  split; [|split; [|split; [|split]]].
  - by apply (structured_same w2).
  - exact Hfr.
  - exact Hents.
  - intros Hs. apply Hsound in Hs; [exact Hs|].
    intros q. by apply after_added_sound.
  - intros Hc. apply Hcomplete in Hc; [exact Hc|].
    intros q. by apply after_added_complete.
Qed.

(** *** entityRemoveComponent *)

(** Both ways of detaching, forced and deferred, lead to the same
    callback on an entity that has lost one occurrence of the type. *)
Lemma entityRemoveComponent_detaches ref C force w w' e0 :
  EntityManager.get ref w = Some e0 ->
  C ∈ Entity._ComponentTypes e0 ->
  EntityManager.entityRemoveComponent ref C force w = Some w' ->
  exists w2 e1,
    EntityManager.onEntityComponentRemoved ref C w2 = Some w' /\
    EntityManager.get ref w2 = Some e1 /\
    Entity._ComponentTypes e1 = remove_first C (Entity._ComponentTypes e0) /\
    Entity.queries e1 = Entity.queries e0 /\
    EntityManager._queries w2 = EntityManager._queries w /\
    EntityManager._entities w2 = EntityManager._entities w /\
    (forall r, r <> ref -> EntityManager.get r w2 = EntityManager.get r w).
Proof.
  intros He0 HC. unfold EntityManager.entityRemoveComponent.
  rewrite He0. simpl.
  destruct (Z.eqb_spec (indexOf (Entity._ComponentTypes e0) C) (-1))
    as [Ha|_]; [by apply indexOf_absent in Ha|].
  rewrite splice1_indexOf by done.
  destruct force.
  - unfold EntityManager._entityRemoveComponentSync.
    replace (EntityManager.get ref
               (EntityManager.emit EntityManager.COMPONENT_REMOVE
                  (EntityArg ref) (ClassArg C) w)) with (Some e0)
      by (symmetry; exact He0).
    simpl. rewrite splice1_indexOf by done.
    destruct (ComponentManager._componentPool
                (EntityManager.componentsManager w)
              !! componentPropertyName C) as [pool|]; simpl; [|done].
    destruct (pool_release _ pool _) as [pool'|]; simpl; [|done].
    intros Hrun. eexists _, _. split; [exact Hrun|].
    split; [apply get_put|]. split; [done|]. split; [done|].
    split; [done|]. split; [done|].
    intros r Hr. by rewrite get_put_ne.
  - simpl. intros Hrun. eexists _, _. split; [exact Hrun|].
    split; [apply get_put|]. split; [done|]. split; [done|].
    split; [by destruct (Z.of_nat _ =? 0)|].
    split; [by destruct (Z.of_nat _ =? 0)|].
    intros r Hr. rewrite get_put_ne by done.
    by destruct (Z.of_nat _ =? 0).
Qed.

Lemma remove_first_detached C e0 e1 :
  Entity._ComponentTypes e1 = remove_first C (Entity._ComponentTypes e0) ->
  detached_from C e0 e1.
Proof.
  intros Ht. split.
  - intros D. rewrite Ht. apply elem_of_remove_first.
  - intros D HD Hne. rewrite Ht. by apply elem_of_remove_first_ne.
Qed.

Lemma entityRemoveComponent_ok ref C force w w' :
  structured w ->
  EntityManager.entityRemoveComponent ref C force w = Some w' ->
  structured w' /\ framed ref w w' /\
  EntityManager._entities w' = EntityManager._entities w /\
  (sound_at w ref -> sound_at w' ref) /\
  (complete_at w ref -> complete_at w' ref) /\
  exists e0 e',
    EntityManager.get ref w = Some e0 /\
    EntityManager.get ref w' = Some e' /\
    Entity._ComponentTypes e'
    = remove_first C (Entity._ComponentTypes e0).
Proof.
  intros Hst Hrm.
  destruct (EntityManager.get ref w) as [e0|] eqn:He0;
    [|by unfold EntityManager.entityRemoveComponent in Hrm;
         rewrite He0 in Hrm].
  destruct (decide (C ∈ Entity._ComponentTypes e0)) as [HC|HC].
  - destruct (entityRemoveComponent_detaches _ _ _ _ _ _ He0 HC Hrm)
      as (w2 & e1 & Hrun & He1 & Ht & Hqs & Hq & Hents & Hothers).
    destruct (reindex_ok ref _ _ w w2 w' e0 e1
                (onEntityComponentRemoved_turn ref C)
                (onEntityComponentRemoved_body_frame ref C)
                (after_removed_stable ref C) Hst He0 Hq Hents He1 Hothers
                Hqs Hrun)
      as (Hst' & Hfr & Hents' & (e2 & He2 & Hsame) & Hsound & Hcomplete & _).
    pose proof (remove_first_detached C e0 e1 Ht) as Hdet.
    split; [done|]. split; [done|]. split; [done|].
    split; [|split].
    + intros Hs. apply Hsound; [|done]. intros q.
      by apply after_removed_sound.
    + intros Hc. apply Hcomplete; [|done]. intros q.
      by apply after_removed_complete.
    + exists e0, e2. split; [done|]. split; [done|].
      apply same_but_queries_types in Hsame as (-> & _). done.
  - unfold EntityManager.entityRemoveComponent in Hrm.
    rewrite He0 in Hrm. simpl in Hrm.
    apply indexOf_absent in HC as Hidx. rewrite Hidx in Hrm.
    simpl in Hrm. injection Hrm as <-.
    split; [done|]. split; [apply framed_refl|]. split; [done|].
    split; [done|]. split; [done|].
    exists e0, e0. split; [done|]. split; [done|].
    by rewrite remove_first_absent.
Qed.

(** *** entityRemoveAllComponents *)

Lemma length_remove_first {A} `{EqDecision A} (x : A) (l : list A) :
  x ∈ l -> length (remove_first x l) = Nat.pred (length l).
Proof.
  induction l as [|y l IH]; intros Hin; [by apply elem_of_nil in Hin|].
  simpl. destruct (decide (y = x)); [done|].
  apply elem_of_cons in Hin as [->|Hin]; [done|].
  simpl. rewrite IH by done. destruct l; [by apply elem_of_nil in Hin|done].
Qed.

Lemma removeAll_loop_ok n ref force : forall w w' e0,
  structured w ->
  EntityManager.get ref w = Some e0 ->
  length (Entity._ComponentTypes e0) = n ->
  EntityManager.removeAll_loop n ref force w = Some w' ->
  structured w' /\ framed ref w w' /\
  EntityManager._entities w' = EntityManager._entities w /\
  (sound_at w ref -> sound_at w' ref) /\
  exists e', EntityManager.get ref w' = Some e' /\
             Entity._ComponentTypes e' = [].
Proof.
  induction n as [|j IH]; intros w w' e0 Hst He0 Hlen; simpl.
  - intros [= <-]. split; [done|]. split; [apply framed_refl|].
    split; [done|]. split; [done|]. exists e0. split; [done|].
    by apply nil_length_inv.
  - rewrite He0. simpl.
    destruct (lookup_lt_is_Some_2 (Entity._ComponentTypes e0) j
                ltac:(lia)) as [C HC].
    rewrite HC.
    destruct (EntityManager.entityRemoveComponent ref C force w)
      as [w1|] eqn:Hrm; simpl; [|done].
    intros Hloop.
    destruct (entityRemoveComponent_ok _ _ _ _ _ Hst Hrm)
      as (Hst1 & Hfr1 & Hents1 & Hs1 & _ & (e0' & e1 & He0' & He1 & Ht)).
    rewrite He0 in He0'. injection He0' as <-.
    assert (length (Entity._ComponentTypes e1) = j) as Hlen1.
    { rewrite Ht, length_remove_first; [lia|].
      by eapply list_elem_of_lookup_2. }
    destruct (IH w1 w' e1 Hst1 He1 Hlen1 Hloop)
      as (Hst' & Hfr' & Hents' & Hs' & He').
    split; [done|]. split; [by eapply framed_trans|].
    split; [congruence|]. split; [auto|done].
Qed.

Lemma entityRemoveAllComponents_ok ref force w w' :
  structured w ->
  EntityManager.entityRemoveAllComponents ref force w = Some w' ->
  structured w' /\ framed ref w w' /\
  EntityManager._entities w' = EntityManager._entities w /\
  (sound_at w ref -> sound_at w' ref) /\
  exists e', EntityManager.get ref w' = Some e' /\
             Entity._ComponentTypes e' = [].
Proof.
  intros Hst. unfold EntityManager.entityRemoveAllComponents.
  destruct (EntityManager.get ref w) as [e0|] eqn:He0; simpl; [|done].
  by apply removeAll_loop_ok with (e0 := e0).
Qed.

(** An entity without components is matched by no query, and a sound
    index lists it nowhere. *)
Lemma match_no_components q e :
  Query.Components q <> [] -> Entity._ComponentTypes e = [] ->
  Query.match_ q e = false.
Proof.
  intros Hne Ht. destruct (Query.match_ q e) eqn:Hm; [|done].
  apply match_spec in Hm as [Hp _].
  destruct (Query.Components q) as [|C Cs]; [done|].
  assert (C ∈ (C :: Cs)) as HC by left.
  specialize (Hp C HC). rewrite Ht in Hp.
  by apply elem_of_nil in Hp.
Qed.

Lemma bare_entity_unlisted w ref e :
  structured w -> sound_at w ref ->
  EntityManager.get ref w = Some e -> Entity._ComponentTypes e = [] ->
  Forall (fun q => (ref ∉ Query.entities q) /\ Query.match_ q e = false)
    (EntityManager._queries w).
Proof.
  intros Hst Hs He Ht. specialize (Hs e He).
  pose proof (queries_wf _ Hst) as Hwf.
  rewrite Forall_forall in Hs, Hwf |- *. intros q Hq.
  destruct (Hwf q Hq) as [_ Hne].
  pose proof (match_no_components q e Hne Ht) as Hf.
  split; [|done]. intros Hin. specialize (Hs q Hq Hin). congruence.
Qed.

(** *** removeEntity *)

Lemma onEntityRemoved_ok ref w w' :
  structured w ->
  EntityManager.onEntityRemoved ref w = Some w' ->
  structured w' /\ framed ref w w' /\
  EntityManager._entities w' = EntityManager._entities w /\
  sound_at w' ref.
Proof.
  intros Hst Hrun.
  assert (stable (fun (_ : Query.t) (_ : Entity.t) => false)) as Hstable
    by done.
  destruct (callback_ok ref _ _ w w' (onEntityRemoved_turn ref)
              (onEntityRemoved_body_frame ref) Hstable Hst Hrun)
    as (e & e' & He & He' & Hsame & Hall & Hfr & Hst' & Hents & _).
  split; [done|]. split; [done|]. split; [done|].
  intros e2 He2. rewrite He' in He2. injection He2 as <-.
  assert (Forall (fun _ : Query.t => True) (EntityManager._queries w)) as Ht
    by (apply Forall_forall; done).
  eapply Forall2_Forall_r; [|exact Hall|exact Ht].
  intros q q' _ (_ & _ & _ & Hmem) Hin. apply Hmem in Hin. done.
Qed.

Lemma emit_structured n a b w : structured w -> structured (EntityManager.emit n a b w).
Proof. by apply structured_same. Qed.

Lemma removeEntitySync_effect ref index w w' :
  EntityManager._removeEntitySync ref index true w = Some w' ->
  exists w3 e3,
    EntityManager.entityRemoveAllComponents ref true
      (EntityManager.set_entities
         (splice1 (EntityManager._entities w) index) w) = Some w3 /\
    EntityManager.get ref w3 = Some e3 /\
    EntityManager.get ref w'
    = Some (Entity.reset (Entity.set_world false e3)
              (Heap.nextId (EntityManager.heap w3))).1 /\
    (forall r, r <> ref -> EntityManager.get r w' = EntityManager.get r w3) /\
    EntityManager._queries w' = EntityManager._queries w3 /\
    EntityManager._entities w' = EntityManager._entities w3.
Proof.
  unfold EntityManager._removeEntitySync.
  destruct (EntityManager.entityRemoveAllComponents ref true _)
    as [w3|] eqn:Hall; simpl; [|done].
  destruct (EntityManager.get ref w3) as [e3|] eqn:He3; simpl; [|done].
  intros [= <-]. exists w3, e3. split; [done|]. split; [done|].
  unfold EntityManager.get, Heap.resetEntityObject. simpl.
  rewrite lookup_insert_eq. simpl.
  split; [by rewrite lookup_insert_eq|]. split; [|done].
  intros r Hr. by rewrite !lookup_insert_ne.
Qed.

Lemma removeEntity_indexed ref force w w' :
  indexed w ->
  EntityManager.removeEntity ref force w = Some w' ->
  indexed w'.
Proof.
  intros [Hst Hmem]. unfold EntityManager.removeEntity.
  destruct (Z.eqb_spec (indexOf (EntityManager._entities w) ref) (-1))
    as [_|Hidx]; [done|].
  assert (ref ∈ EntityManager._entities w) as Hlive.
  { destruct (decide (ref ∈ EntityManager._entities w)); [done|].
    exfalso. by apply Hidx, indexOf_absent. }
  set (w1 := EntityManager.emit EntityManager.ENTITY_REMOVED (EntityArg ref)
               Undefined w).
  destruct (EntityManager.onEntityRemoved ref w1) as [w2|] eqn:Hgone;
    simpl; [|done].
  destruct (onEntityRemoved_ok ref w1 w2 (emit_structured _ _ _ _ Hst) Hgone)
    as (Hst2 & Hfr2 & Hents2 & Hs2).
  assert (forall w3 e3,
    structured w3 -> framed ref w2 w3 -> sound_at w3 ref ->
    EntityManager.get ref w3 = Some e3 -> Entity._ComponentTypes e3 = [] ->
    forall r, r ∈ EntityManager._entities w ->
      (r <> ref -> sound_at w3 r /\ complete_at w3 r) /\
      (r = ref -> Forall (fun q => (ref ∉ Query.entities q) /\
                                   Query.match_ q e3 = false)
                    (EntityManager._queries w3))) as Hfinal.
  { intros w3 e3 Hst3 Hfr3 Hs3 He3 Ht3 r Hr. split.
    - intros Hne. destruct (Hmem r Hr) as [Hs Hc].
      assert (framed ref w w3) as Hfr by (by eapply framed_trans).
      split; [by eapply framed_sound|by eapply framed_complete].
    - intros _. by apply bare_entity_unlisted. }
  destruct force.
  - intros Hsync.
    apply removeEntitySync_effect in Hsync
      as (w3 & e3 & Hall & He3 & Href & Hothers & Hq & Hents).
    assert (EntityManager._entities w2 = EntityManager._entities w)
      as Hents2' by (by rewrite Hents2).
    rewrite Hents2', splice1_indexOf in Hall by done.
    assert (structured
              (EntityManager.set_entities
                 (remove_first ref (EntityManager._entities w)) w2))
      as Hst2'.
    { apply (structured_ext w2); [done| | |done].
      - intros r e' He'. by exists e'.
      - intros r Hr. apply elem_of_remove_first in Hr.
        apply (live_objects _ Hst2). by rewrite Hents2'. }
    destruct (entityRemoveAllComponents_ok _ _ _ _ Hst2' Hall)
      as (Hst3 & Hfr3 & Hents3 & Hs3 & (e3' & He3' & Ht3)).
    rewrite He3 in He3'. injection He3' as <-.
    specialize (Hs3 Hs2).
    pose proof (bare_entity_unlisted w3 ref e3 Hst3 Hs3 He3 Ht3) as Hbare.
    assert (forall r, r ∈ EntityManager._entities w' ->
                      r ∈ EntityManager._entities w) as Hsub.
    { intros r. rewrite Hents, Hents3. simpl.
      apply elem_of_remove_first. }
    split.
    + split.
      * rewrite Hq. apply (keys_nodup _ Hst3).
      * rewrite Hq. apply (queries_wf _ Hst3).
      * intros r e' He'. rewrite Hq.
        destruct (decide (r = ref)) as [->|Hne].
        -- rewrite Href in He'. injection He' as <-. simpl.
           split; [constructor|].
           eapply Forall_impl; [exact Hbare|].
           intros q [Hn _]. unfold linked. simpl.
           split; [done|]. intros Hk. by apply elem_of_nil in Hk.
        -- rewrite Hothers in He' by done.
           apply (backedges _ Hst3 r e' He').
      * intros r Hr. destruct (decide (r = ref)) as [->|Hne].
        -- rewrite Href. by eexists.
        -- rewrite Hothers by done. apply (live_objects _ Hst3).
           by rewrite <- Hents.
    + intros r Hr. apply Hsub in Hr.
      destruct (Hfinal w3 e3 Hst3 Hfr3 Hs3 He3 Ht3 r Hr) as [H1 H2].
      destruct (decide (r = ref)) as [->|Hne].
      * specialize (H2 eq_refl).
        split; intros e' He'; rewrite Href in He'; injection He' as <-;
          rewrite Hq; (eapply Forall_impl; [exact H2|]);
          intros q [Hn Hm].
        -- done.
        -- rewrite (match_same q q e3) by (simpl; by rewrite ?Ht3).
           congruence.
      * destruct (H1 Hne) as [Hs Hc].
        split; intros e' He'; rewrite Hothers in He' by done; rewrite Hq.
        -- by apply Hs.
        -- by apply Hc.
  - destruct (EntityManager.entityRemoveAllComponents ref false w2)
      as [w3|] eqn:Hall; simpl; [|done].
    intros [= <-].
    destruct (entityRemoveAllComponents_ok _ _ _ _ Hst2 Hall)
      as (Hst3 & Hfr3 & Hents3 & Hs3 & (e3 & He3 & Ht3)).
    specialize (Hs3 Hs2).
    split; [by apply (structured_same w3)|].
    intros r Hr. simpl in Hr. rewrite Hents3, Hents2 in Hr. simpl in Hr.
    destruct (Hfinal w3 e3 Hst3 Hfr3 Hs3 He3 Ht3 r Hr) as [H1 H2].
    destruct (decide (r = ref)) as [->|Hne].
    + specialize (H2 eq_refl).
      split; intros e' He'.
      * by apply Hs3.
      * change (EntityManager.get ref w3 = Some e') in He'.
        rewrite He3 in He'. injection He' as <-.
        eapply Forall_impl; [exact H2|]. intros q [Hn Hm]. congruence.
    + exact (H1 Hne).
Qed.

(** ** Claims about query membership *)

Lemma indexed_membership w q ref e :
  indexed w ->
  q ∈ EntityManager._queries w -> ref ∈ EntityManager._entities w ->
  EntityManager.get ref w = Some e ->
  ref ∈ Query.entities q <->
  (forall C, C ∈ Query.Components q -> C ∈ Entity._ComponentTypes e) /\
  (forall C, C ∈ Query.NotComponents q -> C ∉ Entity._ComponentTypes e).
Proof.
  intros [_ Hmem] Hq Hlive He. destruct (Hmem ref Hlive) as [Hs Hc].
  specialize (Hs e He). specialize (Hc e He).
  rewrite Forall_forall in Hs, Hc. rewrite <- match_spec.
  split; [by apply Hs|by apply Hc].
Qed.

Lemma mutate_indexed w w' m :
  indexed w -> mutate m w = Some w' -> indexed w'.
Proof.
  intros Hidx. destruct m as [ref C|ref C force|ref force]; simpl.
  - intros Hadd. destruct Hidx as [Hst Hmem].
    destruct (entityAddComponent_ok _ _ _ _ Hst Hadd)
      as (Hst' & Hfr & Hents & Hs & Hc).
    split; [done|]. intros r Hr. rewrite Hents in Hr.
    destruct (Hmem r Hr) as [Hsr Hcr].
    destruct (decide (r = ref)) as [->|Hne]; [by auto|].
    split; [by eapply framed_sound|by eapply framed_complete].
  - intros Hrm. destruct Hidx as [Hst Hmem].
    destruct (entityRemoveComponent_ok _ _ _ _ _ Hst Hrm)
      as (Hst' & Hfr & Hents & Hs & Hc & _).
    split; [done|]. intros r Hr. rewrite Hents in Hr.
    destruct (Hmem r Hr) as [Hsr Hcr].
    destruct (decide (r = ref)) as [->|Hne]; [by auto|].
    split; [by eapply framed_sound|by eapply framed_complete].
  - by apply removeEntity_indexed.
Qed.


Ltac evaluate t :=
  let x := fresh "x" in
  let Hx := fresh "Hx" in
  remember t as x eqn:Hx; vm_compute in Hx; subst x.

Lemma manager_with_entity_indexed : indexed manager_with_entity.
Proof.
  assert (forall r e, EntityManager.get r manager_with_entity = Some e ->
            r = 0%nat /\ Entity._ComponentTypes e = [] /\
            Entity.queries e = []) as Hobj.
  { intros r e He. unfold EntityManager.get in He.
    apply elem_of_map_to_list in He.
    evaluate (map_to_list
                (Heap.objects (EntityManager.heap manager_with_entity))).
    apply list_elem_of_singleton in He. by injection He as -> ->. }
  split; [split|].
  - evaluate (EntityManager._queries manager_with_entity). simpl.
    apply NoDup_singleton.
  - evaluate (EntityManager._queries manager_with_entity).
    constructor; [|constructor]. simpl. split; [constructor|done].
  - intros r e He. destruct (Hobj r e He) as (-> & Ht & Hq).
    rewrite Hq. split; [constructor|].
    evaluate (EntityManager._queries manager_with_entity).
    constructor; [|constructor]. unfold linked. simpl. rewrite Hq.
    split; intros H; by apply elem_of_nil in H.
  - intros r Hr.
    evaluate (EntityManager._entities manager_with_entity).
    apply list_elem_of_singleton in Hr as ->. by eexists.
  - intros r Hr. split; intros e He;
      destruct (Hobj r e He) as (-> & Ht & Hq);
      evaluate (EntityManager._queries manager_with_entity);
      (constructor; [|constructor]); simpl.
    + intros H. by apply elem_of_nil in H.
    + intros Hm. apply match_spec in Hm as [Hp _]. simpl in Hp.
      assert (Position ∈ [Position]) as HP by left.
      specialize (Hp Position HP).
      rewrite Ht in Hp. by apply elem_of_nil in Hp.
Qed.


(** ** Effects of the component operations on the entity *)

Lemma run_queries_same body ref w w' :
  frames_entity body ->
  EntityManager.run_queries body ref w = Some w' ->
  exists e e',
    EntityManager.get ref w = Some e /\
    EntityManager.get ref w' = Some e' /\
    same_but_queries e e' /\
    (forall r, r <> ref -> EntityManager.get r w' = EntityManager.get r w) /\
    EntityManager.componentsManager w' = EntityManager.componentsManager w /\
    EntityManager.nextInstance w' = EntityManager.nextInstance w /\
    EntityManager.entitiesWithComponentsToRemove w'
    = EntityManager.entitiesWithComponentsToRemove w /\
    EntityManager.entitiesToRemove w' = EntityManager.entitiesToRemove w /\
    EntityManager._entities w' = EntityManager._entities w.
Proof.
  intros Hframe Hrun. apply run_queries_effect in Hrun as (e & He & ->).
  pose proof (for_queries_frame body (EntityManager._queries w) e Hframe)
    as Hfr.
  destruct (EntityManager.for_queries body (EntityManager._queries w) e)
    as [[qs e'] evs]. simpl in *.
  exists e, e'. split; [done|].
  split; [unfold EntityManager.get; simpl; apply lookup_insert_eq|].
  split; [done|]. split; [|done].
  intros r Hr. unfold EntityManager.get. simpl. by rewrite lookup_insert_ne.
Qed.

Lemma entityRemoveComponent_deferred ref C w w' e0 :
  EntityManager.get ref w = Some e0 ->
  C ∈ Entity._ComponentTypes e0 ->
  EntityManager.entityRemoveComponent ref C false w = Some w' ->
  exists e',
    EntityManager.get ref w' = Some e' /\
    Entity._ComponentTypes e' = remove_first C (Entity._ComponentTypes e0) /\
    Entity._ComponentTypesToRemove e'
    = push (Entity._ComponentTypesToRemove e0) C /\
    Entity._components e' = delete (name C) (Entity._components e0) /\
    Entity._componentsToRemove e'
    = match Entity._components e0 !! name C with
      | Some i => <[name C := i]> (Entity._componentsToRemove e0)
      | None => delete (name C) (Entity._componentsToRemove e0)
      end /\
    (forall r, r <> ref -> EntityManager.get r w' = EntityManager.get r w) /\
    EntityManager.componentsManager w' = EntityManager.componentsManager w /\
    EntityManager.nextInstance w' = EntityManager.nextInstance w /\
    EntityManager.entitiesWithComponentsToRemove w'
    = (if Z.of_nat (length (Entity._ComponentTypesToRemove e0)) =? 0
       then push (EntityManager.entitiesWithComponentsToRemove w) ref
       else EntityManager.entitiesWithComponentsToRemove w) /\
    EntityManager.entitiesToRemove w' = EntityManager.entitiesToRemove w.
Proof.
  intros He0 HC. unfold EntityManager.entityRemoveComponent.
  rewrite He0. simpl.
  destruct (Z.eqb_spec (indexOf (Entity._ComponentTypes e0) C) (-1))
    as [Ha|_]; [by apply indexOf_absent in Ha|].
  rewrite splice1_indexOf by done. simpl. intros Hrun.
  apply run_queries_same in Hrun
    as (e1 & e' & He1 & He' & Hsame & Hothers & Hcm & Hni & Hwith & Hto & _);
    [|apply onEntityComponentRemoved_body_frame].
  rewrite get_put in He1. injection He1 as <-.
  apply same_but_queries_types in Hsame as (Ht & Hc & Hcr & Htr & _).
  exists e'. split; [done|]. split; [by rewrite Ht|].
  split; [by rewrite Htr|]. split; [by rewrite Hc|].
  split; [by rewrite Hcr|]. split.
  { intros r Hr. rewrite Hothers, get_put_ne by done.
    by destruct (Z.of_nat _ =? 0). }
  split; [rewrite Hcm; by destruct (Z.of_nat _ =? 0)|].
  split; [rewrite Hni; by destruct (Z.of_nat _ =? 0)|].
  split; [rewrite Hwith; by destruct (Z.of_nat _ =? 0)|].
  rewrite Hto. by destruct (Z.of_nat _ =? 0).
Qed.

Lemma entityRemoveComponent_forced ref C w w' e0 :
  EntityManager.get ref w = Some e0 ->
  C ∈ Entity._ComponentTypes e0 ->
  EntityManager.entityRemoveComponent ref C true w = Some w' ->
  exists e',
    EntityManager.get ref w' = Some e' /\
    Entity._ComponentTypes e' = remove_first C (Entity._ComponentTypes e0) /\
    Entity._ComponentTypesToRemove e' = Entity._ComponentTypesToRemove e0 /\
    (forall r, r <> ref -> EntityManager.get r w' = EntityManager.get r w).
Proof.
  intros He0 HC. unfold EntityManager.entityRemoveComponent.
  rewrite He0. simpl.
  destruct (Z.eqb_spec (indexOf (Entity._ComponentTypes e0) C) (-1))
    as [Ha|_]; [by apply indexOf_absent in Ha|].
  unfold EntityManager._entityRemoveComponentSync.
  replace (EntityManager.get ref
             (EntityManager.emit EntityManager.COMPONENT_REMOVE
                (EntityArg ref) (ClassArg C) w)) with (Some e0)
    by (symmetry; exact He0).
  simpl. rewrite splice1_indexOf by done.
  destruct (ComponentManager._componentPool
              (EntityManager.componentsManager w)
            !! componentPropertyName C) as [pool|]; simpl; [|done].
  destruct (pool_release _ pool _) as [pool'|]; simpl; [|done].
  intros Hrun.
  apply run_queries_same in Hrun
    as (e1 & e' & He1 & He' & Hsame & Hothers & _);
    [|apply onEntityComponentRemoved_body_frame].
  rewrite get_put in He1. injection He1 as <-.
  apply same_but_queries_types in Hsame as (Ht & _ & _ & Htr & _).
  exists e'. split; [done|]. split; [by rewrite Ht|].
  split; [by rewrite Htr|].
  intros r Hr. by rewrite Hothers, get_put_ne.
Qed.

Lemma entityAddComponent_effect ref C w w' e0 :
  EntityManager.get ref w = Some e0 ->
  C ∉ Entity._ComponentTypes e0 ->
  EntityManager.entityAddComponent ref C w = Some w' ->
  exists e',
    EntityManager.get ref w' = Some e' /\
    Entity._ComponentTypes e' = push (Entity._ComponentTypes e0) C /\
    Entity._ComponentTypesToRemove e' = Entity._ComponentTypesToRemove e0 /\
    Entity._componentsToRemove e' = Entity._componentsToRemove e0 /\
    (forall r, r <> ref -> EntityManager.get r w' = EntityManager.get r w).
Proof.
  intros He0 HC. unfold EntityManager.entityAddComponent.
  rewrite He0. simpl.
  apply indexOf_absent in HC. rewrite HC. simpl.
  destruct (ComponentManager.getComponentsPool C
              (EntityManager.componentsManager w)) as [pool cm].
  destruct (pool_aquire pool (EntityManager.nextInstance w))
    as [[component pool'] n].
  destruct (EntityManager.onEntityComponentAdded ref C _) as [w2|] eqn:Hrun;
    simpl; [|done].
  intros [= <-].
  apply run_queries_same in Hrun
    as (e1 & e' & He1 & He' & Hsame & Hothers & _);
    [|apply onEntityComponentAdded_body_frame].
  rewrite get_put in He1. injection He1 as <-.
  apply same_but_queries_types in Hsame as (Ht & _ & Hcr & Htr & _).
  exists e'. split; [done|]. split; [by rewrite Ht|].
  split; [by rewrite Htr|]. split; [by rewrite Hcr|].
  intros r Hr.
  change (EntityManager.get r w2 = EntityManager.get r w).
  by rewrite Hothers, get_put_ne.
Qed.

(** ** Claims about attached and staged types *)

(** C2 (amended): on an entity whose attached types are listed once and
    are disjoint from its pending-removal types,
    [entityRemoveComponent(T)], forced or deferred, keeps both
    properties, and so does [entityAddComponent(T)] when [T] is not
    staged for removal; [entityAddComponent(T)] on an entity for which
    [T] is staged attaches [T] and leaves it staged, so that [T] is in
    both sets. *)
Theorem C2_disjoint_unless_added_while_staged (w : EntityManager.t)
    (ref : EntityRef) (T : ComponentClass) (e : Entity.t) :
  EntityManager.get ref w = Some e ->
  NoDup (Entity._ComponentTypes e) ->
  attached_staged_disjoint e ->
  (forall force w',
     EntityManager.entityRemoveComponent ref T force w = Some w' ->
     exists e', EntityManager.get ref w' = Some e' /\
                NoDup (Entity._ComponentTypes e') /\
                attached_staged_disjoint e') /\
  (forall w',
     EntityManager.entityAddComponent ref T w = Some w' ->
     exists e', EntityManager.get ref w' = Some e' /\
                NoDup (Entity._ComponentTypes e') /\
                (T ∉ Entity._ComponentTypesToRemove e ->
                 attached_staged_disjoint e') /\
                (T ∈ Entity._ComponentTypesToRemove e ->
                 T ∈ Entity._ComponentTypes e' /\
                 T ∈ Entity._ComponentTypesToRemove e')).
Proof.
  intros He Hnd Hdis. split.
  - intros force w' Hrm.
    destruct (decide (T ∈ Entity._ComponentTypes e)) as [HT|HT].
    + destruct force.
      * destruct (entityRemoveComponent_forced _ _ _ _ _ He HT Hrm)
          as (e' & He' & Ht & Hs & _).
        exists e'. split; [done|]. rewrite Ht.
        split; [by apply NoDup_remove_first|].
        intros D HD. rewrite Ht in HD. rewrite Hs.
        apply Hdis. by apply elem_of_remove_first in HD.
      * destruct (entityRemoveComponent_deferred _ _ _ _ _ He HT Hrm)
          as (e' & He' & Ht & Hs & _).
        exists e'. split; [done|]. rewrite Ht.
        split; [by apply NoDup_remove_first|].
        intros D HD. rewrite Ht in HD. rewrite Hs, elem_of_push.
        intros [Hst| ->].
        -- revert Hst. apply Hdis. by apply elem_of_remove_first in HD.
        -- revert HD. by apply not_elem_of_remove_first.
    + unfold EntityManager.entityRemoveComponent in Hrm.
      rewrite He in Hrm. simpl in Hrm.
      apply indexOf_absent in HT. rewrite HT in Hrm. simpl in Hrm.
      injection Hrm as <-. by exists e.
  - intros w' Hadd.
    destruct (decide (T ∈ Entity._ComponentTypes e)) as [HT|HT].
    + unfold EntityManager.entityAddComponent in Hadd.
      rewrite He in Hadd. simpl in Hadd.
      assert ((indexOf (Entity._ComponentTypes e) T =? -1) = false) as Hi.
      { apply Z.eqb_neq. rewrite indexOf_absent. by intros Hn. }
      rewrite Hi in Hadd. simpl in Hadd. injection Hadd as <-.
      exists e. split; [done|]. split; [done|]. split; [done|].
      intros Hst. by apply Hdis in HT.
    + destruct (entityAddComponent_effect _ _ _ _ _ He HT Hadd)
        as (e' & He' & Ht & Hs & _).
      exists e'. split; [done|]. rewrite Ht, Hs.
      split; [by apply NoDup_push|]. split.
      * intros Hst D HD. rewrite Ht in HD. rewrite Hs.
        apply elem_of_push in HD as [HD| ->]; [by apply Hdis|done].
      * intros Hst. split; [|done]. apply elem_of_push. by right.
Qed.

Lemma C2_witness :
  exists w' e',
    EntityManager.entityAddComponent 0%nat Position manager_with_entity
    = Some w' /\
    EntityManager.get 0%nat w' = Some e' /\
    NoDup (Entity._ComponentTypes e').
Proof.
  destruct (EntityManager.entityAddComponent 0%nat Position
              manager_with_entity) as [w'|] eqn:Hadd;
    [|vm_compute in Hadd; discriminate].
  destruct (EntityManager.get 0%nat manager_with_entity) as [e|] eqn:He;
    [|vm_compute in He; discriminate].
  assert (Entity._ComponentTypes e = []) as Ht
    by (vm_compute in He; by injection He as <-).
  destruct (C2_disjoint_unless_added_while_staged manager_with_entity
              0%nat Position e He) as [_ H].
  - rewrite Ht. constructor.
  - intros D HD. rewrite Ht in HD. by apply elem_of_nil in HD.
  - destruct (H w' Hadd) as (e' & He' & Hnd & _). by exists w', e'.
Defined.

(** C2 (as stated) fails: a type that is removed (deferred) and added
    again before the commit is attached and pending removal at once. *)
Lemma C2_counterexample :
  (w ← EntityManager.entityAddComponent 0%nat Position manager_with_entity;
   w ← EntityManager.entityRemoveComponent 0%nat Position false w;
   w ← EntityManager.entityAddComponent 0%nat Position w;
   e ← EntityManager.get 0%nat w;
   Some (Entity.hasComponent Position e,
         Entity.hasRemovedComponent Position e,
         Entity._ComponentTypes e, Entity._ComponentTypesToRemove e))
  = Some (true, true, [Position], [Position]).
Proof. vm_compute. reflexivity. Qed.

(** ** Claims about reactive queries *)







(** ** Claims about deferred removal *)



(** ** The index across the whole life of entities

    Beyond [indexed], the bookkeeping that creation, query
    construction and the commit of deferred removals rely on. *)

Lemma same_index_refl w : same_index w w.
Proof.
  repeat split. intros r. by destruct (EntityManager.get r w).
Qed.

Lemma same_index_trans w1 w2 w3 :
  same_index w1 w2 -> same_index w2 w3 -> same_index w1 w3.
Proof.
  intros (Hq & He & Hp & Ha & Ho) (Hq' & He' & Hp' & Ha' & Ho').
  split; [congruence|]. split; [congruence|]. split; [congruence|].
  split; [congruence|]. intros r. specialize (Ho r). specialize (Ho' r).
  destruct (EntityManager.get r w3), (EntityManager.get r w2),
    (EntityManager.get r w1); try done.
  destruct Ho, Ho'. split; congruence.
Qed.

Lemma same_index_get w w' r e' :
  same_index w w' -> EntityManager.get r w' = Some e' ->
  exists e, EntityManager.get r w = Some e /\
            Entity._ComponentTypes e' = Entity._ComponentTypes e /\
            Entity.queries e' = Entity.queries e.
Proof.
  intros (_ & _ & _ & _ & Ho) He'. specialize (Ho r). rewrite He' in Ho.
  destruct (EntityManager.get r w) as [e|]; [|done]. by exists e.
Qed.

Lemma same_index_is_Some w w' r :
  same_index w w' ->
  is_Some (EntityManager.get r w') <-> is_Some (EntityManager.get r w).
Proof.
  intros (_ & _ & _ & _ & Ho). specialize (Ho r).
  destruct (EntityManager.get r w'), (EntityManager.get r w);
    try done; split; intros _; by eexists.
Qed.

Lemma same_index_bare w w' r :
  same_index w w' -> bare w r -> bare w' r.
Proof.
  intros Hsame (e & He & Ht & Hq).
  destruct Hsame as (_ & _ & _ & _ & Ho). specialize (Ho r).
  rewrite He in Ho.
  destruct (EntityManager.get r w') as [e'|] eqn:He'; [|done].
  destruct Ho as [Ht' Hq']. exists e'. split; [done|]. split; congruence.
Qed.

Lemma same_index_indexed w w' : same_index w w' -> indexed w -> indexed w'.
Proof.
  intros Hsame [Hst Hmem].
  pose proof Hsame as (Hq & He & _ & _ & _).
  assert (structured w') as Hst'.
  { apply (structured_ext w); [done| | |done].
    - intros r e' He'.
      destruct (same_index_get _ _ _ _ Hsame He') as (e & Hg & _ & Hqs).
      by exists e.
    - intros r Hr. apply (same_index_is_Some _ _ _ Hsame).
      apply (live_objects _ Hst). by rewrite <- He. }
  split; [done|]. intros r Hr. rewrite He in Hr.
  destruct (Hmem r Hr) as [Hs Hc].
  split; intros e' He';
    destruct (same_index_get _ _ _ _ Hsame He') as (e & Hg & Ht & _);
    rewrite Hq.
  - eapply Forall_impl; [exact (Hs e Hg)|]. intros q Hm Hin.
    rewrite (match_same q q e e') by done. auto.
  - eapply Forall_impl; [exact (Hc e Hg)|]. intros q Hm Hin.
    rewrite (match_same q q e e') in Hin by done. auto.
Qed.

Lemma same_index_healthy_core w w' :
  same_index w w' -> healthy_core w -> healthy_core w'.
Proof.
  intros Hsame [H1 H2 H3 H4 H5 H6 H7 H8].
  pose proof Hsame as (Hq & He & Hp & Ha & Ho).
  split.
  - by apply (same_index_indexed w).
  - by rewrite He.
  - intros r e' He' k Hk.
    destruct (same_index_get _ _ _ _ Hsame He') as (e & Hg & _ & Hqs).
    rewrite Hq. apply (H3 r e Hg). by rewrite <- Hqs.
  - intros r Hr. rewrite Ha. apply H4.
    by apply (same_index_is_Some _ _ _ Hsame).
  - intros q r Hqin Hr. apply (same_index_is_Some _ _ _ Hsame).
    rewrite Hq in Hqin. by apply (H5 q).
  - by rewrite Hp.
  - intros r Hr. rewrite Hp in Hr. destruct (H7 r Hr) as [Hn Hb].
    split; [by rewrite He|]. by apply (same_index_bare w).
  - by rewrite Hp.
Qed.

Lemma same_shell_refl w : same_shell w w.
Proof. by repeat split. Qed.

Lemma same_shell_trans w1 w2 w3 :
  same_shell w1 w2 -> same_shell w2 w3 -> same_shell w1 w3.
Proof.
  intros (Hp & Ha & Ht & Ho) (Hp' & Ha' & Ht' & Ho').
  split; [congruence|]. split; [congruence|]. split; [congruence|].
  intros r. by rewrite Ho', Ho.
Qed.

Lemma put_shell ref e e0 w :
  EntityManager.get ref w = Some e0 ->
  same_shell w (EntityManager.put ref e w).
Proof.
  intros He0. split; [done|]. split; [done|]. split; [done|].
  intros r. destruct (decide (r = ref)) as [->|Hne].
  - rewrite get_put, He0. split; intros _; by eexists.
  - by rewrite get_put_ne.
Qed.

Lemma run_queries_shell body ref w w' :
  EntityManager.run_queries body ref w = Some w' -> same_shell w w'.
Proof.
  intros Hrun. apply run_queries_effect in Hrun as (e & He & ->).
  split; [done|]. split; [done|]. split; [done|].
  intros r. destruct (decide (r = ref)) as [->|Hne].
  - unfold EntityManager.get in *. simpl. rewrite lookup_insert_eq, He.
    split; intros _; by eexists.
  - unfold EntityManager.get. simpl. by rewrite lookup_insert_ne.
Qed.

Lemma entityAddComponent_shell ref C w w' :
  EntityManager.entityAddComponent ref C w = Some w' -> same_shell w w'.
Proof.
  unfold EntityManager.entityAddComponent.
  destruct (EntityManager.get ref w) as [e0|] eqn:He0; simpl; [|done].
  destruct (negb (indexOf (Entity._ComponentTypes e0) C =? -1)).
  { intros [= <-]. apply same_shell_refl. }
  destruct (ComponentManager.getComponentsPool C
              (EntityManager.componentsManager w)) as [pool cm].
  destruct (pool_aquire pool (EntityManager.nextInstance w))
    as [[component pool'] n].
  destruct (EntityManager.onEntityComponentAdded ref C _) as [w2|] eqn:Hrun;
    simpl; [|done].
  intros [= <-]. apply run_queries_shell in Hrun.
  eapply same_shell_trans; [|eapply same_shell_trans; [exact Hrun|]].
  - apply (put_shell ref _ e0 (EntityManager.set_components cm n w) He0).
  - by repeat split.
Qed.

Lemma entityRemoveComponent_shell ref C force w w' :
  EntityManager.entityRemoveComponent ref C force w = Some w' ->
  same_shell w w'.
Proof.
  unfold EntityManager.entityRemoveComponent.
  destruct (EntityManager.get ref w) as [e0|] eqn:He0; simpl; [|done].
  destruct (indexOf (Entity._ComponentTypes e0) C =? -1).
  { intros [= <-]. apply same_shell_refl. }
  destruct force.
  - unfold EntityManager._entityRemoveComponentSync.
    replace (EntityManager.get ref
               (EntityManager.emit EntityManager.COMPONENT_REMOVE
                  (EntityArg ref) (ClassArg C) w)) with (Some e0)
      by (symmetry; exact He0).
    simpl.
    destruct (ComponentManager._componentPool
                (EntityManager.componentsManager w)
              !! componentPropertyName C) as [pool|]; simpl; [|done].
    destruct (pool_release _ pool _) as [pool'|]; simpl; [|done].
    intros Hrun. apply run_queries_shell in Hrun.
    eapply same_shell_trans; [|exact Hrun].
    apply (put_shell ref _ e0
             (EntityManager.set_components _ (EntityManager.nextInstance w)
                (EntityManager.emit EntityManager.COMPONENT_REMOVE
                   (EntityArg ref) (ClassArg C) w)) He0).
  - simpl. intros Hrun. apply run_queries_shell in Hrun.
    eapply same_shell_trans; [|exact Hrun].
    destruct (Z.of_nat _ =? 0).
    + apply (put_shell ref _ e0
               (EntityManager.set_deferred _ _
                  (EntityManager.emit EntityManager.COMPONENT_REMOVE
                     (EntityArg ref) (ClassArg C) w)) He0).
    + apply (put_shell ref _ e0
               (EntityManager.emit EntityManager.COMPONENT_REMOVE
                  (EntityArg ref) (ClassArg C) w) He0).
Qed.

Lemma removeAll_loop_shell n ref force : forall w w',
  EntityManager.removeAll_loop n ref force w = Some w' -> same_shell w w'.
Proof.
  induction n as [|j IH]; intros w w'; simpl.
  - intros [= <-]. apply same_shell_refl.
  - destruct (EntityManager.get ref w) as [e|]; simpl; [|done].
    destruct (Entity._ComponentTypes e !! j) as [C|]; [|apply IH].
    destruct (EntityManager.entityRemoveComponent ref C force w)
      as [w1|] eqn:Hrm; simpl; [|done].
    intros Hloop. apply entityRemoveComponent_shell in Hrm.
    apply IH in Hloop. by eapply same_shell_trans.
Qed.

Lemma entityRemoveAllComponents_shell ref force w w' :
  EntityManager.entityRemoveAllComponents ref force w = Some w' ->
  same_shell w w'.
Proof.
  unfold EntityManager.entityRemoveAllComponents.
  destruct (EntityManager.get ref w) as [e|]; simpl; [|done].
  apply removeAll_loop_shell.
Qed.

Lemma framed_keys ref w w' :
  framed ref w w' ->
  map Query.key (EntityManager._queries w')
  = map Query.key (EntityManager._queries w).
Proof. intros [_ Hq]. by eapply Forall2_similar_keys. Qed.

Lemma contained_refl ref w : contained ref w w.
Proof.
  split; [apply framed_refl|]. split; [apply same_shell_refl|].
  split; [done|]. intros e e' He He' k Hk. left. congruence.
Qed.

Lemma contained_trans ref w1 w2 w3 :
  contained ref w1 w2 -> contained ref w2 w3 -> contained ref w1 w3.
Proof.
  intros (Hf & Hs & He & Hk) (Hf' & Hs' & He' & Hk').
  split; [by eapply framed_trans|]. split; [by eapply same_shell_trans|].
  split; [congruence|].
  intros e1 e3 H1 H3 k Hin.
  destruct (EntityManager.get ref w2) as [e2|] eqn:H2.
  - destruct (Hk' e2 e3 eq_refl H3 k Hin) as [Hin2|Hin2].
    + by apply (Hk e1 e2 H1 eq_refl).
    + right. by rewrite <- (framed_keys _ _ _ Hf).
  - destruct Hs' as (_ & _ & _ & Ho). specialize (Ho ref).
    rewrite H3, H2 in Ho. destruct Ho as [Ho _].
    destruct Ho as [? ?]; [by eexists|done].
Qed.

Lemma callback_contained ref body after w w' :
  turn_ok ref body after -> frames_entity body -> stable after ->
  structured w ->
  EntityManager.run_queries body ref w = Some w' ->
  contained ref w w'.
Proof.
  intros Hturn Hframe Hstable Hst Hrun.
  pose proof (run_queries_shell _ _ _ _ Hrun) as Hshell.
  destruct (callback_ok ref body after w w' Hturn Hframe Hstable Hst Hrun)
    as (e & e' & He & He' & _ & _ & Hfr & _ & Hents & _).
  split; [done|]. split; [done|]. split; [done|].
  intros e0 e0' H0 H0' k Hk.
  rewrite He in H0. injection H0 as <-.
  rewrite He' in H0'. injection H0' as <-.
  apply run_queries_effect in Hrun as (e2 & He2 & Hw').
  rewrite He in He2. injection He2 as <-.
  destruct Hst as [H1 H2 H3 H4].
  destruct (H3 ref e He) as [Hnd Hlk].
  assert (Forall (fun q => NoDup (Query.entities q))
            (EntityManager._queries w)) as Hnds
    by (eapply Forall_impl; [exact H2|]; by intros q [? _]).
  pose proof (for_queries_ok ref body after Hturn Hframe Hstable
                (EntityManager._queries w) e H1 Hnds Hnd Hlk)
    as (_ & Hothers & _).
  rewrite Hw' in He'. unfold EntityManager.get in He'. simpl in He'.
  rewrite lookup_insert_eq in He'. injection He' as Heq.
  rewrite Heq in Hothers.
  destruct (decide (k ∈ map Query.key (EntityManager._queries w)))
    as [Hin|Hnin]; [by right|].
  left. by apply Hothers.
Qed.

Lemma entityAddComponent_contained ref C w w' :
  structured w ->
  EntityManager.entityAddComponent ref C w = Some w' ->
  contained ref w w'.
Proof.
  intros Hst Hadd.
  pose proof (entityAddComponent_shell _ _ _ _ Hadd) as Hshell.
  destruct (entityAddComponent_ok _ _ _ _ Hst Hadd)
    as (_ & Hfr & Hents & _).
  split; [done|]. split; [done|]. split; [done|].
  revert Hadd. unfold EntityManager.entityAddComponent.
  destruct (EntityManager.get ref w) as [e0|] eqn:He0; simpl; [|done].
  destruct (negb (indexOf (Entity._ComponentTypes e0) C =? -1)).
  { intros [= <-] e e' He He' k Hk. left. congruence. }
  destruct (ComponentManager.getComponentsPool C
              (EntityManager.componentsManager w)) as [pool cm].
  destruct (pool_aquire pool (EntityManager.nextInstance w))
    as [[component pool'] n].
  set (e1 := Entity.set_attached _ _ e0).
  set (w1 := EntityManager.put ref e1 _).
  destruct (EntityManager.onEntityComponentAdded ref C w1) as [w2|] eqn:Hrun;
    simpl; [|done].
  intros [= <-] e e' He He' k Hk. injection He as <-.
  change (EntityManager.get ref w2 = Some e') in He'.
  assert (structured w1) as Hst1.
  { apply (structured_ext w); [done| | |done].
    - intros r er Her. destruct (decide (r = ref)) as [->|Hne].
      + unfold w1 in Her. rewrite get_put in Her. injection Her as <-.
        by exists e0.
      + unfold w1 in Her. rewrite get_put_ne in Her by done. by exists er.
    - intros r Hr. destruct (decide (r = ref)) as [->|Hne].
      + unfold w1. rewrite get_put. by eexists.
      + unfold w1. rewrite get_put_ne by done.
        by apply (live_objects _ Hst). }
  destruct (callback_contained ref _ _ w1 w2
              (onEntityComponentAdded_turn ref C)
              (onEntityComponentAdded_body_frame ref C)
              (after_added_stable ref C) Hst1 Hrun) as (_ & _ & _ & Hk1).
  apply (Hk1 e1 e'); [apply get_put|done|done].
Qed.

Lemma entityRemoveComponent_contained ref C force w w' :
  structured w ->
  EntityManager.entityRemoveComponent ref C force w = Some w' ->
  contained ref w w'.
Proof.
  intros Hst Hrm.
  pose proof (entityRemoveComponent_shell _ _ _ _ _ Hrm) as Hshell.
  destruct (entityRemoveComponent_ok _ _ _ _ _ Hst Hrm)
    as (_ & Hfr & Hents & _ & _ & (e0 & e' & He0 & He' & _)).
  split; [done|]. split; [done|]. split; [done|].
  intros e e2 He He2 k Hk.
  rewrite He0 in He. injection He as <-.
  rewrite He' in He2. injection He2 as <-.
  destruct (decide (C ∈ Entity._ComponentTypes e0)) as [HC|HC].
  - destruct (entityRemoveComponent_detaches _ _ _ _ _ _ He0 HC Hrm)
      as (w2 & e1 & Hrun & He1 & Ht & Hqs & Hq & Hents2 & Hothers).
    assert (structured w2) as Hst2.
    { apply (structured_ext w); [done| | |done].
      - intros r er Her. destruct (decide (r = ref)) as [->|Hne].
        + rewrite He1 in Her. injection Her as <-. by exists e0.
        + rewrite Hothers in Her by done. by exists er.
      - intros r Hr. destruct (decide (r = ref)) as [->|Hne].
        + rewrite He1. by eexists.
        + rewrite Hothers by done. apply (live_objects _ Hst).
          by rewrite <- Hents2. }
    destruct (callback_contained ref _ _ w2 w'
                (onEntityComponentRemoved_turn ref C)
                (onEntityComponentRemoved_body_frame ref C)
                (after_removed_stable ref C) Hst2 Hrun)
      as (_ & _ & _ & Hk1).
    rewrite <- Hqs, <- Hq. by apply (Hk1 e1 e').
  - unfold EntityManager.entityRemoveComponent in Hrm.
    rewrite He0 in Hrm. simpl in Hrm.
    apply indexOf_absent in HC. rewrite HC in Hrm. simpl in Hrm.
    injection Hrm as <-. left. congruence.
Qed.

Lemma Forall2_elem_of_r {A B} (R : A -> B -> Prop) l l' y :
  Forall2 R l l' -> y ∈ l' -> exists x, x ∈ l /\ R x y.
Proof.
  induction 1 as [|x y' l l' Hxy _ IH]; intros Hin.
  - by apply elem_of_nil in Hin.
  - apply elem_of_cons in Hin as [->|Hin].
    + exists x. split; [left|done].
    + destruct (IH Hin) as (x' & Hx' & HR). exists x'. split; [by right|done].
Qed.

Lemma removeAll_loop_contained n ref force : forall w w' e0,
  structured w ->
  EntityManager.get ref w = Some e0 ->
  length (Entity._ComponentTypes e0) = n ->
  EntityManager.removeAll_loop n ref force w = Some w' ->
  contained ref w w'.
Proof.
  induction n as [|j IH]; intros w w' e0 Hst He0 Hlen; simpl.
  - intros [= <-]. apply contained_refl.
  - rewrite He0. simpl.
    destruct (lookup_lt_is_Some_2 (Entity._ComponentTypes e0) j
                ltac:(lia)) as [C HC].
    rewrite HC.
    destruct (EntityManager.entityRemoveComponent ref C force w)
      as [w1|] eqn:Hrm; simpl; [|done].
    intros Hloop.
    pose proof (entityRemoveComponent_contained _ _ _ _ _ Hst Hrm) as Hc1.
    destruct (entityRemoveComponent_ok _ _ _ _ _ Hst Hrm)
      as (Hst1 & _ & _ & _ & _ & (e0' & e1 & He0' & He1 & Ht)).
    rewrite He0 in He0'. injection He0' as <-.
    assert (length (Entity._ComponentTypes e1) = j) as Hlen1.
    { rewrite Ht, length_remove_first; [lia|].
      by eapply list_elem_of_lookup_2. }
    eapply contained_trans; [exact Hc1|]. by eapply IH.
Qed.

Lemma entityRemoveAllComponents_contained ref force w w' :
  structured w ->
  EntityManager.entityRemoveAllComponents ref force w = Some w' ->
  contained ref w w'.
Proof.
  intros Hst. unfold EntityManager.entityRemoveAllComponents.
  destruct (EntityManager.get ref w) as [e0|] eqn:He0; simpl; [|done].
  by apply removeAll_loop_contained with (e0 := e0).
Qed.

(** The bookkeeping survives an operation that is contained in a live
    entity and leaves the index exact. *)
Lemma healthy_core_step ref w w' :
  healthy_core w -> indexed w' -> contained ref w w' ->
  ref ∈ EntityManager._entities w ->
  healthy_core w'.
Proof.
  intros [H1 H2 H3 H4 H5 H6 H7 H8] Hidx
    ([Hget Hsim] & (Hp & Ha & _ & Ho) & Hents & Hk) Hlive.
  pose proof (Forall2_similar_keys _ _ _ Hsim) as Hkeys.
  split; try done.
  - by rewrite Hents.
  - intros r e' He' k Hin. rewrite Hkeys.
    destruct (decide (r = ref)) as [->|Hne].
    + destruct (proj1 (Ho ref)) as [e He]; [by eexists|].
      destruct (Hk e e' He He' k Hin) as [Hold|Hnew]; [|done].
      by apply (H3 ref e He).
    + rewrite Hget in He' by done. by apply (H3 r e' He').
  - intros r Hr. rewrite Ha. apply H4. by apply Ho.
  - intros q' r Hq' Hr. apply Ho.
    destruct (Forall2_elem_of_r _ _ _ _ Hsim Hq') as (q & Hq & Hs).
    destruct (decide (r = ref)) as [->|Hne].
    + apply (live_objects _ (proj1 H1)). done.
    + destruct Hs as (_ & _ & _ & _ & _ & Hothers).
      apply (H5 q r Hq). by apply Hothers.
  - by rewrite Hp.
  - intros r Hr. rewrite Hp in Hr. destruct (H7 r Hr) as [Hn (e & He & Hb)].
    split; [by rewrite Hents|].
    assert (r <> ref) as Hne by (intros ->; done).
    exists e. by rewrite Hget.
  - by rewrite Hp.
Qed.

Lemma entityAddComponent_healthy ref C w w' :
  healthy w ->
  ref ∈ EntityManager._entities w ->
  ref ∉ EntityManager.entitiesToRemove w ->
  EntityManager.entityAddComponent ref C w = Some w' ->
  healthy w'.
Proof.
  intros [Hc [Hdn Hd]] Hlive Hnot Hadd.
  pose proof (hc_indexed _ Hc) as Hidx.
  pose proof (mutate_indexed w w' (AddComponent ref C) Hidx Hadd) as Hidx'.
  pose proof (entityAddComponent_contained _ _ _ _ (proj1 Hidx) Hadd)
    as Hcont.
  split; [by apply (healthy_core_step ref w)|].
  destruct Hcont as ([Hget _] & (_ & _ & Hto & _) & Hents & _).
  split; [by rewrite Hto|].
  intros r Hr. rewrite Hto in Hr. destruct (Hd r Hr) as [Hl (e & He & Ht)].
  split; [by rewrite Hents|].
  assert (r <> ref) as Hne by (intros ->; done).
  exists e. by rewrite Hget.
Qed.

Lemma entityRemoveComponent_healthy ref C force w w' :
  healthy w ->
  ref ∈ EntityManager._entities w ->
  EntityManager.entityRemoveComponent ref C force w = Some w' ->
  healthy w'.
Proof.
  intros [Hc [Hdn Hd]] Hlive Hrm.
  pose proof (hc_indexed _ Hc) as Hidx.
  pose proof (mutate_indexed w w' (RemoveComponent ref C force) Hidx Hrm)
    as Hidx'.
  pose proof (entityRemoveComponent_contained _ _ _ _ _ (proj1 Hidx) Hrm)
    as Hcont.
  destruct (entityRemoveComponent_ok _ _ _ _ _ (proj1 Hidx) Hrm)
    as (_ & _ & _ & _ & _ & (e0 & e' & He0 & He' & Ht')).
  split; [by apply (healthy_core_step ref w)|].
  destruct Hcont as ([Hget _] & (_ & _ & Hto & _) & Hents & _).
  split; [by rewrite Hto|].
  intros r Hr. rewrite Hto in Hr. destruct (Hd r Hr) as [Hl (e & He & Ht)].
  split; [by rewrite Hents|].
  destruct (decide (r = ref)) as [->|Hne].
  - exists e'. split; [done|]. rewrite He0 in He. injection He as <-.
    by rewrite Ht', Ht.
  - exists e. by rewrite Hget.
Qed.

Lemma quiet_get w w' r :
  quiet w w' -> EntityManager.get r w' = EntityManager.get r w.
Proof. intros (Hh & _). unfold EntityManager.get. by rewrite Hh. Qed.

Lemma quiet_contained ref w w' : quiet w w' -> contained ref w w'.
Proof.
  intros Hq. pose proof Hq as (Hh & Hqs & He & Hp & Ht).
  split; [split|].
  - intros r _. by apply quiet_get.
  - rewrite Hqs. apply Forall2_similar_refl.
  - split; [|split; [done|]].
    + split; [done|]. split; [by rewrite Hh|]. split; [done|].
      intros r. by rewrite (quiet_get w w').
    + intros e e' H1 H2 k Hk. left. rewrite (quiet_get w w') in H2 by done.
      congruence.
Qed.

Lemma quiet_same_index w w' : quiet w w' -> same_index w w'.
Proof.
  intros Hq. pose proof Hq as (Hh & Hqs & He & Hp & Ht).
  split; [done|]. split; [done|]. split; [done|].
  split; [by rewrite Hh|].
  intros r. rewrite (quiet_get w w') by done.
  by destruct (EntityManager.get r w).
Qed.

Lemma removeEntitySync_release ref index b w w' :
  EntityManager._removeEntitySync ref index b w = Some w' ->
  exists w3 e3,
    (if b then EntityManager.entityRemoveAllComponents ref true
                 (EntityManager.set_entities
                    (splice1 (EntityManager._entities w) index) w)
     else Some (EntityManager.set_entities
                  (splice1 (EntityManager._entities w) index) w))
    = Some w3 /\
    EntityManager.get ref w3 = Some e3 /\
    EntityManager.get ref w'
    = Some (Entity.reset (Entity.set_world false e3)
              (Heap.nextId (EntityManager.heap w3))).1 /\
    (forall r, r <> ref -> EntityManager.get r w' = EntityManager.get r w3) /\
    EntityManager._queries w' = EntityManager._queries w3 /\
    EntityManager._entities w' = EntityManager._entities w3 /\
    ObjectPool.freeList (EntityManager._entityPool w')
    = push (ObjectPool.freeList (EntityManager._entityPool w3)) ref /\
    ObjectPool.count (EntityManager._entityPool w')
    = ObjectPool.count (EntityManager._entityPool w3) /\
    Heap.allocated (EntityManager.heap w')
    = Heap.allocated (EntityManager.heap w3) /\
    EntityManager.entitiesToRemove w' = EntityManager.entitiesToRemove w3 /\
    EntityManager.entitiesWithComponentsToRemove w'
    = EntityManager.entitiesWithComponentsToRemove w3 /\
    EntityManager.componentsManager w' = EntityManager.componentsManager w3.
Proof.
  unfold EntityManager._removeEntitySync.
  destruct (if b then _ else _) as [w3|] eqn:Hall; simpl; [|done].
  destruct (EntityManager.get ref w3) as [e3|] eqn:He3; simpl; [|done].
  intros [= <-]. exists w3, e3. split; [done|]. split; [done|].
  unfold EntityManager.get, Heap.resetEntityObject. simpl.
  rewrite lookup_insert_eq. simpl.
  split; [by rewrite lookup_insert_eq|]. split; [|done].
  intros r Hr. by rewrite !lookup_insert_ne.
Qed.

Lemma removeEntity_healthy ref force w w' :
  healthy w ->
  ref ∉ EntityManager.entitiesToRemove w ->
  EntityManager.removeEntity ref force w = Some w' ->
  healthy w'.
Proof.
  intros [Hc [Hdn Hd]] Hnot Hrm.
  pose proof (hc_indexed _ Hc) as Hidx.
  pose proof (removeEntity_indexed _ _ _ _ Hidx Hrm) as Hidx'.
  destruct Hidx as [Hst Hmem].
  revert Hrm. unfold EntityManager.removeEntity.
  destruct (Z.eqb_spec (indexOf (EntityManager._entities w) ref) (-1))
    as [_|Hidxof]; [done|].
  assert (ref ∈ EntityManager._entities w) as Hlive.
  { destruct (decide (ref ∈ EntityManager._entities w)); [done|].
    exfalso. by apply Hidxof, indexOf_absent. }
  set (w1 := EntityManager.emit EntityManager.ENTITY_REMOVED (EntityArg ref)
               Undefined w).
  assert (quiet w w1) as Hq1 by done.
  destruct (EntityManager.onEntityRemoved ref w1) as [w2|] eqn:Hgone;
    simpl; [|done].
  assert (stable (fun (_ : Query.t) (_ : Entity.t) => false)) as Hstable
    by done.
  pose proof (emit_structured EntityManager.ENTITY_REMOVED (EntityArg ref)
                Undefined w Hst) as Hst1.
  pose proof (callback_contained ref _ _ w1 w2 (onEntityRemoved_turn ref)
                (onEntityRemoved_body_frame ref) Hstable Hst1 Hgone) as Hc12.
  destruct (onEntityRemoved_ok ref w1 w2 Hst1 Hgone)
    as (Hst2 & _ & Hents2 & Hs2).
  pose proof (contained_trans _ _ _ _ (quiet_contained ref _ _ Hq1) Hc12)
    as Hc02.
  destruct force.
  - intros Hsync.
    apply removeEntitySync_release in Hsync
      as (w3 & e3 & Hall & He3 & Href & Hothers & Hqs & Hents & Hfl & Hcnt
          & Hal & Hto & _).
    assert (EntityManager._entities w2 = EntityManager._entities w)
      as Hents2' by (by rewrite Hents2).
    rewrite Hents2', splice1_indexOf in Hall by done.
    set (w2' := EntityManager.set_entities
                  (remove_first ref (EntityManager._entities w)) w2) in *.
    assert (structured w2') as Hst2'.
    { apply (structured_ext w2); [done| | |done].
      - intros r e' He'. by exists e'.
      - intros r Hr. apply elem_of_remove_first in Hr.
        apply (live_objects _ Hst2). by rewrite Hents2'. }
    pose proof (entityRemoveAllComponents_contained _ _ _ _ Hst2' Hall)
      as Hc23.
    destruct (entityRemoveAllComponents_ok _ _ _ _ Hst2' Hall)
      as (_ & _ & _ & _ & (e3' & He3' & Ht3)).
    rewrite He3 in He3'. injection He3' as <-.
    destruct Hc02 as ([Hg02 Hs02] & (Hp02 & Ha02 & Ht02 & Ho02) & _ & _).
    destruct Hc23 as ([Hg23 Hs23] & (Hp23 & Ha23 & Ht23 & Ho23) & He23 & _).
    assert (forall r, r <> ref ->
              EntityManager.get r w' = EntityManager.get r w) as Hget.
    { intros r Hr. rewrite Hothers, Hg23 by done. by apply Hg02. }
    assert (Forall2 (similar ref) (EntityManager._queries w)
              (EntityManager._queries w')) as Hsim.
    { rewrite Hqs. by eapply Forall2_similar_trans. }
    assert (EntityManager._entities w'
            = remove_first ref (EntityManager._entities w)) as Hents'
      by (by rewrite Hents, He23).
    assert (ObjectPool.freeList (EntityManager._entityPool w')
            = push (ObjectPool.freeList (EntityManager._entityPool w)) ref)
      as Hfl' by (rewrite Hfl, Hp23; simpl; by rewrite Hp02).
    assert (ref ∉ ObjectPool.freeList (EntityManager._entityPool w))
      as Hnp.
    { intros Hin. by destruct (hc_pool _ Hc ref Hin). }
    destruct Hc as [_ H2 H3 H4 H5 H6 H7 H8].
    split; [split; try done|].
    + rewrite Hents'. by apply NoDup_remove_first.
    + intros r e' He' k Hk.
      rewrite (Forall2_similar_keys _ _ _ Hsim).
      destruct (decide (r = ref)) as [->|Hne].
      * rewrite Href in He'. injection He' as <-. simpl in Hk.
        by apply elem_of_nil in Hk.
      * rewrite Hget in He' by done. by apply (H3 r e').
    + intros r Hr. rewrite Hal, Ha23. simpl. rewrite Ha02. apply H4.
      destruct (decide (r = ref)) as [->|Hne].
      * by apply (live_objects _ Hst).
      * by rewrite <- Hget.
    + intros q' r Hq' Hr.
      destruct (decide (r = ref)) as [->|Hne]; [rewrite Href; by eexists|].
      rewrite Hget by done.
      destruct (Forall2_elem_of_r _ _ _ _ Hsim Hq') as (q & Hq & Hs).
      destruct Hs as (_ & _ & _ & _ & _ & Ho). apply (H5 q r Hq).
      by apply Ho.
    + rewrite Hfl'. by apply NoDup_push.
    + intros r Hr. rewrite Hfl' in Hr. rewrite Hents'.
      apply elem_of_push in Hr as [Hr| ->].
      * destruct (H7 r Hr) as [Hn (e & He & Hb)].
        split; [intros Hin; by apply elem_of_remove_first in Hin|].
        assert (r <> ref) as Hne by (intros ->; done).
        exists e. by rewrite Hget.
      * split; [by apply not_elem_of_remove_first|].
        eexists. split; [exact Href|]. done.
    + rewrite Hcnt, Hp23. simpl. by rewrite Hp02.
    + assert (EntityManager.entitiesToRemove w'
              = EntityManager.entitiesToRemove w) as Hto'
        by (rewrite Hto, Ht23; simpl; by rewrite Ht02).
      split; [by rewrite Hto'|].
      intros r Hr. rewrite Hto' in Hr.
      destruct (Hd r Hr) as [Hl (e & He & Ht)].
      assert (r <> ref) as Hne by (intros ->; done).
      split; [rewrite Hents'; by apply elem_of_remove_first_ne|].
      exists e. by rewrite Hget.
  - destruct (EntityManager.entityRemoveAllComponents ref false w2)
      as [w3|] eqn:Hall; simpl; [|done].
    intros [= <-].
    pose proof (entityRemoveAllComponents_contained _ _ _ _ Hst2 Hall)
      as Hc23.
    destruct (entityRemoveAllComponents_ok _ _ _ _ Hst2 Hall)
      as (_ & _ & _ & _ & (e3 & He3 & Ht3)).
    pose proof (contained_trans _ _ _ _ Hc02 Hc23) as Hc03.
    set (w' := EntityManager.set_deferred _ _ w3) in *.
    assert (same_index w3 w') as Hsame.
    { split; [done|]. split; [done|]. split; [done|]. split; [done|].
      intros r. change (EntityManager.get r w') with (EntityManager.get r w3).
      by destruct (EntityManager.get r w3). }
    assert (same_index w' w3) as Hsame'.
    { split; [done|]. split; [done|]. split; [done|]. split; [done|].
      intros r. change (EntityManager.get r w') with (EntityManager.get r w3).
      by destruct (EntityManager.get r w3). }
    pose proof (same_index_indexed _ _ Hsame' Hidx') as Hidx3.
    pose proof (healthy_core_step ref w w3 Hc Hidx3 Hc03 Hlive) as Hc3.
    split; [by apply (same_index_healthy_core w3)|].
    destruct Hc03 as ([Hget _] & (_ & _ & Hto & _) & Hents & _).
    split.
    + simpl. rewrite Hto. by apply NoDup_push.
    + intros r Hr. simpl in Hr. rewrite Hto in Hr.
      change (EntityManager._entities w') with (EntityManager._entities w3).
      change (EntityManager.get r w') with (EntityManager.get r w3).
      rewrite Hents.
      apply elem_of_push in Hr as [Hr| ->].
      * destruct (Hd r Hr) as [Hl (e & He & Ht)]. split; [done|].
        assert (r <> ref) as Hne by (intros ->; done).
        exists e. by rewrite Hget.
      * split; [done|]. by exists e3.
Qed.

(** *** createEntity *)

(** The objects of the heap after [expand]: the new ones have no
    component and no query, every other reference is as before. *)
Lemma expand_loop_objects (n : nat) (fl : list EntityRef) (h : Heap.t) :
  let r := ObjectPool.expand_loop Heap.createEntityObject n fl h in
  (forall k, (k < Heap.allocated h)%nat \/ (Heap.allocated h + n <= k)%nat ->
     Heap.objects (snd r) !! k = Heap.objects h !! k) /\
  (forall i, (i < n)%nat ->
     exists e, Heap.objects (snd r) !! (Heap.allocated h + i)%nat = Some e /\
               Entity._ComponentTypes e = [] /\ Entity.queries e = []).
Proof.
  revert fl h. induction n as [|n IH]; intros fl h; simpl.
  - split; [done|]. intros i Hi. lia.
  - specialize (IH (push fl (Heap.allocated h))
                  {| Heap.objects :=
                       <[Heap.allocated h :=
                           fst (Entity.new false (Heap.nextId h))]>
                         (Heap.objects h);
                     Heap.allocated := S (Heap.allocated h);
                     Heap.nextId := Heap.nextId h + 1 |}).
    simpl in IH. destruct IH as [Hold Hnew]. split.
    + intros k Hk. rewrite Hold by lia. by rewrite lookup_insert_ne by lia.
    + intros i Hi. destruct i as [|i].
      * rewrite Nat.add_0_r, Hold by lia. rewrite lookup_insert_eq.
        by eexists.
      * destruct (Hnew i ltac:(lia)) as (e & He & Hb).
        exists e. split; [|done]. rewrite <- He. f_equal. lia.
Qed.

Lemma grown_is_Some w w' r :
  grown w w' -> is_Some (EntityManager.get r w) ->
  is_Some (EntityManager.get r w').
Proof.
  intros Hg [e He]. specialize (Hg r). rewrite He in Hg.
  destruct (EntityManager.get r w'); [by eexists|done].
Qed.

Lemma grown_bare w w' r :
  grown w w' -> bare w r -> bare w' r.
Proof.
  intros Hg (e & He & Ht & Hq). specialize (Hg r). rewrite He in Hg.
  destruct (EntityManager.get r w') as [e'|] eqn:He'; [|done].
  exists e'. destruct Hg as [-> ->]. done.
Qed.

Lemma grown_structured w w' :
  grown w w' ->
  EntityManager._queries w' = EntityManager._queries w ->
  (forall r, r ∈ EntityManager._entities w' ->
     is_Some (EntityManager.get r w')) ->
  (forall q r, q ∈ EntityManager._queries w -> r ∈ Query.entities q ->
     is_Some (EntityManager.get r w)) ->
  structured w -> structured w'.
Proof.
  intros Hg Hq Hlive Hlisted [H1 H2 H3 H4]. split.
  - by rewrite Hq.
  - by rewrite Hq.
  - intros r e' He'. rewrite Hq. specialize (Hg r). rewrite He' in Hg.
    destruct (EntityManager.get r w) as [e|] eqn:He.
    + destruct Hg as [_ Hqs]. destruct (H3 r e He) as [Hnd Hlk].
      rewrite Hqs. split; [done|].
      eapply Forall_impl; [exact Hlk|]. intros q. unfold linked.
      by rewrite Hqs.
    + destruct Hg as [_ Hqs]. rewrite Hqs. split; [constructor|].
      apply Forall_forall. intros q Hin. unfold linked. rewrite Hqs.
      split.
      * intros Hr. destruct (Hlisted q r Hin Hr) as [e Hsome]. congruence.
      * intros Hk. by apply elem_of_nil in Hk.
  - done.
Qed.

Lemma grown_membership w w' r :
  grown w w' ->
  EntityManager._queries w' = EntityManager._queries w ->
  is_Some (EntityManager.get r w) ->
  sound_at w r /\ complete_at w r -> sound_at w' r /\ complete_at w' r.
Proof.
  intros Hg Hq [e He] [Hs Hc]. specialize (Hg r). rewrite He in Hg.
  specialize (Hs e He). specialize (Hc e He).
  split; intros e' He'; rewrite He' in Hg; destruct Hg as [Ht _];
    rewrite Hq.
  - eapply Forall_impl; [exact Hs|]. intros q Hm Hin.
    rewrite <- (Hm Hin). by apply match_same.
  - eapply Forall_impl; [exact Hc|]. intros q Hm Hin. apply Hm.
    rewrite <- Hin. symmetry. by apply match_same.
Qed.

Lemma createEntity_effect w ref w' :
  healthy_core w ->
  EntityManager.createEntity w = Some (ref, w') ->
  EntityManager._queries w' = EntityManager._queries w /\
  EntityManager._entities w' = push (EntityManager._entities w) ref /\
  EntityManager.entitiesToRemove w' = EntityManager.entitiesToRemove w /\
  grown w w' /\ bare w' ref /\ (ref ∉ EntityManager._entities w) /\
  (forall r, is_Some (EntityManager.get r w') ->
     (r < Heap.allocated (EntityManager.heap w'))%nat) /\
  NoDup (ObjectPool.freeList (EntityManager._entityPool w')) /\
  (forall r, r ∈ ObjectPool.freeList (EntityManager._entityPool w') ->
     r <> ref /\ (r ∉ EntityManager._entities w) /\ bare w' r) /\
  0 <= ObjectPool.count (EntityManager._entityPool w').
Proof.
  intros [[Hst _] _ _ Halloc _ Hpn Hpool Hcount].
  unfold EntityManager.createEntity.
  destruct (ObjectPool.freeList (EntityManager._entityPool w))
    as [|r0 fl0] eqn:Hfl.
  - unfold ObjectPool.aquire, ObjectPool.expand. rewrite Hfl. simpl.
    set (g := ObjectPool.growth (EntityManager._entityPool w)).
    assert (g = (ObjectPool.count (EntityManager._entityPool w) + 2) / 5 + 1)
      as Hg by (unfold g, ObjectPool.growth; by rewrite Math_round_fifth).
    pose proof (Z.div_pos (ObjectPool.count (EntityManager._entityPool w) + 2)
                  5 ltac:(lia) ltac:(lia)) as Hpos.
    pose proof (expand_loop_entities (Z.to_nat g) [] (EntityManager.heap w))
      as (Hl & Hal & _).
    pose proof (expand_loop_objects (Z.to_nat g) [] (EntityManager.heap w))
      as (Hold & Hnew).
    destruct (ObjectPool.expand_loop Heap.createEntityObject (Z.to_nat g) []
                (EntityManager.heap w)) as [fl h] eqn:Hloop.
    simpl in *. subst fl.
    destruct (Z.to_nat g) as [|m] eqn:Hm; [lia|].
    rewrite seq_S, last_snoc, removelast_last. simpl.
    set (a := Heap.allocated (EntityManager.heap w)) in *.
    destruct (Hnew m ltac:(lia)) as (e & He & Hte & Hqe).
    rewrite He. simpl. intros [= <- <-].
    assert (forall r, (a <= r)%nat -> EntityManager.get r w = None) as Hnone.
    { intros r Hr. destruct (EntityManager.get r w) eqn:Hg'; [|done].
      assert (r < a)%nat by (apply Halloc; by eexists). lia. }
    split; [done|]. split; [done|]. split; [done|].
    assert (forall r, r <> (a + m)%nat -> (a <= r < a + m)%nat \/
              EntityManager.get r
                (EntityManager.emit EntityManager.ENTITY_CREATED
                   (EntityArg (a + m)%nat) Undefined
                   (EntityManager.set_entities
                      (push (EntityManager._entities w) (a + m)%nat)
                      (EntityManager.set_heap
                         (Heap.set_object (a + m)%nat
                            (Entity.set_world true e) h)
                         (EntityManager.set_entityPool
                            {| ObjectPool.freeList := seq a m;
                               ObjectPool.count :=
                                 ObjectPool.count
                                   (EntityManager._entityPool w) + g |}
                            w))))
              = EntityManager.get r w) as Hfar.
    { intros r Hne.
      destruct (decide (a <= r < a + m)%nat) as [Hin|Hout]; [by left|].
      right. unfold EntityManager.get. simpl.
      rewrite lookup_insert_ne by done. apply Hold. lia. }
    assert (forall r, (a <= r < a + m)%nat ->
              bare
                (EntityManager.emit EntityManager.ENTITY_CREATED
                   (EntityArg (a + m)%nat) Undefined
                   (EntityManager.set_entities
                      (push (EntityManager._entities w) (a + m)%nat)
                      (EntityManager.set_heap
                         (Heap.set_object (a + m)%nat
                            (Entity.set_world true e) h)
                         (EntityManager.set_entityPool
                            {| ObjectPool.freeList := seq a m;
                               ObjectPool.count :=
                                 ObjectPool.count
                                   (EntityManager._entityPool w) + g |}
                            w)))) r) as Hbare.
    { intros r Hr. destruct (Hnew (r - a)%nat ltac:(lia)) as (e1 & He1 & Hb).
      exists e1. split; [|done]. unfold EntityManager.get. simpl.
      rewrite lookup_insert_ne by lia. rewrite <- He1. f_equal. lia. }
    assert (bare
                (EntityManager.emit EntityManager.ENTITY_CREATED
                   (EntityArg (a + m)%nat) Undefined
                   (EntityManager.set_entities
                      (push (EntityManager._entities w) (a + m)%nat)
                      (EntityManager.set_heap
                         (Heap.set_object (a + m)%nat
                            (Entity.set_world true e) h)
                         (EntityManager.set_entityPool
                            {| ObjectPool.freeList := seq a m;
                               ObjectPool.count :=
                                 ObjectPool.count
                                   (EntityManager._entityPool w) + g |}
                            w)))) (a + m)%nat) as Hbref.
    { exists (Entity.set_world true e). split; [|done].
      unfold EntityManager.get. simpl. by rewrite lookup_insert_eq. }
    assert ((a + m)%nat ∉ EntityManager._entities w) as Hfresh.
    { intros Hin. destruct (live_objects _ Hst _ Hin) as [e1 He1].
      rewrite Hnone in He1 by lia. done. }
    split; [|split; [done|split; [done|split; [|split; [|split]]]]].
    + intros r. destruct (decide (r = (a + m)%nat)) as [->|Hne].
      * destruct Hbref as (e1 & -> & Hb). by rewrite Hnone by lia.
      * destruct (Hfar r Hne) as [Hin| ->].
        -- destruct (Hbare r Hin) as (e1 & -> & Hb). by rewrite Hnone by lia.
        -- by destruct (EntityManager.get r w).
    + intros r Hr. simpl. rewrite Hal.
      destruct (decide (r = (a + m)%nat)) as [->|Hne]; [lia|].
      destruct (Hfar r Hne) as [Hin|Heq]; [lia|].
      rewrite Heq in Hr. apply Halloc in Hr. fold a in Hr. lia.
    + simpl. apply NoDup_seq.
    + simpl. intros r Hr. apply elem_of_seq in Hr.
      split; [lia|]. split; [|by apply Hbare].
      intros Hin. destruct (live_objects _ Hst _ Hin) as [e1 He1].
      rewrite Hnone in He1 by lia. done.
    + simpl. lia.
  - unfold ObjectPool.aquire. rewrite Hfl. simpl length.
    replace (Z.of_nat (S (length fl0)) <=? 0) with false
      by (symmetry; apply Z.leb_gt; lia).
    unfold pop.
    destruct (exists_last (l := ObjectPool.freeList
                                  (EntityManager._entityPool w)))
      as (fl & r & Hsplit); [by rewrite Hfl|].
    rewrite Hsplit, last_snoc, removelast_last. simpl.
    rewrite <- Hfl, Hsplit in Hpn, Hpool.
    apply NoDup_app in Hpn as (Hnd & Hdisj & _).
    destruct (Hpool r) as [Hnl (e & He & Hte & Hqe)];
      [apply elem_of_app; right; by left|].
    unfold EntityManager.get in He. rewrite He. simpl. intros [= <- <-].
    split; [done|]. split; [done|]. split; [done|].
    assert (forall r', r' <> r ->
              EntityManager.get r'
                (EntityManager.emit EntityManager.ENTITY_CREATED
                   (EntityArg r) Undefined
                   (EntityManager.set_entities
                      (push (EntityManager._entities w) r)
                      (EntityManager.set_heap
                         (Heap.set_object r (Entity.set_world true e)
                            (EntityManager.heap w))
                         (EntityManager.set_entityPool
                            {| ObjectPool.freeList := fl;
                               ObjectPool.count :=
                                 ObjectPool.count
                                   (EntityManager._entityPool w) |} w))))
              = EntityManager.get r' w) as Hfar.
    { intros r' Hne. unfold EntityManager.get. simpl.
      by rewrite lookup_insert_ne. }
    assert (EntityManager.get r
                (EntityManager.emit EntityManager.ENTITY_CREATED
                   (EntityArg r) Undefined
                   (EntityManager.set_entities
                      (push (EntityManager._entities w) r)
                      (EntityManager.set_heap
                         (Heap.set_object r (Entity.set_world true e)
                            (EntityManager.heap w))
                         (EntityManager.set_entityPool
                            {| ObjectPool.freeList := fl;
                               ObjectPool.count :=
                                 ObjectPool.count
                                   (EntityManager._entityPool w) |} w))))
            = Some (Entity.set_world true e)) as Hat.
    { unfold EntityManager.get. simpl. by rewrite lookup_insert_eq. }
    split; [|split; [|split; [done|split; [|split; [done|split]]]]].
    + intros r'. destruct (decide (r' = r)) as [->|Hne].
      * rewrite Hat. unfold EntityManager.get. by rewrite He.
      * rewrite Hfar by done. by destruct (EntityManager.get r' w).
    + eexists. split; [exact Hat|]. done.
    + intros r' Hr. simpl. apply Halloc.
      destruct (decide (r' = r)) as [->|Hne].
      * unfold EntityManager.get. rewrite He. by eexists.
      * by rewrite <- Hfar.
    + simpl. intros r' Hr.
      assert (r' <> r) as Hne.
      { intros ->. apply (Hdisj r Hr). by left. }
      split; [done|].
      destruct (Hpool r') as [Hn (e1 & He1 & Hb)];
        [apply elem_of_app; by left|].
      split; [done|]. exists e1. by rewrite Hfar.
    + done.
Qed.

Lemma createEntity_healthy w ref w' :
  healthy w ->
  EntityManager.createEntity w = Some (ref, w') ->
  healthy w'.
Proof.
  intros [Hc [Hdn Hd]] Hcreate.
  destruct (createEntity_effect _ _ _ Hc Hcreate)
    as (Hqs & Hents & Hto & Hg & Hbref & Hfresh & Hal & Hnd & Hpool & Hcnt).
  destruct Hc as [[Hst Hmem] H2 H3 H4 H5 H6 H7 H8].
  assert (forall r, r ∈ EntityManager._entities w' ->
            is_Some (EntityManager.get r w')) as Hlive.
  { intros r Hr. rewrite Hents in Hr. apply elem_of_push in Hr as [Hr| ->].
    - apply (grown_is_Some w); [done|]. by apply (live_objects _ Hst).
    - destruct Hbref as (e & He & _). by eexists. }
  pose proof (grown_structured _ _ Hg Hqs Hlive H5 Hst) as Hst'.
  split; [split|].
  - split; [done|]. intros r Hr. rewrite Hents in Hr.
    destruct (decide (r ∈ EntityManager._entities w)) as [Hold|Hnew].
    + apply (grown_membership w); [done|done| |by apply Hmem].
      by apply (live_objects _ Hst).
    + apply elem_of_push in Hr as [Hr| ->]; [done|].
      destruct Hbref as (e & He & Hte & Hqe).
      destruct (backedges _ Hst' _ _ He) as [_ Hlk].
      pose proof (queries_wf _ Hst') as Hwf.
      split; intros e' He'; rewrite He in He'; injection He' as <-;
        apply Forall_forall; intros q Hq; rewrite Forall_forall in Hlk, Hwf.
      * intros Hin. apply (Hlk q Hq) in Hin. rewrite Hqe in Hin.
        by apply elem_of_nil in Hin.
      * destruct (Hwf q Hq) as [_ Hne].
        by rewrite (match_no_components q e Hne Hte).
  - rewrite Hents. by apply NoDup_push.
  - intros r e' He' k Hk. rewrite Hqs. specialize (Hg r).
    rewrite He' in Hg. destruct (EntityManager.get r w) as [e|] eqn:He.
    + destruct Hg as [_ Hq]. apply (H3 r e He). by rewrite <- Hq.
    + destruct Hg as [_ Hq]. rewrite Hq in Hk. by apply elem_of_nil in Hk.
  - done.
  - intros q r Hq Hr. rewrite Hqs in Hq. apply (grown_is_Some w); [done|].
    by apply (H5 q).
  - done.
  - intros r Hr. destruct (Hpool r Hr) as (Hne & Hnl & Hb).
    split; [|done]. rewrite Hents. intros Hin.
    apply elem_of_push in Hin as [Hin|Heq]; done.
  - done.
  - split; [by rewrite Hto|]. intros r Hr. rewrite Hto in Hr.
    destruct (Hd r Hr) as [Hl (e & He & Ht)].
    split; [rewrite Hents; apply elem_of_push; by left|].
    specialize (Hg r). rewrite He in Hg.
    destruct (EntityManager.get r w') as [e'|]; [|done].
    exists e'. split; [done|]. destruct Hg as [-> _]. done.
Qed.

(** *** getQuery *)

Lemma seed_spec refs : forall q h,
  NoDup refs -> NoDup (Query.entities q) ->
  (forall x, x ∈ refs -> x ∉ Query.entities q) ->
  let r := EntityManager.seed q refs h in
  Query.Components r.1 = Query.Components q /\
  Query.NotComponents r.1 = Query.NotComponents q /\
  NoDup (Query.entities r.1) /\
  (forall x, x ∈ Query.entities r.1 <->
     x ∈ Query.entities q \/
     (x ∈ refs /\ exists e, Heap.objects h !! x = Some e /\
                            Query.match_ q e = true)) /\
  Heap.allocated r.2 = Heap.allocated h /\
  forall x, Heap.objects r.2 !! x = seeded q refs x <$> Heap.objects h !! x.
Proof.
  induction refs as [|ref rest IH]; intros q h Hnd Hq Hdisj; simpl.
  - split; [done|]. split; [done|]. split; [done|]. split; [|split; [done|]].
    + intros x. split; [by left|]. intros [H|[H _]]; [done|].
      by apply elem_of_nil in H.
    + intros x. unfold seeded. destruct (Heap.objects h !! x); [|done].
      simpl. f_equal.
  - apply NoDup_cons in Hnd as [Hfresh Hnd].
    assert (forall x, x ∈ rest -> x ∉ Query.entities q) as Hdisj'
      by (intros x Hx; apply Hdisj; by right).
    destruct (Heap.objects h !! ref) as [entity|] eqn:Hobj.
    + destruct (Query.match_ q entity) eqn:Hm.
      * set (q1 := Query.set_entities (push (Query.entities q) ref)
                     (Query.eventDispatcher q) q).
        set (h1 := Heap.set_object ref
                     (Entity.set_queries
                        (push (Entity.queries entity) (Query.key q)) entity)
                     h).
        destruct (IH q1 h1) as (Hc & Hn & Hnd' & Hin & Hal & Hobjs).
        { done. }
        { simpl. apply NoDup_push; [done|]. apply Hdisj. by left. }
        { intros x Hx. simpl. rewrite elem_of_push. intros [Hold| ->].
          - by apply (Hdisj' x).
          - done. }
        split; [done|]. split; [done|]. split; [done|].
        split; [|split; [done|]].
        -- intros x. rewrite Hin. simpl. rewrite elem_of_push, elem_of_cons.
           split.
           ++ intros [[Hold| ->]|[Hx (e & He & Hme)]].
              ** by left.
              ** right. split; [by left|]. by exists entity.
              ** right. split; [by right|]. exists e.
                 assert (x <> ref) as Hne by (intros ->; done).
                 simpl in He. rewrite lookup_insert_ne in He by done.
                 split; [done|]. rewrite <- Hme. by apply match_same.
           ++ intros [Hold|[[->|Hx] (e & He & Hme)]].
              ** left. by left.
              ** left. by right.
              ** right. split; [done|]. exists e.
                 assert (x <> ref) as Hne by (intros ->; done).
                 simpl. rewrite lookup_insert_ne by done.
                 split; [done|]. rewrite <- Hme. by apply match_same.
        -- intros x. rewrite Hobjs. simpl.
           destruct (decide (x = ref)) as [->|Hne].
           ++ rewrite lookup_insert_eq, Hobj. simpl. f_equal.
              unfold seeded. rewrite bool_decide_eq_false_2 by done.
              rewrite bool_decide_eq_true_2 by left. simpl.
              by rewrite Hm.
           ++ rewrite lookup_insert_ne by done.
              destruct (Heap.objects h !! x) as [e|]; [|done]. simpl.
              f_equal. unfold seeded.
              rewrite (match_same q q1 e e) by done. simpl.
              destruct (decide (x ∈ rest)) as [Hx|Hx].
              ** rewrite !bool_decide_eq_true_2; [done|by right|done].
              ** rewrite !bool_decide_eq_false_2; [done| |done].
                 intros Hin'. apply elem_of_cons in Hin' as [?|?]; done.
      * destruct (IH q h Hnd Hq Hdisj') as (Hc & Hn & Hnd' & Hin & Hal & Hobjs).
        split; [done|]. split; [done|]. split; [done|].
        split; [|split; [done|]].
        -- intros x. rewrite Hin, elem_of_cons. split.
           ++ intros [Hold|[Hx He]]; [by left|]. right. split; [by right|done].
           ++ intros [Hold|[[->|Hx] (e & He & Hme)]]; [by left| |].
              ** rewrite Hobj in He. injection He as <-. congruence.
              ** right. split; [done|]. by exists e.
        -- intros x. rewrite Hobjs.
           destruct (Heap.objects h !! x) as [e|] eqn:He; [|done]. simpl.
           f_equal. unfold seeded.
           destruct (decide (x = ref)) as [->|Hne].
           ++ rewrite Hobj in He. injection He as <-. rewrite Hm.
              by rewrite !andb_false_r.
           ++ destruct (decide (x ∈ rest)) as [Hx|Hx].
              ** rewrite !bool_decide_eq_true_2; [done|by right|done].
              ** rewrite !bool_decide_eq_false_2; [done| |done].
                 intros Hin'. apply elem_of_cons in Hin' as [?|?]; done.
    + destruct (IH q h Hnd Hq Hdisj') as (Hc & Hn & Hnd' & Hin & Hal & Hobjs).
      split; [done|]. split; [done|]. split; [done|].
      split; [|split; [done|]].
      * intros x. rewrite Hin, elem_of_cons. split.
        -- intros [Hold|[Hx He]]; [by left|]. right. split; [by right|done].
        -- intros [Hold|[[->|Hx] (e & He & Hme)]]; [by left| |].
           ++ rewrite Hobj in He. done.
           ++ right. split; [done|]. by exists e.
      * intros x. rewrite Hobjs.
        destruct (Heap.objects h !! x) as [e|] eqn:He; [|done]. simpl.
        f_equal. unfold seeded.
        assert (x <> ref) as Hne by (intros ->; congruence).
        destruct (decide (x ∈ rest)) as [Hx|Hx].
        -- rewrite !bool_decide_eq_true_2; [done|by right|done].
        -- rewrite !bool_decide_eq_false_2; [done| |done].
           intros Hin'. apply elem_of_cons in Hin' as [?|?]; done.
Qed.

Lemma find_query_None k qs :
  EntityManager.find_query k qs = None -> k ∉ map Query.key qs.
Proof.
  unfold EntityManager.find_query. intros Hf Hin.
  apply list_elem_of_fmap in Hin as (q & -> & Hq).
  apply list_elem_of_In in Hq.
  pose proof (find_none _ _ Hf q Hq) as Hb. simpl in Hb.
  by rewrite bool_decide_eq_true_2 in Hb.
Qed.

Lemma getQuery_healthy spec w k w' :
  healthy w ->
  EntityManager.getQuery spec w = Some (k, w') ->
  healthy w'.
Proof.
  intros Hh. unfold EntityManager.getQuery.
  destruct (EntityManager.find_query (queryKey spec)
              (EntityManager._queries w)) as [q0|] eqn:Hfind.
  { by intros [= _ <-]. }
  apply find_query_None in Hfind.
  unfold EntityManager.Query_new.
  destruct (Query.split_terms spec) as [cs ns] eqn:Hsplit.
  destruct (Z.eqb_spec (Z.of_nat (length cs)) 0) as [|Hlen]; [done|].
  simpl.
  set (q := {| Query.Components := cs; Query.NotComponents := ns;
               Query.entities := [];
               Query.eventDispatcher := EventDispatcher.new;
               Query.reactive := false; Query.key := queryKey spec |}).
  destruct Hh as [[[Hst Hmem] H2 H3 H4 H5 H6 H7 H8] [Hdn Hd]].
  pose proof (seed_spec (EntityManager._entities w) q (EntityManager.heap w)
                H2 (NoDup_nil_2 : NoDup (Query.entities q))) as Hseed.
  pose proof (seed_key q (EntityManager._entities w) (EntityManager.heap w))
    as Hkey.
  destruct (EntityManager.seed q (EntityManager._entities w)
              (EntityManager.heap w)) as [q' h'] eqn:Hrun.
  simpl in Hseed, Hkey.
  destruct Hseed as (Hc & Hn & Hnd & Hin & Hal & Hobjs).
  { intros x _ Hx. by apply elem_of_nil in Hx. }
  intros [= _ <-].
  set (w' := EntityManager.set_heap h'
               (EntityManager.set_queries
                  (push (EntityManager._queries w) q') w)).
  assert (forall r, EntityManager.get r w'
                    = seeded q (EntityManager._entities w) r
                      <$> EntityManager.get r w) as Hget
    by (intros r; apply Hobjs).
  assert (forall r e, EntityManager.get r w = Some e ->
            Entity._ComponentTypes (seeded q (EntityManager._entities w) r e)
            = Entity._ComponentTypes e) as Htypes.
  { intros r e _. unfold seeded. by destruct (_ && _). }
  assert (forall r e k', EntityManager.get r w = Some e ->
            k' ∈ Entity.queries (seeded q (EntityManager._entities w) r e) <->
            k' ∈ Entity.queries e \/
            (k' = queryKey spec /\ r ∈ Query.entities q')) as Hedges.
  { intros r e k' He. rewrite Hin. unfold seeded.
    destruct (bool_decide (r ∈ EntityManager._entities w)
              && Query.match_ q e) eqn:Hb; simpl.
    - apply andb_true_iff in Hb as [Hlive Hm].
      apply bool_decide_eq_true in Hlive.
      rewrite elem_of_push. split.
      + intros [Hold| ->]; [by left|]. right. split; [done|].
        right. split; [done|]. by exists e.
      + intros [Hold|[-> _]]; [by left|by right].
    - split; [by left|]. intros [Hold|[_ [Hx|[Hlive (e1 & He1 & Hm)]]]].
      + done.
      + by apply elem_of_nil in Hx.
      + unfold EntityManager.get in He. rewrite He in He1.
        injection He1 as <-. rewrite Hm, andb_true_r in Hb.
        by apply bool_decide_eq_false in Hb. }
  assert (cs <> []) as Hcs by (intros ->; simpl in Hlen; lia).
  assert (structured w') as Hst'.
  { split.
    - simpl. unfold push. rewrite map_app. simpl. rewrite Hkey.
      apply NoDup_app. split; [apply (keys_nodup _ Hst)|].
      split; [|apply NoDup_singleton].
      intros x Hx Hx'. apply list_elem_of_singleton in Hx'. by subst.
    - simpl. unfold push. apply Forall_app. split; [apply (queries_wf _ Hst)|].
      apply Forall_singleton. split; [done|]. by rewrite Hc.
    - intros r e' He'. rewrite Hget in He'.
      destruct (EntityManager.get r w) as [e|] eqn:He; [|done].
      simpl in He'. injection He' as <-.
      destruct (backedges _ Hst r e He) as [Hnde Hlk]. split.
      + unfold seeded. destruct (_ && _); [|done]. simpl.
        apply NoDup_push; [done|]. intros Hk. by apply Hfind, (H3 r e He).
      + simpl. unfold push. apply Forall_app. split.
        * rewrite Forall_forall in Hlk |- *. intros q1 Hq1.
          specialize (Hlk q1 Hq1). unfold linked in *.
          rewrite Hlk, (Hedges r e _ He). split; [by left|].
          intros [Hold|[Heq _]]; [done|]. exfalso. apply Hfind.
          rewrite <- Heq. apply list_elem_of_fmap. by exists q1.
        * apply Forall_singleton. unfold linked.
          rewrite (Hedges r e _ He), Hkey. split; [by right|].
          intros [Hold|[_ Hx]]; [|done]. exfalso.
          by apply Hfind, (H3 r e He).
    - intros r Hr. rewrite Hget.
      destruct (live_objects _ Hst r Hr) as [e ->]. by eexists. }
  split; [split|].
  - split; [done|]. intros r Hr. destruct (Hmem r Hr) as [Hs Hcm].
    destruct (live_objects _ Hst r Hr) as [e He].
    specialize (Hs e He). specialize (Hcm e He).
    split; intros e' He'; rewrite Hget, He in He'; simpl in He';
      injection He' as <-; simpl; unfold push; apply Forall_app; split.
    + eapply Forall_impl; [exact Hs|]. intros q1 Hq1 Hx.
      rewrite <- (Hq1 Hx). apply match_same; [done|done|]. by eapply Htypes.
    + apply Forall_singleton. intros Hx. apply Hin in Hx as [Hx|Hx].
      * by apply elem_of_nil in Hx.
      * destruct Hx as (_ & e1 & He1 & Hm). unfold EntityManager.get in He.
        rewrite He in He1. injection He1 as <-. rewrite <- Hm.
        apply match_same; [done|done|]. by eapply Htypes.
    + eapply Forall_impl; [exact Hcm|]. intros q1 Hq1 Hm. apply Hq1.
      rewrite <- Hm. symmetry. apply match_same; [done|done|].
      by eapply Htypes.
    + apply Forall_singleton. intros Hm. apply Hin. right. split; [done|].
      exists e. split; [done|]. rewrite <- Hm. symmetry.
      apply match_same; [done|done|]. by eapply Htypes.
  - done.
  - intros r e' He' k' Hk'. rewrite Hget in He'.
    destruct (EntityManager.get r w) as [e|] eqn:He; [|done].
    simpl in He'. injection He' as <-. simpl. unfold push.
    rewrite map_app, elem_of_app. simpl. rewrite Hkey.
    apply (Hedges r e k' He) in Hk' as [Hold|[-> _]].
    + left. by apply (H3 r e He).
    + right. by left.
  - intros r Hr. simpl. rewrite Hal. apply H4. rewrite Hget in Hr.
    destruct (EntityManager.get r w); [by eexists|].
    simpl in Hr. by destruct Hr.
  - intros q1 r Hq1 Hr. rewrite Hget. simpl in Hq1.
    apply elem_of_push in Hq1 as [Hq1| ->].
    + destruct (H5 q1 r Hq1 Hr) as [e ->]. by eexists.
    + apply Hin in Hr as [Hr|(Hlive & _)]; [by apply elem_of_nil in Hr|].
      destruct (live_objects _ Hst r Hlive) as [e ->]. by eexists.
  - done.
  - intros r Hr. destruct (H7 r Hr) as [Hnl (e & He & Hte & Hqe)].
    split; [done|]. exists e. split; [|done]. rewrite Hget, He. simpl.
    f_equal. unfold seeded. by rewrite bool_decide_eq_false_2.
  - done.
  - split; [done|]. intros r Hr. destruct (Hd r Hr) as [Hl (e & He & Ht)].
    split; [done|]. eexists. split; [by rewrite Hget, He|].
    by rewrite (Htypes r e He).
Qed.

(** *** processDeferredRemoval *)

(** The release of a live entity that has no component left. *)
Lemma release_healthy_core ref w w' e :
  healthy_core w ->
  ref ∈ EntityManager._entities w ->
  EntityManager.get ref w = Some e -> Entity._ComponentTypes e = [] ->
  EntityManager._removeEntitySync ref
    (indexOf (EntityManager._entities w) ref) false w = Some w' ->
  healthy_core w' /\
  EntityManager._entities w' = remove_first ref (EntityManager._entities w) /\
  (forall r, r <> ref -> EntityManager.get r w' = EntityManager.get r w) /\
  EntityManager.entitiesToRemove w' = EntityManager.entitiesToRemove w /\
  EntityManager.entitiesWithComponentsToRemove w'
  = EntityManager.entitiesWithComponentsToRemove w.
Proof.
  intros [[Hst Hmem] H2 H3 H4 H5 H6 H7 H8] Hlive He Hte Hsync.
  apply removeEntitySync_release in Hsync
    as (w3 & e3 & [= <-] & He3 & Href & Hothers & Hqs & Hents & Hfl & Hcnt
        & Hal & Hto & Hwc & _).
  rewrite splice1_indexOf in Hents by done. simpl in *.
  change (EntityManager.get ref (EntityManager.set_entities
            (splice1 (EntityManager._entities w)
               (indexOf (EntityManager._entities w) ref)) w))
    with (EntityManager.get ref w) in He3.
  rewrite He in He3. injection He3 as <-.
  assert (forall r, r <> ref ->
            EntityManager.get r w' = EntityManager.get r w) as Hget
    by (intros r Hr; by rewrite Hothers).
  destruct (Hmem ref Hlive) as [Hsound _].
  pose proof (bare_entity_unlisted w ref e Hst Hsound He Hte) as Hun.
  rewrite Forall_forall in Hun.
  assert (ref ∉ ObjectPool.freeList (EntityManager._entityPool w)) as Hnp.
  { intros Hin. by destruct (H7 ref Hin). }
  assert (structured w') as Hst'.
  { split.
    - rewrite Hqs. apply (keys_nodup _ Hst).
    - rewrite Hqs. apply (queries_wf _ Hst).
    - intros r e' He'. rewrite Hqs.
      destruct (decide (r = ref)) as [->|Hne].
      + rewrite Href in He'. injection He' as <-. simpl.
        split; [constructor|]. apply Forall_forall. intros q Hq.
        unfold linked. simpl. destruct (Hun q Hq) as [Hnot _].
        split; [done|]. intros Hk. by apply elem_of_nil in Hk.
      + rewrite Hget in He' by done. by apply (backedges _ Hst).
    - intros r Hr. rewrite Hents in Hr. apply elem_of_remove_first in Hr.
      destruct (decide (r = ref)) as [->|Hne]; [rewrite Href; by eexists|].
      rewrite Hget by done. by apply (live_objects _ Hst). }
  split; [|done]. split.
  - split; [done|]. intros r Hr. rewrite Hents in Hr.
    assert (r <> ref) as Hne.
    { intros ->. by apply (not_elem_of_remove_first _ _ H2) in Hr. }
    apply elem_of_remove_first in Hr. destruct (Hmem r Hr) as [Hs Hc].
    unfold sound_at, complete_at. rewrite Hqs, Hget by done. done.
  - rewrite Hents. by apply NoDup_remove_first.
  - intros r e' He' k Hk. rewrite Hqs.
    destruct (decide (r = ref)) as [->|Hne].
    + rewrite Href in He'. injection He' as <-. simpl in Hk.
      by apply elem_of_nil in Hk.
    + rewrite Hget in He' by done. by apply (H3 r e').
  - intros r Hr. rewrite Hal. simpl. apply H4.
    destruct (decide (r = ref)) as [->|Hne]; [by eexists|].
    by rewrite <- Hget.
  - intros q r Hq Hr. rewrite Hqs in Hq.
    destruct (decide (r = ref)) as [->|Hne]; [rewrite Href; by eexists|].
    rewrite Hget by done. by apply (H5 q).
  - rewrite Hfl. simpl. by apply NoDup_push.
  - intros r Hr. rewrite Hfl in Hr. simpl in Hr. rewrite Hents.
    apply elem_of_push in Hr as [Hr| ->].
    + destruct (H7 r Hr) as [Hn (e1 & He1 & Hb)].
      split; [intros Hin; by apply elem_of_remove_first in Hin|].
      assert (r <> ref) as Hne by (intros ->; done).
      exists e1. by rewrite Hget.
    + split; [by apply not_elem_of_remove_first|].
      eexists. split; [exact Href|]. done.
  - by rewrite Hcnt.
Qed.

Lemma removeEntities_loop_healthy refs : forall w w',
  healthy_core w -> NoDup refs ->
  (forall r, r ∈ refs ->
     r ∈ EntityManager._entities w /\
     exists e, EntityManager.get r w = Some e /\
               Entity._ComponentTypes e = []) ->
  EntityManager.removeEntities_loop refs w = Some w' ->
  healthy_core w' /\
  EntityManager.entitiesToRemove w' = EntityManager.entitiesToRemove w /\
  EntityManager.entitiesWithComponentsToRemove w'
  = EntityManager.entitiesWithComponentsToRemove w.
Proof.
  induction refs as [|ref rest IH]; intros w w' Hc Hnd Hd; simpl.
  - by intros [= <-].
  - destruct (EntityManager._removeEntitySync ref
                (indexOf (EntityManager._entities w) ref) false w)
      as [w1|] eqn:Hsync; simpl; [|done].
    intros Hloop. apply NoDup_cons in Hnd as [Hfresh Hnd].
    destruct (Hd ref) as [Hlive (e & He & Hte)]; [by left|].
    destruct (release_healthy_core _ _ _ _ Hc Hlive He Hte Hsync)
      as (Hc1 & Hents & Hget & Hto & Hwc).
    destruct (IH w1 w' Hc1 Hnd) as (Hc' & Hto' & Hwc'); [|done|].
    + intros r Hr. destruct (Hd r) as [Hl (e1 & He1 & Ht1)]; [by right|].
      assert (r <> ref) as Hne by (intros ->; done).
      split; [rewrite Hents; by apply elem_of_remove_first_ne|].
      exists e1. by rewrite Hget.
    + split; [done|]. split; congruence.
Qed.

Lemma put_same_index ref e e0 w :
  EntityManager.get ref w = Some e0 ->
  Entity._ComponentTypes e = Entity._ComponentTypes e0 ->
  Entity.queries e = Entity.queries e0 ->
  same_index w (EntityManager.put ref e w).
Proof.
  intros He0 Ht Hq. split; [done|]. split; [done|]. split; [done|].
  split; [done|]. intros r. unfold EntityManager.get in *. simpl.
  destruct (decide (r = ref)) as [->|Hne].
  - by rewrite lookup_insert_eq, He0.
  - rewrite lookup_insert_ne by done.
    by destruct (Heap.objects (EntityManager.heap w) !! r).
Qed.

Lemma releaseStaged_loop_same_index n ref : forall w w',
  EntityManager.releaseStaged_loop n ref w = Some w' ->
  same_index w w' /\
  EntityManager.entitiesToRemove w' = EntityManager.entitiesToRemove w.
Proof.
  induction n as [|n IH]; intros w w'; simpl.
  - intros [= <-]. split; [apply same_index_refl|done].
  - destruct (EntityManager.get ref w) as [e|] eqn:He; simpl; [|done].
    destruct (last (Entity._ComponentTypesToRemove e)) as [C|].
    + destruct (ComponentManager._componentPool
                  (EntityManager.componentsManager w)
                !! componentPropertyName C) as [pool|]; simpl; [|done].
      destruct (pool_release _ pool (EntityManager.nextInstance w))
        as [pool'|]; simpl; [|done].
      intros Hloop. apply IH in Hloop as [Hsame Hto]. split; [|exact Hto].
      eapply same_index_trans; [|exact Hsame].
      apply (same_index_trans _
               (EntityManager.set_components
                  (ComponentManager.set_pool (componentPropertyName C) pool'
                     (EntityManager.componentsManager w))
                  (EntityManager.nextInstance w) w)).
      * apply quiet_same_index. done.
      * by apply (put_same_index ref _ e).
    + intros [= <-]. split; [apply same_index_refl|done].
Qed.

Lemma releaseComponents_loop_same_index refs : forall w w',
  EntityManager.releaseComponents_loop refs w = Some w' ->
  same_index w w' /\
  EntityManager.entitiesToRemove w' = EntityManager.entitiesToRemove w.
Proof.
  induction refs as [|ref rest IH]; intros w w'; simpl.
  - intros [= <-]. split; [apply same_index_refl|done].
  - destruct (EntityManager.get ref w) as [e|]; simpl; [|done].
    destruct (EntityManager.releaseStaged_loop _ ref w) as [w1|] eqn:Hst;
      simpl; [|done].
    intros Hloop. apply releaseStaged_loop_same_index in Hst as [Hs1 Ht1].
    apply IH in Hloop as [Hs2 Ht2]. split; [|congruence].
    by eapply same_index_trans.
Qed.

Lemma processDeferredRemoval_healthy w w' :
  healthy w ->
  EntityManager.processDeferredRemoval w = Some w' ->
  healthy w' /\ EntityManager.entitiesToRemove w' = [].
Proof.
  intros [Hc [Hdn Hd]]. unfold EntityManager.processDeferredRemoval.
  destruct (EntityManager.removeEntities_loop
              (EntityManager.entitiesToRemove w) w) as [w1|] eqn:Hl1;
    simpl; [|done].
  destruct (removeEntities_loop_healthy _ _ _ Hc Hdn Hd Hl1)
    as (Hc1 & _ & _).
  set (w2 := EntityManager.set_deferred
               (EntityManager.entitiesWithComponentsToRemove w1) [] w1).
  assert (same_index w1 w2) as Hs12.
  { split; [done|]. split; [done|]. split; [done|]. split; [done|].
    intros r. change (EntityManager.get r w2) with (EntityManager.get r w1).
    by destruct (EntityManager.get r w1). }
  destruct (EntityManager.releaseComponents_loop
              (EntityManager.entitiesWithComponentsToRemove w1) w2)
    as [w3|] eqn:Hl2; simpl; [|done].
  intros [= <-].
  apply releaseComponents_loop_same_index in Hl2 as [Hs23 Hto].
  set (w4 := EntityManager.set_deferred [] (EntityManager.entitiesToRemove w3)
               w3).
  assert (same_index w3 w4) as Hs34.
  { split; [done|]. split; [done|]. split; [done|]. split; [done|].
    intros r. change (EntityManager.get r w4) with (EntityManager.get r w3).
    by destruct (EntityManager.get r w3). }
  assert (EntityManager.entitiesToRemove w4 = []) as Hnil by exact Hto.
  split; [|done]. split.
  - apply (same_index_healthy_core w1); [|done].
    eapply same_index_trans; [exact Hs12|].
    eapply same_index_trans; [exact Hs23|exact Hs34].
  - unfold doomed_ok. rewrite Hnil. split; [constructor|].
    intros r Hr. by apply elem_of_nil in Hr.
Qed.

Lemma entityRemoveAllComponents_healthy ref force w w' :
  healthy w ->
  ref ∈ EntityManager._entities w ->
  EntityManager.entityRemoveAllComponents ref force w = Some w' ->
  healthy w'.
Proof.
  intros [Hc [Hdn Hd]] Hlive Hrm.
  destruct (hc_indexed _ Hc) as [Hst Hmem].
  pose proof (entityRemoveAllComponents_contained _ _ _ _ Hst Hrm) as Hcont.
  destruct (entityRemoveAllComponents_ok _ _ _ _ Hst Hrm)
    as (Hst' & Hfr & Hents & Hsound & (e' & He' & Ht')).
  assert (indexed w') as Hidx'.
  { split; [done|]. intros r Hr. rewrite Hents in Hr.
    destruct (Hmem r Hr) as [Hsr Hcr].
    destruct (decide (r = ref)) as [->|Hne].
    - split; [by apply Hsound|]. intros e1 He1. rewrite He' in He1.
      injection He1 as <-. pose proof (queries_wf _ Hst') as Hwf.
      eapply Forall_impl; [exact Hwf|]. intros q [_ Hne].
      by rewrite (match_no_components q e' Hne Ht').
    - split; [by eapply framed_sound|by eapply framed_complete]. }
  split; [by apply (healthy_core_step ref w)|].
  destruct Hcont as ([Hget _] & (_ & _ & Hto & _) & _ & _).
  split; [by rewrite Hto|].
  intros r Hr. rewrite Hto in Hr. destruct (Hd r Hr) as [Hl (e & He & Ht)].
  split; [by rewrite Hents|].
  destruct (decide (r = ref)) as [->|Hne]; [by exists e'|].
  exists e. by rewrite Hget.
Qed.

Lemma new_healthy cm : healthy (EntityManager.new cm).
Proof.
  split; [split|].
  - split; [split|].
    + constructor.
    + constructor.
    + intros r e He. done.
    + intros r Hr. by apply elem_of_nil in Hr.
    + intros r Hr. by apply elem_of_nil in Hr.
  - constructor.
  - intros r e He. done.
  - intros r [e He]. done.
  - intros q r Hq. by apply elem_of_nil in Hq.
  - constructor.
  - intros r Hr. by apply elem_of_nil in Hr.
  - done.
  - split; [constructor|]. intros r Hr. by apply elem_of_nil in Hr.
Qed.

(** ** The index over the whole life of a manager *)

Lemma quiet_healthy w w' : quiet w w' -> healthy w -> healthy w'.
Proof.
  intros Hq [Hc [Hdn Hd]]. pose proof Hq as (_ & _ & He & _ & Ht).
  split; [apply (same_index_healthy_core w); [by apply quiet_same_index|done]|].
  split; [by rewrite Ht|]. intros r Hr. rewrite Ht in Hr.
  destruct (Hd r Hr) as [Hl Hb]. split; [by rewrite He|].
  by rewrite (quiet_get w w').
Qed.

(** Every state of a properly used manager is healthy. *)
Theorem proper_healthy w : proper w -> healthy w.
Proof.
  induction 1 as [cm|w w' _ IH Hq|w ref w' _ IH Hc|spec w k w' _ IH Hg
                  |ref C w w' _ IH Hl Hn Ha|ref C force w w' _ IH Hl Hr
                  |ref force w w' _ IH Hl Hr|ref force w w' _ IH Hn Hr
                  |w w' _ IH Hp].
  - apply new_healthy.
  - by apply (quiet_healthy w).
  - by apply (createEntity_healthy w ref).
  - by apply (getQuery_healthy spec w k).
  - by apply (entityAddComponent_healthy ref C w).
  - by apply (entityRemoveComponent_healthy ref C force w).
  - by apply (entityRemoveAllComponents_healthy ref force w).
  - by apply (removeEntity_healthy ref force w).
  - by apply (processDeferredRemoval_healthy w).
Qed.

(** In every state of a properly used manager, each live entity has its
    object and is listed by a query exactly when the query matches it;
    in particular such a state satisfies the hypothesis under which the
    mutations keep the queries exact. *)
Theorem proper_queries_exact w :
  proper w ->
  indexed w /\
  forall ref, ref ∈ EntityManager._entities w ->
    exists e, EntityManager.get ref w = Some e /\
      forall q, q ∈ EntityManager._queries w ->
        ref ∈ Query.entities q <->
        (forall C, C ∈ Query.Components q -> C ∈ Entity._ComponentTypes e) /\
        (forall C, C ∈ Query.NotComponents q ->
                   C ∉ Entity._ComponentTypes e).
Proof.
  intros Hp. apply proper_healthy in Hp as [Hc _].
  pose proof (hc_indexed _ Hc) as Hidx. split; [done|].
  intros ref Hlive.
  destruct (live_objects _ (proj1 Hidx) ref Hlive) as [e He].
  exists e. split; [done|]. intros q Hq.
  by apply indexed_membership with (w := w).
Qed.

(** The entity is live again, has no component, and the query
    [[Position]] still lists it. *)
Lemma late_add_leaves_stale_listing :
  (w ← manager_after_late_add;
   e ← EntityManager.get 0%nat w;
   q ← head (EntityManager._queries w);
   Some (EntityManager._entities w, Query.entities q, Query.Components q,
         Entity._ComponentTypes e))
  = Some ([0%nat], [0%nat], [Position], []).
Proof. vm_compute. reflexivity. Qed.

(** That state is outside the hypothesis under which the mutations keep
    the queries exact. *)
Lemma late_add_not_indexed w :
  manager_after_late_add = Some w -> ~ indexed w.
Proof.
  intros Hw [_ Hmem].
  pose proof late_add_leaves_stale_listing as Hs. rewrite Hw in Hs.
  simpl in Hs.
  destruct (EntityManager.get 0%nat w) as [e|] eqn:He; simpl in Hs; [|done].
  destruct (EntityManager._queries w) as [|q qs] eqn:Hq; simpl in Hs;
    [done|].
  injection Hs as Hents Hqe Hc Ht.
  destruct (Hmem 0%nat) as [Hsound _]; [rewrite Hents; left|].
  specialize (Hsound e He). rewrite Hq in Hsound.
  apply Forall_cons in Hsound as [Hm _].
  assert (Query.match_ q e = true) as Hmatch by (apply Hm; rewrite Hqe; left).
  apply match_spec in Hmatch as [Hp _].
  assert (Position ∈ Query.Components q) as HP by (rewrite Hc; left).
  specialize (Hp Position HP). rewrite Ht in Hp.
  by apply elem_of_nil in Hp.
Qed.

Example manager_with_entity_proper : proper manager_with_entity.
Proof.
  apply (proper_createEntity manager_with_query 0%nat).
  - apply (proper_getQuery [Has Position] fresh_manager "position").
    + apply proper_new.
    + vm_compute. reflexivity.
  - vm_compute. reflexivity.
Qed.

(** * Further properties of the code *)

(** ** EventDispatcher: registration, removal, dispatch *)











(** X4: no method of the dispatcher counts handled events:
    [stats.handled] is 0 on every dispatcher obtained from the
    constructor, while [dispatchEvent] raises [stats.fired] by one
    whether or not a listener is registered for the name. *)
Theorem X4_handled_is_never_counted (d : EventDispatcher.t) :
  EventDispatcher.reachable d ->
  EventDispatcher.stats_handled d = 0%nat /\
  forall eventName entity component,
    let d' := fst (EventDispatcher.dispatchEvent eventName entity component d)
    in EventDispatcher.stats_fired d' = S (EventDispatcher.stats_fired d) /\
       EventDispatcher.stats_handled d' = 0%nat.
Proof.
  intros Hr.
  assert (EventDispatcher.stats_handled d = 0%nat) as H0.
  { induction Hr as [|n f d _ IH|n f d _ IH|n a b d _ IH|d _ IH]; simpl.
    - done.
    - unfold EventDispatcher.addEventListener.
      destruct (EventDispatcher._listeners d !! n) as [arr|] eqn:Hn.
      + rewrite Hn. by destruct (_ =? _).
      + rewrite lookup_insert_eq. by destruct (_ =? _).
    - unfold EventDispatcher.removeEventListener.
      destruct (EventDispatcher._listeners d !! n) as [arr|]; [|done].
      by destruct (negb _).
    - unfold EventDispatcher.dispatchEvent.
      by destruct (EventDispatcher._listeners d !! n).
    - done. }
  split; [done|]. intros n a b. unfold EventDispatcher.dispatchEvent.
  by destruct (EventDispatcher._listeners d !! n).
Qed.

Lemma X4_witness :
  EventDispatcher.stats_handled
    (fst (EventDispatcher.dispatchEvent "tick" Undefined Undefined
            (EventDispatcher.addEventListener "tick" 7%nat
               EventDispatcher.new))) = 0%nat.
Proof.
  apply (X4_handled_is_never_counted
           (fst (EventDispatcher.dispatchEvent "tick" Undefined Undefined
                   (EventDispatcher.addEventListener "tick" 7%nat
                      EventDispatcher.new)))).
  apply EventDispatcher.reach_dispatch, EventDispatcher.reach_add,
    EventDispatcher.reach_new.
Defined.

(** ** ObjectPool: what [aquire] and [release] account for *)

Section PoolUse.
Context {A St : Type}.
Variable createElement : St -> A * St.
Variable reset : A -> St -> St.

Lemma pool_aquire_nonempty (p : ObjectPool.t A) (s : St) :
  ObjectPool.freeList p <> [] ->
  ObjectPool.aquire createElement p s
  = (last (ObjectPool.freeList p),
     {| ObjectPool.freeList := removelast (ObjectPool.freeList p);
        ObjectPool.count := ObjectPool.count p |}, s).
Proof.
  intros Hne. unfold ObjectPool.aquire.
  destruct (ObjectPool.freeList p) as [|x fl] eqn:Hfl; [done|].
  simpl length.
  replace (Z.of_nat (Datatypes.S (length fl)) <=? 0) with false
    by (symmetry; apply Z.leb_gt; lia).
  unfold pop. by rewrite Hfl.
Qed.

Lemma pool_growth_pos (p : ObjectPool.t A) :
  0 <= ObjectPool.count p -> 1 <= ObjectPool.growth p.
Proof.
  intros Hc. unfold ObjectPool.growth. rewrite Math_round_fifth.
  pose proof (Z.div_pos (ObjectPool.count p + 2) 5 ltac:(lia) ltac:(lia)).
  lia.
Qed.

Lemma pool_aquire_used (p : ObjectPool.t A) (s : St) :
  0 <= ObjectPool.count p ->
  is_Some (ObjectPool.aquire createElement p s).1.1 /\
  ObjectPool.totalUsed (ObjectPool.aquire createElement p s).1.2
  = ObjectPool.totalUsed p + 1.
Proof.
  intros Hc. destruct (ObjectPool.freeList p) as [|x fl] eqn:Hfl.
  - pose proof (pool_growth_pos p Hc) as Hg.
    destruct (aquire_empty_count createElement p s Hfl) as [Hcount Hlen].
    split.
    + unfold ObjectPool.aquire, ObjectPool.expand. rewrite Hfl. simpl.
      pose proof (expand_loop_length createElement
                    (Z.to_nat (ObjectPool.growth p)) [] s) as Hl.
      destruct (ObjectPool.expand_loop createElement
                  (Z.to_nat (ObjectPool.growth p)) [] s) as [fl' s'].
      simpl in *. destruct fl' as [|y fl'] using rev_ind.
      * simpl in Hl. lia.
      * rewrite last_snoc. by eexists.
    + unfold ObjectPool.totalUsed. rewrite Hcount, Hlen, Hfl. simpl. lia.
  - rewrite pool_aquire_nonempty by (by rewrite Hfl). simpl.
    split.
    + rewrite Hfl.
      destruct (exists_last (l := x :: fl)) as (l' & y & ->); [done|].
      rewrite last_snoc. by eexists.
    + unfold ObjectPool.totalUsed. simpl. rewrite Hfl.
      destruct (exists_last (l := x :: fl)) as (l' & y & ->); [done|].
      rewrite removelast_last, length_app. simpl. lia.
Qed.

(** X5: whatever the state of the free list, [aquire] on a pool whose
    [count] is not negative hands out an object and raises [totalUsed]
    by exactly one; when the free list is not empty the object is its
    last element, nothing is constructed and [count] stays. *)
Theorem X5_aquire_takes_one (p : ObjectPool.t A) (s : St) :
  0 <= ObjectPool.count p ->
  is_Some (ObjectPool.aquire createElement p s).1.1 /\
  ObjectPool.totalUsed (ObjectPool.aquire createElement p s).1.2
  = ObjectPool.totalUsed p + 1 /\
  (ObjectPool.freeList p <> [] ->
   (ObjectPool.aquire createElement p s).1.1 = last (ObjectPool.freeList p) /\
   (ObjectPool.aquire createElement p s).2 = s /\
   ObjectPool.count (ObjectPool.aquire createElement p s).1.2
   = ObjectPool.count p).
Proof.
  intros Hc. destruct (pool_aquire_used p s Hc) as [Hsome Hused].
  split; [done|]. split; [done|].
  intros Hne. by rewrite pool_aquire_nonempty.
Qed.

Lemma pool_release_aquire (p : ObjectPool.t A) (s s' : St) (item : A) :
  ObjectPool.aquire createElement (ObjectPool.release reset item p s).1 s'
  = (Some item, p, s').
Proof.
  rewrite pool_aquire_nonempty.
  - simpl. unfold push. rewrite last_snoc, removelast_last. by destruct p.
  - simpl. unfold push. by destruct (ObjectPool.freeList p).
Qed.

(** X6: [release] followed by [aquire] gives the released object back
    and restores the pool: the free list is a stack, and nothing is
    constructed. *)
Theorem X6_release_then_aquire (p : ObjectPool.t A) (s : St) (item : A) :
  ObjectPool.aquire createElement (ObjectPool.release reset item p s).1
    (ObjectPool.release reset item p s).2
  = (Some item, p, reset item s).
Proof. apply pool_release_aquire. Qed.

(** X7: [release] does not look at the free list: an object released
    twice is on the free list twice, and the next two calls of [aquire]
    both return it, as if two objects had been free. *)
Theorem X7_double_release_hands_out_twice (p : ObjectPool.t A) (s : St)
    (item : A) :
  let r1 := ObjectPool.release reset item p s in
  let r2 := ObjectPool.release reset item r1.1 r1.2 in
  let a1 := ObjectPool.aquire createElement r2.1 r2.2 in
  let a2 := ObjectPool.aquire createElement a1.1.2 a1.2 in
  a1.1.1 = Some item /\ a2.1.1 = Some item /\
  a2.1.2 = p /\
  ObjectPool.totalUsed r2.1 = ObjectPool.totalUsed p - 2.
Proof.
  intros r1 r2 a1 a2.
  assert (a1 = (Some item, r1.1, reset item r1.2)) as H1
    by apply pool_release_aquire.
  assert (a2 = (Some item, p, reset item r1.2)) as H2.
  { unfold a2. rewrite H1. apply pool_release_aquire. }
  rewrite H1, H2. simpl. split; [done|]. split; [done|]. split; [done|].
  unfold ObjectPool.totalUsed, push. simpl. rewrite !length_app. simpl. lia.
Qed.

End PoolUse.

Lemma X5_witness :
  is_Some (ObjectPool.aquire createInstance pool_of_100 0%nat).1.1 /\
  ObjectPool.totalUsed (ObjectPool.aquire createInstance pool_of_100 0%nat).1.2
  = ObjectPool.totalUsed pool_of_100 + 1.
Proof.
  destruct (X5_aquire_takes_one createInstance pool_of_100 0%nat)
    as (H1 & H2 & _); [simpl; lia|]. split; [exact H1|exact H2].
Defined.

(** ** ComponentManager: pools and counts *)

(** X8: the pool of a component class is stored under the name of the
    class with its first character in lower case, so a class whose name
    differs from an earlier one only there is served the pool the earlier
    class got, whether or not its own prototype has [reset]; the
    manager is not changed by the second call. *)
Theorem X8_pool_is_shared_by_property_name (C1 C2 : ComponentClass)
    (m : ComponentManager.t) :
  componentPropertyName C1 = componentPropertyName C2 ->
  ComponentManager.getComponentsPool C2
    (ComponentManager.getComponentsPool C1 m).2
  = ComponentManager.getComponentsPool C1 m.
Proof.
  intros Hn. unfold ComponentManager.getComponentsPool. rewrite <- Hn.
  destruct (ComponentManager._componentPool m !! componentPropertyName C1)
    as [pool|] eqn:Hp; simpl.
  - by rewrite Hp.
  - by rewrite lookup_insert_eq.
Qed.

Lemma X8_witness :
  (ComponentManager.getComponentsPool (mkClass 2 "position" false)
     (ComponentManager.getComponentsPool (mkClass 1 "Position" true)
        ComponentManager.new).2).1
  = Pooled ObjectPool.new.
Proof.
  rewrite (X8_pool_is_shared_by_property_name
             (mkClass 1 "Position" true) (mkClass 2 "position" false)
             ComponentManager.new); reflexivity.
Defined.

Lemma removeEntitySync_components ref index w w' :
  EntityManager._removeEntitySync ref index false w = Some w' ->
  EntityManager.componentsManager w' = EntityManager.componentsManager w.
Proof.
  intros H. apply removeEntitySync_release in H
    as (w3 & e3 & [= <-] & _ & _ & _ & _ & _ & _ & _ & _ & _ & _ & Hcm).
  exact Hcm.
Qed.

Lemma removeEntities_loop_components refs : forall w w',
  EntityManager.removeEntities_loop refs w = Some w' ->
  EntityManager.componentsManager w' = EntityManager.componentsManager w.
Proof.
  induction refs as [|ref rest IH]; intros w w'; simpl.
  - by intros [= <-].
  - destruct (EntityManager._removeEntitySync ref _ false w) as [w1|] eqn:H1;
      simpl; [|done].
    intros H. rewrite (IH _ _ H). by eapply removeEntitySync_components.
Qed.

Lemma releaseStaged_loop_counts n ref : forall w w',
  EntityManager.releaseStaged_loop n ref w = Some w' ->
  ComponentManager.numComponents (EntityManager.componentsManager w')
  = ComponentManager.numComponents (EntityManager.componentsManager w).
Proof.
  induction n as [|n IH]; intros w w'; simpl.
  - by intros [= <-].
  - destruct (EntityManager.get ref w) as [e|]; simpl; [|done].
    destruct (last (Entity._ComponentTypesToRemove e)) as [C|].
    + destruct (ComponentManager._componentPool
                  (EntityManager.componentsManager w)
                !! componentPropertyName C) as [pool|]; simpl; [|done].
      destruct (pool_release _ pool (EntityManager.nextInstance w))
        as [pool'|]; simpl; [|done].
      intros H. by rewrite (IH _ _ H).
    + by intros [= <-].
Qed.

Lemma releaseComponents_loop_counts refs : forall w w',
  EntityManager.releaseComponents_loop refs w = Some w' ->
  ComponentManager.numComponents (EntityManager.componentsManager w')
  = ComponentManager.numComponents (EntityManager.componentsManager w).
Proof.
  induction refs as [|ref rest IH]; intros w w'; simpl.
  - by intros [= <-].
  - destruct (EntityManager.get ref w) as [e|]; simpl; [|done].
    destruct (EntityManager.releaseStaged_loop _ ref w) as [w1|] eqn:H1;
      simpl; [|done].
    intros H. rewrite (IH _ _ H). by eapply releaseStaged_loop_counts.
Qed.

Lemma processDeferredRemoval_counts w w' :
  EntityManager.processDeferredRemoval w = Some w' ->
  ComponentManager.numComponents (EntityManager.componentsManager w')
  = ComponentManager.numComponents (EntityManager.componentsManager w).
Proof.
  unfold EntityManager.processDeferredRemoval.
  destruct (EntityManager.removeEntities_loop _ w) as [w1|] eqn:H1;
    simpl; [|done].
  destruct (EntityManager.releaseComponents_loop _ _) as [w3|] eqn:H3;
    simpl; [|done].
  intros [= <-]. simpl.
  rewrite (releaseComponents_loop_counts _ _ _ H3). simpl.
  by rewrite (removeEntities_loop_components _ _ _ H1).
Qed.

Lemma entityRemoveComponent_deferred_components ref C w w' :
  EntityManager.entityRemoveComponent ref C false w = Some w' ->
  EntityManager.componentsManager w' = EntityManager.componentsManager w.
Proof.
  intros H.
  destruct (EntityManager.get ref w) as [e0|] eqn:He0;
    [|by unfold EntityManager.entityRemoveComponent in H; rewrite He0 in H].
  destruct (decide (C ∈ Entity._ComponentTypes e0)) as [HC|HC].
  - by destruct (entityRemoveComponent_deferred _ _ _ _ _ He0 HC H)
      as (_ & _ & _ & _ & _ & _ & _ & Hcm & _).
  - unfold EntityManager.entityRemoveComponent in H. rewrite He0 in H.
    simpl in H. apply indexOf_absent in HC. rewrite HC in H. simpl in H.
    by injection H as <-.
Qed.

(** X9: a deferred removal never lowers the count of the type:
    [numComponents] is the same after a non-forced
    [entityRemoveComponent] as before, and the same again after the
    commit ([processDeferredRemoval]) that releases the instance. *)
Theorem X9_deferred_removal_keeps_the_count (ref : EntityRef)
    (C : ComponentClass) (w w1 w2 : EntityManager.t) :
  EntityManager.entityRemoveComponent ref C false w = Some w1 ->
  EntityManager.processDeferredRemoval w1 = Some w2 ->
  ComponentManager.numComponents (EntityManager.componentsManager w1)
  = ComponentManager.numComponents (EntityManager.componentsManager w) /\
  ComponentManager.numComponents (EntityManager.componentsManager w2)
  = ComponentManager.numComponents (EntityManager.componentsManager w).
Proof.
  intros H1 H2.
  apply entityRemoveComponent_deferred_components in H1.
  apply processDeferredRemoval_counts in H2.
  split; congruence.
Qed.

Lemma X9_witness :
  exists w1 w2,
    EntityManager.entityRemoveComponent 0%nat Position false
      manager_with_position = Some w1 /\
    EntityManager.processDeferredRemoval w1 = Some w2 /\
    ComponentManager.numComponents (EntityManager.componentsManager w2)
    = ComponentManager.numComponents
        (EntityManager.componentsManager manager_with_position).
Proof.
  destruct (EntityManager.entityRemoveComponent 0%nat Position false
              manager_with_position) as [w1|] eqn:H1;
    [|vm_compute in H1; discriminate].
  destruct (EntityManager.processDeferredRemoval w1) as [w2|] eqn:H2.
  - exists w1, w2. split; [done|]. split; [done|].
    by destruct (X9_deferred_removal_keeps_the_count _ _ _ _ _ H1 H2).
  - vm_compute in H1. injection H1 as <-. vm_compute in H2. discriminate.
Defined.

(** What [entityAddComponent] does when the type is not attached. *)
Lemma entityAddComponent_full ref C w w' e0 :
  EntityManager.get ref w = Some e0 ->
  C ∉ Entity._ComponentTypes e0 ->
  EntityManager.entityAddComponent ref C w = Some w' ->
  exists e',
    EntityManager.get ref w' = Some e' /\
    Entity._ComponentTypes e' = push (Entity._ComponentTypes e0) C /\
    Entity._components e'
    = match (pool_aquire
               (ComponentManager.getComponentsPool C
                  (EntityManager.componentsManager w)).1
               (EntityManager.nextInstance w)).1.1 with
      | Some i => <[name C := i]> (Entity._components e0)
      | None => delete (name C) (Entity._components e0)
      end /\
    Entity.id e' = Entity.id e0 /\ Entity._world e' = Entity._world e0 /\
    EntityManager.componentsManager w'
    = ComponentManager.componentAddedToEntity C
        (ComponentManager.set_pool (componentPropertyName C)
           (pool_aquire
              (ComponentManager.getComponentsPool C
                 (EntityManager.componentsManager w)).1
              (EntityManager.nextInstance w)).1.2
           (ComponentManager.getComponentsPool C
              (EntityManager.componentsManager w)).2) /\
    EntityManager.nextInstance w'
    = (pool_aquire
         (ComponentManager.getComponentsPool C
            (EntityManager.componentsManager w)).1
         (EntityManager.nextInstance w)).2 /\
    EntityManager._entities w' = EntityManager._entities w /\
    EntityManager.entitiesToRemove w' = EntityManager.entitiesToRemove w /\
    EntityManager.entitiesWithComponentsToRemove w'
    = EntityManager.entitiesWithComponentsToRemove w.
Proof.
  intros He0 HC. unfold EntityManager.entityAddComponent.
  rewrite He0. simpl.
  apply indexOf_absent in HC. rewrite HC. simpl.
  destruct (ComponentManager.getComponentsPool C
              (EntityManager.componentsManager w)) as [pool cm].
  simpl.
  destruct (pool_aquire pool (EntityManager.nextInstance w))
    as [[component pool'] n].
  destruct (EntityManager.onEntityComponentAdded ref C _) as [w2|] eqn:Hrun;
    simpl; [|done].
  intros [= <-].
  apply run_queries_same in Hrun
    as (e1 & e' & He1 & He' & Hsame & Hothers & Hcm & Hni & Hwith & Hto
        & Hents);
    [|apply onEntityComponentAdded_body_frame].
  rewrite get_put in He1. injection He1 as <-.
  apply same_but_queries_types in Hsame as (Ht & Hc & Hcr & Htr & Hid & Hw).
  exists e'. split; [done|]. split; [by rewrite Ht|].
  split; [rewrite Hc; simpl; by destruct component|].
  split; [by rewrite Hid|]. split; [by rewrite Hw|].
  simpl. rewrite Hcm, Hni, Hents, Hto, Hwith. done.
Qed.

(** What a forced [entityRemoveComponent] does when the type is
    attached. *)
Lemma entityRemoveComponent_forced_full ref C w w' e0 :
  EntityManager.get ref w = Some e0 ->
  C ∈ Entity._ComponentTypes e0 ->
  EntityManager.entityRemoveComponent ref C true w = Some w' ->
  exists pool pool' e',
    ComponentManager._componentPool (EntityManager.componentsManager w)
      !! componentPropertyName C = Some pool /\
    pool_release (Entity._components e0 !! name C) pool
      (EntityManager.nextInstance w) = Some pool' /\
    EntityManager.get ref w' = Some e' /\
    Entity._ComponentTypes e' = remove_first C (Entity._ComponentTypes e0) /\
    Entity._components e' = delete (name C) (Entity._components e0) /\
    Entity.id e' = Entity.id e0 /\ Entity._world e' = Entity._world e0 /\
    EntityManager.componentsManager w'
    = ComponentManager.componentRemovedFromEntity C
        (ComponentManager.set_pool (componentPropertyName C) pool'
           (EntityManager.componentsManager w)) /\
    EntityManager.nextInstance w' = EntityManager.nextInstance w /\
    EntityManager._entities w' = EntityManager._entities w /\
    EntityManager.entitiesToRemove w' = EntityManager.entitiesToRemove w /\
    EntityManager.entitiesWithComponentsToRemove w'
    = EntityManager.entitiesWithComponentsToRemove w.
Proof.
  intros He0 HC. unfold EntityManager.entityRemoveComponent.
  rewrite He0. simpl.
  destruct (Z.eqb_spec (indexOf (Entity._ComponentTypes e0) C) (-1))
    as [Ha|_]; [by apply indexOf_absent in Ha|].
  unfold EntityManager._entityRemoveComponentSync.
  replace (EntityManager.get ref
             (EntityManager.emit EntityManager.COMPONENT_REMOVE
                (EntityArg ref) (ClassArg C) w)) with (Some e0)
    by (symmetry; exact He0).
  simpl. rewrite splice1_indexOf by done.
  destruct (ComponentManager._componentPool
              (EntityManager.componentsManager w)
            !! componentPropertyName C) as [pool|]; simpl; [|done].
  destruct (pool_release _ pool _) as [pool'|] eqn:Hrel; simpl; [|done].
  intros Hrun.
  apply run_queries_same in Hrun
    as (e1 & e' & He1 & He' & Hsame & Hothers & Hcm & Hni & Hwith & Hto
        & Hents);
    [|apply onEntityComponentRemoved_body_frame].
  rewrite get_put in He1. injection He1 as <-.
  apply same_but_queries_types in Hsame as (Ht & Hc & Hcr & Htr & Hid & Hw).
  exists pool, pool', e'. split; [done|]. split; [done|].
  split; [done|]. split; [by rewrite Ht|]. split; [by rewrite Hc|].
  split; [by rewrite Hid|]. split; [by rewrite Hw|].
  rewrite Hcm, Hni, Hents, Hto, Hwith. done.
Qed.

Lemma numComponents_added C m :
  ComponentManager.numComponents (ComponentManager.componentAddedToEntity C m)
  = <[name C :=
        Num (match ComponentManager.numComponents m !! name C with
             | Some (Num z) => z + 1
             | _ => 1
             end)]> (ComponentManager.numComponents m).
Proof.
  unfold ComponentManager.componentAddedToEntity. simpl. f_equal.
  destruct (ComponentManager.numComponents m !! name C) as [[z|]|]; try done.
  by destruct (Z.eqb_spec z 0) as [->|].
Qed.

(** X10: [entityAddComponent] of a type that is not attached raises
    the count of the type by one, starting from 0 when the type has
    no count yet (registration is not needed) or its count is [NaN]; a
    forced [entityRemoveComponent] right after lowers it by one again.
    The counts of the other names are not touched. *)
Theorem X10_add_and_forced_remove_count (ref : EntityRef)
    (C : ComponentClass) (w w1 w2 : EntityManager.t) (e0 : Entity.t) :
  EntityManager.get ref w = Some e0 ->
  C ∉ Entity._ComponentTypes e0 ->
  EntityManager.entityAddComponent ref C w = Some w1 ->
  EntityManager.entityRemoveComponent ref C true w1 = Some w2 ->
  let count0 :=
    match ComponentManager.numComponents (EntityManager.componentsManager w)
          !! name C with
    | Some (Num z) => z
    | _ => 0
    end in
  ComponentManager.numComponents (EntityManager.componentsManager w1)
  = <[name C := Num (count0 + 1)]>
      (ComponentManager.numComponents (EntityManager.componentsManager w)) /\
  ComponentManager.numComponents (EntityManager.componentsManager w2)
  = <[name C := Num count0]>
      (ComponentManager.numComponents (EntityManager.componentsManager w)).
Proof.
  intros He0 HC Hadd Hrm count0.
  destruct (entityAddComponent_full _ _ _ _ _ He0 HC Hadd)
    as (e1 & He1 & Ht1 & _ & _ & _ & Hcm1 & _).
  assert (C ∈ Entity._ComponentTypes e1) as HC1
    by (rewrite Ht1; apply elem_of_push; by right).
  destruct (entityRemoveComponent_forced_full _ _ _ _ _ He1 HC1 Hrm)
    as (pool & pool' & e2 & _ & _ & _ & _ & _ & _ & _ & Hcm2 & _).
  assert (ComponentManager.numComponents (EntityManager.componentsManager w1)
          = <[name C := Num (count0 + 1)]>
              (ComponentManager.numComponents
                 (EntityManager.componentsManager w))) as H1.
  { rewrite Hcm1, numComponents_added. simpl.
    unfold ComponentManager.getComponentsPool.
    destruct (ComponentManager._componentPool _ !! _); simpl;
      unfold count0;
      by destruct (ComponentManager.numComponents _ !! name C) as [[z|]|]. }
  split; [done|].
  rewrite Hcm2. unfold ComponentManager.componentRemovedFromEntity. simpl.
  rewrite H1, lookup_insert_eq, insert_insert_eq. f_equal. f_equal. lia.
Qed.

Lemma X10_witness :
  exists w1 w2,
    EntityManager.entityAddComponent 0%nat Position manager_with_entity
    = Some w1 /\
    EntityManager.entityRemoveComponent 0%nat Position true w1 = Some w2 /\
    ComponentManager.numComponents (EntityManager.componentsManager w2)
    = <[name Position := Num 0]>
        (ComponentManager.numComponents
           (EntityManager.componentsManager manager_with_entity)).
Proof.
  destruct (EntityManager.get 0%nat manager_with_entity) as [e|] eqn:He;
    [|vm_compute in He; discriminate].
  assert (Entity._ComponentTypes e = []) as Ht
    by (vm_compute in He; by injection He as <-).
  destruct (EntityManager.entityAddComponent 0%nat Position
              manager_with_entity) as [w1|] eqn:H1;
    [|vm_compute in H1; discriminate].
  destruct (EntityManager.entityRemoveComponent 0%nat Position true w1)
    as [w2|] eqn:H2.
  - exists w1, w2. split; [done|]. split; [done|].
    destruct (X10_add_and_forced_remove_count 0%nat Position
                manager_with_entity w1 w2 e He) as [_ H]; try done.
    rewrite Ht. apply not_elem_of_nil.
  - vm_compute in H1. injection H1 as <-. vm_compute in H2. discriminate.
Defined.

(** ** QueryManager: creation of queries *)

Lemma split_terms_no_positive spec :
  (Query.split_terms spec).1 = [] <-> forall C, Has C ∉ spec.
Proof.
  induction spec as [|T spec IH]; simpl.
  - split; [|done]. intros _ C. apply not_elem_of_nil.
  - destruct T as [D|D]; destruct (Query.split_terms spec) as [cs ns];
      simpl in *.
    + split; [done|]. intros H. destruct (H D). left.
    + rewrite IH. split.
      * intros H C HC. apply elem_of_cons in HC as [?|HC]; [done|].
        by apply (H C).
      * intros H C HC. apply (H C). by right.
Qed.

(** X11: [getQuery] throws exactly when no query is stored under the
    signature of the specification and the specification has no
    positive term (the constructor of [Query] refuses it); with a
    positive term, or a stored query, it always returns. *)
Theorem X11_getQuery_throws_iff (spec : list QueryTerm)
    (w : EntityManager.t) :
  EntityManager.getQuery spec w = None <->
  EntityManager.find_query (queryKey spec) (EntityManager._queries w) = None
  /\ forall C, Has C ∉ spec.
Proof.
  rewrite <- split_terms_no_positive.
  unfold EntityManager.getQuery, EntityManager.Query_new.
  destruct (EntityManager.find_query _ _) as [q|]; [by split; [|intros []]|].
  destruct (Query.split_terms spec) as [cs ns]. simpl.
  destruct cs as [|c cs]; simpl.
  - by split.
  - destruct (EntityManager.seed _ _ _). simpl. by split; [|intros []].
Qed.




(** ** QueryManager: the events of the index *)

Lemma membership_events_same ref q : membership_events ref q q = [].
Proof.
  unfold membership_events. by destruct (includes (Query.entities q) ref).
Qed.

Lemma membership_events_removed ref q e :
  NoDup (Query.entities q) ->
  includes (Query.entities q) ref = true ->
  (Query.removeEntity q ref e).2
  = membership_events ref q (Query.removeEntity q ref e).1.1.
Proof.
  intros Hnd Hin. unfold Query.removeEntity, membership_events.
  pose proof Hin as Hin'. unfold includes in Hin'. rewrite Hin'. simpl.
  rewrite Hin. apply includes_spec in Hin.
  rewrite splice1_indexOf by done.
  assert (includes (remove_first ref (Query.entities q)) ref = false) as ->.
  { apply includes_false. by apply not_elem_of_remove_first. }
  done.
Qed.

Lemma membership_events_added ref q e :
  includes (Query.entities q) ref = false ->
  (Query.addEntity q ref e).2
  = membership_events ref q (Query.addEntity q ref e).1.1.
Proof.
  intros Hout. unfold Query.addEntity, membership_events. simpl.
  rewrite Hout.
  assert (includes (push (Query.entities q) ref) ref = true) as ->.
  { apply includes_spec, elem_of_push. by right. }
  done.
Qed.

Lemma onEntityComponentAdded_body_events ref C q e :
  NoDup (Query.entities q) ->
  (EntityManager.onEntityComponentAdded_body ref C q e).2
  = membership_events ref q
      (EntityManager.onEntityComponentAdded_body ref C q e).1.1.
Proof.
  intros Hnd. unfold EntityManager.onEntityComponentAdded_body.
  destruct (includes (Query.entities q) ref) eqn:Hm.
  - destruct (includes (Query.NotComponents q) C); cbn [andb].
    + by apply membership_events_removed.
    + rewrite orb_true_r. cbn [fst snd]. by rewrite membership_events_same.
  - rewrite andb_false_r, orb_false_r.
    destruct (negb (includes (Query.Components q) C)
              || negb (Query.match_ q e)).
    + cbn [fst snd]. by rewrite membership_events_same.
    + by apply membership_events_added.
Qed.

Lemma onEntityComponentRemoved_body_events ref C q e :
  NoDup (Query.entities q) ->
  (EntityManager.onEntityComponentRemoved_body ref C q e).2
  = membership_events ref q
      (EntityManager.onEntityComponentRemoved_body ref C q e).1.1.
Proof.
  intros Hnd. unfold EntityManager.onEntityComponentRemoved_body.
  destruct (includes (Query.entities q) ref) eqn:Hm.
  - cbn [negb]. rewrite andb_false_r. cbn [andb].
    destruct (includes (Query.Components q) C && true
              && negb (Query.match_ q e)).
    + by apply membership_events_removed.
    + cbn [fst snd]. by rewrite membership_events_same.
  - cbn [negb]. rewrite andb_true_r, andb_false_r. cbn [andb].
    destruct (includes (Query.NotComponents q) C && Query.match_ q e).
    + by apply membership_events_added.
    + cbn [fst snd]. by rewrite membership_events_same.
Qed.

Lemma for_queries_events body ref qs :
  (forall q e, NoDup (Query.entities q) ->
     (body q e).2 = membership_events ref q (body q e).1.1) ->
  Forall (fun q => NoDup (Query.entities q)) qs ->
  forall e,
    (EntityManager.for_queries body qs e).2
    = index_events ref qs (EntityManager.for_queries body qs e).1.1.
Proof.
  intros Hbody. induction 1 as [|q qs Hq _ IH]; intros e; simpl; [done|].
  pose proof (Hbody q e Hq) as Hb.
  destruct (body q e) as [[q' e1] ev1]. simpl in Hb.
  specialize (IH e1).
  destruct (EntityManager.for_queries body qs e1) as [[qs' e2] ev2].
  simpl in *. unfold index_events. simpl. by rewrite Hb, IH.
Qed.

(** X13: when a type is added to an entity, each query, in the order
    of the queries, dispatches [ENTITY_ADDED] once if the entity
    enters it, [ENTITY_REMOVED] once if the entity leaves it (a query
    that negates the type) and nothing if its membership stays; after
    these the manager dispatches [COMPONENT_ADDED] with the entity and
    the type.  Nothing else is dispatched. *)
Theorem X13_entityAddComponent_events (ref : EntityRef)
    (C : ComponentClass) (w w' : EntityManager.t) (e0 : Entity.t) :
  Forall (fun q => NoDup (Query.entities q)) (EntityManager._queries w) ->
  EntityManager.get ref w = Some e0 ->
  C ∉ Entity._ComponentTypes e0 ->
  EntityManager.entityAddComponent ref C w = Some w' ->
  EntityManager.trace w'
  = EntityManager.trace w
    ++ index_events ref (EntityManager._queries w) (EntityManager._queries w')
    ++ [(fire FromEntityManager EntityManager.COMPONENT_ADDED (EntityArg ref)
           (ClassArg C) (EntityManager.eventDispatcher w)).2].
Proof.
  intros Hnd He0 HC. unfold EntityManager.entityAddComponent.
  rewrite He0. simpl.
  apply indexOf_absent in HC. rewrite HC. simpl.
  destruct (ComponentManager.getComponentsPool C
              (EntityManager.componentsManager w)) as [pool cm].
  destruct (pool_aquire pool (EntityManager.nextInstance w))
    as [[component pool'] n].
  destruct (EntityManager.onEntityComponentAdded ref C _) as [w2|] eqn:Hrun;
    simpl; [|done].
  intros [= <-].
  apply run_queries_effect in Hrun as (e1 & He1 & ->). simpl.
  rewrite (for_queries_events _ ref (EntityManager._queries w)
             (fun q e => onEntityComponentAdded_body_events ref C q e) Hnd).
  by rewrite <- app_assoc.
Qed.

(** X14: when an attached type is removed from an entity, forced or
    deferred, the manager first dispatches [COMPONENT_REMOVE] with the
    entity and the type, before anything is detached; then each query,
    in order, dispatches [ENTITY_REMOVED] once if the entity leaves it,
    [ENTITY_ADDED] once if the entity enters it (a query that negates
    the type) and nothing otherwise. *)
Theorem X14_entityRemoveComponent_events (ref : EntityRef)
    (C : ComponentClass) (forceRemove : bool) (w w' : EntityManager.t)
    (e0 : Entity.t) :
  Forall (fun q => NoDup (Query.entities q)) (EntityManager._queries w) ->
  EntityManager.get ref w = Some e0 ->
  C ∈ Entity._ComponentTypes e0 ->
  EntityManager.entityRemoveComponent ref C forceRemove w = Some w' ->
  EntityManager.trace w'
  = EntityManager.trace w
    ++ [(fire FromEntityManager EntityManager.COMPONENT_REMOVE (EntityArg ref)
           (ClassArg C) (EntityManager.eventDispatcher w)).2]
    ++ index_events ref (EntityManager._queries w)
         (EntityManager._queries w').
Proof.
  intros Hnd He0 HC. unfold EntityManager.entityRemoveComponent.
  rewrite He0. simpl.
  destruct (Z.eqb_spec (indexOf (Entity._ComponentTypes e0) C) (-1))
    as [Ha|_]; [by apply indexOf_absent in Ha|].
  destruct forceRemove.
  - unfold EntityManager._entityRemoveComponentSync.
    replace (EntityManager.get ref
               (EntityManager.emit EntityManager.COMPONENT_REMOVE
                  (EntityArg ref) (ClassArg C) w)) with (Some e0)
      by (symmetry; exact He0).
    simpl.
    destruct (ComponentManager._componentPool
                (EntityManager.componentsManager w)
              !! componentPropertyName C) as [pool|]; simpl; [|done].
    destruct (pool_release _ pool _) as [pool'|]; simpl; [|done].
    intros Hrun. apply run_queries_effect in Hrun as (e1 & He1 & ->). simpl.
    rewrite (for_queries_events _ ref (EntityManager._queries w)
               (fun q e => onEntityComponentRemoved_body_events ref C q e)
               Hnd).
    by rewrite <- app_assoc.
  - simpl. intros Hrun.
    apply run_queries_effect in Hrun as (e1 & He1 & ->). simpl.
    assert (forall (b : bool) (x y : EntityManager.t),
              EntityManager._queries x = EntityManager._queries y ->
              EntityManager.trace x = EntityManager.trace y ->
              EntityManager._queries (if b then x else y)
              = EntityManager._queries y /\
              EntityManager.trace (if b then x else y)
              = EntityManager.trace y) as Hif
      by (intros [] x y; auto).
    destruct (Hif (Z.of_nat (length (Entity._ComponentTypesToRemove e0)) =? 0)
                (EntityManager.set_deferred
                   (push
                      (EntityManager.entitiesWithComponentsToRemove
                         (EntityManager.emit EntityManager.COMPONENT_REMOVE
                            (EntityArg ref) (ClassArg C) w)) ref)
                   (EntityManager.entitiesToRemove
                      (EntityManager.emit EntityManager.COMPONENT_REMOVE
                         (EntityArg ref) (ClassArg C) w))
                   (EntityManager.emit EntityManager.COMPONENT_REMOVE
                      (EntityArg ref) (ClassArg C) w))
                (EntityManager.emit EntityManager.COMPONENT_REMOVE
                   (EntityArg ref) (ClassArg C) w) eq_refl eq_refl)
      as [Hq Ht].
    simpl in Hq, Ht. rewrite Hq, Ht.
    rewrite (for_queries_events _ ref (EntityManager._queries w)
               (fun q e => onEntityComponentRemoved_body_events ref C q e)
               Hnd).
    by rewrite <- app_assoc.
Qed.

Lemma indexed_queries_nodup w :
  indexed w ->
  Forall (fun q => NoDup (Query.entities q)) (EntityManager._queries w).
Proof.
  intros [Hst _]. eapply Forall_impl; [apply (queries_wf _ Hst)|].
  by intros q [H _].
Qed.

Lemma manager_with_position_eq :
  EntityManager.entityAddComponent 0%nat Position manager_with_entity
  = Some manager_with_position.
Proof. vm_compute. reflexivity. Qed.

Lemma manager_with_position_proper : proper manager_with_position.
Proof.
  apply (proper_addComponent 0%nat Position manager_with_entity).
  - apply manager_with_entity_proper.
  - vm_compute. left.
  - vm_compute. apply not_elem_of_nil.
  - apply manager_with_position_eq.
Qed.

Lemma manager_with_position_entity :
  exists e, EntityManager.get 0%nat manager_with_position = Some e /\
            Entity._ComponentTypes e = [Position] /\
            Entity._components e !! name Position = Some 0%nat /\
            Entity._ComponentTypesToRemove e = [] /\
            Entity._world e = true.
Proof.
  destruct (EntityManager.get 0%nat manager_with_position) as [e|] eqn:He;
    [|vm_compute in He; discriminate].
  exists e. split; [done|]. vm_compute in He. by injection He as <-.
Qed.

Lemma manager_with_entity_entity :
  exists e, EntityManager.get 0%nat manager_with_entity = Some e /\
            Entity._ComponentTypes e = [] /\ Entity._world e = true.
Proof.
  destruct (EntityManager.get 0%nat manager_with_entity) as [e|] eqn:He;
    [|vm_compute in He; discriminate].
  exists e. split; [done|]. vm_compute in He. by injection He as <-.
Qed.

Lemma X13_witness :
  exists w',
    EntityManager.entityAddComponent 0%nat Position manager_with_entity
    = Some w' /\
    EntityManager.trace w'
    = EntityManager.trace manager_with_entity
      ++ index_events 0%nat (EntityManager._queries manager_with_entity)
           (EntityManager._queries w')
      ++ [(fire FromEntityManager EntityManager.COMPONENT_ADDED
             (EntityArg 0%nat) (ClassArg Position)
             (EntityManager.eventDispatcher manager_with_entity)).2].
Proof.
  destruct manager_with_entity_entity as (e & He & Ht & _).
  exists manager_with_position. split; [apply manager_with_position_eq|].
  apply (X13_entityAddComponent_events 0%nat Position manager_with_entity
           manager_with_position e).
  - apply indexed_queries_nodup, manager_with_entity_indexed.
  - exact He.
  - rewrite Ht. apply not_elem_of_nil.
  - apply manager_with_position_eq.
Defined.

Lemma X14_witness :
  exists w',
    EntityManager.entityRemoveComponent 0%nat Position false
      manager_with_position = Some w' /\
    EntityManager.trace w'
    = EntityManager.trace manager_with_position
      ++ [(fire FromEntityManager EntityManager.COMPONENT_REMOVE
             (EntityArg 0%nat) (ClassArg Position)
             (EntityManager.eventDispatcher manager_with_position)).2]
      ++ index_events 0%nat (EntityManager._queries manager_with_position)
           (EntityManager._queries w').
Proof.
  destruct manager_with_position_entity as (e & He & Ht & _).
  destruct (EntityManager.entityRemoveComponent 0%nat Position false
              manager_with_position) as [w'|] eqn:Hrm;
    [|vm_compute in Hrm; discriminate].
  exists w'. split; [done|].
  apply (X14_entityRemoveComponent_events 0%nat Position false
           manager_with_position w' e).
  - apply indexed_queries_nodup.
    apply (proper_queries_exact _ manager_with_position_proper).
  - exact He.
  - rewrite Ht. left.
  - exact Hrm.
Defined.

(** ** Entity: calls on an entity that has been released *)

Lemma through_world_released {R} ref (method : EntityManager.t -> option R)
    w e :
  EntityManager.get ref w = Some e -> Entity._world e = false ->
  EntityMethods.through_world ref method w = None.
Proof.
  intros He Hw. unfold EntityMethods.through_world. rewrite He. simpl.
  by rewrite Hw.
Qed.

Lemma through_world_attached {R} ref (method : EntityManager.t -> option R)
    w e :
  EntityManager.get ref w = Some e -> Entity._world e = true ->
  EntityMethods.through_world ref method w = method w.
Proof.
  intros He Hw. unfold EntityMethods.through_world. rewrite He. simpl.
  by rewrite Hw.
Qed.

(** The entities without world: released ones. *)
Lemma removeEntitySync_detaches ref index b w w' :
  EntityManager._removeEntitySync ref index b w = Some w' ->
  exists e, EntityManager.get ref w' = Some e /\ Entity._world e = false.
Proof.
  intros H. apply removeEntitySync_release in H
    as (w3 & e3 & _ & _ & Href & _).
  eexists. split; [exact Href|]. done.
Qed.

(** X15: once [removeEntity(entity, true)] has returned, the entity
    has no world, and [addComponent], [removeComponent],
    [removeAllComponents] and [remove] called on it throw. *)
Theorem X15_methods_throw_after_forced_remove (ref : EntityRef)
    (w w' : EntityManager.t) :
  EntityManager.removeEntity ref true w = Some w' ->
  (forall C, EntityMethods.addComponent ref C w' = None) /\
  (forall C force, EntityMethods.removeComponent ref C force w' = None) /\
  (forall force, EntityMethods.removeAllComponents ref force w' = None) /\
  (forall force, EntityMethods.remove ref force w' = None).
Proof.
  unfold EntityManager.removeEntity.
  destruct (indexOf (EntityManager._entities w) ref =? -1); [done|].
  destruct (EntityManager.onEntityRemoved ref _) as [w2|]; simpl; [|done].
  intros H. apply removeEntitySync_detaches in H as (e & He & Hw).
  repeat split; intros; by eapply through_world_released.
Qed.

Lemma X15_witness :
  exists w',
    EntityManager.removeEntity 0%nat true manager_with_position = Some w' /\
    EntityMethods.addComponent 0%nat Velocity w' = None.
Proof.
  destruct (EntityManager.removeEntity 0%nat true manager_with_position)
    as [w'|] eqn:Hrm; [|vm_compute in Hrm; discriminate].
  exists w'. split; [done|].
  by destruct (X15_methods_throw_after_forced_remove 0%nat
                 manager_with_position w' Hrm) as [H _].
Defined.

(** ** The identity of entity objects *)

Lemma same_identity_refl w : same_identity w w.
Proof. by repeat split. Qed.

Lemma same_identity_trans w1 w2 w3 :
  same_identity w1 w2 -> same_identity w2 w3 -> same_identity w1 w3.
Proof.
  intros (Hn & Ha & Ho) (Hn' & Ha' & Ho').
  split; [congruence|]. split; [congruence|].
  intros r. by rewrite Ho', Ho.
Qed.

Lemma same_identity_heap w w' :
  EntityManager.heap w' = EntityManager.heap w -> same_identity w w'.
Proof.
  intros Hh. unfold same_identity, EntityManager.get. by rewrite Hh.
Qed.

Lemma same_identity_put ref e e0 w :
  EntityManager.get ref w = Some e0 ->
  identity e = identity e0 ->
  same_identity w (EntityManager.put ref e w).
Proof.
  intros He0 Hid. split; [done|]. split; [done|].
  intros r. unfold EntityManager.get in *. simpl.
  destruct (decide (r = ref)) as [->|Hne].
  - rewrite lookup_insert_eq, He0. simpl. by rewrite Hid.
  - by rewrite lookup_insert_ne.
Qed.

Lemma same_but_queries_identity e e' :
  same_but_queries e e' -> identity e' = identity e.
Proof.
  intros H. apply same_but_queries_types in H as (_ & _ & _ & _ & Hid & Hw).
  unfold identity. by rewrite Hid, Hw.
Qed.

Lemma run_queries_identity body ref w w' :
  frames_entity body ->
  EntityManager.run_queries body ref w = Some w' ->
  same_identity w w'.
Proof.
  intros Hframe Hrun. apply run_queries_effect in Hrun as (e & He & ->).
  pose proof (for_queries_frame body (EntityManager._queries w) e Hframe)
    as Hfr.
  destruct (EntityManager.for_queries body (EntityManager._queries w) e)
    as [[qs e'] evs]. simpl in *.
  apply (same_identity_trans _
           (EntityManager.put ref e' (EntityManager.set_queries qs w)));
    [|by apply same_identity_heap].
  apply (same_identity_trans _ (EntityManager.set_queries qs w));
    [by apply same_identity_heap|].
  apply (same_identity_put ref e' e); [done|].
  by apply same_but_queries_identity.
Qed.

Lemma entityAddComponent_identity ref C w w' :
  EntityManager.entityAddComponent ref C w = Some w' -> same_identity w w'.
Proof.
  unfold EntityManager.entityAddComponent.
  destruct (EntityManager.get ref w) as [e0|] eqn:He0; simpl; [|done].
  destruct (negb (indexOf (Entity._ComponentTypes e0) C =? -1)).
  { intros [= <-]. apply same_identity_refl. }
  destruct (ComponentManager.getComponentsPool C
              (EntityManager.componentsManager w)) as [pool cm].
  destruct (pool_aquire pool (EntityManager.nextInstance w))
    as [[component pool'] n].
  destruct (EntityManager.onEntityComponentAdded ref C _) as [w2|] eqn:Hrun;
    simpl; [|done].
  intros [= <-].
  apply run_queries_identity in Hrun;
    [|apply onEntityComponentAdded_body_frame].
  eapply same_identity_trans; [|by apply same_identity_heap].
  eapply same_identity_trans; [|exact Hrun].
  eapply same_identity_trans;
    [|apply (same_identity_put ref _ e0); [exact He0|done]].
  by apply same_identity_heap.
Qed.

Lemma entityRemoveComponent_identity ref C force w w' :
  EntityManager.entityRemoveComponent ref C force w = Some w' ->
  same_identity w w'.
Proof.
  unfold EntityManager.entityRemoveComponent.
  destruct (EntityManager.get ref w) as [e0|] eqn:He0; simpl; [|done].
  destruct (indexOf (Entity._ComponentTypes e0) C =? -1).
  { intros [= <-]. apply same_identity_refl. }
  set (w1 := EntityManager.emit EntityManager.COMPONENT_REMOVE (EntityArg ref)
               (ClassArg C) w).
  assert (same_identity w w1) as H01 by (by apply same_identity_heap).
  assert (EntityManager.get ref w1 = Some e0) as He1 by exact He0.
  destruct force.
  - unfold EntityManager._entityRemoveComponentSync. rewrite He1. simpl.
    destruct (ComponentManager._componentPool _ !! componentPropertyName C)
      as [pool|]; simpl; [|done].
    destruct (pool_release _ pool _) as [pool'|]; simpl; [|done].
    intros Hrun. apply run_queries_identity in Hrun;
      [|apply onEntityComponentRemoved_body_frame].
    eapply same_identity_trans; [exact H01|].
    eapply same_identity_trans; [|exact Hrun].
    eapply same_identity_trans;
      [|apply (same_identity_put ref _ e0); [exact He1|done]].
    by apply same_identity_heap.
  - simpl. intros Hrun. apply run_queries_identity in Hrun;
      [|apply onEntityComponentRemoved_body_frame].
    eapply same_identity_trans; [exact H01|].
    eapply same_identity_trans; [|exact Hrun].
    destruct (Z.of_nat (length (Entity._ComponentTypesToRemove e0)) =? 0).
    + eapply same_identity_trans;
        [|apply (same_identity_put ref _ e0); [exact He1|done]].
      by apply same_identity_heap.
    + by apply (same_identity_put ref _ e0).
Qed.

Lemma removeAll_loop_identity n ref force : forall w w',
  EntityManager.removeAll_loop n ref force w = Some w' -> same_identity w w'.
Proof.
  induction n as [|n IH]; intros w w'; simpl.
  - intros [= <-]. apply same_identity_refl.
  - destruct (EntityManager.get ref w) as [e|]; simpl; [|done].
    destruct (Entity._ComponentTypes e !! n) as [C|]; [|apply IH].
    destruct (EntityManager.entityRemoveComponent ref C force w)
      as [w1|] eqn:H1; simpl; [|done].
    intros H. eapply same_identity_trans; [|by apply IH].
    by eapply entityRemoveComponent_identity.
Qed.

Lemma entityRemoveAllComponents_identity ref force w w' :
  EntityManager.entityRemoveAllComponents ref force w = Some w' ->
  same_identity w w'.
Proof.
  unfold EntityManager.entityRemoveAllComponents.
  destruct (EntityManager.get ref w) as [e|]; simpl; [|done].
  apply removeAll_loop_identity.
Qed.

Lemma releaseStaged_loop_identity n ref : forall w w',
  EntityManager.releaseStaged_loop n ref w = Some w' -> same_identity w w'.
Proof.
  induction n as [|n IH]; intros w w'; simpl.
  - intros [= <-]. apply same_identity_refl.
  - destruct (EntityManager.get ref w) as [e|] eqn:He; simpl; [|done].
    destruct (last (Entity._ComponentTypesToRemove e)) as [C|].
    + destruct (ComponentManager._componentPool
                  (EntityManager.componentsManager w)
                !! componentPropertyName C) as [pool|]; simpl; [|done].
      destruct (pool_release _ pool (EntityManager.nextInstance w))
        as [pool'|]; simpl; [|done].
      intros H. eapply same_identity_trans; [|by apply IH].
      eapply same_identity_trans;
        [|apply (same_identity_put ref _ e); [exact He|done]].
      by apply same_identity_heap.
    + intros [= <-]. apply same_identity_refl.
Qed.

Lemma releaseComponents_loop_identity refs : forall w w',
  EntityManager.releaseComponents_loop refs w = Some w' ->
  same_identity w w'.
Proof.
  induction refs as [|ref rest IH]; intros w w'; simpl.
  - intros [= <-]. apply same_identity_refl.
  - destruct (EntityManager.get ref w) as [e|]; simpl; [|done].
    destruct (EntityManager.releaseStaged_loop _ ref w) as [w1|] eqn:H1;
      simpl; [|done].
    intros H. eapply same_identity_trans; [|by apply IH].
    by eapply releaseStaged_loop_identity.
Qed.

Lemma seed_identity refs : forall q h,
  Heap.nextId (EntityManager.seed q refs h).2 = Heap.nextId h /\
  Heap.allocated (EntityManager.seed q refs h).2 = Heap.allocated h /\
  forall r, identity <$> Heap.objects (EntityManager.seed q refs h).2 !! r
            = identity <$> Heap.objects h !! r.
Proof.
  induction refs as [|ref rest IH]; intros q h; simpl; [done|].
  destruct (Heap.objects h !! ref) as [entity|] eqn:Hobj; [|apply IH].
  destruct (Query.match_ q entity); [|apply IH].
  destruct (IH (Query.set_entities (push (Query.entities q) ref)
                  (Query.eventDispatcher q) q)
               (Heap.set_object ref
                  (Entity.set_queries
                     (push (Entity.queries entity) (Query.key q)) entity) h))
    as (Hn & Ha & Ho).
  split; [done|]. split; [done|]. intros r. rewrite Ho. simpl.
  destruct (decide (r = ref)) as [->|Hne].
  - by rewrite lookup_insert_eq, Hobj.
  - by rewrite lookup_insert_ne.
Qed.

Lemma getQuery_identity spec w k w' :
  EntityManager.getQuery spec w = Some (k, w') -> same_identity w w'.
Proof.
  unfold EntityManager.getQuery, EntityManager.Query_new.
  destruct (EntityManager.find_query _ _) as [q|].
  { intros [= _ <-]. apply same_identity_refl. }
  destruct (Query.split_terms spec) as [cs ns].
  destruct (Z.of_nat (length cs) =? 0); [done|]. simpl.
  match goal with
  | |- context [EntityManager.seed ?q0 ?refs ?h] =>
      pose proof (seed_identity refs q0 h) as (Hn & Ha & Ho);
      destruct (EntityManager.seed q0 refs h) as [q h']
  end.
  simpl in *. intros [= _ <-]. split; [done|]. split; [done|]. exact Ho.
Qed.

Lemma getMutableComponent_identity ref C w i w' :
  EntityManager.getMutableComponent ref C w = Some (i, w') ->
  same_identity w w'.
Proof.
  unfold EntityManager.getMutableComponent.
  destruct (EntityManager.get ref w) as [e|]; simpl; [|done].
  destruct (EntityManager.notify_changed _ _ _ _) as [qs evs].
  intros [= _ <-]. by apply same_identity_heap.
Qed.

Lemma removeEntity_deferred_identity ref w w' :
  EntityManager.removeEntity ref false w = Some w' -> same_identity w w'.
Proof.
  unfold EntityManager.removeEntity.
  destruct (indexOf (EntityManager._entities w) ref =? -1); [done|].
  destruct (EntityManager.onEntityRemoved ref _) as [w2|] eqn:H2;
    simpl; [|done].
  destruct (EntityManager.entityRemoveAllComponents ref false w2)
    as [w3|] eqn:H3; simpl; [|done].
  intros [= <-].
  apply run_queries_identity in H2; [|apply onEntityRemoved_body_frame].
  apply entityRemoveAllComponents_identity in H3.
  eapply same_identity_trans; [|by apply same_identity_heap].
  eapply same_identity_trans; [|exact H3].
  eapply same_identity_trans; [|exact H2].
  by apply same_identity_heap.
Qed.

Lemma same_identity_world w w' r e :
  same_identity w w' -> EntityManager.get r w = Some e ->
  exists e', EntityManager.get r w' = Some e' /\
             Entity._world e' = Entity._world e /\
             Entity.id e' = Entity.id e.
Proof.
  intros (_ & _ & Ho) He. specialize (Ho r). rewrite He in Ho.
  destruct (EntityManager.get r w') as [e'|]; [|done].
  simpl in Ho. injection Ho as Hw Hid. by exists e'.
Qed.

Lemma removeEntities_loop_detaches refs : forall w w' r,
  EntityManager.removeEntities_loop refs w = Some w' ->
  r ∈ refs \/
  (exists e, EntityManager.get r w = Some e /\ Entity._world e = false) ->
  exists e', EntityManager.get r w' = Some e' /\ Entity._world e' = false.
Proof.
  induction refs as [|ref rest IH]; intros w w' r; simpl.
  - intros [= <-] [Hin|H]; [by apply elem_of_nil in Hin|done].
  - destruct (EntityManager._removeEntitySync ref _ false w) as [w1|] eqn:H1;
      simpl; [|done].
    intros Hloop Hr. apply (IH w1 w' r Hloop).
    destruct (decide (r ∈ rest)) as [Hin|Hnin]; [by left|]. right.
    destruct (decide (r = ref)) as [->|Hne].
    + by eapply removeEntitySync_detaches.
    + destruct Hr as [Hin|(e & He & Hw)].
      { apply elem_of_cons in Hin as [?|?]; done. }
      apply removeEntitySync_release in H1
        as (w3 & e3 & [= <-] & _ & _ & Hothers & _).
      exists e. by rewrite Hothers.
Qed.

Lemma processDeferredRemoval_detaches w w' r :
  EntityManager.processDeferredRemoval w = Some w' ->
  r ∈ EntityManager.entitiesToRemove w ->
  exists e', EntityManager.get r w' = Some e' /\ Entity._world e' = false.
Proof.
  unfold EntityManager.processDeferredRemoval.
  destruct (EntityManager.removeEntities_loop _ w) as [w1|] eqn:H1;
    simpl; [|done].
  destruct (EntityManager.releaseComponents_loop _ _) as [w3|] eqn:H3;
    simpl; [|done].
  intros [= <-] Hr.
  destruct (removeEntities_loop_detaches _ _ _ r H1 (or_introl Hr))
    as (e1 & He1 & Hw1).
  apply releaseComponents_loop_identity in H3.
  destruct (same_identity_world _ _ r e1 H3 He1) as (e3 & He3 & Hw3 & _).
  exists e3. split; [exact He3|congruence].
Qed.

(** X16: a deferred [removeEntity] leaves the entity its world: until
    the commit its methods are forwarded to the manager as before.  The
    commit ([processDeferredRemoval]) takes the world away, and from
    then on [addComponent], [removeComponent], [removeAllComponents]
    and [remove] on the entity throw. *)
Theorem X16_deferred_remove_detaches_at_commit (ref : EntityRef)
    (w w1 : EntityManager.t) (e0 : Entity.t) :
  EntityManager.get ref w = Some e0 ->
  Entity._world e0 = true ->
  EntityManager.removeEntity ref false w = Some w1 ->
  (forall C, EntityMethods.addComponent ref C w1
             = EntityManager.entityAddComponent ref C w1) /\
  (forall force, EntityMethods.remove ref force w1
                 = EntityManager.removeEntity ref force w1) /\
  forall w2,
    EntityManager.processDeferredRemoval w1 = Some w2 ->
    (forall C, EntityMethods.addComponent ref C w2 = None) /\
    (forall C force, EntityMethods.removeComponent ref C force w2 = None) /\
    (forall force, EntityMethods.removeAllComponents ref force w2 = None) /\
    (forall force, EntityMethods.remove ref force w2 = None).
Proof.
  intros He0 Hw0 Hrm.
  pose proof (removeEntity_deferred_identity _ _ _ Hrm) as Hsame.
  destruct (same_identity_world _ _ ref e0 Hsame He0) as (e1 & He1 & Hw1 & _).
  rewrite Hw0 in Hw1.
  split; [intros C; by eapply through_world_attached|].
  split; [intros f; by eapply through_world_attached|].
  intros w2 Hcommit.
  assert (ref ∈ EntityManager.entitiesToRemove w1) as Hin.
  { revert Hrm. unfold EntityManager.removeEntity.
    destruct (indexOf (EntityManager._entities w) ref =? -1); [done|].
    destruct (EntityManager.onEntityRemoved ref _) as [wa|]; simpl; [|done].
    destruct (EntityManager.entityRemoveAllComponents ref false wa)
      as [wb|]; simpl; [|done].
    intros [= <-]. simpl. apply elem_of_push. by right. }
  destruct (processDeferredRemoval_detaches _ _ ref Hcommit Hin)
    as (e2 & He2 & Hw2).
  repeat split; intros; by eapply through_world_released.
Qed.

Lemma X16_witness :
  exists w1 w2,
    EntityManager.removeEntity 0%nat false manager_with_position = Some w1 /\
    EntityMethods.addComponent 0%nat Velocity w1
    = EntityManager.entityAddComponent 0%nat Velocity w1 /\
    EntityManager.processDeferredRemoval w1 = Some w2 /\
    EntityMethods.addComponent 0%nat Velocity w2 = None.
Proof.
  destruct manager_with_position_entity as (e & He & _ & _ & _ & Hw).
  destruct (EntityManager.removeEntity 0%nat false manager_with_position)
    as [w1|] eqn:H1; [|vm_compute in H1; discriminate].
  destruct (X16_deferred_remove_detaches_at_commit 0%nat
              manager_with_position w1 e He Hw H1) as (Ha & _ & Hc).
  destruct (EntityManager.processDeferredRemoval w1) as [w2|] eqn:H2.
  - exists w1, w2. split; [done|]. split; [apply Ha|]. split; [done|].
    by destruct (Hc w2 eq_refl) as [H _].
  - vm_compute in H1. injection H1 as <-. vm_compute in H2. discriminate.
Defined.

(** ** Entity ids *)

Lemma heap_ids_empty : heap_ids_ok Heap.empty.
Proof.
  split; simpl.
  - intros r [e He]. done.
  - intros r e He. done.
  - intros r1 r2 e1 e2 He. done.
Qed.

Lemma heap_ids_create h :
  heap_ids_ok h -> heap_ids_ok (Heap.createEntityObject h).2.
Proof.
  intros [Ha Hb Hd]. unfold Heap.createEntityObject. simpl.
  assert (Heap.objects h !! Heap.allocated h = None) as Hfree.
  { destruct (Heap.objects h !! Heap.allocated h) eqn:H; [|done].
    assert (Heap.allocated h < Heap.allocated h)%nat
      by (apply Ha; by eexists). lia. }
  split; simpl.
  - intros r Hr. destruct (decide (r = Heap.allocated h)) as [->|Hne]; [lia|].
    rewrite lookup_insert_ne in Hr by done. apply Ha in Hr. lia.
  - intros r e. destruct (decide (r = Heap.allocated h)) as [->|Hne].
    + rewrite lookup_insert_eq. intros [= <-]. simpl. lia.
    + rewrite lookup_insert_ne by done. intros He. apply Hb in He. lia.
  - intros r1 r2 e1 e2.
    destruct (decide (r1 = Heap.allocated h)) as [->|Hne1];
      destruct (decide (r2 = Heap.allocated h)) as [->|Hne2]; [done|..].
    + rewrite lookup_insert_eq, lookup_insert_ne by done.
      intros [= <-] He2 Hid. apply Hb in He2. simpl in Hid. lia.
    + rewrite lookup_insert_eq, lookup_insert_ne by done.
      intros He1 [= <-] Hid. apply Hb in He1. simpl in Hid. lia.
    + rewrite !lookup_insert_ne by done. apply Hd.
Qed.

Lemma heap_ids_expand n : forall fl h,
  heap_ids_ok h ->
  heap_ids_ok (ObjectPool.expand_loop Heap.createEntityObject n fl h).2.
Proof.
  induction n as [|n IH]; intros fl h Hh; simpl; [done|].
  apply IH. exact (heap_ids_create h Hh).
Qed.

Lemma heap_ids_set r e e0 h :
  Heap.objects h !! r = Some e0 -> Entity.id e = Entity.id e0 ->
  heap_ids_ok h -> heap_ids_ok (Heap.set_object r e h).
Proof.
  intros He0 Hid [Ha Hb Hd]. split; simpl.
  - intros r' Hr. apply Ha. destruct (decide (r' = r)) as [->|Hne].
    + by eexists.
    + by rewrite lookup_insert_ne in Hr.
  - intros r' e'. destruct (decide (r' = r)) as [->|Hne].
    + rewrite lookup_insert_eq. intros [= <-]. rewrite Hid. by eapply Hb.
    + rewrite lookup_insert_ne by done. apply Hb.
  - intros r1 r2 e1 e2.
    destruct (decide (r1 = r)) as [->|Hne1];
      destruct (decide (r2 = r)) as [->|Hne2]; [done|..].
    + rewrite lookup_insert_eq, lookup_insert_ne by done.
      intros [= <-] He2 Hi. apply (Hd r r2 e0 e2); congruence.
    + rewrite lookup_insert_eq, lookup_insert_ne by done.
      intros He1 [= <-] Hi. apply (Hd r1 r e1 e0); congruence.
    + rewrite !lookup_insert_ne by done. apply Hd.
Qed.

Lemma heap_ids_reset r h :
  heap_ids_ok h -> heap_ids_ok (Heap.resetEntityObject r h).
Proof.
  intros Hh. unfold Heap.resetEntityObject.
  destruct (Heap.objects h !! r) as [e|] eqn:He; [|done].
  destruct Hh as [Ha Hb Hd]. split; simpl.
  - intros r' Hr. apply Ha. destruct (decide (r' = r)) as [->|Hne].
    + by eexists.
    + by rewrite lookup_insert_ne in Hr.
  - intros r' e'. destruct (decide (r' = r)) as [->|Hne].
    + rewrite lookup_insert_eq. intros [= <-]. simpl. lia.
    + rewrite lookup_insert_ne by done. intros He'. apply Hb in He'. lia.
  - intros r1 r2 e1 e2.
    destruct (decide (r1 = r)) as [->|Hne1];
      destruct (decide (r2 = r)) as [->|Hne2]; [done|..].
    + rewrite lookup_insert_eq, lookup_insert_ne by done.
      intros [= <-] He2 Hi. apply Hb in He2. simpl in Hi. lia.
    + rewrite lookup_insert_eq, lookup_insert_ne by done.
      intros He1 [= <-] Hi. apply Hb in He1. simpl in Hi. lia.
    + rewrite !lookup_insert_ne by done. apply Hd.
Qed.

Lemma same_identity_ids w w' :
  same_identity w w' -> ids_ok w -> ids_ok w'.
Proof.
  intros (Hn & Hal & Ho) [Ha Hb Hd].
  assert (forall r e', EntityManager.get r w' = Some e' ->
            exists e, EntityManager.get r w = Some e /\
                      Entity.id e = Entity.id e') as Hback.
  { intros r e' He'. specialize (Ho r). rewrite He' in Ho.
    destruct (EntityManager.get r w) as [e|]; [|done].
    simpl in Ho. injection Ho as _ Hid. by exists e. }
  split.
  - intros r [e' He']. rewrite Hal. apply Ha.
    destruct (Hback r e' He') as (e & He & _). by exists e.
  - intros r e' He'. rewrite Hn.
    destruct (Hback r e' He') as (e & He & <-). by eapply Hb.
  - intros r1 r2 e1 e2 H1 H2 Hid.
    destruct (Hback r1 e1 H1) as (x1 & Hx1 & Hi1).
    destruct (Hback r2 e2 H2) as (x2 & Hx2 & Hi2).
    apply (Hd r1 r2 x1 x2); [done|done|congruence].
Qed.

Lemma createEntity_ids w ref w' :
  ids_ok w -> EntityManager.createEntity w = Some (ref, w') -> ids_ok w'.
Proof.
  intros Hok. unfold EntityManager.createEntity, ObjectPool.aquire.
  assert (heap_ids_ok
            (if Z.of_nat (length (ObjectPool.freeList
                                    (EntityManager._entityPool w))) <=? 0
             then ObjectPool.expand Heap.createEntityObject
                    (ObjectPool.growth (EntityManager._entityPool w))
                    (EntityManager._entityPool w) (EntityManager.heap w)
             else (EntityManager._entityPool w, EntityManager.heap w)).2)
    as H1.
  { destruct (_ <=? 0); [|done]. unfold ObjectPool.expand.
    pose proof (heap_ids_expand
                  (Z.to_nat (ObjectPool.growth (EntityManager._entityPool w)))
                  (ObjectPool.freeList (EntityManager._entityPool w))
                  (EntityManager.heap w) Hok) as H.
    by destruct (ObjectPool.expand_loop _ _ _ _). }
  destruct (if _ <=? 0 then _ else _) as [p1 h1]. simpl in H1.
  destruct (pop (ObjectPool.freeList p1)) as [item fl]. simpl.
  destruct item as [r|]; simpl; [|done].
  destruct (Heap.objects h1 !! r) as [entity|] eqn:He; simpl; [|done].
  intros [= <- <-]. unfold ids_ok. simpl.
  by apply (heap_ids_set r _ entity).
Qed.

Lemma removeEntitySync_ids ref index b w w' :
  ids_ok w -> EntityManager._removeEntitySync ref index b w = Some w' ->
  ids_ok w'.
Proof.
  intros Hok. unfold EntityManager._removeEntitySync.
  destruct (if b then _ else _) as [w2|] eqn:H2; simpl; [|done].
  assert (ids_ok w2) as Hok2.
  { destruct b.
    - apply entityRemoveAllComponents_identity in H2.
      apply (same_identity_ids _ _ H2). exact Hok.
    - by injection H2 as <-. }
  destruct (EntityManager.get ref w2) as [entity|] eqn:He; simpl; [|done].
  intros [= <-]. unfold ids_ok. simpl.
  apply heap_ids_reset. by apply (heap_ids_set ref _ entity).
Qed.

Lemma removeEntities_loop_ids refs : forall w w',
  ids_ok w -> EntityManager.removeEntities_loop refs w = Some w' -> ids_ok w'.
Proof.
  induction refs as [|ref rest IH]; intros w w' Hok; simpl.
  - by intros [= <-].
  - destruct (EntityManager._removeEntitySync ref _ false w) as [w1|] eqn:H1;
      simpl; [|done].
    apply IH. by eapply removeEntitySync_ids.
Qed.

Lemma reached_ids_ok w : reached w -> ids_ok w.
Proof.
  induction 1 as [cm|w w' _ IH Hq|w ref w' _ IH Hc|spec w k w' _ IH Hg
                  |ref C w i w' _ IH Hm|ref C w w' _ IH Ha
                  |ref C force w w' _ IH Hr|ref force w w' _ IH Hr
                  |ref force w w' _ IH Hr|w w' _ IH Hp].
  - apply heap_ids_empty.
  - destruct Hq as (Hh & _). unfold ids_ok. by rewrite Hh.
  - by eapply createEntity_ids.
  - eapply same_identity_ids; [|exact IH]. by eapply getQuery_identity.
  - eapply same_identity_ids; [|exact IH].
    by eapply getMutableComponent_identity.
  - eapply same_identity_ids; [|exact IH].
    by eapply entityAddComponent_identity.
  - eapply same_identity_ids; [|exact IH].
    by eapply entityRemoveComponent_identity.
  - eapply same_identity_ids; [|exact IH].
    by eapply entityRemoveAllComponents_identity.
  - destruct force.
    + revert Hr. unfold EntityManager.removeEntity.
      destruct (indexOf (EntityManager._entities w) ref =? -1); [done|].
      destruct (EntityManager.onEntityRemoved ref _) as [w2|] eqn:H2;
        simpl; [|done].
      apply removeEntitySync_ids.
      apply run_queries_identity in H2; [|apply onEntityRemoved_body_frame].
      eapply same_identity_ids; [exact H2|]. exact IH.
    + eapply same_identity_ids; [|exact IH].
      by eapply removeEntity_deferred_identity.
  - revert Hp. unfold EntityManager.processDeferredRemoval.
    destruct (EntityManager.removeEntities_loop _ w) as [w1|] eqn:H1;
      simpl; [|done].
    destruct (EntityManager.releaseComponents_loop _ _) as [w3|] eqn:H3;
      simpl; [|done].
    intros [= <-]. apply releaseComponents_loop_identity in H3.
    apply (same_identity_ids
             (EntityManager.set_deferred
                (EntityManager.entitiesWithComponentsToRemove w1) [] w1));
      [|change (ids_ok w1); by eapply removeEntities_loop_ids].
    eapply same_identity_trans; [exact H3|]. by apply same_identity_heap.
Qed.

(** X17: whatever calls a manager has served, the ids of its entity
    objects, live or pooled, are pairwise distinct and all below the
    counter the next id is drawn from: the constructor and [reset] are
    the only places that write [id], and both draw it from the
    counter. *)
Theorem X17_entity_ids_are_distinct (w : EntityManager.t) :
  reached w ->
  (forall r e, EntityManager.get r w = Some e ->
     Entity.id e < Heap.nextId (EntityManager.heap w)) /\
  (forall r1 r2 e1 e2,
     EntityManager.get r1 w = Some e1 -> EntityManager.get r2 w = Some e2 ->
     Entity.id e1 = Entity.id e2 -> r1 = r2).
Proof.
  intros Hr. apply reached_ids_ok in Hr as [_ Hb Hd]. split.
  - exact Hb.
  - exact Hd.
Qed.

Lemma manager_with_two_reached : reached manager_with_two.
Proof.
  apply (reached_createEntity manager_with_one 1%nat).
  - apply (reached_createEntity fresh_manager 0%nat).
    + apply reached_new.
    + vm_compute. reflexivity.
  - vm_compute. reflexivity.
Qed.

Lemma X17_witness :
  exists e0 e1,
    EntityManager.get 0%nat manager_with_two = Some e0 /\
    EntityManager.get 1%nat manager_with_two = Some e1 /\
    Entity.id e0 <> Entity.id e1.
Proof.
  destruct (EntityManager.get 0%nat manager_with_two) as [e0|] eqn:H0;
    [|vm_compute in H0; discriminate].
  destruct (EntityManager.get 1%nat manager_with_two) as [e1|] eqn:H1;
    [|vm_compute in H1; discriminate].
  exists e0, e1. split; [done|]. split; [done|]. intros Hid.
  destruct (X17_entity_ids_are_distinct manager_with_two
              manager_with_two_reached) as [_ Hd].
  by specialize (Hd 0%nat 1%nat e0 e1 H0 H1 Hid).
Defined.

(** ** Components of an entity: adding twice, removing and adding *)

(** X18: once [entityAddComponent] has returned the entity has the
    type, and a second call with the same type changes nothing: no
    second instance is acquired, no count is raised and no event is
    dispatched. *)
Theorem X18_entityAddComponent_is_idempotent (ref : EntityRef)
    (C : ComponentClass) (w w' : EntityManager.t) :
  EntityManager.entityAddComponent ref C w = Some w' ->
  EntityManager.hasComponent ref C w' = true /\
  EntityManager.entityAddComponent ref C w' = Some w'.
Proof.
  intros Hadd.
  destruct (EntityManager.get ref w) as [e0|] eqn:He0;
    [|by unfold EntityManager.entityAddComponent in Hadd;
         rewrite He0 in Hadd].
  assert (exists e', EntityManager.get ref w' = Some e' /\
                     C ∈ Entity._ComponentTypes e') as (e' & He' & HC').
  { destruct (decide (C ∈ Entity._ComponentTypes e0)) as [HC|HC].
    - unfold EntityManager.entityAddComponent in Hadd.
      rewrite He0 in Hadd. simpl in Hadd.
      assert ((indexOf (Entity._ComponentTypes e0) C =? -1) = false) as Hi.
      { apply Z.eqb_neq. rewrite indexOf_absent. by intros Hn. }
      rewrite Hi in Hadd. simpl in Hadd. injection Hadd as <-.
      by exists e0.
    - destruct (entityAddComponent_full _ _ _ _ _ He0 HC Hadd)
        as (e' & He' & Ht & _).
      exists e'. split; [done|]. rewrite Ht. apply elem_of_push. by right. }
  assert (includes (Entity._ComponentTypes e') C = true) as Hinc
    by (by apply includes_spec).
  split.
  - unfold EntityManager.hasComponent. rewrite He'. exact Hinc.
  - unfold EntityManager.entityAddComponent. rewrite He'. simpl.
    unfold includes in Hinc. by rewrite Hinc.
Qed.

Lemma X18_witness :
  EntityManager.hasComponent 0%nat Position manager_with_position = true /\
  EntityManager.entityAddComponent 0%nat Position manager_with_position
  = Some manager_with_position.
Proof.
  apply (X18_entityAddComponent_is_idempotent 0%nat Position
           manager_with_entity manager_with_position).
  apply manager_with_position_eq.
Defined.

(** X19: a forced removal gives the instance back to the pool of the
    type, and adding the type again takes from that pool.  When the
    pool of the type is a free-list pool, the entity gets back the very
    instance it had and nothing is constructed; when the type has no
    [reset] (a pool that only counts), it gets a newly constructed
    instance. *)
Theorem X19_forced_remove_then_add_reuses (ref : EntityRef)
    (C : ComponentClass) (w w1 w2 : EntityManager.t) (e0 : Entity.t)
    (inst : InstanceRef) (pool : ComponentPool) :
  EntityManager.get ref w = Some e0 ->
  NoDup (Entity._ComponentTypes e0) ->
  C ∈ Entity._ComponentTypes e0 ->
  Entity._components e0 !! name C = Some inst ->
  ComponentManager._componentPool (EntityManager.componentsManager w)
    !! componentPropertyName C = Some pool ->
  EntityManager.entityRemoveComponent ref C true w = Some w1 ->
  EntityManager.entityAddComponent ref C w1 = Some w2 ->
  exists e2,
    EntityManager.get ref w2 = Some e2 /\
    match pool with
    | Pooled _ =>
        Entity.getComponent C e2 = Some inst /\
        EntityManager.nextInstance w2 = EntityManager.nextInstance w
    | NotPooled _ =>
        Entity.getComponent C e2 = Some (EntityManager.nextInstance w) /\
        EntityManager.nextInstance w2 = S (EntityManager.nextInstance w)
    end.
Proof.
  intros He0 Hnd HC Hinst Hpool Hrm Hadd.
  destruct (entityRemoveComponent_forced_full _ _ _ _ _ He0 HC Hrm)
    as (pool0 & pool' & e1 & Hp0 & Hrel & He1 & Ht1 & _ & _ & _ & Hcm1
        & Hn1 & _).
  rewrite Hpool in Hp0. injection Hp0 as <-. rewrite Hinst in Hrel.
  assert (C ∉ Entity._ComponentTypes e1) as HC1
    by (rewrite Ht1; by apply not_elem_of_remove_first).
  destruct (entityAddComponent_full _ _ _ _ _ He1 HC1 Hadd)
    as (e2 & He2 & _ & Hc2 & _ & _ & _ & Hn2 & _).
  exists e2. split; [done|].
  assert ((ComponentManager.getComponentsPool C
             (EntityManager.componentsManager w1)).1 = pool') as Hget.
  { rewrite Hcm1. unfold ComponentManager.getComponentsPool. simpl.
    by rewrite lookup_insert_eq. }
  rewrite Hget, Hn1 in Hc2, Hn2. unfold Entity.getComponent.
  destruct pool as [p|p]; simpl in Hrel; injection Hrel as <-.
  - unfold pool_aquire in Hc2, Hn2.
    pose proof (pool_release_aquire createInstance resetInstance p
                  (EntityManager.nextInstance w)
                  (EntityManager.nextInstance w) inst) as Hra.
    simpl in Hra. rewrite Hra in Hc2, Hn2. simpl in Hc2, Hn2.
    rewrite Hc2, lookup_insert_eq. done.
  - simpl in Hc2, Hn2. rewrite Hc2, lookup_insert_eq. done.
Qed.

Lemma X19_witness :
  exists w1 w2 e2,
    EntityManager.entityRemoveComponent 0%nat Position true
      manager_with_position = Some w1 /\
    EntityManager.entityAddComponent 0%nat Position w1 = Some w2 /\
    EntityManager.get 0%nat w2 = Some e2 /\
    Entity.getComponent Position e2 = Some 0%nat.
Proof.
  destruct manager_with_position_entity as (e & He & Ht & Hc & _).
  destruct (EntityManager.entityRemoveComponent 0%nat Position true
              manager_with_position) as [w1|] eqn:H1;
    [|vm_compute in H1; discriminate].
  destruct (EntityManager.entityAddComponent 0%nat Position w1)
    as [w2|] eqn:H2.
  - destruct (X19_forced_remove_then_add_reuses 0%nat Position
                manager_with_position w1 w2 e 0%nat
                (Pooled {| ObjectPool.freeList := [];
                           ObjectPool.count := 1 |}) He)
      as (e2 & He2 & Hg & _); try done.
    + rewrite Ht. apply NoDup_singleton.
    + rewrite Ht. left.
    + by exists w1, w2, e2.
  - vm_compute in H1. injection H1 as <-. vm_compute in H2. discriminate.
Defined.

(** ** The life of an entity in a properly used manager *)

Lemma createEntity_succeeds w :
  healthy_core w -> is_Some (EntityManager.createEntity w).
Proof.
  intros [_ _ _ _ _ _ Hpool Hcount].
  unfold EntityManager.createEntity.
  destruct (decide (ObjectPool.freeList (EntityManager._entityPool w) = []))
    as [Hfl|Hfl].
  - unfold ObjectPool.aquire, ObjectPool.expand. rewrite Hfl. simpl.
    pose proof (pool_growth_pos (EntityManager._entityPool w) Hcount) as Hg.
    pose proof (expand_loop_entities
                  (Z.to_nat (ObjectPool.growth (EntityManager._entityPool w)))
                  [] (EntityManager.heap w)) as (Hl & _ & _ & Hnew & _).
    destruct (ObjectPool.expand_loop Heap.createEntityObject _ []
                (EntityManager.heap w)) as [fl h] eqn:Hloop.
    simpl in *. subst fl.
    destruct (Z.to_nat (ObjectPool.growth (EntityManager._entityPool w)))
      as [|m] eqn:Hm; [lia|].
    rewrite seq_S, last_snoc, removelast_last. simpl.
    destruct (Hnew m ltac:(lia)) as (e & He & _).
    rewrite He. simpl. by eexists.
  - rewrite pool_aquire_nonempty by done.
    destruct (exists_last (l := ObjectPool.freeList
                                  (EntityManager._entityPool w)))
      as (fl & r & Hsplit); [done|].
    destruct (Hpool r) as [_ (e & He & _)].
    { rewrite Hsplit. apply elem_of_app. right. by left. }
    rewrite Hsplit, last_snoc. simpl.
    unfold EntityManager.get in He. rewrite He. simpl. by eexists.
Qed.

Lemma createEntity_attaches w ref w' :
  EntityManager.createEntity w = Some (ref, w') ->
  (exists e, EntityManager.get ref w' = Some e /\ Entity._world e = true) /\
  EntityManager.trace w'
  = EntityManager.trace w
    ++ [(fire FromEntityManager EntityManager.ENTITY_CREATED (EntityArg ref)
           Undefined (EntityManager.eventDispatcher w)).2].
Proof.
  unfold EntityManager.createEntity.
  destruct (ObjectPool.aquire _ _ _) as [[item pool] h].
  destruct item as [r|]; simpl; [|done].
  destruct (Heap.objects h !! r) as [entity|]; simpl; [|done].
  intros [= <- <-]. split; [|done].
  eexists. split; [|shelve].
  unfold EntityManager.get. simpl. apply lookup_insert_eq.
  Unshelve. done.
Qed.

(** X20: in a properly used manager [createEntity] always returns.
    The entity it returns was not live; it is appended to the live
    vector, belongs to this world, has no component and is listed by no
    query; the queries are as they were, and [ENTITY_CREATED] is
    dispatched once, with the entity. *)
Theorem X20_createEntity_gives_a_blank_entity (w : EntityManager.t) :
  proper w ->
  exists ref w' e,
    EntityManager.createEntity w = Some (ref, w') /\
    (ref ∉ EntityManager._entities w) /\
    EntityManager._entities w' = EntityManager._entities w ++ [ref] /\
    EntityManager._queries w' = EntityManager._queries w /\
    EntityManager.get ref w' = Some e /\
    Entity._world e = true /\ Entity._ComponentTypes e = [] /\
    (forall q, q ∈ EntityManager._queries w' -> ref ∉ Query.entities q) /\
    EntityManager.trace w'
    = EntityManager.trace w
      ++ [(fire FromEntityManager EntityManager.ENTITY_CREATED
             (EntityArg ref) Undefined (EntityManager.eventDispatcher w)).2].
Proof.
  intros Hp. pose proof (proper_healthy w Hp) as Hh.
  destruct (createEntity_succeeds w (proj1 Hh)) as [[ref w'] Hc].
  pose proof (createEntity_healthy _ _ _ Hh Hc) as [Hc' _].
  destruct (createEntity_effect _ _ _ (proj1 Hh) Hc)
    as (Hqs & Hents & _ & _ & (e & He & Hte & Hqe) & Hfresh & _).
  destruct (createEntity_attaches _ _ _ Hc) as [(e' & He' & Hw) Htr].
  rewrite He in He'. injection He' as <-.
  exists ref, w', e. split; [done|]. split; [done|]. split; [done|].
  split; [done|]. split; [done|]. split; [done|]. split; [done|].
  split; [|done].
  intros q Hq Hin.
  destruct (backedges _ (proj1 (hc_indexed _ Hc')) ref e He) as [_ Hlk].
  rewrite Forall_forall in Hlk. apply (Hlk q Hq) in Hin.
  rewrite Hqe in Hin. by apply elem_of_nil in Hin.
Qed.

Lemma X20_witness :
  exists ref w' e,
    EntityManager.createEntity manager_with_position = Some (ref, w') /\
    EntityManager.get ref w' = Some e /\
    Entity._ComponentTypes e = [].
Proof.
  destruct (X20_createEntity_gives_a_blank_entity manager_with_position
              manager_with_position_proper)
    as (ref & w' & e & Hc & _ & _ & _ & He & _ & Ht & _).
  by exists ref, w', e.
Defined.

Lemma removeEntities_loop_pool_mono refs : forall w w' r,
  EntityManager.removeEntities_loop refs w = Some w' ->
  r ∈ ObjectPool.freeList (EntityManager._entityPool w) ->
  r ∈ ObjectPool.freeList (EntityManager._entityPool w').
Proof.
  induction refs as [|ref rest IH]; intros w w' r; simpl.
  - by intros [= <-].
  - destruct (EntityManager._removeEntitySync ref _ false w) as [w1|] eqn:H1;
      simpl; [|done].
    intros Hloop Hr. apply (IH w1 w' r Hloop).
    apply removeEntitySync_release in H1
      as (w3 & e3 & [= <-] & _ & _ & _ & _ & _ & Hfl & _).
    rewrite Hfl. simpl. apply elem_of_push. by left.
Qed.

Lemma removeEntities_loop_released refs : forall w w',
  healthy_core w -> NoDup refs ->
  (forall r, r ∈ refs ->
     r ∈ EntityManager._entities w /\
     exists e, EntityManager.get r w = Some e /\
               Entity._ComponentTypes e = []) ->
  EntityManager.removeEntities_loop refs w = Some w' ->
  (forall r, r ∈ EntityManager._entities w' <->
             r ∈ EntityManager._entities w /\ r ∉ refs) /\
  (forall r, r ∈ refs ->
     r ∈ ObjectPool.freeList (EntityManager._entityPool w')).
Proof.
  induction refs as [|ref rest IH]; intros w w' Hc Hnd Hd; simpl.
  - intros [= <-]. split.
    + intros r. split; [|by intros [? _]]. intros Hr. split; [done|].
      apply not_elem_of_nil.
    + intros r Hr. by apply elem_of_nil in Hr.
  - destruct (EntityManager._removeEntitySync ref
                (indexOf (EntityManager._entities w) ref) false w)
      as [w1|] eqn:Hsync; simpl; [|done].
    intros Hloop. apply NoDup_cons in Hnd as [Hfresh Hnd].
    destruct (Hd ref) as [Hlive (e & He & Hte)]; [by left|].
    destruct (release_healthy_core _ _ _ _ Hc Hlive He Hte Hsync)
      as (Hc1 & Hents & Hget & _).
    destruct (IH w1 w' Hc1 Hnd) as [Hmem Hpool]; [|done|].
    { intros r Hr. destruct (Hd r) as [Hl (e1 & He1 & Ht1)]; [by right|].
      assert (r <> ref) as Hne by (intros ->; done).
      split; [rewrite Hents; by apply elem_of_remove_first_ne|].
      exists e1. by rewrite Hget. }
    split.
    + intros r. rewrite Hmem, Hents, not_elem_of_cons.
      destruct (decide (r = ref)) as [->|Hne].
      * split; [|by intros [_ [? _]]]. intros [Hin _].
        by apply (not_elem_of_remove_first _ _ (hc_live_nodup _ Hc)) in Hin.
      * rewrite elem_of_remove_first_ne by done.
        split; [intros [? ?]; done|intros [? [_ ?]]; done].
    + intros r Hr. apply elem_of_cons in Hr as [->|Hr]; [|by apply Hpool].
      apply (removeEntities_loop_pool_mono _ _ _ _ Hloop).
      apply removeEntitySync_release in Hsync
        as (w3 & e3 & [= <-] & _ & _ & _ & _ & _ & Hfl & _).
      rewrite Hfl. apply elem_of_push. by right.
Qed.

Lemma processDeferredRemoval_released w w' :
  healthy w ->
  EntityManager.processDeferredRemoval w = Some w' ->
  (forall r, r ∈ EntityManager._entities w' <->
             r ∈ EntityManager._entities w /\
             r ∉ EntityManager.entitiesToRemove w) /\
  (forall r, r ∈ EntityManager.entitiesToRemove w ->
     r ∈ ObjectPool.freeList (EntityManager._entityPool w')).
Proof.
  intros [Hc [Hdn Hd]]. unfold EntityManager.processDeferredRemoval.
  destruct (EntityManager.removeEntities_loop
              (EntityManager.entitiesToRemove w) w) as [w1|] eqn:Hl1;
    simpl; [|done].
  destruct (removeEntities_loop_released _ _ _ Hc Hdn Hd Hl1)
    as [Hmem Hpool].
  destruct (EntityManager.releaseComponents_loop _ _) as [w3|] eqn:Hl2;
    simpl; [|done].
  intros [= <-]. simpl.
  apply releaseComponents_loop_same_index in Hl2
    as [(_ & Hents & Hp & _) _].
  simpl in Hents, Hp. rewrite Hents, Hp. done.
Qed.

Lemma removeEntity_deferred_pending ref w w' :
  EntityManager.removeEntity ref false w = Some w' ->
  ref ∈ EntityManager.entitiesToRemove w'.
Proof.
  unfold EntityManager.removeEntity.
  destruct (indexOf (EntityManager._entities w) ref =? -1); [done|].
  destruct (EntityManager.onEntityRemoved ref _) as [wa|]; simpl; [|done].
  destruct (EntityManager.entityRemoveAllComponents ref false wa)
    as [wb|]; simpl; [|done].
  intros [= <-]. simpl. apply elem_of_push. by right.
Qed.

(** X21: in a properly used manager a deferred [removeEntity] takes
    the entity out of every query at once and leaves it without
    component, but keeps it in the live vector; the commit
    ([processDeferredRemoval]) then takes it, and exactly the entities
    scheduled like it, out of the live vector and puts it on the free
    list of the entity pool. *)
Theorem X21_deferred_removeEntity_then_commit (ref : EntityRef)
    (w w1 : EntityManager.t) :
  proper w ->
  ref ∉ EntityManager.entitiesToRemove w ->
  EntityManager.removeEntity ref false w = Some w1 ->
  ref ∈ EntityManager._entities w1 /\
  (forall q, q ∈ EntityManager._queries w1 -> ref ∉ Query.entities q) /\
  (exists e1, EntityManager.get ref w1 = Some e1 /\
              Entity._ComponentTypes e1 = []) /\
  forall w2,
    EntityManager.processDeferredRemoval w1 = Some w2 ->
    (ref ∉ EntityManager._entities w2) /\
    ref ∈ ObjectPool.freeList (EntityManager._entityPool w2) /\
    forall r, r ∈ EntityManager._entities w2 <->
              r ∈ EntityManager._entities w1 /\
              r ∉ EntityManager.entitiesToRemove w1.
Proof.
  intros Hp Hnot Hrm. pose proof (proper_healthy w Hp) as Hh.
  pose proof (removeEntity_healthy _ _ _ _ Hh Hnot Hrm) as Hh1.
  pose proof (removeEntity_deferred_pending _ _ _ Hrm) as Hpend.
  destruct Hh1 as [Hc1 [Hdn1 Hd1]].
  destruct (Hd1 ref Hpend) as [Hlive (e1 & He1 & Ht1)].
  split; [done|]. split; [|split; [by exists e1|]].
  - intros q Hq.
    destruct (hc_indexed _ Hc1) as [Hst Hmem].
    pose proof (bare_entity_unlisted w1 ref e1 Hst (proj1 (Hmem ref Hlive))
                  He1 Ht1) as Hun.
    rewrite Forall_forall in Hun. by destruct (Hun q Hq).
  - intros w2 Hcommit.
    destruct (processDeferredRemoval_released w1 w2
                (conj Hc1 (conj Hdn1 Hd1)) Hcommit) as [Hmem Hpool].
    split; [|split; [by apply Hpool|exact Hmem]].
    rewrite Hmem. by intros [_ ?].
Qed.

Lemma X21_witness :
  exists w1 w2,
    EntityManager.removeEntity 0%nat false manager_with_position = Some w1 /\
    EntityManager.processDeferredRemoval w1 = Some w2 /\
    (0%nat ∉ EntityManager._entities w2) /\
    0%nat ∈ ObjectPool.freeList (EntityManager._entityPool w2).
Proof.
  destruct (EntityManager.removeEntity 0%nat false manager_with_position)
    as [w1|] eqn:H1; [|vm_compute in H1; discriminate].
  destruct (X21_deferred_removeEntity_then_commit 0%nat
              manager_with_position w1 manager_with_position_proper)
    as (_ & _ & _ & Hc); [vm_compute; apply not_elem_of_nil|done|].
  destruct (EntityManager.processDeferredRemoval w1) as [w2|] eqn:H2.
  - exists w1, w2. split; [done|]. split; [done|].
    destruct (Hc w2 eq_refl) as (Ha & Hb & _). done.
  - vm_compute in H1. injection H1 as <-. vm_compute in H2. discriminate.
Defined.

(** ** The population of a manager *)

Lemma same_population_refl w : same_population w w.
Proof. by repeat split. Qed.

Lemma same_population_trans w1 w2 w3 :
  same_population w1 w2 -> same_population w2 w3 -> same_population w1 w3.
Proof.
  intros (H1 & H2 & H3) (H1' & H2' & H3'). repeat split; congruence.
Qed.

Lemma run_queries_population body ref w w' :
  EntityManager.run_queries body ref w = Some w' -> same_population w w'.
Proof.
  intros Hrun. by apply run_queries_effect in Hrun as (e & He & ->).
Qed.

Lemma entityAddComponent_population ref C w w' :
  EntityManager.entityAddComponent ref C w = Some w' -> same_population w w'.
Proof.
  unfold EntityManager.entityAddComponent.
  destruct (EntityManager.get ref w) as [e0|] eqn:He0; simpl; [|done].
  destruct (negb (indexOf (Entity._ComponentTypes e0) C =? -1)).
  { intros [= <-]. apply same_population_refl. }
  destruct (ComponentManager.getComponentsPool C
              (EntityManager.componentsManager w)) as [pool cm].
  destruct (pool_aquire pool (EntityManager.nextInstance w))
    as [[component pool'] n].
  destruct (EntityManager.onEntityComponentAdded ref C _) as [w2|] eqn:Hrun;
    simpl; [|done].
  intros [= <-]. by apply run_queries_population in Hrun.
Qed.

Lemma entityRemoveComponent_population ref C force w w' :
  EntityManager.entityRemoveComponent ref C force w = Some w' ->
  same_population w w'.
Proof.
  unfold EntityManager.entityRemoveComponent.
  destruct (EntityManager.get ref w) as [e0|] eqn:He0; simpl; [|done].
  destruct (indexOf (Entity._ComponentTypes e0) C =? -1).
  { intros [= <-]. apply same_population_refl. }
  destruct force.
  - unfold EntityManager._entityRemoveComponentSync.
    destruct (EntityManager.get ref _) as [e1|]; simpl; [|done].
    destruct (ComponentManager._componentPool _ !! componentPropertyName C)
      as [pool|]; simpl; [|done].
    destruct (pool_release _ pool _) as [pool'|]; simpl; [|done].
    intros Hrun. by apply run_queries_population in Hrun.
  - simpl. intros Hrun. apply run_queries_population in Hrun.
    eapply same_population_trans; [|exact Hrun].
    by destruct (Z.of_nat (length (Entity._ComponentTypesToRemove e0)) =? 0).
Qed.

Lemma removeAll_loop_population n ref force : forall w w',
  EntityManager.removeAll_loop n ref force w = Some w' ->
  same_population w w'.
Proof.
  induction n as [|n IH]; intros w w'; simpl.
  - intros [= <-]. apply same_population_refl.
  - destruct (EntityManager.get ref w) as [e|]; simpl; [|done].
    destruct (Entity._ComponentTypes e !! n) as [C|]; [|apply IH].
    destruct (EntityManager.entityRemoveComponent ref C force w)
      as [w1|] eqn:H1; simpl; [|done].
    intros H. eapply same_population_trans; [|by apply IH].
    by eapply entityRemoveComponent_population.
Qed.

Lemma entityRemoveAllComponents_population ref force w w' :
  EntityManager.entityRemoveAllComponents ref force w = Some w' ->
  same_population w w'.
Proof.
  unfold EntityManager.entityRemoveAllComponents.
  destruct (EntityManager.get ref w) as [e|]; simpl; [|done].
  apply removeAll_loop_population.
Qed.

Lemma removeEntity_deferred_lists ref w w' :
  EntityManager.removeEntity ref false w = Some w' ->
  ref ∈ EntityManager._entities w /\
  EntityManager._entities w' = EntityManager._entities w /\
  EntityManager.entitiesToRemove w'
  = EntityManager.entitiesToRemove w ++ [ref] /\
  EntityManager._entityPool w' = EntityManager._entityPool w.
Proof.
  unfold EntityManager.removeEntity.
  destruct (Z.eqb_spec (indexOf (EntityManager._entities w) ref) (-1))
    as [|Hidx]; [done|].
  destruct (EntityManager.onEntityRemoved ref _) as [w2|] eqn:H2;
    simpl; [|done].
  destruct (EntityManager.entityRemoveAllComponents ref false w2)
    as [w3|] eqn:H3; simpl; [|done].
  intros [= <-]. simpl.
  apply run_queries_population in H2 as (He2 & Ht2 & Hp2).
  apply entityRemoveAllComponents_population in H3 as (He3 & Ht3 & Hp3).
  simpl in *. rewrite He3, He2, Ht3, Ht2, Hp3, Hp2.
  split; [|done].
  destruct (decide (ref ∈ EntityManager._entities w)); [done|].
  exfalso. by apply Hidx, indexOf_absent.
Qed.

Lemma removeEntitySync_lists ref index w w' :
  EntityManager._removeEntitySync ref index false w = Some w' ->
  EntityManager._entities w' = splice1 (EntityManager._entities w) index /\
  ObjectPool.freeList (EntityManager._entityPool w')
  = ObjectPool.freeList (EntityManager._entityPool w) ++ [ref] /\
  ObjectPool.count (EntityManager._entityPool w')
  = ObjectPool.count (EntityManager._entityPool w).
Proof.
  intros H. apply removeEntitySync_release in H
    as (w3 & e3 & [= <-] & _ & _ & _ & _ & Hents & Hfl & Hcnt & _).
  by rewrite Hents, Hfl, Hcnt.
Qed.

(** X22: the same entity removed twice (deferred) before the commit
    is scheduled twice.  The commit releases it, and then, not finding
    it in the live vector any more, takes the last entity of the live
    vector out in its place ([splice(-1, 1)]): that entity is no longer
    live although nothing removed it. *)
Theorem X22_second_remove_drops_the_last_entity (ref : EntityRef)
    (w w1 w2 w3 : EntityManager.t) :
  NoDup (EntityManager._entities w) ->
  EntityManager.entitiesToRemove w = [] ->
  EntityManager.removeEntity ref false w = Some w1 ->
  EntityManager.removeEntity ref false w1 = Some w2 ->
  EntityManager.processDeferredRemoval w2 = Some w3 ->
  EntityManager._entities w3
  = removelast (remove_first ref (EntityManager._entities w)) /\
  ObjectPool.freeList (EntityManager._entityPool w3)
  = ObjectPool.freeList (EntityManager._entityPool w) ++ [ref; ref].
Proof.
  intros Hnd Hnone H1 H2 H3.
  apply removeEntity_deferred_lists in H1 as (Hlive & He1 & Ht1 & Hp1).
  apply removeEntity_deferred_lists in H2 as (_ & He2 & Ht2 & Hp2).
  rewrite Ht1, Hnone in Ht2. simpl in Ht2.
  revert H3. unfold EntityManager.processDeferredRemoval.
  rewrite Ht2. simpl.
  destruct (EntityManager._removeEntitySync ref _ false w2) as [wa|] eqn:Ha;
    simpl; [|done].
  destruct (EntityManager._removeEntitySync ref _ false wa) as [wb|] eqn:Hb;
    simpl; [|done].
  destruct (EntityManager.releaseComponents_loop _ _) as [wc|] eqn:Hc;
    simpl; [|done].
  intros [= <-]. simpl.
  apply releaseComponents_loop_same_index in Hc as [(_ & Hec & Hpc & _) _].
  simpl in Hec, Hpc. rewrite Hec, Hpc.
  apply removeEntitySync_lists in Ha as (Hea & Hfa & _).
  apply removeEntitySync_lists in Hb as (Heb & Hfb & _).
  rewrite He2, He1 in Hea. rewrite splice1_indexOf in Hea by done.
  assert (indexOf (EntityManager._entities wa) ref = -1) as Hgone.
  { apply indexOf_absent. rewrite Hea. by apply not_elem_of_remove_first. }
  rewrite Hgone, splice1_minus_one, Hea in Heb.
  split; [done|].
  rewrite Hfb, Hfa, Hp2, Hp1. by rewrite <- app_assoc.
Qed.

Lemma X22_witness :
  exists w1 w2 w3,
    EntityManager.removeEntity 0%nat false manager_with_two = Some w1 /\
    EntityManager.removeEntity 0%nat false w1 = Some w2 /\
    EntityManager.processDeferredRemoval w2 = Some w3 /\
    EntityManager._entities manager_with_two = [0%nat; 1%nat] /\
    EntityManager._entities w3 = [].
Proof.
  destruct (EntityManager.removeEntity 0%nat false manager_with_two)
    as [w1|] eqn:H1; [|vm_compute in H1; discriminate].
  destruct (EntityManager.removeEntity 0%nat false w1) as [w2|] eqn:H2;
    [|vm_compute in H1; injection H1 as <-; vm_compute in H2; discriminate].
  destruct (EntityManager.processDeferredRemoval w2) as [w3|] eqn:H3;
    [|vm_compute in H1; injection H1 as <-;
      vm_compute in H2; injection H2 as <-;
      vm_compute in H3; discriminate].
  exists w1, w2, w3. split; [done|]. split; [done|]. split; [done|].
  split; [vm_compute; reflexivity|].
  destruct (X22_second_remove_drops_the_last_entity 0%nat manager_with_two
              w1 w2 w3) as [He _]; try done.
  vm_compute. apply NoDup_cons. split; [|apply NoDup_singleton].
  intros H. apply list_elem_of_singleton in H. discriminate.
Defined.

(** ** The entity pool and the live vector *)

Lemma same_population_accounted w w' :
  same_population w w' -> accounted w -> accounted w'.
Proof.
  intros (He & _ & Hp). unfold accounted, EntityManager_count.
  by rewrite He, Hp.
Qed.

Lemma getQuery_population spec w k w' :
  EntityManager.getQuery spec w = Some (k, w') -> same_population w w'.
Proof.
  unfold EntityManager.getQuery, EntityManager.Query_new.
  destruct (EntityManager.find_query _ _) as [q|].
  { intros [= _ <-]. apply same_population_refl. }
  destruct (Query.split_terms spec) as [cs ns].
  destruct (Z.of_nat (length cs) =? 0); [done|]. simpl.
  destruct (EntityManager.seed _ _ _) as [q h'].
  by intros [= _ <-].
Qed.

Lemma createEntity_accounted w ref w' :
  0 <= ObjectPool.count (EntityManager._entityPool w) ->
  EntityManager.createEntity w = Some (ref, w') ->
  accounted w -> accounted w'.
Proof.
  intros Hc. unfold EntityManager.createEntity, accounted, EntityManager_count.
  pose proof (pool_aquire_used Heap.createEntityObject
                (EntityManager._entityPool w) (EntityManager.heap w) Hc)
    as [_ Hused].
  destruct (ObjectPool.aquire Heap.createEntityObject _ _)
    as [[item pool] h].
  simpl in Hused.
  destruct item as [r|]; simpl; [|done].
  destruct (Heap.objects h !! r) as [e|]; simpl; [|done].
  intros [= <- <-]. simpl. intros Ha.
  unfold push. rewrite Hused, Ha, length_app. simpl. lia.
Qed.

Lemma removeEntitySync_accounted ref b w w' :
  ref ∈ EntityManager._entities w ->
  EntityManager._removeEntitySync ref
    (indexOf (EntityManager._entities w) ref) b w = Some w' ->
  accounted w -> accounted w'.
Proof.
  intros Hlive Hsync. unfold accounted, EntityManager_count.
  apply removeEntitySync_release in Hsync
    as (w3 & e3 & H3 & _ & _ & _ & _ & Hents & Hfl & Hcnt & _).
  assert (EntityManager._entities w3
          = remove_first ref (EntityManager._entities w) /\
          EntityManager._entityPool w3 = EntityManager._entityPool w)
    as [He3 Hp3].
  { destruct b.
    - apply entityRemoveAllComponents_population in H3 as (He & _ & Hp).
      simpl in He, Hp. by rewrite He, Hp, splice1_indexOf.
    - injection H3 as <-. simpl. by rewrite splice1_indexOf. }
  unfold ObjectPool.totalUsed.
  rewrite Hcnt, Hfl, Hents, He3, Hp3.
  unfold push. rewrite length_app, length_remove_first by done.
  assert (0 < length (EntityManager._entities w))%nat.
  { destruct (EntityManager._entities w); [by apply elem_of_nil in Hlive|].
    simpl. lia. }
  simpl. lia.
Qed.

Lemma removeEntities_loop_accounted refs : forall w w',
  healthy_core w -> NoDup refs ->
  (forall r, r ∈ refs ->
     r ∈ EntityManager._entities w /\
     exists e, EntityManager.get r w = Some e /\
               Entity._ComponentTypes e = []) ->
  EntityManager.removeEntities_loop refs w = Some w' ->
  accounted w -> accounted w'.
Proof.
  induction refs as [|ref rest IH]; intros w w' Hc Hnd Hd; simpl.
  - by intros [= <-].
  - destruct (EntityManager._removeEntitySync ref
                (indexOf (EntityManager._entities w) ref) false w)
      as [w1|] eqn:Hsync; simpl; [|done].
    intros Hloop Ha. apply NoDup_cons in Hnd as [Hfresh Hnd].
    destruct (Hd ref) as [Hlive (e & He & Hte)]; [by left|].
    destruct (release_healthy_core _ _ _ _ Hc Hlive He Hte Hsync)
      as (Hc1 & Hents & Hget & _).
    apply (IH w1 w' Hc1 Hnd); [|done|].
    + intros r Hr. destruct (Hd r) as [Hl (e1 & He1 & Ht1)]; [by right|].
      assert (r <> ref) as Hne by (intros ->; done).
      split; [rewrite Hents; by apply elem_of_remove_first_ne|].
      exists e1. by rewrite Hget.
    + by apply (removeEntitySync_accounted ref false w).
Qed.

Lemma processDeferredRemoval_accounted w w' :
  healthy w ->
  EntityManager.processDeferredRemoval w = Some w' ->
  accounted w -> accounted w'.
Proof.
  intros [Hc [Hdn Hd]]. unfold EntityManager.processDeferredRemoval.
  destruct (EntityManager.removeEntities_loop
              (EntityManager.entitiesToRemove w) w) as [w1|] eqn:Hl1;
    simpl; [|done].
  destruct (EntityManager.releaseComponents_loop _ _) as [w3|] eqn:Hl2;
    simpl; [|done].
  intros [= <-] Ha.
  apply (removeEntities_loop_accounted _ _ _ Hc Hdn Hd Hl1) in Ha.
  apply releaseComponents_loop_same_index in Hl2
    as [(_ & Hents & Hp & _) _].
  revert Ha. unfold accounted, EntityManager_count. simpl in *.
  by rewrite Hents, Hp.
Qed.

Lemma removeEntity_accounted ref force w w' :
  EntityManager.removeEntity ref force w = Some w' ->
  accounted w -> accounted w'.
Proof.
  destruct force.
  - unfold EntityManager.removeEntity.
    destruct (Z.eqb_spec (indexOf (EntityManager._entities w) ref) (-1))
      as [|Hidx]; [done|].
    destruct (EntityManager.onEntityRemoved ref _) as [w2|] eqn:H2;
      simpl; [|done].
    apply run_queries_population in H2 as (He2 & _ & Hp2). simpl in He2, Hp2.
    intros Hsync Ha. rewrite <- He2 in Hsync.
    apply (removeEntitySync_accounted ref true w2 w'); [| done |].
    + rewrite He2. destruct (decide (ref ∈ EntityManager._entities w));
        [done|]. exfalso. by apply Hidx, indexOf_absent.
    + revert Ha. unfold accounted, EntityManager_count. by rewrite He2, Hp2.
  - intros H. apply removeEntity_deferred_lists in H as (_ & He & _ & Hp).
    unfold accounted, EntityManager_count. by rewrite He, Hp.
Qed.

(** X23: in every state reached by proper use of the manager, the
    number of objects the entity pool has handed out ([totalUsed()]:
    [count] minus the length of the free list) is the number of live
    entities ([count()]). *)
Theorem X23_entity_pool_used_is_count (w : EntityManager.t) :
  proper w ->
  ObjectPool.totalUsed (EntityManager._entityPool w) = EntityManager_count w.
Proof.
  intros Hp. change (accounted w).
  induction Hp as [cm|w w' Hp IH Hq|w ref w' Hp IH Hc|spec w k w' Hp IH Hg
                   |ref C w w' Hp IH Hl Hn Ha|ref C force w w' Hp IH Hl Hr
                   |ref force w w' Hp IH Hl Hr|ref force w w' Hp IH Hn Hr
                   |w w' Hp IH Hc].
  - reflexivity.
  - destruct Hq as (_ & _ & He & Hpool & _).
    revert IH. unfold accounted, EntityManager_count. by rewrite He, Hpool.
  - apply (createEntity_accounted w ref w'); [|done|done].
    apply hc_count, proper_healthy, Hp.
  - apply (same_population_accounted w); [|done].
    by apply getQuery_population in Hg.
  - apply (same_population_accounted w); [|done].
    by apply entityAddComponent_population in Ha.
  - apply (same_population_accounted w); [|done].
    by apply entityRemoveComponent_population in Hr.
  - apply (same_population_accounted w); [|done].
    by apply entityRemoveAllComponents_population in Hr.
  - by apply (removeEntity_accounted ref force w w').
  - apply (processDeferredRemoval_accounted w w'); [|done|done].
    by apply proper_healthy.
Qed.

Lemma X23_witness :
  ObjectPool.totalUsed (EntityManager._entityPool manager_with_position) = 1.
Proof.
  exact (X23_entity_pool_used_is_count manager_with_position
           manager_with_position_proper).
Defined.

(** ** Systems *)







Lemma bind_queries_throws cfg name qc : forall s em n,
  (name, qc) ∈ cfg -> System.components qc = [] ->
  System.bind_queries cfg s em n = None.
Proof.
  induction cfg as [|[qname qc0] cfg IH]; intros s em n Hin Hnone.
  - by apply elem_of_nil in Hin.
  - simpl. apply elem_of_cons in Hin as [[= <- <-]|Hin].
    + by rewrite Hnone.
    + destruct (Z.of_nat (length (System.components qc0)) =? 0); [done|].
      destruct (EntityManager.queryComponents _ _) as [[key em1]|];
        simpl; [|done].
      destruct (EntityManager.find_query _ _) as [q|]; simpl; [|done].
      destruct (System.bind_events _ _ _) as [q' n1].
      by apply IH.
Qed.



(** The constructor of [System] throws when a query of the
    configuration has an empty [components]; [registerSystem] then
    registers nothing. *)
Lemma registerSystem_throws_without_components (C : System.Class)
    (attributes : option Z) (w : World.t) (name : string)
    (qc : System.QueryConfig) :
  (name, qc) ∈ System.config_queries C ->
  System.components qc = [] ->
  World.registerSystem C attributes w = None.
Proof.
  intros Hin Hnone. unfold World.registerSystem, World.System_new.
  by rewrite (bind_queries_throws _ name qc _ _ _ Hin Hnone).
Qed.


(** ** [removeAllEntities] *)

Lemma through_world_returns {R} ref (method : EntityManager.t -> option R)
    w r :
  EntityMethods.through_world ref method w = Some r -> method w = Some r.
Proof.
  unfold EntityMethods.through_world.
  destruct (EntityManager.get ref w) as [e|]; simpl; [|done].
  by destruct (Entity._world e).
Qed.

Lemma removeAllEntities_loop_schedules n : forall w w',
  proper w ->
  (n <= length (EntityManager._entities w))%nat ->
  (forall r, r ∈ take n (EntityManager._entities w) ->
     r ∉ EntityManager.entitiesToRemove w) ->
  removeAllEntities_loop n w = Some w' ->
  proper w' /\
  EntityManager._entities w' = EntityManager._entities w /\
  EntityManager.entitiesToRemove w'
  = EntityManager.entitiesToRemove w
    ++ reverse (take n (EntityManager._entities w)).
Proof.
  induction n as [|n IH]; intros w w' Hp Hn Hfree; simpl.
  - intros [= <-]. split; [done|]. split; [done|].
    by rewrite take_0, app_nil_r.
  - destruct (EntityManager._entities w !! n) as [ref|] eqn:Hi;
      simpl; [|done].
    destruct (EntityMethods.remove ref false w) as [w1|] eqn:Hr;
      simpl; [|done].
    intros Hloop. apply through_world_returns in Hr.
    pose proof (take_S_r _ _ _ Hi) as Htake.
    assert (proper w1) as Hp1.
    { apply (proper_removeEntity ref false w w1 Hp); [|done].
      apply Hfree. rewrite Htake. apply elem_of_app. right. by left. }
    pose proof (hc_live_nodup _ (proj1 (proper_healthy _ Hp))) as Hnd.
    apply removeEntity_deferred_lists in Hr as (_ & He & Ht & _).
    destruct (IH w1 w' Hp1) as (Hp' & He' & Ht'); [rewrite He; lia| |done|].
    + intros r Hin. rewrite He in Hin. rewrite Ht.
      intros Hr. apply elem_of_app in Hr as [Hr|Hr].
      * revert Hr. apply Hfree. rewrite Htake. apply elem_of_app. by left.
      * apply list_elem_of_singleton in Hr as ->.
        apply list_elem_of_lookup in Hin as [j Hj].
        apply lookup_take_Some in Hj as [Hj Hlt].
        pose proof (NoDup_lookup _ _ _ _ Hnd Hj Hi). lia.
    + split; [done|]. split; [by rewrite He', He|].
      rewrite Ht', Ht, He, Htake, reverse_app. simpl.
      by rewrite <- app_assoc.
Qed.

(** X26: on a properly used manager without pending removals,
    [removeAllEntities] removes nothing yet: it schedules every live
    entity, the last one first; the commit that follows leaves no
    entity live. *)
Theorem X26_removeAllEntities_then_commit (w w1 w2 : EntityManager.t) :
  proper w ->
  EntityManager.entitiesToRemove w = [] ->
  removeAllEntities w = Some w1 ->
  EntityManager.processDeferredRemoval w1 = Some w2 ->
  EntityManager._entities w1 = EntityManager._entities w /\
  EntityManager.entitiesToRemove w1 = reverse (EntityManager._entities w) /\
  EntityManager._entities w2 = [].
Proof.
  intros Hp Hnone Hall Hcommit. unfold removeAllEntities in Hall.
  destruct (removeAllEntities_loop_schedules
              (length (EntityManager._entities w)) w w1 Hp (le_n _))
    as (Hp1 & He & Ht); [|done|].
  { intros r _. rewrite Hnone. apply not_elem_of_nil. }
  rewrite Hnone, firstn_all in Ht. simpl in Ht.
  split; [done|]. split; [done|].
  destruct (processDeferredRemoval_released _ _ (proper_healthy _ Hp1)
              Hcommit) as [Hmem _].
  destruct (EntityManager._entities w2) as [|r rest] eqn:H2; [done|].
  exfalso. destruct (Hmem r) as [[Hlive Hnot] _]; [by left|].
  apply Hnot. rewrite Ht. apply elem_of_reverse. by rewrite <- He.
Qed.

Lemma X26_witness :
  exists w1 w2,
    removeAllEntities manager_with_position = Some w1 /\
    EntityManager.processDeferredRemoval w1 = Some w2 /\
    EntityManager._entities manager_with_position = [0%nat] /\
    EntityManager._entities w2 = [].
Proof.
  destruct (removeAllEntities manager_with_position) as [w1|] eqn:H1;
    [|vm_compute in H1; discriminate].
  destruct (EntityManager.processDeferredRemoval w1) as [w2|] eqn:H2;
    [|vm_compute in H1; injection H1 as <-; vm_compute in H2; discriminate].
  exists w1, w2. split; [done|]. split; [done|].
  split; [vm_compute; reflexivity|].
  destruct (X26_removeAllEntities_then_commit manager_with_position w1 w2
              manager_with_position_proper) as (_ & _ & He); try done.
Defined.

(** ** Schemas and [createComponent] *)

Lemma simple_not_Array t : simple_type t -> t <> Types.Array.
Proof.
  intros [->|[->| ->]] H;
    apply (f_equal TypeDefinition.isSimpleType) in H; discriminate.
Qed.

Lemma inferType_ready v t :
  inferType v = Some t ->
  standard_type t /\ (t = Types.Array -> sliceable v = true).
Proof.
  destruct v; simpl; intros [= <-].
  - split; [by left|]. intros H. by apply simple_not_Array in H; [|left].
  - split; [by left|]. intros H. by apply simple_not_Array in H; [|left].
  - split; [by right; left|].
    intros H. by apply simple_not_Array in H; [|right; left].
  - split; [by right; right; left|].
    intros H. by apply simple_not_Array in H; [|right; right].
  - split; [by right; right; right|done].
Qed.

Lemma allocated_prefix h h' v :
  allocated h v -> h `prefix_of` h' -> allocated h' v.
Proof.
  intros Ha [k ->] a Hv. destruct (Ha a Hv) as [l Hl].
  exists l. by apply lookup_app_l_Some.
Qed.

Lemma ready_step attr key h :
  ready attr -> allocated h (Attribute.default attr) ->
  exists t create reset v h1,
    Attribute.type attr = Some t /\
    TypeDefinition.isType t = true /\
    TypeDefinition.create t = Some create /\
    TypeDefinition.reset t = Some reset /\
    create (Attribute.default attr) h = Some (v, h1) /\
    (forall this, reset this key (Attribute.default attr) h
                  = Some (JsObject.set key v this, h1)) /\
    h `prefix_of` h1.
Proof.
  intros (t & Ht & Hstd & Hs) Ha. exists t.
  destruct Hstd as [->|[->|[->| ->]]].
  - destruct (Attribute.default attr);
      (eexists _, _, _, _; split; [exact Ht|];
       do 3 (split; [reflexivity|]); simpl; by repeat split).
  - destruct (Attribute.default attr);
      (eexists _, _, _, _; split; [exact Ht|];
       do 3 (split; [reflexivity|]); simpl; by repeat split).
  - destruct (Attribute.default attr);
      (eexists _, _, _, _; split; [exact Ht|];
       do 3 (split; [reflexivity|]); simpl; by repeat split).
  - specialize (Hs eq_refl).
    destruct (Attribute.default attr) as [| | | | | s|a|] eqn:Hd;
      try discriminate.
    + eexists _, _, _, _. split; [exact Ht|]. do 3 (split; [reflexivity|]).
      simpl. by repeat split.
    + destruct (Ha a eq_refl) as [l Hl].
      eexists _, _, (VArray (length h)), (h ++ [l]).
      split; [exact Ht|]. do 3 (split; [reflexivity|]). simpl. rewrite Hl. simpl.
      split; [done|]. split; [done|]. by exists [l].
Qed.

Lemma infer_default attr :
  Attribute.default (SchemaComponent.infer attr) = Attribute.default attr.
Proof.
  unfold SchemaComponent.infer. by destruct (Attribute.type attr).
Qed.

Lemma infer_idem attr :
  SchemaComponent.infer (SchemaComponent.infer attr)
  = SchemaComponent.infer attr.
Proof.
  unfold SchemaComponent.infer.
  destruct (Attribute.type attr) as [t|] eqn:Ht; [by rewrite Ht|].
  simpl. by destruct (inferType (Attribute.default attr)).
Qed.

Lemma infer_all_idem schema :
  SchemaComponent.infer_all (SchemaComponent.infer_all schema)
  = SchemaComponent.infer_all schema.
Proof.
  induction schema as [|[key attr] schema IH]; simpl; [done|].
  by rewrite infer_idem, IH.
Qed.

Lemma infer_all_keys schema :
  (SchemaComponent.infer_all schema).*1 = schema.*1.
Proof.
  induction schema as [|[key attr] schema IH]; [done|].
  simpl. f_equal. exact IH.
Qed.

Lemma infer_typed attr :
  is_Some (Attribute.type (SchemaComponent.infer attr)) <-> typed attr.
Proof.
  unfold SchemaComponent.infer, typed.
  destruct (Attribute.type attr) as [t|] eqn:Ht.
  - rewrite Ht. split; [by left|by eexists].
  - simpl. split; [by right|]. intros [[? [=]]|H]; done.
Qed.

Lemma infer_ready attr :
  standard attr -> typed attr ->
  (Attribute.type attr = Some Types.Array ->
   sliceable (Attribute.default attr) = true) ->
  ready (SchemaComponent.infer attr).
Proof.
  unfold standard, typed, SchemaComponent.infer. intros Hstd Hty Hs.
  destruct (Attribute.type attr) as [t|] eqn:Ht.
  - exists t. split; [done|]. split; [by apply Hstd|].
    intros ->. by apply Hs.
  - destruct Hty as [[? [=]]|[t Hi]].
    exists t. simpl. split; [done|]. by apply inferType_ready.
Qed.

Lemma known_types_spec (schema : Schema) :
  forallb (fun '(_, attr) => bool_decide (is_Some (Attribute.type attr)))
    schema = true
  <-> Forall (fun e => is_Some (Attribute.type e.2)) schema.
Proof.
  induction schema as [|[key attr] schema IH]; simpl.
  - split; [constructor|done].
  - rewrite andb_true_iff, Forall_cons, IH, bool_decide_eq_true. done.
Qed.

Lemma known_types_inferred (schema : Schema) :
  Forall (fun e => is_Some (Attribute.type e.2))
    (SchemaComponent.infer_all schema)
  <-> Forall (fun e => typed e.2) schema.
Proof.
  induction schema as [|[key attr] schema IH]; simpl.
  - split; constructor.
  - rewrite !Forall_cons, IH. simpl. by rewrite infer_typed.
Qed.

Lemma JsObject_get_set key v o : JsObject.get (JsObject.set key v o) key = v.
Proof. unfold JsObject.get, JsObject.set. simpl. by rewrite lookup_insert_eq. Qed.

Lemma install_resets_ready schema : forall p h,
  Forall (fun e => ready e.2) schema ->
  Forall (fun e => allocated h (Attribute.default e.2)) schema ->
  exists p' h',
    SchemaComponent.install_resets schema p h = Some (p', h') /\
    h `prefix_of` h'.
Proof.
  induction schema as [|[key attr] schema IH]; intros p h Hr Ha; simpl.
  - by exists p, h.
  - apply Forall_cons in Hr as [Hr Hrs]. apply Forall_cons in Ha as [Ha Has].
    destruct (ready_step attr key h Hr Ha)
      as (t & fc & fr & v & h1 & Ht & _ & _ & Hfr & _ & Hreset & Hpre).
    rewrite Ht. simpl. rewrite Hfr, Hreset. simpl.
    destruct (IH (JsObject.set key v
                    (JsObject.set key (Attribute.default attr) p)) h1 Hrs)
      as (p' & h' & Hi & Hpre').
    { eapply Forall_impl; [exact Has|]. intros e He.
      exact (allocated_prefix _ _ _ He Hpre). }
    exists p', h'. split; [done|]. by etrans.
Qed.

Lemma install_resets_throws schema key attr : forall p h,
  (key, attr) ∈ schema ->
  Attribute.type attr = Some Types.Array ->
  sliceable (Attribute.default attr) = false ->
  SchemaComponent.install_resets schema p h = None.
Proof.
  induction schema as [|[key0 attr0] schema IH]; intros p h Hin Ht Hs.
  - by apply elem_of_nil in Hin.
  - simpl. apply elem_of_cons in Hin as [[= <- <-]|Hin].
    + rewrite Ht. simpl. rewrite JsObject_get_set.
      by destruct (Attribute.default attr).
    + destruct (Attribute.type attr0) as [t|]; simpl; [|done].
      destruct (match TypeDefinition.reset t with
                | Some reset => _ | None => _ end) as [[p2 h2]|];
        simpl; [|done].
      by apply IH.
Qed.

Lemma elem_of_infer_all key attr schema :
  (key, attr) ∈ schema ->
  (key, SchemaComponent.infer attr) ∈ SchemaComponent.infer_all schema.
Proof.
  intros Hin. unfold SchemaComponent.infer_all.
  apply list_elem_of_fmap. by exists (key, attr).
Qed.

Lemma standard_sliceable_dec (schema : Schema) :
  Forall (fun e => standard e.2) schema ->
  Exists (fun e => Attribute.type e.2 = Some Types.Array /\
                   sliceable (Attribute.default e.2) = false) schema \/
  Forall (fun e => Attribute.type e.2 = Some Types.Array ->
                   sliceable (Attribute.default e.2) = true) schema.
Proof.
  induction schema as [|[key attr] schema IH]; intros Hstd.
  - right. constructor.
  - apply Forall_cons in Hstd as [Hs Hstd].
    destruct (IH Hstd) as [Hbad|Hgood]; [left; by right|].
    destruct (sliceable (Attribute.default attr)) eqn:Hsl.
    { right. by constructor. }
    simpl in Hs. unfold standard in Hs.
    destruct (Attribute.type attr) as [t|] eqn:Ht.
    + destruct (Hs t eq_refl) as [->|[->|[->| ->]]].
      * right. constructor; [|done]. simpl. rewrite Ht. by intros [=].
      * right. constructor; [|done]. simpl. rewrite Ht. by intros [=].
      * right. constructor; [|done]. simpl. rewrite Ht. by intros [=].
      * left. left. simpl. by rewrite Ht.
    + right. constructor; [|done]. simpl. by rewrite Ht.
Qed.

(** X27: on a schema of standard types whose array defaults exist,
    [createComponent] throws exactly when every attribute has a type,
    given or inferred from its default, and some attribute is given
    [Types.Array] with a default that is neither an array nor a string,
    in particular none at all: the loop that resets the prototype then
    calls [slice] on the default or sets the length of [undefined]. *)
Theorem X27_createComponent_throws_iff (schema : Schema)
    (name : option string) (h : ArrayStore) :
  Forall (fun e => standard e.2) schema ->
  Forall (fun e => allocated h (Attribute.default e.2)) schema ->
  createComponent schema name h = None <->
  Forall (fun e => typed e.2) schema /\
  Exists (fun e => Attribute.type e.2 = Some Types.Array /\
                   sliceable (Attribute.default e.2) = false) schema.
Proof.
  intros Hstd Ha. unfold createComponent. rewrite infer_all_idem.
  destruct (forallb _ (SchemaComponent.infer_all schema)) eqn:Hk; simpl.
  - apply known_types_spec, known_types_inferred in Hk.
    split.
    + intros Hnone. split; [done|].
      destruct (standard_sliceable_dec schema Hstd) as [|Hgood];
        [done|exfalso].
      destruct (install_resets_ready (SchemaComponent.infer_all schema)
                  {| JsObject.own := ∅; JsObject.proto := ∅ |} h)
        as (p' & h' & Hi & _).
      * unfold SchemaComponent.infer_all. apply Forall_fmap.
        apply Forall_forall. intros [key attr] Hin. simpl.
        rewrite Forall_forall in Hstd, Hk, Hgood.
        apply infer_ready; [exact (Hstd _ Hin)|exact (Hk _ Hin)|].
        exact (Hgood _ Hin).
      * unfold SchemaComponent.infer_all. apply Forall_fmap.
        apply Forall_forall. intros [key attr] Hin. simpl.
        rewrite infer_default. rewrite Forall_forall in Ha.
        exact (Ha _ Hin).
      * by rewrite Hi in Hnone.
    + intros [_ Hbad]. apply Exists_exists in Hbad
        as ([key attr] & Hin & Ht & Hs). simpl in Ht, Hs.
      rewrite (install_resets_throws _ key (SchemaComponent.infer attr));
        [done|by apply elem_of_infer_all| |by rewrite infer_default].
      unfold SchemaComponent.infer. by rewrite Ht.
  - split; [done|]. intros [Hty _].
    apply known_types_inferred, known_types_spec in Hty. congruence.
Qed.

Lemma X27_witness :
  createComponent
    [("size"%string, Attribute.mk None (VNumber 1));
     ("list"%string, Attribute.mk (Some Types.Array) VUndefined)]
    None [] = None.
Proof.
  apply X27_createComponent_throws_iff.
  - apply Forall_cons. split; [by intros t [=]|].
    apply Forall_cons. split; [|by apply Forall_nil].
    intros t [= <-]. by right; right; right.
  - apply Forall_cons. split; [by intros a [=]|].
    apply Forall_cons. split; [by intros a [=]|by apply Forall_nil].
  - split.
    + apply Forall_cons. split; [right; by eexists|].
      apply Forall_cons. split; [left; by eexists|by apply Forall_nil].
    + apply Exists_cons. right. apply Exists_cons. left. by split.
Defined.

Lemma infer_standard attr : standard attr -> standard (SchemaComponent.infer attr).
Proof.
  unfold standard, SchemaComponent.infer. intros Hstd.
  destruct (Attribute.type attr) as [t|] eqn:Ht.
  - by rewrite Ht.
  - simpl. intros t Hi. by apply inferType_ready in Hi as [? _].
Qed.

Lemma install_resets_Some_ready (schema : Schema) p h p' h' :
  Forall (fun e => standard e.2) schema ->
  Forall (fun e => is_Some (Attribute.type e.2)) schema ->
  SchemaComponent.install_resets schema p h = Some (p', h') ->
  Forall (fun e => ready e.2) schema.
Proof.
  intros Hstd Hk Hi.
  destruct (standard_sliceable_dec schema Hstd) as [Hbad|Hgood].
  - apply Exists_exists in Hbad as ([key attr] & Hin & Ht & Hs).
    by rewrite (install_resets_throws _ key attr p h Hin Ht Hs) in Hi.
  - apply Forall_forall. intros [key attr] Hin.
    rewrite Forall_forall in Hstd, Hk, Hgood.
    destruct (Hk _ Hin) as [t Ht]. simpl in *.
    exists t. split; [done|]. split; [by apply (Hstd _ Hin)|].
    intros ->. by apply (Hgood _ Hin).
Qed.

Lemma createComponent_ready schema name h0 C h1 :
  createComponent schema name h0 = Some (C, h1) ->
  SchemaComponent.knownTypes C = true ->
  Forall (fun e => standard e.2) schema ->
  SchemaComponent.schema C = SchemaComponent.infer_all schema /\
  Forall (fun e => ready e.2) (SchemaComponent.schema C).
Proof.
  unfold createComponent. rewrite infer_all_idem.
  destruct (forallb _ (SchemaComponent.infer_all schema)) eqn:Hk; simpl.
  - destruct (SchemaComponent.install_resets _ _ _) as [[p h']|] eqn:Hi;
      simpl; [|done].
    intros [= <- <-] _ Hstd. simpl. split; [done|].
    apply (install_resets_Some_ready _ _ _ _ _ ) with (3 := Hi).
    + unfold SchemaComponent.infer_all. apply Forall_fmap.
      eapply Forall_impl; [exact Hstd|]. intros [key attr] He. simpl in *.
      by apply infer_standard.
    + by apply known_types_spec.
  - by intros [= <- <-] [=].
Qed.

Lemma reset_matches_construct schema : forall this fresh0 h,
  Forall (fun e => ready e.2) schema ->
  Forall (fun e => allocated h (Attribute.default e.2)) schema ->
  exists fresh this' h',
    SchemaComponent.construct schema fresh0 h = Some (fresh, h') /\
    SchemaComponent.reset_loop schema this h = Some (this', h') /\
    h `prefix_of` h' /\
    (forall key, key ∈ schema.*1 ->
       JsObject.own this' !! key = JsObject.own fresh !! key) /\
    (forall key, key ∉ schema.*1 ->
       JsObject.own this' !! key = JsObject.own this !! key /\
       JsObject.own fresh !! key = JsObject.own fresh0 !! key).
Proof.
  induction schema as [|[k attr] schema IH]; intros this fresh0 h Hr Ha.
  - exists fresh0, this, h. simpl. split; [done|]. split; [done|].
    split; [done|]. split; [|done]. intros key Hk. by apply elem_of_nil in Hk.
  - apply Forall_cons in Hr as [Hr Hrs]. apply Forall_cons in Ha as [Ha Has].
    destruct (ready_step attr k h Hr Ha)
      as (t & fc & fr & v & h1 & Ht & Hist & Hfc & Hfr & Hcreate & Hreset
          & Hpre).
    simpl. rewrite Ht. simpl. rewrite Hist, Hfc, Hfr. simpl.
    rewrite Hcreate, Hreset. simpl.
    destruct (IH (JsObject.set k v this) (JsObject.set k v fresh0) h1 Hrs)
      as (fresh & this' & h' & Hc & Hl & Hpre' & Hin & Hout).
    { eapply Forall_impl; [exact Has|]. intros e He.
      exact (allocated_prefix _ _ _ He Hpre). }
    exists fresh, this', h'. split; [done|]. split; [done|].
    split; [by etrans|]. split.
    + intros key Hk. destruct (decide (key ∈ schema.*1)) as [|Hnot];
        [by apply Hin|].
      apply elem_of_cons in Hk as [->|Hk]; [|done].
      destruct (Hout k Hnot) as [-> ->]. simpl.
      by rewrite !lookup_insert_eq.
    + intros key Hk. apply not_elem_of_cons in Hk as [Hne Hk].
      destruct (Hout key Hk) as [-> ->]. simpl.
      by rewrite !lookup_insert_ne.
Qed.

(** X28: for a class that [createComponent] built from a schema of
    standard types, all of them known, [reset()] always returns and
    leaves in every attribute of the schema what the constructor puts
    there, whatever the instance held; it touches no other property of
    the instance and changes no array that existed before. *)
Theorem X28_reset_restores_a_fresh_instance (schema : Schema)
    (name : option string) (h0 h1 h : ArrayStore) (C : SchemaComponent.t) :
  createComponent schema name h0 = Some (C, h1) ->
  SchemaComponent.knownTypes C = true ->
  Forall (fun e => standard e.2) schema ->
  Forall (fun e => allocated h (Attribute.default e.2)) schema ->
  exists fresh h',
    SchemaComponent.new C h = Some (fresh, h') /\
    h `prefix_of` h' /\
    forall this, exists this',
      SchemaComponent.reset C this h = Some (this', h') /\
      (forall key, key ∈ schema.*1 ->
         JsObject.own this' !! key = JsObject.own fresh !! key) /\
      (forall key, key ∉ schema.*1 ->
         JsObject.own this' !! key = JsObject.own this !! key).
Proof.
  intros Hc Hk Hstd Ha.
  destruct (createComponent_ready _ _ _ _ _ Hc Hk Hstd) as [Hs Hr].
  assert (Forall (fun e => allocated h (Attribute.default e.2))
            (SchemaComponent.schema C)) as Ha'.
  { rewrite Hs. unfold SchemaComponent.infer_all. apply Forall_fmap.
    eapply Forall_impl; [exact Ha|]. intros [key attr] He. simpl in *.
    by rewrite infer_default. }
  assert ((SchemaComponent.schema C).*1 = schema.*1) as Hkeys
    by (rewrite Hs; apply infer_all_keys).
  set (this0 := {| JsObject.own := ∅;
                   JsObject.proto := SchemaComponent.prototype C |}).
  destruct (reset_matches_construct _ this0 this0 h Hr Ha')
    as (fresh & _ & h' & Hnew & _ & Hpre & _).
  exists fresh, h'. split; [exact Hnew|]. split; [done|].
  intros this.
  destruct (reset_matches_construct _ this this0 h Hr Ha')
    as (fresh' & this' & h'' & Hnew' & Hreset & _ & Hin & Hout).
  rewrite Hnew in Hnew'. injection Hnew' as <- <-.
  exists this'. unfold SchemaComponent.reset. rewrite Hk.
  split; [done|]. rewrite <- Hkeys. split; [done|].
  intros key Hkey. by apply Hout.
Qed.

Lemma X28_witness :
  exists this' h',
    SchemaComponent.reset Counter
      {| JsObject.own := {[ "x"%string := VString "junk" ]};
         JsObject.proto := SchemaComponent.prototype Counter |} [[]]
    = Some (this', h') /\
    JsObject.own this' !! "x"%string = Some (VNumber 5).
Proof.
  destruct (X28_reset_restores_a_fresh_instance Counter_schema
              (Some "Counter"%string) [[]] [[]; []] [[]] Counter)
    as (fresh & h' & Hnew & _ & Hreset).
  - vm_compute. reflexivity.
  - vm_compute. reflexivity.
  - apply Forall_cons. split; [by intros t [=]|].
    apply Forall_cons. split; [by intros t [=]|by apply Forall_nil].
  - apply Forall_cons. split; [by intros a [=]|].
    apply Forall_cons. split; [|by apply Forall_nil].
    intros a [= <-]. by eexists.
  - destruct (Hreset {| JsObject.own := {[ "x"%string := VString "junk" ]};
                        JsObject.proto := SchemaComponent.prototype Counter |})
      as (this' & Hr & Hin & _).
    exists this', h'. split; [exact Hr|].
    rewrite (Hin "x"%string) by (simpl; apply elem_of_cons; by left).
    vm_compute in Hnew. injection Hnew as <- _. vm_compute. reflexivity.
Defined.

Lemma simple_type_isSimpleType t :
  simple_type t -> TypeDefinition.isSimpleType t = true.
Proof. by intros [->|[->| ->]]. Qed.

Lemma copy_loop_simple schema src h : forall this,
  Forall (fun e => exists t, Attribute.type e.2 = Some t /\ simple_type t)
    schema ->
  exists this',
    SchemaComponent.copy_loop schema this src h = Some (this', h) /\
    JsObject.proto this' = JsObject.proto this /\
    forall key,
      JsObject.own this' !! key
      = if bool_decide (key ∈ schema.*1) && truthy (JsObject.get src key)
        then Some (JsObject.get src key)
        else JsObject.own this !! key.
Proof.
  induction schema as [|[k attr] schema IH]; intros this Hs.
  - exists this. split; [done|]. split; [done|]. intros key.
    change (([] : Schema).*1) with ([] : list string).
    rewrite (bool_decide_eq_false_2 (key ∈ [])); [done|].
    apply not_elem_of_nil.
  - apply Forall_cons in Hs as [(t & Ht & Hsimple) Hs]. simpl in Ht.
    simpl. destruct (truthy (JsObject.get src k)) eqn:Htruthy.
    + rewrite Ht. simpl. rewrite (simple_type_isSimpleType t Hsimple). simpl.
      destruct (IH (JsObject.set k (JsObject.get src k) this) Hs)
        as (this' & Hc & Hp & Hown).
      exists this'. split; [done|]. split; [done|]. intros key.
      change (list_fmap (string * Attribute.t)%type string fst schema)
        with (schema.*1).
      rewrite Hown. destruct (decide (key = k)) as [->|Hne].
      * rewrite (bool_decide_eq_true_2 (k ∈ k :: schema.*1))
          by (apply elem_of_cons; by left).
        rewrite Htruthy. simpl. rewrite lookup_insert_eq.
        by destruct (bool_decide (k ∈ schema.*1)).
      * simpl. rewrite lookup_insert_ne by done.
        destruct (decide (key ∈ schema.*1)) as [Hin|Hnot].
        -- rewrite !bool_decide_eq_true_2;
             [done|apply elem_of_cons; by right|done].
        -- rewrite !bool_decide_eq_false_2; [done| |done].
           intros Hin. by apply elem_of_cons in Hin as [?|?].
    + destruct (IH this Hs) as (this' & Hc & Hp & Hown).
      exists this'. split; [done|]. split; [done|]. intros key.
      change (list_fmap (string * Attribute.t)%type string fst schema)
        with (schema.*1).
      rewrite Hown. destruct (decide (key = k)) as [->|Hne].
      * rewrite Htruthy, !andb_false_r. done.
      * destruct (decide (key ∈ schema.*1)) as [Hin|Hnot].
        -- rewrite !bool_decide_eq_true_2;
             [done|apply elem_of_cons; by right|done].
        -- rewrite !bool_decide_eq_false_2; [done| |done].
           intros Hin. by apply elem_of_cons in Hin as [?|?].
Qed.

(** X29: [copy(src)] of a class whose attributes all have a simple
    standard type always returns, and takes over exactly the attributes
    of the schema that are truthy in [src]: where [src] holds [0],
    [NaN], the empty string, [false], [null] or nothing, the component
    keeps the value it had. *)
Theorem X29_copy_skips_falsy_values (C : SchemaComponent.t)
    (this src : JsObject.t) (h : ArrayStore) :
  SchemaComponent.knownTypes C = true ->
  Forall (fun e => exists t, Attribute.type e.2 = Some t /\ simple_type t)
    (SchemaComponent.schema C) ->
  exists this',
    SchemaComponent.copy C this src h = Some (this', h) /\
    forall key,
      JsObject.own this' !! key
      = if bool_decide (key ∈ (SchemaComponent.schema C).*1)
           && truthy (JsObject.get src key)
        then Some (JsObject.get src key)
        else JsObject.own this !! key.
Proof.
  intros Hk Hs. unfold SchemaComponent.copy. rewrite Hk.
  destruct (copy_loop_simple _ src h this Hs) as (this' & Hc & _ & Hown).
  by exists this'.
Qed.

Lemma X29_witness :
  exists this',
    SchemaComponent.copy Label
      {| JsObject.own := {[ "size"%string := VNumber 5 ]};
         JsObject.proto := SchemaComponent.prototype Label |}
      {| JsObject.own := {[ "size"%string := VNumber 0;
                            "text"%string := VString "hi" ]};
         JsObject.proto := ∅ |} []
    = Some (this', []) /\
    JsObject.own this' !! "size"%string = Some (VNumber 5) /\
    JsObject.own this' !! "text"%string = Some (VString "hi").
Proof.
  destruct (X29_copy_skips_falsy_values Label
              {| JsObject.own := {[ "size"%string := VNumber 5 ]};
                 JsObject.proto := SchemaComponent.prototype Label |}
              {| JsObject.own := {[ "size"%string := VNumber 0;
                                    "text"%string := VString "hi" ]};
                 JsObject.proto := ∅ |} [])
    as (this' & Hc & Hown).
  - vm_compute. reflexivity.
  - apply Forall_cons. split; [exists Types.Number; split; [done|by left]|].
    apply Forall_cons. split; [|by apply Forall_nil].
    exists Types.String. split; [done|]. by right; right.
  - exists this'. split; [exact Hc|]. rewrite !Hown.
    split; vm_compute; reflexivity.
Defined.




